(** * mpsim: a matrix product state simulator

    Shallow embedding of [mpsim/core.py] (class [MPS]) together with the part
    of the [tensornetwork] and [numpy] behaviour the class relies on, and the
    properties of the specification checked against it.

    Conventions.
    - Python integers are [Z]; list positions and tensor dimensions are [nat].
    - [complex64] scalars are idealised as exact complex numbers over the
      real numbers of the Standard Library; the Python [float] that decides
      how many singular values are kept is an IEEE binary64 number.
    - A Python exception is a value of [Error]; every method is a function
      from the state of the chain to a result and the state it leaves
      behind (an exception does not roll the state back). *)

From Stdlib Require Import String Ascii DecimalString DecimalNat.
From Stdlib Require Import List ZArith Lia Bool Arith.
From Stdlib Require Import Permutation QArith Qround Reals Lra.
From Stdlib Require Import SpecFloat.
Import ListNotations.

Close Scope R_scope.
Close Scope Q_scope.
Open Scope string_scope.
Open Scope list_scope.
Open Scope nat_scope.


(** ** Python built-ins *)

Module Py.

Local Open Scope Z_scope.

(** [range(n)] *)
Definition range (n : Z) : list Z := map Z.of_nat (seq 0 (Z.to_nat n)).

(** [i in range(n)] *)
Definition in_range (i n : Z) : bool := (0 <=? i) && (i <? n).

(** [range(lo, hi)] *)
Definition range2 (lo hi : Z) : list Z :=
  map (fun k => lo + Z.of_nat k) (seq 0 (Z.to_nat (hi - lo))).

(** [range(lo, hi, step)] for a step other than zero. *)
Definition range3 (lo hi step : Z) : list Z :=
  let count := if 0 <? step then (hi - lo + step - 1) / step
               else (lo - hi - step - 1) / (- step) in
  map (fun k => lo + Z.of_nat k * step) (seq 0 (Z.to_nat count)).

(** The position [l[i]] designates in a list of length [len]: negative
    indices count from the right; [None] is IndexError. *)
Definition position (len : nat) (i : Z) : option nat :=
  let n := Z.of_nat len in
  if (0 <=? i) && (i <? n) then Some (Z.to_nat i)
  else if (- n <=? i) && (i <? 0) then Some (Z.to_nat (n + i))
  else None.

(** [l[i]] *)
Definition getitem {A} (l : list A) (i : Z) : option A :=
  match position (length l) i with
  | Some p => nth_error l p
  | None => None
  end.

(** [l[i] = x] *)
Fixpoint set_nth {A} (l : list A) (i : nat) (x : A) : list A :=
  match l, i with
  | [], _ => []
  | _ :: t, O => x :: t
  | h :: t, S j => h :: set_nth t j x
  end.

Definition setitem {A} (l : list A) (i : Z) (x : A) : option (list A) :=
  option_map (fun p => set_nth l p x) (position (length l) i).

(** [l.remove(x)]: drops the first occurrence; [None] is ValueError. *)
Fixpoint list_remove (x : Z) (l : list Z) : option (list Z) :=
  match l with
  | [] => None
  | y :: t => if y =? x then Some t
              else option_map (cons y) (list_remove x t)
  end.

(** [l[:k]] *)
Definition slice_to {A} (l : list A) (k : Z) : list A :=
  if 0 <=? k then firstn (Z.to_nat k) l
  else firstn (Z.to_nat (Z.of_nat (length l) + k)) l.

(** [l[k:]] *)
Definition slice_from {A} (l : list A) (k : Z) : list A :=
  if 0 <=? k then skipn (Z.to_nat k) l
  else skipn (Z.to_nat (Z.of_nat (length l) + k)) l.

(** The integer nearest to a rational number, ties to even: [int(round(x))]
    for the float [x] whose exact value the rational number is. *)
Definition round_half_even (q : Q) : Z :=
  let fl := Qfloor q in
  let r := (q - inject_Z fl)%Q in
  match Qcompare r (1 # 2) with
  | Lt => fl
  | Gt => fl + 1
  | Eq => if Z.even fl then fl else fl + 1
  end.

(** *** Floats

    A Python [float] is an IEEE binary64 number; its arithmetic is the one
    of [SpecFloat] (round to nearest, ties to even) at the precision 53. *)
Definition prec : Z := 53.
Definition emax : Z := 1024.

(** The conversion of an integer to a float, correctly rounded; [None]
    stands for the OverflowError "int too large to convert to float". *)
Definition float_of_int (z : Z) : option spec_float :=
  match binary_normalize prec emax z 0 false with
  | S754_infinity _ => None
  | x => Some x
  end.

(** The float a rational number is read as: the quotient of its numerator
    and its denominator, correctly rounded. A rational number that is a
    binary64 number is read as itself. *)
Definition float_of_Q (q : Q) : spec_float :=
  SFdiv prec emax (binary_normalize prec emax (Qnum q) 0 false)
    (binary_normalize prec emax (Zpos (Qden q)) 0 false).

(** [x * y] on floats. *)
Definition float_mul (x y : spec_float) : spec_float := SFmul prec emax x y.

(** The exact value of a finite float. *)
Definition Q_of_float (x : spec_float) : Q :=
  match x with
  | S754_finite sign m e =>
      let v := match e with
               | Zneg p => Qmake (Zpos m) (Pos.pow 2 p)
               | _ => inject_Z (Zpos m * 2 ^ e)
               end in
      if sign then Qopp v else v
  | _ => 0%Q
  end.

End Py.

(** ** The ceilings of the bond dimensions ([MPS.__init__], lines 89-96) *)

Module Ceilings.

Local Open Scope Z_scope.

(** [[d ** (i + 1) for i in range(n // 2)]] *)
Definition half (nqudits d : Z) : list Z :=
  map (fun i => d ^ (i + 1)) (Py.range (nqudits / 2)).

(** The list stored in [_max_bond_dimensions]; [None] when [remove] raises. *)
Definition max_bond_dimensions (nqudits d : Z) : option (list Z) :=
  let l := half nqudits d in
  let l := l ++ rev l in
  if nqudits mod 2 =? 0
  then Py.list_remove (d ^ (nqudits / 2)) l
  else Some l.

(** The closed form of the specification. *)
Definition ceiling (nqudits d i : Z) : Z :=
  Z.min (d ^ (i + 1)) (d ^ (nqudits - i - 1)).

Definition ceilings (nqudits d : Z) : list Z :=
  map (ceiling nqudits d) (Py.range (nqudits - 1)).

Definition powers (d : Z) (m : nat) : list Z :=
  map (fun i => d ^ (Z.of_nat i + 1)) (seq 0 m).

End Ceilings.

(** ** Exceptions and results *)

(** One constructor per [raise] site of [core.py] (named after the error
    kinds of the specification; all of them are [ValueError] in the source),
    per exception raised inside [tensornetwork] or [numpy], and per built-in
    Python exception the methods can run into. *)
Inductive Error : Type :=
| InvalidShape          (* "Number of qudits must be greater than 2 ..." *)
| InvalidChain          (* "MPS is invalid." and its variants *)
| IndexOutOfRange       (* "Index should be less than ...", "... out of bounds" *)
| InvalidGateShape      (* "... gate must have ... free edges" *)
| IdenticalIndices      (* "Input indices cannot be identical." *)
| NonAdjacentSites      (* "Indices must be for adjacent tensors" *)
| InvalidIndexOrder     (* "IndexA must be less than IndexB.", "left_index should be less ..." *)
| ConflictingOptions    (* "Only one of (fraction, maxsvals) ..." *)
| InvalidOption         (* "Keyword fraction must be between 0 and 1" *)
| UnsupportedArity      (* "Only one-qudit and two-qudit gates ..." *)
| InvalidOperation      (* "Input MPS Operation is not valid." *)
| TnNotDangling         (* tn.connect on a connected edge *)
| TnDimensionMismatch   (* tn.connect on edges of unequal dimension *)
| TnNoSharedEdges       (* tn.contract_between without a shared edge *)
| TnNotConnected        (* tn.check_connected: "Non-connected graph" *)
| TnOutside             (* an edge leaves the chain: outside this model *)
| TnEdgeOrder           (* reorder_edges with a list that is not the node's edges *)
| NumpyReshape          (* np.reshape to a different size *)
| PyIndexError
| PyKeyError            (* set.pop() on an empty set *)
| PyValueError          (* int() of a non-numeral, str.split with an empty separator *)
| PyTypeError           (* a call with the wrong number of arguments *)
| PyOverflowError       (* an integer too large for a float, round() of an infinity *)
| PyAssertionError.

(** The exceptions raised inside [tensornetwork], by a list lookup, by
    [set.pop], by [int] or [str.split], and by an [assert]. *)
Definition library_errors : list Error :=
  [PyIndexError; TnNotDangling; TnDimensionMismatch; TnNoSharedEdges;
   TnOutside; PyValueError; TnEdgeOrder; PyKeyError; PyAssertionError].

Inductive Result (A : Type) : Type :=
| Ok (x : A)
| Err (e : Error).

Arguments Ok {A} x.
Arguments Err {A} e.

Definition rbind {A B} (r : Result A) (f : A -> Result B) : Result B :=
  match r with
  | Ok x => f x
  | Err e => Err e
  end.

Definition of_option {A} (e : Error) (o : option A) : Result A :=
  match o with
  | Some x => Ok x
  | None => Err e
  end.

Declare Scope result_scope.
Delimit Scope result_scope with result.
Notation "x <- c1 ;; c2" := (rbind c1 (fun x => c2))
  (at level 61, c1 at next level, right associativity) : result_scope.
Notation "' pat <- c1 ;; c2" := (rbind c1 (fun x => match x with pat => c2 end))
  (at level 61, pat pattern, c1 at next level, right associativity) : result_scope.

(** ** Complex scalars *)

Module Cx.

Local Open Scope R_scope.

Definition C : Type := (R * R)%type.

Definition C0 : C := (0, 0).
Definition C1 : C := (1, 0).
Definition of_R (x : R) : C := (x, 0).
Definition Re (z : C) : R := fst z.
Definition Im (z : C) : R := snd z.
Definition Cadd (a b : C) : C := (fst a + fst b, snd a + snd b).
Definition Cmul (a b : C) : C :=
  (fst a * fst b - snd a * snd b, fst a * snd b + snd a * fst b).
(** [np.conj] *)
Definition Cconj (a : C) : C := (fst a, - snd a).
(** [abs] of a complex number *)
Definition Cabs (a : C) : R := sqrt (fst a * fst a + snd a * snd a).

Definition Csum (l : list C) : C := fold_right Cadd C0 l.

End Cx.

(** ** Arrays ([numpy]) *)

(** An n-dimensional array is its shape and its entries, addressed by
    multi-indices.  The functions below are the index arithmetic of
    [np.tensordot], [np.transpose] and [np.reshape] (row-major order). *)
Module Np.

Import Cx.

Record Tensor : Type := mkTensor { shape : list nat; entry : list nat -> C }.

Definition size (sh : list nat) : nat := fold_right Nat.mul 1 sh.

(** All multi-indices of a shape, in row-major order. *)
Fixpoint all_indices (sh : list nat) : list (list nat) :=
  match sh with
  | [] => [[]]
  | d :: sh' => flat_map (fun i => map (cons i) (all_indices sh')) (seq 0 d)
  end.

Fixpoint ravel (sh idx : list nat) : nat :=
  match sh, idx with
  | _ :: sh', i :: idx' => i * size sh' + ravel sh' idx'
  | _, _ => 0
  end.

Fixpoint unravel (sh : list nat) (k : nat) : list nat :=
  match sh with
  | [] => []
  | _ :: sh' => (k / size sh') :: unravel sh' (k mod size sh')
  end.

Definition allzero (idx : list nat) : bool := forallb (Nat.eqb 0) idx.

(** The array with a one at the all-zero position and zeros elsewhere. *)
Definition delta (idx : list nat) : C := if allzero idx then C1 else C0.

Fixpoint index_of (p : nat) (l : list nat) : option nat :=
  match l with
  | [] => None
  | q :: t => if p =? q then Some 0 else option_map S (index_of p t)
  end.

(** The multi-index of an array whose axes [ax] (in this order) take the
    values [ks] and whose other axes take, in increasing order, the values
    [fr]; [ps] is the list of the axes still to fill. *)
Fixpoint assemble (ps ax ks fr : list nat) : list nat :=
  match ps with
  | [] => []
  | p :: ps' =>
      match index_of p ax with
      | Some m => nth m ks 0 :: assemble ps' ax ks fr
      | None => hd 0 fr :: assemble ps' ax ks (tl fr)
      end
  end.

(** Entries of [np.tensordot(a, b, [axa, axb])], where [a] and [b] have
    [ra] and [rb] axes, the contracted axes have dimensions [cdims] and
    [nfa] axes of [a] stay free. *)
Definition tensordot_entry (a b : list nat -> C) (ra rb : nat)
    (axa axb cdims : list nat) (nfa : nat) : list nat -> C :=
  fun idx =>
    Csum (map (fun ks =>
                 Cmul (a (assemble (seq 0 ra) axa ks (firstn nfa idx)))
                      (b (assemble (seq 0 rb) axb ks (skipn nfa idx))))
              (all_indices cdims)).

(** Entries of [np.transpose(a, perm)]. *)
Definition transpose_entry (a : list nat -> C) (ra : nat) (perm : list nat)
  : list nat -> C :=
  fun idx => a (assemble (seq 0 ra) perm idx []).

Definition conj (t : Tensor) : Tensor :=
  mkTensor (shape t) (fun idx => Cconj (entry t idx)).

(** [np.vdot(a, b)]: the inner product of two vectors, the first one
    conjugated. *)
Definition vdot (a b : list C) : C :=
  Csum (map (fun p => Cmul (Cconj (fst p)) (snd p)) (combine a b)).

(** [np.reshape(t, newshape=n)] for an integer [n], read out as the list of
    its entries; [-1] asks numpy to infer the length. *)
Definition reshape_vector (t : Tensor) (n : Z) : Result (list C) :=
  let sz := size (shape t) in
  if ((n =? -1) || (n =? Z.of_nat sz))%Z
  then Ok (map (fun k => entry t (unravel (shape t) k)) (seq 0 sz))
  else Err NumpyReshape.

End Np.

(** ** Tensor networks ([tensornetwork]) *)

(** Nodes are values: an edge is a label carried by the axes it joins.  A
    connected edge is [Bond id first], where [id] identifies the edge object
    and [first] tells whether this end is the edge's [node1]; a dangling edge
    is [Dangling tag], the tag telling the dangling edges of one node
    apart.  Every operation that creates an edge object is given its
    identifier. *)
Module Tn.

Import Cx Np.

Inductive Edge : Type :=
| Dangling (tag : nat)
| Bond (id : nat) (first : bool).

Definition Edge_eqb (e1 e2 : Edge) : bool :=
  match e1, e2 with
  | Dangling a, Dangling b => a =? b
  | Bond i r, Bond j q => (i =? j) && Bool.eqb r q
  | _, _ => false
  end.

Definition is_dangling (e : Edge) : bool :=
  match e with Dangling _ => true | Bond _ _ => false end.

Definition bond_id (e : Edge) : list nat :=
  match e with Dangling _ => [] | Bond i _ => [i] end.

(** A node: its name, its axes (each with the edge it carries and its
    dimension) and the entries of its tensor. *)
Record Node : Type := mkNode {
  name : string;
  axes : list (Edge * nat);
  value : list nat -> C
}.

Definition edges (n : Node) : list Edge := map fst (axes n).
Definition node_shape (n : Node) : list nat := map snd (axes n).
Definition tensor (n : Node) : Tensor := mkTensor (node_shape n) (value n).
Definition rank (n : Node) : nat := length (axes n).

(** [tn.Node(tensor, name=nm)]: one fresh dangling edge per axis. *)
Definition new_node (t : Tensor) (nm : string) : Node :=
  mkNode nm (combine (map Dangling (seq 0 (length (shape t)))) (shape t)) (entry t).

Definition default_name : string := "__unnamed_node__".

Definition set_name (n : Node) (nm : string) : Node :=
  mkNode nm (axes n) (value n).

(** [node.set_tensor(np.conj(node.tensor))] *)
Definition conj_node (n : Node) : Node :=
  mkNode (name n) (axes n) (fun idx => Cconj (value n idx)).

Definition bond_ids (n : Node) : list nat := flat_map bond_id (edges n).

Definition mem (i : nat) (l : list nat) : bool := existsb (Nat.eqb i) l.

(** [node.get_all_dangling()], in axis order. *)
Definition get_all_dangling (n : Node) : list Edge := filter is_dangling (edges n).

(** [node.get_all_nondangling()]: a set of edge objects, here their
    identifiers without repetition. *)
Definition get_all_nondangling (n : Node) : list nat := nodup Nat.eq_dec (bond_ids n).

(** [tn.get_shared_edges(n1, n2)] *)
Definition get_shared_edges (n1 n2 : Node) : list nat :=
  filter (fun i => mem i (bond_ids n2)) (get_all_nondangling n1).

(** Position of the first axis satisfying [f] ([length l] when none does). *)
Fixpoint find_axis (f : Edge -> bool) (l : list (Edge * nat)) : nat :=
  match l with
  | [] => 0
  | (e, _) :: t => if f e then 0 else S (find_axis f t)
  end.

Definition has_id (i : nat) (e : Edge) : bool :=
  match e with Dangling _ => false | Bond j _ => i =? j end.

Definition axis_of_bond (n : Node) (i : nat) : nat := find_axis (has_id i) (axes n).
Definition axis_of_edge (n : Node) (e : Edge) : nat := find_axis (Edge_eqb e) (axes n).
Definition dim_at (n : Node) (p : nat) : nat := nth p (node_shape n) 0.

(** Whether this node is [edge.node1] for the edge [i]. *)
Definition is_node1 (n : Node) (i : nat) : bool :=
  match nth_error (edges n) (axis_of_bond n i) with
  | Some (Bond _ r) => r
  | _ => false
  end.

Fixpoint set_edge (l : list (Edge * nat)) (p : nat) (e : Edge) : list (Edge * nat) :=
  match l, p with
  | [], _ => []
  | (_, d) :: t, O => (e, d) :: t
  | a :: t, S q => a :: set_edge t q e
  end.

(** [tn.connect(e1, e2)] for the dangling edges at axis [p1] of [n1] and at
    axis [p2] of another node [n2]; [c] identifies the new edge, whose
    [node1] is [n1]. *)
Definition connect (c : nat) (n1 : Node) (p1 : nat) (n2 : Node) (p2 : nat)
  : Result (Node * Node) :=
  match nth_error (axes n1) p1, nth_error (axes n2) p2 with
  | Some (e1, d1), Some (e2, d2) =>
      if is_dangling e1 && is_dangling e2 then
        if d1 =? d2 then
          Ok (mkNode (name n1) (set_edge (axes n1) p1 (Bond c true)) (value n1),
              mkNode (name n2) (set_edge (axes n2) p2 (Bond c false)) (value n2))
        else Err TnDimensionMismatch
      else Err TnNotDangling
  | _, _ => Err PyIndexError
  end.

Definition is_shared (ids : list nat) (e : Edge) : bool :=
  match e with Dangling _ => false | Bond i _ => mem i ids end.

(** The axes a contraction over the edges [ids] leaves. *)
Definition remaining (ids : list nat) (n : Node) : list (Edge * nat) :=
  filter (fun a => negb (is_shared ids (fst a))) (axes n).

(** Contraction of [n1] and [n2] over the edges [ids] they share:
    [np.tensordot] over the axes of these edges; the free axes of [n1], then
    those of [n2], keep their edges. *)
Definition contract_ids (ids : list nat) (n1 n2 : Node) (nm : string) : Node :=
  let ax1 := map (axis_of_bond n1) ids in
  let ax2 := map (axis_of_bond n2) ids in
  let cdims := map (dim_at n1) ax1 in
  mkNode nm (remaining ids n1 ++ remaining ids n2)
    (tensordot_entry (value n1) (value n2) (rank n1) (rank n2) ax1 ax2 cdims
       (length (remaining ids n1))).

(** [tn.contract(edge, name=nm)] for the edge [c] whose [node1] is [n1] and
    whose [node2] is [n2]. *)
Definition contract (c : nat) (n1 n2 : Node) (nm : string) : Node :=
  contract_ids [c] n1 n2 nm.

(** [tn.contract_between(n1, n2, name=nm)] *)
Definition contract_between (n1 n2 : Node) (nm : string) : Result Node :=
  match get_shared_edges n1 n2 with
  | [] => Err TnNoSharedEdges
  | ids => Ok (contract_ids ids n1 n2 nm)
  end.

(** One side of [tn.flatten_edges]: the axes of the edges [ids] are moved
    to the end and merged into one axis carrying [e]. *)
Definition flatten_side (ids : list nat) (e : Edge) (n : Node) : Node :=
  let ax := map (axis_of_bond n) ids in
  let cdims := map (dim_at n) ax in
  mkNode (name n) (remaining ids n ++ [(e, size cdims)])
    (fun idx => value n (assemble (seq 0 (rank n)) ax
                           (unravel cdims (last idx 0)) (removelast idx))).

(** [tn.flatten_edges_between(n1, n2)]: both nodes are modified in place and
    the new edge [c] (whose [node1] is taken to be [n1]) is returned;
    [None] when the nodes share no edge. *)
Definition flatten_edges_between (c : nat) (n1 n2 : Node)
  : option (Node * Node * nat) :=
  match get_shared_edges n1 n2 with
  | [] => None
  | ids => Some (flatten_side ids (Bond c true) n1,
                 flatten_side ids (Bond c false) n2, c)
  end.

(** The state a consumed node is left in ([fresh_edges]). *)
Definition fresh_edges (n : Node) : Node :=
  mkNode (name n) (combine (map Dangling (seq 0 (rank n))) (node_shape n)) (value n).

(** [tn.copy]: the same network on new edge objects, whose identifiers are
    the old ones moved by [off]; every connected edge is taken to join two
    nodes of the list, as the edges of a chain do. *)
Definition shift_edge (off : nat) (a : Edge * nat) : Edge * nat :=
  match a with
  | (Dangling t, d) => (Dangling t, d)
  | (Bond i r, d) => (Bond (off + i) r, d)
  end.

Definition copy_node (off : nat) (n : Node) : Node :=
  mkNode (name n) (map (shift_edge off) (axes n)) (value n).

Definition copy (off : nat) (nodes : list Node) : list Node :=
  map (copy_node off) nodes.

(** An identifier no edge of [nodes] has. *)
Definition fresh_id (nodes : list Node) : nat :=
  S (list_max (flat_map bond_ids nodes)).

(** *** Connectivity *)

Definition linked (a b : Node) : bool :=
  existsb (fun i => mem i (bond_ids b)) (bond_ids a).

(** One round of the search of [tn.reachable]: the positions (in [univ]) seen
    so far and those linked to one of them. *)
Definition step (univ : list Node) (seen : list nat) : list nat :=
  filter (fun j =>
            mem j seen ||
            existsb (fun i => match nth_error univ i, nth_error univ j with
                              | Some a, Some b => linked a b
                              | _, _ => false
                              end) seen)
         (seq 0 (length univ)).

Fixpoint reach (fuel : nat) (univ : list Node) (seen : list nat) : list nat :=
  match fuel with
  | O => seen
  | S f => reach f univ (step univ seen)
  end.

(** [tn.check_connected((univ[i], univ[j]))]: [false] when it raises.  The
    network searched is [univ]. *)
Definition check_connected (univ : list Node) (i j : nat) : bool :=
  mem j (reach (length univ) univ [i]).

(** *** Splitting a node by a singular value decomposition *)

Definition Matrix : Type := nat -> nat -> C.

(** What [np.linalg.svd(a, full_matrices=False)] returns for an [m] by [n]
    matrix: [u] ([m] by [min m n]), the singular values and [vh]. *)
Definition SvdKernel : Type := nat -> nat -> Matrix -> Matrix * (nat -> R) * Matrix.

Record Split : Type := mkSplit {
  split_u : Node;
  split_s : Node;
  split_vh : Node;
  split_truncated : list C
}.

Definition is_permutation (r : nat) (l : list nat) : bool :=
  (length l =? r) && forallb (fun p => mem p l) (seq 0 r).

(** [tn.split_node_full_svd(node, left_edges, right_edges,
    max_singular_values)]; [c1] and [c2] identify the edges from [u] to [s]
    and from [s] to [vh]. *)
Definition split_node_full_svd (svd : SvdKernel) (c1 c2 : nat) (n : Node)
    (left_edges right_edges : list Edge) (max_singular_values : option Z)
  : Result Split :=
  let lpos := map (axis_of_edge n) left_edges in
  let rpos := map (axis_of_edge n) right_edges in
  if is_permutation (rank n) (lpos ++ rpos) then
    let ldims := map (dim_at n) lpos in
    let rdims := map (dim_at n) rpos in
    let a : Matrix := fun i j =>
      transpose_entry (value n) (rank n) (lpos ++ rpos)
        (unravel ldims i ++ unravel rdims j) in
    let '(u, s, vh) := svd (size ldims) (size rdims) a in
    let r := Nat.min (size ldims) (size rdims) in
    let k := match max_singular_values with
             | None => r
             | Some m => length (Py.slice_to (seq 0 r) m)
             end in
    Ok (mkSplit
          (mkNode default_name
             (map (fun p => nth p (axes n) (Dangling 0, 0)) lpos ++ [(Bond c1 true, k)])
             (fun idx => u (ravel ldims (removelast idx)) (last idx 0)))
          (mkNode default_name
             [(Bond c1 false, k); (Bond c2 true, k)]
             (fun idx => if nth 0 idx 0 =? nth 1 idx 0
                         then of_R (s (nth 0 idx 0)) else C0))
          (mkNode default_name
             ((Bond c2 false, k) :: map (fun p => nth p (axes n) (Dangling 0, 0)) rpos)
             (fun idx => vh (hd 0 idx) (ravel rdims (tl idx))))
          (map (fun i => of_R (s i)) (seq k (r - k))))
  else Err TnEdgeOrder.

End Tn.

(** ** Node names *)

Module Names.

(** [str(n)] for a natural number. *)
Definition str (n : nat) : string := NilEmpty.string_of_uint (Nat.to_uint n).

(** [sub in s] *)
Fixpoint contains (sub s : string) : bool :=
  String.prefix sub s ||
  match s with
  | EmptyString => false
  | String _ t => contains sub t
  end.

(** The last piece of [s.split(sep)], scanning [s] from the left: [skip]
    characters of a separator just found are still to be passed over and
    [cur] is the piece read since the last separator. *)
Fixpoint split_last_aux (sep s : string) (skip : nat) (cur : string) : string :=
  match s with
  | EmptyString => cur
  | String c t =>
      match skip with
      | S k => split_last_aux sep t k cur
      | O => if String.prefix sep s
             then split_last_aux sep t (String.length sep - 1) EmptyString
             else split_last_aux sep t 0 (cur ++ String c EmptyString)
      end
  end.

(** [s.split(sep)[-1]]; [None] is the ValueError of an empty separator. *)
Definition split_last (sep s : string) : option string :=
  match sep with
  | EmptyString => None
  | _ => Some (split_last_aux sep s 0 EmptyString)
  end.

(** [int(s)] on a non-empty string of decimal digits; [None] is ValueError
    (the other numerals [int] accepts do not occur in node names). *)
Definition int (s : string) : option nat :=
  match s with
  | EmptyString => None
  | _ => option_map Nat.of_uint (NilEmpty.uint_of_string s)
  end.

(** [int(name.split(prefix)[-1])] *)
Definition index_of_name (prefix nm : string) : Result nat :=
  match split_last prefix nm with
  | None => Err PyValueError
  | Some piece => of_option PyValueError (int piece)
  end.

End Names.

(** ** Gates ([mpsim/gates.py]) *)

Module Gates.

Import Cx Np Tn.
Local Open Scope R_scope.

(** [np.array(data)] of the given shape. *)
Definition of_list (sh : list nat) (data : list C) : Tensor :=
  mkTensor sh (fun idx => nth (ravel sh idx) data C0).

Definition _imatrix : Tensor := of_list [2; 2]%nat [C1; C0; C0; C1].

Definition _xmatrix : Tensor := of_list [2; 2]%nat [C0; C1; C1; C0].

Definition _ymatrix : Tensor := of_list [2; 2]%nat [C0; (0, -1); (0, 1); C0].

Definition _zmatrix : Tensor := of_list [2; 2]%nat [C1; C0; C0; of_R (-1)].

(** [1 / np.sqrt(2)] as an array of [complex64] holds it: the single
    precision number nearest to it, [11863283 / 2 ** 24] (0.70710677). *)
Definition _hentry : R := IZR 11863283 / IZR 16777216.

Definition _hmatrix : Tensor :=
  of_list [2; 2]%nat [of_R _hentry; of_R _hentry; of_R _hentry; of_R (- _hentry)].

Definition _cnot_matrix : Tensor :=
  of_list [2; 2; 2; 2]%nat
    [C1; C0; C0; C0;
     C0; C1; C0; C0;
     C0; C0; C0; C1;
     C0; C0; C1; C0].

Definition _swap_matrix : Tensor :=
  of_list [2; 2; 2; 2]%nat
    [C1; C0; C0; C0;
     C0; C0; C1; C0;
     C0; C1; C0; C0;
     C0; C0; C0; C1].

Definition igate : Node := new_node _imatrix "igate".
Definition xgate : Node := new_node _xmatrix "xgate".
Definition ygate : Node := new_node _ymatrix "ygate".
Definition zgate : Node := new_node _zmatrix "zmat".
Definition hgate : Node := new_node _hmatrix "hgate".
Definition cnot : Node := new_node _cnot_matrix "cnot".
Definition swap : Node := new_node _swap_matrix "swap".

(** A call [rgate(...)] with [arguments] positional arguments: [rgate] has
    the one parameter [seed], so Python refuses a call with more with a
    TypeError before the body runs. [drawn] stands for the node the body
    returns (a unitary drawn from numpy's global generator). *)
Definition rgate (drawn : Node) (arguments : nat) : Result Node :=
  if (arguments <=? 1)%nat then Ok drawn else Err PyTypeError.

End Gates.

(** ** The class [MPS] ([mpsim/core.py]) *)

Module Mps.

Import Cx Np Tn.
Local Open Scope Z_scope.

Record MPS : Type := mkMPS {
  _nqudits : Z;
  _qudit_dimension : Z;
  _prefix : string;
  _nodes : list Node;
  _max_bond_dimensions : list Z;
  _infidelities : list R;
  _fidelities : list R
}.

(** A method: from the state of the object to a result and the state the
    call leaves behind. *)
Definition M (A : Type) : Type := MPS -> Result A * MPS.

Definition ret {A} (x : A) : M A := fun s => (Ok x, s).
Definition raise {A} (e : Error) : M A := fun s => (Err e, s).
Definition lift {A} (r : Result A) : M A := fun s => (r, s).
Definition bind {A B} (m : M A) (f : A -> M B) : M B :=
  fun s => match m s with
           | (Ok x, s') => f x s'
           | (Err e, s') => (Err e, s')
           end.
Definition get : M MPS := fun s => (Ok s, s).
Definition set_nodes (l : list Node) : M unit :=
  fun s => (Ok tt, mkMPS (_nqudits s) (_qudit_dimension s) (_prefix s) l
                     (_max_bond_dimensions s) (_infidelities s) (_fidelities s)).
Definition append_infidelity (x : R) : M unit :=
  fun s => (Ok tt, mkMPS (_nqudits s) (_qudit_dimension s) (_prefix s) (_nodes s)
                     (_max_bond_dimensions s) (_infidelities s ++ [x]) (_fidelities s)).
Definition append_fidelity (x : R) : M unit :=
  fun s => (Ok tt, mkMPS (_nqudits s) (_qudit_dimension s) (_prefix s) (_nodes s)
                     (_max_bond_dimensions s) (_infidelities s) (_fidelities s ++ [x])).

Declare Scope mps_scope.
Delimit Scope mps_scope with mps.
Notation "x <- c1 ;; c2" := (bind c1 (fun x => c2))
  (at level 61, c1 at next level, right associativity) : mps_scope.
Notation "' pat <- c1 ;; c2" := (bind c1 (fun x => match x with pat => c2 end))
  (at level 61, pat pattern, c1 at next level, right associativity) : mps_scope.
Notation "c1 ;;; c2" := (bind c1 (fun _ => c2))
  (at level 61, right associativity) : mps_scope.

(** [for x in l: body(x)] *)
Fixpoint for_each {X} (l : list X) (body : X -> M unit) : M unit :=
  match l with
  | [] => ret tt
  | x :: t => bind (body x) (fun _ => for_each t body)
  end.

Fixpoint rfold {S X} (f : S -> X -> Result S) (l : list X) (s : S) : Result S :=
  match l with
  | [] => Ok s
  | x :: t => rbind (f s x) (rfold f t)
  end.

(** *** [__init__] *)

(** [np.array([[1.0], *[[0]] * (d - 1)])] and its rank-3 variant. *)
Definition zero_state (d : Z) (interior : bool) : Tensor :=
  let pd := S (Z.to_nat (d - 1)) in
  mkTensor (if interior then [pd; 1; 1]%nat else [pd; 1]%nat) delta.

(** [tn.connect(nodes[i].get_edge(p), nodes[j].get_edge(q))]; [c]
    identifies the new edge. *)
Definition connect_in (c : nat) (nodes : list Node) (i : Z) (p : nat) (j : Z) (q : nat)
  : Result (list Node) :=
  (pi <- of_option PyIndexError (Py.position (length nodes) i) ;;
   pj <- of_option PyIndexError (Py.position (length nodes) j) ;;
   ni <- of_option PyIndexError (nth_error nodes pi) ;;
   nj <- of_option PyIndexError (nth_error nodes pj) ;;
   ' (a, b) <- connect c ni p nj q ;;
   Ok (Py.set_nth (Py.set_nth nodes pi a) pj b))%result.

Definition site_name (prefix : string) (k : Z) : string :=
  String.append prefix (Names.str (Z.to_nat k)).

(** One round of the loop [for i in range(1, nqudits - 2)]; the state is the
    list of nodes and the number of the next edge to be created. *)
Definition connect_interior (st : list Node * nat) (i : Z) : Result (list Node * nat) :=
  (nodes <- connect_in (snd st) (fst st) i 2 (i + 1) 1 ;;
   Ok (nodes, S (snd st)))%result.

(** The edges of a new chain are numbered from one in the order of their
    creation. *)
Definition init (nqudits qudit_dimension : Z) (tensor_prefix : string) : Result MPS :=
  if nqudits <? 2 then Err InvalidShape else
  let interior :=
    map (fun x => new_node (zero_state qudit_dimension true)
                    (site_name tensor_prefix (x + 1)))
        (Py.range (nqudits - 2)) in
  let nodes :=
    new_node (zero_state qudit_dimension false) (site_name tensor_prefix 0)
    :: interior in
  let nodes :=
    nodes ++ [new_node (zero_state qudit_dimension false)
                (site_name tensor_prefix (nqudits - 1))] in
  (st <- rfold connect_interior (Py.range2 1 (nqudits - 2)) (nodes, 1%nat) ;;
   nodes <- (if nqudits <? 3 then connect_in (snd st) (fst st) 0 1 1 1
             else (nodes <- connect_in (snd st) (fst st) 0 1 1 1 ;;
                   connect_in (S (snd st)) nodes (-1) 1 (-2) 2)) ;;
   ceilings <- of_option PyValueError
                 (Ceilings.max_bond_dimensions nqudits qudit_dimension) ;;
   Ok (mkMPS nqudits qudit_dimension tensor_prefix nodes ceilings [] []))%result.

(** *** Queries *)

Definition is_valid (s : MPS) : bool :=
  let nodes := _nodes s in
  let n := length nodes in
  if (n <? 2)%nat then false
  else
    forallb
      (fun i =>
         match nth_error nodes i with
         | None => false
         | Some t =>
             (if (i =? 0)%nat || (i =? n - 1)%nat
              then (length (get_all_dangling t) =? 1)%nat
                   && (length (get_all_nondangling t) =? 1)%nat
              else (length (get_all_dangling t) =? 1)%nat
                   && (length (get_all_nondangling t) =? 2)%nat)
             && (if (i <? n - 1)%nat then check_connected nodes i (S i) else true)
         end)
      (seq 0 n).

(** [edge.dimension], the dimension at the edge's [node1]. *)
Definition edge_dimension (left right : Node) (i : nat) : nat :=
  if is_node1 left i then dim_at left (axis_of_bond left i)
  else dim_at right (axis_of_bond right i).

(** The last three lines of [get_bond_dimension_of], for the nodes at the
    positions [pl] and [pr] of the list. *)
Definition shared_dimension (nodes : list Node) (pl pr : nat) : Result nat :=
  (left <- of_option PyIndexError (nth_error nodes pl) ;;
   right <- of_option PyIndexError (nth_error nodes pr) ;;
   if negb (check_connected nodes pl pr) then Err TnNotConnected
   else match get_shared_edges left right with
        | [] => Err PyKeyError
        | i :: _ => Ok (edge_dimension left right i)
        end)%result.

Definition get_bond_dimension_of (index : Z) (s : MPS) : Result nat :=
  if negb (is_valid s) then Err InvalidChain
  else if index >=? _nqudits s then Err IndexOutOfRange
  else
    let nodes := _nodes s in
    (pl <- of_option PyIndexError (Py.position (length nodes) index) ;;
     pr <- of_option PyIndexError (Py.position (length nodes) (index + 1)) ;;
     shared_dimension nodes pl pr)%result.

Fixpoint rmap {X Y} (f : X -> Result Y) (l : list X) : Result (list Y) :=
  match l with
  | [] => Ok []
  | x :: t => (y <- f x ;; ys <- rmap f t ;; Ok (y :: ys))%result
  end.

Definition get_bond_dimensions (s : MPS) : Result (list nat) :=
  rmap (fun i => get_bond_dimension_of i s) (Py.range (_nqudits s - 1)).

Definition get_max_bond_dimension_of (index : Z) (s : MPS) : Result Z :=
  if index >=? _nqudits s then Err IndexOutOfRange
  else of_option PyIndexError (Py.getitem (_max_bond_dimensions s) index).

Definition get_max_bond_dimensions (s : MPS) : list Z := _max_bond_dimensions s.

(** [get_nodes(copy=True)]; the copies get identifiers from [off] on. *)
Definition get_nodes_copy (off : nat) (s : MPS) : list Node := copy off (_nodes s).

(** [get_node(i, copy)] *)
Definition get_node (i : Z) (copy : bool) (s : MPS) : Result Node :=
  let nodes := if copy then get_nodes_copy (fresh_id (_nodes s)) s else _nodes s in
  of_option PyIndexError (Py.getitem nodes i).

Definition wavefunction (s : MPS) : Result (list C) :=
  if negb (is_valid s) then Err InvalidChain
  else
    match get_nodes_copy (fresh_id (_nodes s)) s with
    | [] => Err PyIndexError
    | fin :: nodes =>
        (fin <- rfold (fun fin node => contract_between fin node default_name)
                      nodes fin ;;
         if forallb is_dangling (edges fin)
         then reshape_vector (tensor fin) (_qudit_dimension s ^ _nqudits s)
         else Err InvalidChain)%result
    end.

(** [a[i].get_all_dangling().pop()], as the axis of the edge: the dangling
    axis of the node, which in a valid chain has exactly one. *)
Definition pop_dangling (n : Node) : Result nat :=
  let p := find_axis is_dangling (axes n) in
  if (p <? rank n)%nat then Ok p else Err PyKeyError.

(** [get_free_edge_of(index, copy)]: the edge and its dimension. *)
Definition get_free_edge_of (index : Z) (copy : bool) (s : MPS) : Result (Edge * nat) :=
  (n <- get_node index copy s ;;
   p <- pop_dangling n ;;
   of_option PyIndexError (nth_error (axes n) p))%result.

(** The first loop of [norm]; the state is the two lists and the number of
    the next edge to be created. *)
Definition norm_connect (st : list Node * list Node * nat) (i : Z)
  : Result (list Node * list Node * nat) :=
  let '(a, b, c) := st in
  (pa <- of_option PyIndexError (Py.position (length a) i) ;;
   ai <- of_option PyIndexError (nth_error a pa) ;;
   ea <- pop_dangling ai ;;
   pb <- of_option PyIndexError (Py.position (length b) i) ;;
   bi <- of_option PyIndexError (nth_error b pb) ;;
   eb <- pop_dangling bi ;;
   ' (ai', bi') <- connect c ai ea bi eb ;;
   Ok (Py.set_nth a pa ai', Py.set_nth b pb bi', S c))%result.

(** The second loop of [norm]. *)
Definition norm_contract (b : list Node) (a : list Node) (i : Z)
  : Result (list Node) :=
  (ai <- of_option PyIndexError (Py.getitem a i) ;;
   bi <- of_option PyIndexError (Py.getitem b i) ;;
   mid <- contract_between ai bi default_name ;;
   anext <- of_option PyIndexError (Py.getitem a (i + 1)) ;;
   new <- contract_between mid anext default_name ;;
   of_option PyIndexError (Py.setitem a (i + 1) new))%result.

(** [np.isclose(x, 0.0)] with the default tolerances. *)
Definition isclose_zero (x : R) : bool :=
  if Rle_dec (Rabs x) (1 / 100000000)%R then true else false.

Definition norm (s : MPS) : Result R :=
  let off := fresh_id (_nodes s) in
  let a := get_nodes_copy off s in
  let b := get_nodes_copy (fresh_id (_nodes s ++ a)) s in
  let b := map conj_node b in
  (st <- rfold norm_connect (Py.range (_nqudits s)) (a, b, fresh_id (a ++ b)) ;;
   let b := snd (fst st) in
   a <- rfold (norm_contract b) (Py.range (_nqudits s - 1)) (fst (fst st)) ;;
   alast <- of_option PyIndexError (Py.getitem a (-1)) ;;
   blast <- of_option PyIndexError (Py.getitem b (-1)) ;;
   fin <- contract_between alast blast default_name ;;
   if negb (length (edges fin) =? 0)%nat then Err PyAssertionError
   else if negb (isclose_zero (Im (value fin []))) then Err PyAssertionError
   else Ok (Cabs (value fin [])))%result.

(** *** Gate application *)

(** The keyword arguments of the two-site methods; the float [fraction] is
    given by the rational number it is. *)
Record Kwargs : Type := mkKwargs {
  keep_left_canonical : option bool;
  fraction : option Q;
  maxsvals : option Z
}.

Definition no_kwargs : Kwargs := mkKwargs None None None.

(** [len(gate.get_all_dangling()) != k or len(gate.get_all_nondangling()) != 0],
    negated. *)
Definition gate_edges_ok (gate : Node) (k : nat) : bool :=
  (length (get_all_dangling gate) =? k)%nat
  && (length (get_all_nondangling gate) =? 0)%nat.

(** [list(node.get_all_dangling())[0]], as the axis of the edge. *)
Definition first_dangling (n : Node) : Result nat :=
  let p := find_axis is_dangling (axes n) in
  if (p <? rank n)%nat then Ok p else Err PyIndexError.

Definition node_at (index : Z) : M (nat * Node) :=
  (s <- get ;;
   pos <- lift (of_option PyIndexError (Py.position (length (_nodes s)) index)) ;;
   site <- lift (of_option PyIndexError (nth_error (_nodes s) pos)) ;;
   ret (pos, site))%mps.

Definition apply_one_qubit_gate (gate : Node) (index : Z) : M unit :=
  (s <- get ;;
   if negb (is_valid s) then raise InvalidChain
   else if negb (Py.in_range index (_nqudits s)) then raise IndexOutOfRange
   else if negb (gate_edges_ok gate 2) then raise InvalidGateShape
   else
     ' (pos, site) <- node_at index ;;
     mps_edge <- lift (first_dangling site) ;;
     let c := fresh_id (_nodes s ++ [gate]) in
     ' (site', gate') <- lift (connect c site mps_edge gate 0) ;;
     let new := contract c site' gate' (name site') in
     set_nodes (Py.set_nth (_nodes s) pos new))%mps.

(** The loop of [apply_one_qubit_gate_to_all]: the one gate object is used
    for every site, in the state the previous contraction left it in. *)
Fixpoint one_qubit_gate_loop (gate : Node) (l : list Z) : M unit :=
  match l with
  | [] => ret tt
  | i :: t => bind (apply_one_qubit_gate gate i)
                   (fun _ => one_qubit_gate_loop (fresh_edges gate) t)
  end.

Definition apply_one_qubit_gate_to_all (gate : Node) : M unit :=
  (s <- get ;; one_qubit_gate_loop gate (Py.range (_nqudits s)))%mps.

(** [tn.connect(list(self._nodes[index].get_all_dangling())[0],
    gate.get_edge(p))]: the site is modified in place and the modified gate
    is returned. *)
Definition connect_site (index : Z) (gate : Node) (p : nat) : M Node :=
  (s <- get ;;
   ' (pos, site) <- node_at index ;;
   e <- lift (first_dangling site) ;;
   ' (site', gate') <- lift (connect (fresh_id (_nodes s ++ [gate])) site e gate p) ;;
   set_nodes (Py.set_nth (_nodes s) pos site') ;;;
   ret gate')%mps.

(** The node at the other end of the edge [i] of the new node. *)
Definition neighbour_name (nodes : list Node) (i : nat) : Result string :=
  match find (fun n => mem i (bond_ids n)) nodes with
  | Some n => Ok (name n)
  | None => Err TnOutside
  end.

Definition edge_of_bond (n : Node) (i : nat) : Edge :=
  nth (axis_of_bond n i) (edges n) (Dangling 0).

(** One round of the loop over [new_node.get_all_nondangling()]. *)
Definition classify (prefix : string) (nodes : list Node) (new_node : Node)
    (left_index : Z) (acc : option Edge * option Edge) (i : nat)
  : Result (option Edge * option Edge) :=
  (other <- neighbour_name nodes i ;;
   let names := if is_node1 new_node i then (name new_node, other)
                else (other, name new_node) in
   index <- (if Names.contains prefix (fst names)
             then Names.index_of_name prefix (fst names)
             else Names.index_of_name prefix (snd names)) ;;
   if Z.of_nat index <=? left_index
   then Ok (Some (edge_of_bond new_node i), snd acc)
   else Ok (fst acc, Some (edge_of_bond new_node i)))%result.

Definition option_list {A} (o : option A) : list A :=
  match o with Some x => [x] | None => [] end.

(** [int(round(x))] for a float [x]. *)
Definition int_round (x : spec_float) : Result Z :=
  match x with
  | S754_nan => Err PyValueError
  | S754_infinity _ => Err PyOverflowError
  | _ => Ok (Py.round_half_even (Py.Q_of_float x))
  end.

(** The cap on the singular values, from the keyword arguments:
    [int(round(fraction * self.get_max_bond_dimension_of(...)))] multiplies
    the float [fraction] by the ceiling converted to a float, and rounds the
    float product. *)
Definition cap_of_kwargs (kw : Kwargs) (indexA indexB : Z) : M (option Z) :=
  (s <- get ;;
   if match fraction kw, maxsvals kw with Some _, Some _ => true | _, _ => false end
   then raise ConflictingOptions
   else
     cap <- match fraction kw with
            | Some f =>
                if negb (Qle_bool 0 f && Qle_bool f 1) then raise InvalidOption
                else
                  ceiling <- lift (get_max_bond_dimension_of (Z.min indexA indexB) s) ;;
                  c <- lift (of_option PyOverflowError (Py.float_of_int ceiling)) ;;
                  m <- lift (int_round (Py.float_mul (Py.float_of_Q f) c)) ;;
                  ret (Some m)
            | None => ret None
            end ;;
     ret match maxsvals kw with
         | Some m => Some m
         | None => cap
         end)%mps.

Section WithSvd.

Variable svd : SvdKernel.

(** The second half of [apply_two_qubit_gate], from the loop over the
    connected edges of the merged node [new_node] to the assignments to
    [self._nodes]. *)
Definition split_and_store (new_node : Node) (left_gate_edge right_gate_edge : Edge)
    (indexA indexB : Z) (kw : Kwargs) : M unit :=
  let left_index := indexA in
  let right_index := indexB in
  (s <- get ;;
   connected <- lift (rfold (classify (_prefix s) (_nodes s) new_node left_index)
                        (get_all_nondangling new_node) (None, None)) ;;
   let left_edges := left_gate_edge :: option_list (fst connected) in
   let right_edges := right_gate_edge :: option_list (snd connected) in
   let keep_left := match keep_left_canonical kw with
                    | Some b => b
                    | None => true
                    end in
   cap <- cap_of_kwargs kw indexA indexB ;;
   let c := fresh_id (_nodes s ++ [new_node]) in
   sp <- lift (split_node_full_svd svd c (S c) new_node
                 left_edges right_edges cap) ;;
   append_infidelity
     (Re (Csum (map (fun x => Cmul (Cconj x) x) (split_truncated sp)))) ;;;
   ' (new_left, new_right) <-
      (if keep_left
       then r <- lift (contract_between (split_s sp) (split_vh sp) default_name) ;;
            ret (split_u sp, r)
       else l <- lift (contract_between (split_u sp) (split_s sp) default_name) ;;
            ret (l, split_vh sp)) ;;
   ' (_, oldA) <- node_at indexA ;;
   ' (_, oldB) <- node_at indexB ;;
   s <- get ;;
   nodes <- lift (of_option PyIndexError
                    (Py.setitem (_nodes s) left_index
                       (set_name new_left (name oldA)))) ;;
   nodes <- lift (of_option PyIndexError
                    (Py.setitem nodes right_index
                       (set_name new_right (name oldB)))) ;;
   set_nodes nodes)%mps.

(** [apply_two_qubit_gate] from the first [tn.connect] to the assignments
    to [self._nodes]. *)
Definition two_qubit_gate_update (gate : Node) (indexA indexB : Z) (kw : Kwargs)
  : M unit :=
  (gate <- connect_site indexA gate 0 ;;
   gate <- connect_site indexB gate 1 ;;
   left_gate_edge <- lift (of_option PyIndexError (nth_error (edges gate) 2)) ;;
   right_gate_edge <- lift (of_option PyIndexError (nth_error (edges gate) 3)) ;;
   ' (posA, nodeA) <- node_at indexA ;;
   ' (posB, nodeB) <- node_at indexB ;;
   new_node <- lift (contract_between nodeA nodeB "new_mps_tensor") ;;
   s <- get ;;
   set_nodes (Py.set_nth (Py.set_nth (_nodes s) posA (fresh_edges nodeA))
                posB (fresh_edges nodeB)) ;;;
   s <- get ;;
   match flatten_edges_between (fresh_id (_nodes s ++ [new_node; gate]))
           new_node gate with
   | None => raise TnNoSharedEdges
   | Some (new_node, gate, node_gate_edge) =>
       split_and_store
         (contract node_gate_edge new_node gate "new_mps_tensor")
         left_gate_edge right_gate_edge indexA indexB kw
   end)%mps.

(** [apply_two_qubit_gate] after its checks; the last line is
    [self._fidelities.append(self.norm())]. *)
Definition two_qubit_gate_body (gate : Node) (indexA indexB : Z) (kw : Kwargs)
  : M unit :=
  (two_qubit_gate_update gate indexA indexB kw ;;;
   s <- get ;;
   f <- lift (norm s) ;;
   append_fidelity f)%mps.

Definition apply_two_qubit_gate (gate : Node) (indexA indexB : Z) (kw : Kwargs)
  : M unit :=
  (s <- get ;;
   if negb (is_valid s) then raise InvalidChain
   else if negb (Py.in_range indexA (_nqudits s))
           || negb (Py.in_range indexB (_nqudits s))
   then raise IndexOutOfRange
   else if indexA =? indexB then raise IdenticalIndices
   else if negb (Z.abs (indexA - indexB) =? 1) then raise NonAdjacentSites
   else if negb (gate_edges_ok gate 4) then raise InvalidGateShape
   else if indexA <? indexB then two_qubit_gate_body gate indexA indexB kw
   else raise InvalidIndexOrder)%mps.

Definition cnot (a b : Z) (kw : Kwargs) : M unit :=
  apply_two_qubit_gate Gates.cnot a b kw.

Definition swap (a b : Z) (kw : Kwargs) : M unit :=
  apply_two_qubit_gate Gates.swap a b kw.

Definition swap_until_adjacent (left_index right_index : Z) (kw : Kwargs) : M unit :=
  if left_index >=? right_index then raise InvalidIndexOrder
  else
    (s <- get ;;
     if (left_index <? 0) || (right_index >=? _nqudits s) then raise IndexOutOfRange
     else if left_index =? right_index - 1 then ret tt
     else for_each (Py.range2 left_index (right_index - 1))
            (fun l => swap l (l + 1) kw))%mps.

(** [self.cnot(a, b, keep_left_canonical=v, **kwargs)]: a keyword given
    twice is a TypeError of the call. *)
Definition cnot_keeping (v : bool) (a b : Z) (kw : Kwargs) : M unit :=
  match keep_left_canonical kw with
  | Some _ => raise PyTypeError
  | None => cnot a b (mkKwargs (Some v) (fraction kw) (maxsvals kw))
  end.

Definition sweep_cnots_left_to_right (kw : Kwargs) : M unit :=
  (s <- get ;;
   for_each (Py.range3 0 (_nqudits s - 1) 2)
     (fun i => cnot_keeping true i (i + 1) kw))%mps.

Definition sweep_cnots_right_to_left (kw : Kwargs) : M unit :=
  (s <- get ;;
   for_each (Py.range3 (_nqudits s - 2) 0 (-2))
     (fun i => cnot_keeping false (i - 1) i kw))%mps.

(** Modelled from the spec: the class [MPSOperation]
    ([mpsim/mpsim_cirq/circuits.py]) is not part of the sources.  An
    operation carries a gate tensor, its arity and the ordered list of its
    target indices; it is valid when the arity matches the number of edges of
    the tensor, the indices are in bounds (of a chain of [nsites] sites) and,
    for arity two, distinct. *)
Record MPSOperation : Type := mkMPSOperation {
  op_node : Node;
  op_arity : nat;
  qudit_indices : list Z
}.

Definition op_is_valid (nsites : Z) (op : MPSOperation) : bool :=
  (rank (op_node op) =? 2 * op_arity op)%nat
  && forallb (fun i => Py.in_range i nsites) (qudit_indices op)
  && match op_arity op, qudit_indices op with
     | 2%nat, [i; j] => negb (i =? j)
     | 2%nat, _ => false
     | _, _ => true
     end.

Definition is_single_qudit_operation (op : MPSOperation) : bool :=
  (op_arity op =? 1)%nat.

Definition is_two_qudit_operation (op : MPSOperation) : bool :=
  (op_arity op =? 2)%nat.

Definition apply_mps_operation (op : MPSOperation) (kw : Kwargs) : M unit :=
  (s <- get ;;
   if negb (op_is_valid (_nqudits s) op) then raise InvalidOperation
   else if is_single_qudit_operation op then
     match qudit_indices op with
     | i :: _ => apply_one_qubit_gate (op_node op) i
     | [] => raise PyIndexError
     end
   else if is_two_qudit_operation op then
     match qudit_indices op with
     | [i; j] => apply_two_qubit_gate (op_node op) i j kw
     | _ => raise PyTypeError
     end
   else raise UnsupportedArity)%mps.

Definition apply_all_mps_operations (ops : list MPSOperation) (kw : Kwargs) : M unit :=
  for_each ops (fun op => apply_mps_operation op kw).

End WithSvd.

(** *** Named gates *)

Definition x (index : Z) : M unit :=
  if index =? -1 then apply_one_qubit_gate_to_all Gates.xgate
  else apply_one_qubit_gate Gates.xgate index.

Definition h (index : Z) : M unit :=
  if index =? -1 then apply_one_qubit_gate_to_all Gates.hgate
  else apply_one_qubit_gate Gates.hgate index.

(** [r]: the argument [rgate(seed, angle_scale)] is evaluated before
    [apply_one_qubit_gate] is called; [drawn k] stands for the node the body
    of [rgate] returns at its [k]-th call. *)
Definition r (drawn : nat -> Node) (index : Z) : M unit :=
  if index =? -1 then
    (s <- get ;;
     for_each (Py.range (_nqudits s))
       (fun i => gate <- lift (Gates.rgate (drawn (Z.to_nat i)) 2) ;;
                 apply_one_qubit_gate gate i))%mps
  else (gate <- lift (Gates.rgate (drawn O) 2) ;;
        apply_one_qubit_gate gate index)%mps.

End Mps.

(** ** Nodes seen through their connected edges *)

Module Bonds.

Import Tn.

(** The connected axes of a node, in axis order. *)
Definition bonds (n : Node) : list (Edge * nat) :=
  filter (fun a => negb (is_dangling (fst a))) (axes n).

(** Two nodes that a bond query cannot tell apart. *)
Definition same_bonds (n n' : Node) : Prop :=
  bonds n = bonds n' /\
  length (get_all_dangling n) = length (get_all_dangling n').

(** The end of the edge [i] at the node: its role and its dimension. *)
Definition bond_end (n : Node) (i : nat) : option (Edge * nat) :=
  find (fun a => has_id i (fst a)) (axes n).

(** The dimension of the dangling (physical) axis of a site. *)
Definition physical_dimension (n : Node) : nat :=
  dim_at n (find_axis is_dangling (axes n)).

End Bonds.

(** ** Conditions on chains *)

Module Invariants.

Import Tn Bonds Mps.
Local Open Scope Z_scope.

(** The conditions under which a loop over the sites keeps going: the
    chain is valid, has as many nodes as it says, and all its physical
    axes have dimension [d]. *)
Definition uniform (d : nat) (s : MPS) : Prop :=
  is_valid s = true
  /\ _nqudits s = Z.of_nat (length (_nodes s))
  /\ forall n, In n (_nodes s) -> physical_dimension n = d.

(** The connected edges among the axes [l], with their dimensions. *)
Definition axes_bonds (l : list (Edge * nat)) : list (nat * nat) :=
  flat_map (fun a => match fst a with
                     | Bond i _ => [(i, snd a)]
                     | Dangling _ => []
                     end) l.

(** The connected edges of a node with their dimensions. *)
Definition bond_dims (n : Node) : list (nat * nat) := axes_bonds (axes n).

(** The bonds of site [k] in a chain of [n] sites whose bond to the right of
    site [j] is the edge [nth j bids 0], of dimension [nth j bdims 0]. *)
Definition expected_bonds (bids bdims : list nat) (n k : nat) : list (nat * nat) :=
  (if (k =? 0)%nat then [] else [(nth (k - 1) bids O, nth (k - 1) bdims O)])
  ++ (if (k =? n - 1)%nat then [] else [(nth k bids O, nth k bdims O)]).

(** The invariants of the data model: at least two sites; every site has
    one dangling edge; neighbouring sites share one edge, and a site has no
    other connected edge.  [bids] and [bdims] list the edges between
    neighbours and their dimensions. *)
Record chain_inv (s : MPS) (bids bdims : list nat) : Prop := mk_chain_inv {
  ci_nqudits : _nqudits s = Z.of_nat (length (_nodes s));
  ci_two : (2 <= length (_nodes s))%nat;
  ci_bids : length bids = (length (_nodes s) - 1)%nat;
  ci_bdims : length bdims = (length (_nodes s) - 1)%nat;
  ci_nodup : NoDup bids;
  ci_sites : forall k nd, nth_error (_nodes s) k = Some nd ->
      length (get_all_dangling nd) = 1%nat
      /\ Permutation (bond_dims nd)
                     (expected_bonds bids bdims (length (_nodes s)) k)
}.

(** A chain as the constructor and the gates leave it: the invariants
    above, the sites named by the prefix and their position, the ceilings
    the constructor computes for a qudit dimension of two or more, and no
    bond above its ceiling. *)
Record bounded_chain (s : MPS) (bids bdims : list nat) : Prop := mk_bounded_chain {
  bc_inv : chain_inv s bids bdims;
  bc_dimension : 2 <= _qudit_dimension s;
  bc_ceilings :
    _max_bond_dimensions s = Ceilings.ceilings (_nqudits s) (_qudit_dimension s);
  bc_names : forall k nd, nth_error (_nodes s) k = Some nd ->
      name nd = site_name (_prefix s) (Z.of_nat k);
  bc_bounded : forall k, (k < length bdims)%nat ->
      Z.of_nat (nth k bdims O)
      <= Ceilings.ceiling (_nqudits s) (_qudit_dimension s) (Z.of_nat k)
}.

End Invariants.

(** ** The chain the constructor builds, in closed form *)

Module Fresh.

Import Cx Np Tn Mps.

(** The dimension of the physical axes of [MPS(n, d)]. *)
Definition physical (d : Z) : nat := S (Z.to_nat (d - 1)).

(** The number of the edge between the sites [k] and [k + 1]. *)
Definition bond_number (n k : nat) : nat :=
  if n =? 2 then 1
  else if k =? 0 then n - 2
  else if k =? n - 2 then n - 1
  else k.

Definition fresh_axes (n pd k : nat) : list (Edge * nat) :=
  if k =? 0 then [(Dangling 0, pd); (Bond (bond_number n 0) true, 1)]
  else if k =? n - 1
  then [(Dangling 0, pd); (Bond (bond_number n (n - 2)) (negb (n =? 2)), 1)]
  else [(Dangling 0, pd);
        (Bond (bond_number n (k - 1)) false, 1);
        (Bond (bond_number n k) (negb (k =? n - 2)), 1)].

Definition fresh_node (prefix : string) (n pd k : nat) : Node :=
  mkNode (site_name prefix (Z.of_nat k)) (fresh_axes n pd k) delta.

Definition fresh_nodes (prefix : string) (n pd : nat) : list Node :=
  map (fresh_node prefix n pd) (seq 0 n).

(** The nodes after [j] rounds of the loop of the constructor. *)
Definition partial_axes (n pd j k : nat) : list (Edge * nat) :=
  if (k =? 0) || (k =? n - 1) then [(Dangling 0, pd); (Dangling 1, 1)]
  else [(Dangling 0, pd);
        (if (2 <=? k) && (k <=? j + 1) then Bond (k - 1) false else Dangling 1, 1);
        (if k <=? j then Bond k true else Dangling 2, 1)].

Definition partial_node (prefix : string) (n pd j k : nat) : Node :=
  mkNode (site_name prefix (Z.of_nat k)) (partial_axes n pd j k) delta.

Definition partial_nodes (prefix : string) (n pd j : nat) : list Node :=
  map (partial_node prefix n pd j) (seq 0 n).

(** The edges between neighbours and their dimensions. *)
Definition fresh_bids (n : nat) : list nat := map (bond_number n) (seq 0 (n - 1)).
Definition fresh_bdims (n : nat) : list nat := repeat 1 (n - 1).

(** A node whose tensor has a one at the all-zero position and zeros
    elsewhere. *)
Definition is_delta (n : Node) : Prop :=
  forall idx, length idx = rank n -> value n idx = delta idx.

(** The vector of length [len] with a one at position [k]. *)
Definition basis_vector (len k : nat) : list C :=
  map (fun j => if j =? k then C1 else C0) (seq 0 len).

(** The node [wavefunction] has accumulated once the sites [0 .. k] of a
    new chain of [n] sites, copied with offset [off], have been absorbed. *)
Definition absorbed (n pd off k : nat) (fin : Node) : Prop :=
  is_delta fin
  /\ exists r, axes fin
               = repeat (Dangling 0, pd) (S k)
                 ++ (if k =? n - 1 then []
                     else [(Bond (off + bond_number n k) r, 1)]).

(** The connected axes of site [k] of a chain of [n] sites whose edge to
    the right of site [j] is [e j]; [rl] and [rr] give the roles of the
    site at its left and right edge. *)
Definition rail_axes (n : nat) (e : nat -> nat) (rl rr : nat -> bool) (k : nat)
  : list (Edge * nat) :=
  match k with
  | O => []
  | S j => [(Bond (e j) (rl k), 1)]
  end
  ++ (if k =? n - 1 then [] else [(Bond (e k) (rr k), 1)]).

(** The two copies of site [k] in [norm], after the first loop has joined
    their physical axes by the edge [c0 + k]. *)
Definition ladder_a (n pd c0 : nat) (e : nat -> nat) (rl rr : nat -> bool)
    (nm : nat -> string) (k : nat) : Node :=
  mkNode (nm k) ((Bond (c0 + k) true, pd) :: rail_axes n e rl rr k) delta.

Definition ladder_b (n pd c0 : nat) (e : nat -> nat) (rl rr : nat -> bool)
    (nm : nat -> string) (k : nat) : Node :=
  mkNode (nm k) ((Bond (c0 + k) false, pd) :: rail_axes n e rl rr k)
    (fun idx => Cconj (delta idx)).

(** The same copies before the first loop. *)
Definition open_a (n pd : nat) (e : nat -> nat) (rl rr : nat -> bool)
    (nm : nat -> string) (k : nat) : Node :=
  mkNode (nm k) ((Dangling 0, pd) :: rail_axes n e rl rr k) delta.

Definition open_b (n pd : nat) (e : nat -> nat) (rl rr : nat -> bool)
    (nm : nat -> string) (k : nat) : Node :=
  mkNode (nm k) ((Dangling 0, pd) :: rail_axes n e rl rr k)
    (fun idx => Cconj (delta idx)).

(** The node the second loop of [norm] has stored at position [k] when it
    gets there: [ea] and [eb] name the edges of the two copies. *)
Definition zipped (n pd c0 : nat) (ea eb : nat -> nat) (rr : nat -> bool)
    (k : nat) (cur : Node) : Prop :=
  is_delta cur
  /\ axes cur
     = match k with
       | O => []
       | S j => [(Bond (eb j) (rr j), 1)]
       end
       ++ [(Bond (c0 + k) true, pd)]
       ++ (if k =? n - 1 then [] else [(Bond (ea k) (rr k), 1)]).

Definition fresh_rl (n k : nat) : bool := (k =? n - 1) && negb (n =? 2).
Definition fresh_rr (n k : nat) : bool := (k =? 0) || negb (k =? n - 2).

(** In [assemble ps ax ks fr]: whether the values taken from [ks] are all
    zero, and how many values are taken from [fr]. *)
Definition used_zero (ps ax ks : list nat) : bool :=
  forallb (fun p => match index_of p ax with
                    | Some m => nth m ks 0 =? 0
                    | None => true
                    end) ps.

Definition nfree (ps ax : list nat) : nat :=
  length (filter (fun p => match index_of p ax with
                           | Some _ => false
                           | None => true
                           end) ps).

End Fresh.

(** ** Sample chains and inputs *)

Module Examples.

Import Cx Np Tn Mps.

(** [MPS(2)] and [MPS(3)] as the constructor leaves them. *)
Definition chain2 : MPS :=
  mkMPS 2 2 "q" (Fresh.fresh_nodes "q" 2 2) [2%Z] [] [].

Definition chain3 : MPS :=
  mkMPS 3 2 "q" (Fresh.fresh_nodes "q" 3 2) [2%Z; 2%Z] [] [].

(** A singular value decomposition of the matrices that are diagonal with
    real entries that are not negative and do not increase: both unitary
    factors are the identity. *)
Definition diagonal_kernel : SvdKernel :=
  fun _ _ a =>
    (fun i j => if (i =? j)%nat then C1 else C0,
     fun i => Re (a i i),
     fun i j => if (i =? j)%nat then C1 else C0).

(** A CNOT between the sites [0] and [2]. *)
Definition far_cnot : MPSOperation := mkMPSOperation Gates.cnot 2 [0%Z; 2%Z].

(** [tn.Node(np.array([[2, 0], [0, 2]]))]: twice the identity. *)
Definition twice_identity : Node :=
  new_node (Gates.of_list [2; 2]%nat [of_R 2; C0; C0; of_R 2]) default_name.

(** [tn.Node(t)] for the array [t] of shape [(2, 2, 3, 3)] whose entry at
    [(0, 0, 0, 0)] is one and whose other entries are zero: four free edges,
    the last two of dimension three. *)
Definition wide_gate : Node :=
  new_node (mkTensor [2; 2; 3; 3]%nat delta) default_name.

(** [MPS(2)] after [apply_two_qubit_gate] with the CNOT gate, and with the
    gate [wide_gate], on the sites [0] and [1]. *)
Definition after_cnot : MPS :=
  snd (apply_two_qubit_gate diagonal_kernel Gates.cnot 0 1 no_kwargs chain2).

Definition after_wide_gate : MPS :=
  snd (apply_two_qubit_gate diagonal_kernel wide_gate 0 1 no_kwargs chain2).

(** [MPS(2)] after [apply_one_qubit_gate(twice_identity, 0)]. *)
Definition stretched2 : MPS := snd (apply_one_qubit_gate twice_identity 0 chain2).

(** [MPS(4, prefix="t")] as the constructor leaves it. *)
Definition chain4t : MPS :=
  mkMPS 4 2 "t" (Fresh.fresh_nodes "t" 4 2) [2%Z; 4%Z; 2%Z] [] [].

(** [tn.Node(t)] for the array [t] of shape [(3, 3)] whose entry at [(0, 0)]
    is one and whose other entries are zero. *)
Definition qutrit_gate : Node :=
  new_node (mkTensor [3; 3]%nat delta) default_name.

(** The keywords [fraction=0.5, maxsvals=1], and the keyword
    [keep_left_canonical=True]. *)
Definition both_options : Kwargs := mkKwargs None (Some (1 # 2)%Q) (Some 1%Z).

Definition keeping_left : Kwargs := mkKwargs (Some true) None None.

(** [MPS(2)] after [cnot(0, 1, fraction=0.5, maxsvals=1)] has raised. *)
Definition after_rejected : MPS :=
  snd (apply_two_qubit_gate diagonal_kernel Gates.cnot 0 1 both_options chain2).

(** A CNOT between the sites [0] and [1]. *)
Definition near_cnot : MPSOperation := mkMPSOperation Gates.cnot 2 [0%Z; 1%Z].

(** [MPS(3)] after [swap_until_adjacent(0, 2)] and [MPS(2)] after
    [sweep_cnots_left_to_right()]. *)
Definition after_swaps : MPS :=
  snd (swap_until_adjacent diagonal_kernel 0 2 no_kwargs chain3).

Definition after_sweep_right : MPS :=
  snd (sweep_cnots_left_to_right diagonal_kernel no_kwargs chain2).

(** A singular value decomposition of the matrix whose entry at [(0, 0)] is
    one and whose other entries are zero: both unitary factors are the
    identity and the singular values are 1, 0, 0, ... *)
Definition unit_kernel : SvdKernel :=
  fun _ _ _ =>
    (fun i j => if (i =? j)%nat then C1 else C0,
     fun i => if (i =? 0)%nat then 1%R else 0%R,
     fun i j => if (i =? j)%nat then C1 else C0).

(** [MPS(3)] after [sweep_cnots_right_to_left()]: one CNOT, on the sites
    [0] and [1]. *)
Definition after_sweep_left : MPS :=
  snd (sweep_cnots_right_to_left unit_kernel no_kwargs chain3).





End Examples.

(** * Properties *)

(** ** Complex scalars *)

Module CxFacts.

Import Cx.
Local Open Scope R_scope.

Lemma Cadd_0_l a : Cadd C0 a = a.
Proof. destruct a. unfold Cadd, C0. simpl. f_equal; lra. Qed.

Lemma Cadd_0_r a : Cadd a C0 = a.
Proof. destruct a. unfold Cadd, C0. simpl. f_equal; lra. Qed.

Lemma Cmul_0_l a : Cmul C0 a = C0.
Proof. destruct a. unfold Cmul, C0. simpl. f_equal; lra. Qed.

Lemma Cmul_0_r a : Cmul a C0 = C0.
Proof. destruct a. unfold Cmul, C0. simpl. f_equal; lra. Qed.

Lemma Cmul_1_l a : Cmul C1 a = a.
Proof. destruct a. unfold Cmul, C1. simpl. f_equal; lra. Qed.

Lemma Cmul_1_r a : Cmul a C1 = a.
Proof. destruct a. unfold Cmul, C1. simpl. f_equal; lra. Qed.

Lemma Cconj_0 : Cconj C0 = C0.
Proof. unfold Cconj, C0. simpl. f_equal. lra. Qed.

Lemma Cconj_1 : Cconj C1 = C1.
Proof. unfold Cconj, C1. simpl. f_equal. lra. Qed.

Lemma Cabs_1 : Cabs C1 = 1.
Proof.
  unfold Cabs, C1. simpl.
  replace (1 * 1 + 0 * 0) with 1 by lra. apply sqrt_1.
Qed.

Lemma Cabs_nonneg a : 0 <= Cabs a.
Proof. unfold Cabs. apply sqrt_pos. Qed.

Lemma Csum_zero (l : list C) : (forall x, In x l -> x = C0) -> Csum l = C0.
Proof.
  induction l as [|a l IH]; intros H; simpl; [reflexivity|].
  rewrite (H a) by (now left). rewrite Cadd_0_l. apply IH.
  intros x Hx. apply H. now right.
Qed.

End CxFacts.

(** ** The ceilings of the bond dimensions *)

Module CeilingsFacts.

Import Ceilings.
Local Open Scope Z_scope.

Lemma list_remove_app (x : Z) (l1 l2 : list Z) :
  ~ In x l1 -> Py.list_remove x (l1 ++ x :: l2) = Some (l1 ++ l2).
Proof.
  induction l1 as [|y l1 IH]; simpl; intros Hn.
  - now rewrite Z.eqb_refl.
  - destruct (Z.eqb_spec y x) as [->|_]; [exfalso; auto|].
    rewrite IH by tauto. reflexivity.
Qed.

Lemma pow_inj_le (d a b : Z) : 2 <= d -> 0 <= a -> 0 <= b -> d ^ a = d ^ b -> a = b.
Proof.
  intros Hd Ha Hb H.
  destruct (Z.lt_trichotomy a b) as [L|[E|L]]; [|assumption|].
  - apply (Z.pow_lt_mono_r d) in L; lia.
  - apply (Z.pow_lt_mono_r d) in L; lia.
Qed.

Lemma pow_min (d a b : Z) : 2 <= d -> 0 <= a -> a <= b -> Z.min (d ^ a) (d ^ b) = d ^ a.
Proof.
  intros Hd Ha Hab. apply Z.min_l. apply Z.pow_le_mono_r; lia.
Qed.

Lemma half_powers (n d : Z) : half n d = powers d (Z.to_nat (n / 2)).
Proof. unfold half, powers, Py.range. now rewrite map_map. Qed.

Lemma powers_S (d : Z) (m : nat) :
  powers d (S m) = powers d m ++ [d ^ (Z.of_nat m + 1)].
Proof. unfold powers. rewrite seq_S, map_app. reflexivity. Qed.

Lemma powers_length d m : length (powers d m) = m.
Proof. unfold powers. now rewrite length_map, length_seq. Qed.

Lemma powers_nth (d : Z) (m i : nat) :
  (i < m)%nat -> nth_error (powers d m) i = Some (d ^ (Z.of_nat i + 1)).
Proof.
  intros H. unfold powers. rewrite nth_error_map, nth_error_seq.
  destruct (Nat.ltb_spec i m); [reflexivity | lia].
Qed.

Lemma powers_rev_nth (d : Z) (m i : nat) :
  (i < m)%nat -> nth_error (rev (powers d m)) i = Some (d ^ (Z.of_nat (m - i))).
Proof.
  intros H. rewrite nth_error_rev, powers_length.
  destruct (Nat.ltb_spec i m); [|lia].
  rewrite powers_nth by lia. f_equal. f_equal. lia.
Qed.

Lemma powers_not_in (d : Z) (m : nat) :
  2 <= d -> ~ In (d ^ (Z.of_nat m + 1)) (powers d m).
Proof.
  intros Hd Hin. unfold powers in Hin. apply in_map_iff in Hin.
  destruct Hin as [i [E Hi]]. apply in_seq in Hi.
  apply pow_inj_le in E; lia.
Qed.

(** The list built by the constructor, in closed form. *)
Lemma max_bond_dimensions_even (d : Z) (m : nat) :
  2 <= d ->
  max_bond_dimensions (2 * Z.of_nat (S m)) d
  = Some (powers d m ++ rev (powers d (S m))).
Proof.
  intros Hd. unfold max_bond_dimensions.
  replace (2 * Z.of_nat (S m) mod 2) with 0
    by (symmetry; rewrite Z.mul_comm; apply Z.mod_mul; lia).
  replace (2 * Z.of_nat (S m) / 2) with (Z.of_nat (S m))
    by (symmetry; rewrite Z.mul_comm; apply Z.div_mul; lia).
  simpl (0 =? 0). cbv iota.
  rewrite half_powers.
  replace (2 * Z.of_nat (S m) / 2) with (Z.of_nat (S m))
    by (symmetry; rewrite Z.mul_comm; apply Z.div_mul; lia).
  rewrite Nat2Z.id. rewrite powers_S at 1.
  rewrite <- app_assoc. simpl ([_] ++ _).
  replace (Z.of_nat (S m)) with (Z.of_nat m + 1) by lia.
  apply list_remove_app. now apply powers_not_in.
Qed.

Lemma max_bond_dimensions_odd (d : Z) (m : nat) :
  max_bond_dimensions (2 * Z.of_nat m + 1) d
  = Some (powers d m ++ rev (powers d m)).
Proof.
  unfold max_bond_dimensions.
  replace ((2 * Z.of_nat m + 1) mod 2) with 1
    by (symmetry; rewrite Z.add_comm, Z.mul_comm, Z.mod_add; [reflexivity|lia]).
  assert (E : (2 * Z.of_nat m + 1) / 2 = Z.of_nat m).
  { rewrite Z.add_comm, Z.mul_comm, Z.div_add by lia. reflexivity. }
  simpl (1 =? 0). cbv iota. rewrite half_powers, E, Nat2Z.id. reflexivity.
Qed.

Lemma ceilings_nth (n d : Z) (i : nat) :
  (Z.of_nat i < n - 1) ->
  nth_error (ceilings n d) i = Some (ceiling n d (Z.of_nat i)).
Proof.
  intros H. unfold ceilings, Py.range.
  rewrite map_map, nth_error_map, nth_error_seq.
  destruct (Nat.ltb_spec i (Z.to_nat (n - 1))); [reflexivity | lia].
Qed.

Lemma ceilings_length (n d : Z) : length (ceilings n d) = Z.to_nat (n - 1).
Proof. unfold ceilings, Py.range. now rewrite !length_map, length_seq. Qed.

Lemma nth_error_ext {A} (l1 l2 : list A) :
  (forall i, nth_error l1 i = nth_error l2 i) -> l1 = l2.
Proof.
  revert l2. induction l1 as [|a l1 IH]; intros [|b l2] H; try reflexivity.
  - specialize (H O). discriminate.
  - specialize (H O). discriminate.
  - f_equal.
    + specialize (H O). simpl in H. congruence.
    + apply IH. intros i. exact (H (S i)).
Qed.

(** For [d >= 2] and [n >= 2] the constructor's list is the closed form. *)
Lemma max_bond_dimensions_closed (n d : Z) :
  2 <= n -> 2 <= d -> max_bond_dimensions n d = Some (ceilings n d).
Proof.
  intros Hn Hd.
  destruct (Z.even n) eqn:Ev.
  - apply Z.even_spec in Ev. destruct Ev as [k Hk].
    assert (exists m, k = Z.of_nat (S m)) as [m ->].
    { exists (Z.to_nat (k - 1)). lia. }
    subst n. rewrite max_bond_dimensions_even by assumption. f_equal.
    apply nth_error_ext. intros i.
    destruct (Nat.ltb_spec i (2 * S m - 1)) as [Hi|Hi].
    + rewrite ceilings_nth by lia. unfold ceiling.
      destruct (Nat.ltb_spec i m) as [Him|Him].
      * rewrite nth_error_app1 by (rewrite powers_length; lia).
        rewrite powers_nth by lia. f_equal. symmetry. apply pow_min; lia.
      * rewrite nth_error_app2 by (rewrite powers_length; lia).
        rewrite powers_length, powers_rev_nth by lia. f_equal.
        rewrite Z.min_comm. symmetry.
        replace (Z.of_nat (S m - (i - m))) with (2 * Z.of_nat (S m) - Z.of_nat i - 1) by lia.
        apply pow_min; lia.
    + transitivity (@None Z); [|symmetry].
      * apply nth_error_None. rewrite length_app, length_rev, !powers_length. lia.
      * apply nth_error_None. rewrite ceilings_length. lia.
  - assert (Od : Z.odd n = true) by (rewrite <- Z.negb_even, Ev; reflexivity).
    apply Z.odd_spec in Od. destruct Od as [k Hk].
    assert (exists m, k = Z.of_nat m) as [m ->].
    { exists (Z.to_nat k). lia. }
    subst n. rewrite max_bond_dimensions_odd. f_equal.
    apply nth_error_ext. intros i.
    destruct (Nat.ltb_spec i (2 * m)) as [Hi|Hi].
    + rewrite ceilings_nth by lia. unfold ceiling.
      destruct (Nat.ltb_spec i m) as [Him|Him].
      * rewrite nth_error_app1 by (rewrite powers_length; lia).
        rewrite powers_nth by lia. f_equal. symmetry. apply pow_min; lia.
      * rewrite nth_error_app2 by (rewrite powers_length; lia).
        rewrite powers_length, powers_rev_nth by lia. f_equal.
        rewrite Z.min_comm. symmetry.
        replace (Z.of_nat (m - (i - m))) with (2 * Z.of_nat m + 1 - Z.of_nat i - 1) by lia.
        apply pow_min; lia.
    + transitivity (@None Z); [|symmetry].
      * apply nth_error_None. rewrite length_app, length_rev, !powers_length. lia.
      * apply nth_error_None. rewrite ceilings_length. lia.
Qed.

(** Whatever [d] is, [remove] finds its argument: the constructor does not
    raise on this line. *)
Lemma max_bond_dimensions_total (n d : Z) :
  2 <= n -> exists l, max_bond_dimensions n d = Some l.
Proof.
  intros Hn. unfold max_bond_dimensions.
  destruct (n mod 2 =? 0) eqn:E; [|eauto].
  rewrite half_powers.
  assert (exists m, Z.to_nat (n / 2) = S m) as [m Hm].
  { exists (Z.to_nat (n / 2) - 1)%nat.
    assert (1 <= n / 2) by (apply Z.div_le_lower_bound; lia). lia. }
  rewrite Hm, powers_S, <- app_assoc. simpl ([_] ++ _).
  replace (n / 2) with (Z.of_nat m + 1) by lia.
  generalize (powers d m) as l, (rev (powers d m ++ [d ^ (Z.of_nat m + 1)])) as r.
  generalize (d ^ (Z.of_nat m + 1)) as x.
  intros x l r. induction l as [|y l IH]; simpl.
  - rewrite Z.eqb_refl. eauto.
  - destruct (y =? x); [eauto|]. destruct IH as [l' ->]. simpl. eauto.
Qed.

End CeilingsFacts.

(** ** Bounds checks and dispatch *)

(** Case analysis on the innermost scrutinee of the goal. *)
Ltac case_scrutinee :=
  match goal with
  | |- context [match ?x with _ => _ end] =>
      lazymatch x with
      | context [match _ with _ => _ end] => fail
      | _ => destruct x eqn:?; simpl
      end
  end.

Module ChecksFacts.

Import Tn Mps.
Local Open Scope Z_scope.

Lemma position_nonneg (len : nat) (i : Z) :
  0 <= i < Z.of_nat len -> Py.position len i = Some (Z.to_nat i).
Proof.
  intros H. unfold Py.position.
  destruct (Z.leb_spec 0 i); [|lia]. destruct (Z.ltb_spec i (Z.of_nat len)); [|lia].
  reflexivity.
Qed.

Lemma position_negative (len : nat) (i : Z) :
  - Z.of_nat len <= i < 0 ->
  Py.position len i = Some (Z.to_nat (Z.of_nat len + i)).
Proof.
  intros H. unfold Py.position.
  destruct (Z.leb_spec 0 i); [lia|]. simpl.
  destruct (Z.leb_spec (- Z.of_nat len) i); [|lia].
  destruct (Z.ltb_spec i 0); [|lia]. reflexivity.
Qed.

Lemma position_outside (len : nat) (i : Z) :
  i < - Z.of_nat len \/ Z.of_nat len <= i -> Py.position len i = None.
Proof.
  intros H. unfold Py.position.
  destruct (Z.leb_spec 0 i); simpl.
  - destruct (Z.ltb_spec i (Z.of_nat len)); [lia|].
    destruct (Z.leb_spec (- Z.of_nat len) i); simpl; [|reflexivity].
    destruct (Z.ltb_spec i 0); [lia|reflexivity].
  - destruct (Z.leb_spec (- Z.of_nat len) i); [lia|]. reflexivity.
Qed.

Lemma position_lt (len : nat) (i : Z) (p : nat) :
  Py.position len i = Some p -> (p < len)%nat.
Proof.
  unfold Py.position.
  destruct (Z.leb_spec 0 i); simpl.
  - destruct (Z.ltb_spec i (Z.of_nat len)); simpl.
    + intros [= <-]. lia.
    + destruct (Z.leb_spec (- Z.of_nat len) i); simpl; [|discriminate].
      destruct (Z.ltb_spec i 0); [lia|discriminate].
  - destruct (Z.leb_spec (- Z.of_nat len) i); simpl; [|discriminate].
    destruct (Z.ltb_spec i 0); [|discriminate]. intros [= <-]. lia.
Qed.

End ChecksFacts.

(** ** Nodes seen through their connected edges *)

Module TnFacts.

Import Cx Np Tn Bonds.

Lemma bond_ids_bonds (n : Node) :
  bond_ids n = flat_map (fun a => bond_id (fst a)) (bonds n).
Proof.
  unfold bond_ids, edges, bonds.
  induction (axes n) as [|[e d] l IH]; simpl; [reflexivity|].
  destruct e; simpl; rewrite IH; reflexivity.
Qed.

Lemma find_axis_nth (f : Edge -> bool) (l : list (Edge * nat)) :
  nth_error l (find_axis f l) = find (fun a => f (fst a)) l.
Proof.
  induction l as [|[e d] l IH]; simpl; [reflexivity|].
  destruct (f e); simpl; [reflexivity | exact IH].
Qed.

Lemma find_axis_lt (f : Edge -> bool) (l : list (Edge * nat)) :
  (find_axis f l < length l) <-> exists a, In a l /\ f (fst a) = true.
Proof.
  induction l as [|[e d] l IH]; simpl.
  - split; [lia | intros [a [[] _]]].
  - destruct (f e) eqn:E.
    + split; [|lia]. intros _. exists (e, d). auto.
    + rewrite <- Nat.succ_lt_mono, IH. split.
      * intros [a [Ha Hf]]. exists a. auto.
      * intros [a [[<-|Ha] Hf]]; [simpl in Hf; congruence|]. exists a. auto.
Qed.

Lemma find_bonds (i : nat) (n : Node) :
  find (fun a => has_id i (fst a)) (axes n)
  = find (fun a => has_id i (fst a)) (bonds n).
Proof.
  unfold bonds. induction (axes n) as [|[e d] l IH]; simpl; [reflexivity|].
  destruct e; simpl; [exact IH|]. destruct (i =? id); [reflexivity | exact IH].
Qed.

Lemma is_node1_bond_end (n : Node) (i : nat) :
  is_node1 n i = match bond_end n i with
                 | Some (Bond _ r, _) => r
                 | _ => false
                 end.
Proof.
  unfold is_node1, bond_end, axis_of_bond, edges.
  rewrite nth_error_map, find_axis_nth.
  destruct (find _ (axes n)) as [[e d]|]; reflexivity.
Qed.

Lemma dim_at_bond_end (n : Node) (i : nat) :
  dim_at n (axis_of_bond n i) = match bond_end n i with
                                | Some (_, d) => d
                                | None => 0
                                end.
Proof.
  unfold dim_at, bond_end, axis_of_bond, node_shape.
  rewrite <- find_axis_nth.
  destruct (nth_error (axes n) _) as [[e d]|] eqn:E.
  - apply (map_nth_error snd) in E. simpl in E.
    now apply nth_error_nth.
  - apply nth_error_None in E. apply nth_overflow. now rewrite length_map.
Qed.

Lemma same_bonds_refl (n : Node) : same_bonds n n.
Proof. split; reflexivity. Qed.

Lemma same_bonds_ids (n n' : Node) : same_bonds n n' -> bond_ids n = bond_ids n'.
Proof. intros [H _]. now rewrite !bond_ids_bonds, H. Qed.

Lemma same_bonds_end (n n' : Node) (i : nat) :
  same_bonds n n' -> bond_end n i = bond_end n' i.
Proof. intros [H _]. unfold bond_end. now rewrite !find_bonds, H. Qed.

Lemma same_bonds_shared (a a' b b' : Node) :
  same_bonds a a' -> same_bonds b b' ->
  get_shared_edges a b = get_shared_edges a' b'.
Proof.
  intros Ha Hb. unfold get_shared_edges, get_all_nondangling.
  now rewrite (same_bonds_ids _ _ Ha), (same_bonds_ids _ _ Hb).
Qed.

Lemma same_bonds_dimension (a a' b b' : Node) (i : nat) :
  same_bonds a a' -> same_bonds b b' ->
  Mps.edge_dimension a b i = Mps.edge_dimension a' b' i.
Proof.
  intros Ha Hb. unfold Mps.edge_dimension.
  rewrite !is_node1_bond_end, !dim_at_bond_end.
  now rewrite (same_bonds_end _ _ i Ha), (same_bonds_end _ _ i Hb).
Qed.

Lemma same_bonds_linked (a a' b b' : Node) :
  same_bonds a a' -> same_bonds b b' -> linked a b = linked a' b'.
Proof.
  intros Ha Hb. unfold linked.
  now rewrite (same_bonds_ids _ _ Ha), (same_bonds_ids _ _ Hb).
Qed.

Section SameBonds.

Variables univ univ' : list Node.
Hypothesis Hsame : Forall2 same_bonds univ univ'.

Lemma same_bonds_length : length univ = length univ'.
Proof. exact (Forall2_length Hsame). Qed.

Lemma same_bonds_nth (i : nat) :
  match nth_error univ i, nth_error univ' i with
  | Some a, Some a' => same_bonds a a'
  | None, None => True
  | _, _ => False
  end.
Proof.
  revert i. induction Hsame as [|a a' l l' H1 H2 IH]; intros [|i]; simpl; auto.
  now apply IH.
Qed.

Lemma same_bonds_step (seen : list nat) : step univ seen = step univ' seen.
Proof.
  unfold step. rewrite <- same_bonds_length. apply filter_ext. intros j.
  f_equal. induction seen as [|i seen IH]; simpl; [reflexivity|].
  rewrite IH. f_equal.
  pose proof (same_bonds_nth i) as Hi. pose proof (same_bonds_nth j) as Hj.
  destruct (nth_error univ i), (nth_error univ' i); try contradiction;
    destruct (nth_error univ j), (nth_error univ' j); try contradiction;
    try reflexivity.
  now apply same_bonds_linked.
Qed.

Lemma same_bonds_reach (fuel : nat) (seen : list nat) :
  reach fuel univ seen = reach fuel univ' seen.
Proof.
  revert seen. induction fuel as [|f IH]; intros seen; simpl; [reflexivity|].
  now rewrite same_bonds_step, IH.
Qed.

Lemma same_bonds_connected (i j : nat) :
  check_connected univ i j = check_connected univ' i j.
Proof.
  unfold check_connected. now rewrite same_bonds_reach, same_bonds_length.
Qed.

Lemma same_bonds_shared_dimension (pl pr : nat) :
  Mps.shared_dimension univ pl pr = Mps.shared_dimension univ' pl pr.
Proof.
  unfold Mps.shared_dimension.
  pose proof (same_bonds_nth pl) as Hl. pose proof (same_bonds_nth pr) as Hr.
  destruct (nth_error univ pl) as [a|], (nth_error univ' pl) as [a'|];
    try contradiction; simpl; [|reflexivity].
  destruct (nth_error univ pr) as [b|], (nth_error univ' pr) as [b'|];
    try contradiction; simpl; [|reflexivity].
  rewrite same_bonds_connected.
  rewrite (same_bonds_shared _ _ _ _ Hl Hr).
  destruct (get_shared_edges a' b'); [reflexivity|].
  now rewrite (same_bonds_dimension _ _ _ _ n Hl Hr).
Qed.

End SameBonds.

End TnFacts.

Module OneSiteFacts.

Import Cx Np Tn Bonds Mps TnFacts ChecksFacts.
Local Open Scope Z_scope.

Lemma forallb_ext_in {A} (f g : A -> bool) (l : list A) :
  (forall x, In x l -> f x = g x) -> forallb f l = forallb g l.
Proof.
  induction l as [|a l IH]; intros H; simpl; [reflexivity|].
  rewrite (H a) by (now left). rewrite IH; [reflexivity|].
  intros x Hx. apply H. now right.
Qed.

Lemma filter_all {A} (f : A -> bool) (l : list A) :
  (forall x, In x l -> f x = true) -> filter f l = l.
Proof.
  induction l as [|a l IH]; intros H; simpl; [reflexivity|].
  rewrite (H a) by (now left). f_equal. apply IH. intros x Hx. apply H. now right.
Qed.

Lemma same_bonds_valid (s s' : MPS) :
  Forall2 same_bonds (_nodes s) (_nodes s') -> is_valid s = is_valid s'.
Proof.
  intros H. unfold is_valid. rewrite <- (same_bonds_length _ _ H).
  destruct (length (_nodes s) <? 2)%nat; [reflexivity|].
  apply forallb_ext_in. intros i _.
  pose proof (same_bonds_nth _ _ H i) as Hi.
  destruct (nth_error (_nodes s) i) as [a|], (nth_error (_nodes s') i) as [a'|];
    try contradiction; [|reflexivity].
  unfold get_all_nondangling.
  rewrite (same_bonds_ids _ _ Hi), (same_bonds_connected _ _ H).
  destruct Hi as [_ ->]. reflexivity.
Qed.

Lemma set_nth_same_bonds (nodes : list Node) (pos : nat) (site new : Node) :
  nth_error nodes pos = Some site -> same_bonds site new ->
  Forall2 same_bonds nodes (Py.set_nth nodes pos new).
Proof.
  revert pos. induction nodes as [|a l IH]; intros [|pos] Hn Hs; simpl in *;
    try discriminate.
  - injection Hn as ->. constructor; [assumption|].
    clear. induction l; constructor; auto using same_bonds_refl.
  - constructor; [apply same_bonds_refl|]. now apply IH.
Qed.

Lemma set_nth_names (nodes : list Node) (pos : nat) (site new : Node) :
  nth_error nodes pos = Some site -> name new = name site ->
  map name (Py.set_nth nodes pos new) = map name nodes.
Proof.
  revert pos. induction nodes as [|a l IH]; intros [|pos] Hn Hs; simpl in *;
    try discriminate.
  - injection Hn as ->. now rewrite Hs.
  - f_equal. now apply IH.
Qed.

Lemma set_nth_length {A} (l : list A) (p : nat) (x : A) :
  length (Py.set_nth l p x) = length l.
Proof.
  revert p. induction l as [|a l IH]; intros [|p]; simpl; auto.
Qed.

(** The axes left of a site whose dangling axis [p] was connected to the
    edge [c] and contracted away. *)
Lemma contracted_site_bonds (c : nat) (r : bool) (l : list (Edge * nat)) (p : nat)
    (e : Edge) (d : nat) :
  nth_error l p = Some (e, d) -> is_dangling e = true ->
  (forall a, In a l -> is_shared [c] (fst a) = false) ->
  filter (fun a => negb (is_dangling (fst a)))
    (filter (fun a => negb (is_shared [c] (fst a))) (set_edge l p (Bond c r)))
  = filter (fun a => negb (is_dangling (fst a))) l
  /\ S (length (filter (fun a => is_dangling (fst a))
          (filter (fun a => negb (is_shared [c] (fst a))) (set_edge l p (Bond c r)))))
     = length (filter (fun a => is_dangling (fst a)) l).
Proof.
  revert p. induction l as [|[e0 d0] l IH]; intros [|p] Hn He Hc; simpl in *;
    try discriminate.
  - injection Hn as -> ->. rewrite Nat.eqb_refl. simpl. rewrite He. simpl.
    assert (E : filter (fun a => negb (is_shared [c] (fst a))) l = l).
    { apply filter_all. intros a Ha. rewrite Hc; auto. }
    rewrite E. split; reflexivity.
  - assert (H0 : is_shared [c] e0 = false) by (apply (Hc (e0, d0)); auto).
    rewrite H0. simpl.
    destruct (IH p Hn He) as [IH1 IH2]; [intros; apply Hc; auto|].
    rewrite IH1. destruct (is_dangling e0); simpl; rewrite <- ?IH2; split; reflexivity.
Qed.

Lemma fresh_id_spec (nodes : list Node) (n : Node) (i : nat) :
  In n nodes -> In i (bond_ids n) -> (i < fresh_id nodes)%nat.
Proof.
  intros Hn Hi. unfold fresh_id.
  assert (Hin : In i (flat_map bond_ids nodes)) by (apply in_flat_map; eauto).
  pose proof (list_max_le (flat_map bond_ids nodes) (list_max (flat_map bond_ids nodes))) as [H1 _].
  specialize (H1 (Nat.le_refl _)). rewrite Forall_forall in H1.
  specialize (H1 i Hin). lia.
Qed.

Lemma not_shared_fresh (nodes : list Node) (n : Node) (a : Edge * nat) :
  In n nodes -> In a (axes n) -> is_shared [fresh_id nodes] (fst a) = false.
Proof.
  intros Hn Ha. destruct a as [[t|i r] d]; simpl; [reflexivity|].
  assert (Hi : In i (bond_ids n)).
  { unfold bond_ids, edges. apply in_flat_map. exists (Bond i r). split.
    - apply in_map_iff. exists (Bond i r, d). auto.
    - simpl. auto. }
  pose proof (fresh_id_spec nodes n i Hn Hi) as Hlt.
  unfold mem. simpl.
  destruct (Nat.eqb_spec i (fresh_id nodes)); [lia|]. reflexivity.
Qed.

Lemma filter_map_fst_length (f : Edge -> bool) (l : list (Edge * nat)) :
  length (filter f (map fst l)) = length (filter (fun a => f (fst a)) l).
Proof.
  induction l as [|a l IH]; simpl; [reflexivity|].
  destruct (f (fst a)); simpl; now rewrite IH.
Qed.

(** A gate that passes the check of [apply_one_qubit_gate] has two axes,
    both dangling. *)
Lemma gate_two_axes (gate : Node) :
  gate_edges_ok gate 2 = true ->
  exists e0 d0 e1 d1, axes gate = [(e0, d0); (e1, d1)]
                      /\ is_dangling e0 = true /\ is_dangling e1 = true.
Proof.
  unfold gate_edges_ok, get_all_dangling, get_all_nondangling, bond_ids, edges.
  intros H. apply andb_prop in H. destruct H as [H1 H2].
  apply Nat.eqb_eq in H1. apply Nat.eqb_eq in H2.
  assert (Hb : forall a, In a (axes gate) -> is_dangling (fst a) = true).
  { intros [[t|i r] d] Ha; [reflexivity|]. exfalso.
    assert (Hin : In i (flat_map bond_id (map fst (axes gate)))).
    { apply in_flat_map. exists (Bond i r). split; [|simpl; auto].
      apply in_map_iff. exists (Bond i r, d). auto. }
    apply (nodup_In Nat.eq_dec) in Hin.
    destruct (nodup Nat.eq_dec _); [contradiction | discriminate]. }
  rewrite filter_map_fst_length in H1.
  assert (E : filter (fun a => is_dangling (fst a)) (axes gate) = axes gate).
  { now apply filter_all. }
  rewrite E in H1.
  destruct (axes gate) as [|[e0 d0] [|[e1 d1] [|]]]; try discriminate.
  exists e0, d0, e1, d1. repeat split.
  - apply (Hb (e0, d0)). simpl; auto.
  - apply (Hb (e1, d1)). simpl; auto.
Qed.

(** What [apply_one_qubit_gate] does to a chain, whatever its outcome. *)
Lemma apply_one_qubit_gate_nodes (gate : Node) (index : Z) (s : MPS) :
  let out := apply_one_qubit_gate gate index s in
  Forall2 same_bonds (_nodes s) (_nodes (snd out))
  /\ map name (_nodes (snd out)) = map name (_nodes s)
  /\ _nqudits (snd out) = _nqudits s.
Proof.
  assert (Hrefl : forall l, Forall2 same_bonds l l).
  { induction l; constructor; auto using same_bonds_refl. }
  unfold apply_one_qubit_gate, bind, get, raise. simpl.
  destruct (is_valid s) eqn:Hv; simpl; [|auto].
  destruct (Py.in_range index (_nqudits s)) eqn:Hi; simpl; [|auto].
  destruct (gate_edges_ok gate 2) eqn:Hg; simpl; [|auto].
  unfold node_at, bind, get, lift, ret. simpl.
  destruct (Py.position (length (_nodes s)) index) as [pos|] eqn:Hpos; simpl; [|auto].
  destruct (nth_error (_nodes s) pos) as [site|] eqn:Hsite; simpl; [|auto].
  unfold first_dangling.
  destruct (Nat.ltb_spec (find_axis is_dangling (axes site)) (rank site)) as [Hp|Hp];
    simpl; [|auto].
  set (p := find_axis is_dangling (axes site)) in *.
  set (c := fresh_id (_nodes s ++ [gate])).
  destruct (gate_two_axes gate Hg) as (e0 & d0 & e1 & d1 & Hax & He0 & He1).
  unfold connect. rewrite Hax. simpl.
  destruct (nth_error (axes site) p) as [[e d]|] eqn:Hnp;
    [|apply nth_error_None in Hnp; unfold rank in Hp; lia].
  assert (He : is_dangling e = true).
  { unfold p in Hnp. rewrite find_axis_nth in Hnp. apply find_some in Hnp.
    apply Hnp. }
  rewrite He, He0. simpl.
  destruct (d =? d0)%nat; simpl; [|auto].
  unfold set_nodes. simpl.
  assert (Hc : forall a, In a (axes site) -> is_shared [c] (fst a) = false).
  { intros a Ha. apply (not_shared_fresh (_nodes s ++ [gate]) site a); [|assumption].
    apply in_or_app. left. eapply nth_error_In; eassumption. }
  destruct (contracted_site_bonds c true (axes site) p e d Hnp He Hc) as [Hb Hd].
  split; [|split; [|reflexivity]].
  - apply set_nth_same_bonds with (site := site); [assumption|].
    unfold same_bonds, bonds, get_all_dangling, edges, contract, contract_ids, remaining.
    simpl. rewrite Nat.eqb_refl. simpl.
    assert (Hs1 : is_shared [c] e1 = false) by (destruct e1; [reflexivity|discriminate]).
    rewrite Hs1. simpl. rewrite !filter_app, !map_app, !filter_app, !length_app. simpl.
    rewrite He1. simpl. rewrite Hb. split.
    + now rewrite app_nil_r.
    + rewrite !filter_map_fst_length. rewrite <- Hd. simpl. lia.
  - apply set_nth_names with (site := site); [assumption|reflexivity].
Qed.

End OneSiteFacts.


Module AllSitesFacts.

Import Cx Np Tn Bonds Mps Invariants TnFacts ChecksFacts OneSiteFacts.
Local Open Scope Z_scope.

Lemma valid_one_dangling (s : MPS) (pos : nat) (site : Node) :
  is_valid s = true -> nth_error (_nodes s) pos = Some site ->
  length (get_all_dangling site) = 1%nat.
Proof.
  unfold is_valid. intros Hv Hs.
  destruct (length (_nodes s) <? 2)%nat; [discriminate|].
  rewrite forallb_forall in Hv. specialize (Hv pos).
  rewrite Hs in Hv.
  assert (Hin : In pos (seq 0 (length (_nodes s)))).
  { apply in_seq. split; [lia|]. simpl. apply nth_error_Some. congruence. }
  specialize (Hv Hin). apply andb_prop in Hv. destruct Hv as [Hv _].
  destruct ((pos =? 0)%nat || (pos =? length (_nodes s) - 1)%nat);
    apply andb_prop in Hv; destruct Hv as [Hv _]; now apply Nat.eqb_eq in Hv.
Qed.

Lemma find_axis_app (f : Edge -> bool) (l1 l2 : list (Edge * nat)) (a : Edge * nat) :
  (forall b, In b l1 -> f (fst b) = false) -> f (fst a) = true ->
  find_axis f (l1 ++ a :: l2) = length l1.
Proof.
  intros H Ha. induction l1 as [|[e d] l1 IH]; simpl.
  - destruct a as [e d]. simpl in Ha. now rewrite Ha.
  - pose proof (H (e, d) (or_introl eq_refl)) as He. simpl in He. rewrite He.
    f_equal. apply IH. intros b Hb. apply H. now right.
Qed.

Lemma filter_nil_forall {A} (f : A -> bool) (l : list A) :
  length (filter f l) = 0%nat -> forall x, In x l -> f x = false.
Proof.
  induction l as [|a l IH]; simpl; intros H x Hx; [contradiction|].
  destruct (f a) eqn:E; [discriminate|]. destruct Hx as [<-|Hx]; auto.
Qed.

Lemma set_nth_In {A} (l : list A) (p : nat) (x y : A) :
  In y (Py.set_nth l p x) -> y = x \/ In y l.
Proof.
  revert p. induction l as [|a l IH]; intros [|p]; simpl; try tauto.
  - intros [<-|H]; auto.
  - intros [<-|H]; auto. destruct (IH p H); auto.
Qed.

Lemma apply_one_qubit_gate_ok (d : nat) (gate : Node) (index : Z) (s : MPS) :
  uniform d s ->
  Py.in_range index (_nqudits s) = true ->
  gate_edges_ok gate 2 = true ->
  dim_at gate 0 = d -> dim_at gate 1 = d ->
  exists s', apply_one_qubit_gate gate index s = (Ok tt, s') /\ uniform d s'
             /\ _nqudits s' = _nqudits s.
Proof.
  intros (Hv & Hlen & Hd) Hi Hg Hd0 Hd1.
  pose proof (apply_one_qubit_gate_nodes gate index s) as Hnodes.
  revert Hnodes.
  unfold apply_one_qubit_gate, bind, get, raise. simpl.
  rewrite Hv, Hi, Hg. simpl.
  unfold node_at, bind, get, lift, ret. simpl.
  assert (Hr : 0 <= index < Z.of_nat (length (_nodes s))).
  { unfold Py.in_range in Hi. lia. }
  rewrite position_nonneg by assumption. simpl.
  destruct (nth_error (_nodes s) (Z.to_nat index)) as [site|] eqn:Hsite;
    [|apply nth_error_None in Hsite; lia].
  simpl. unfold first_dangling.
  pose proof (valid_one_dangling s _ site Hv Hsite) as H1.
  assert (Hin : In site (_nodes s)) by (eapply nth_error_In; eassumption).
  assert (Hp : (find_axis is_dangling (axes site) < rank site)%nat).
  { apply find_axis_lt. unfold get_all_dangling, edges in H1.
    rewrite filter_map_fst_length in H1.
    destruct (filter (fun a => is_dangling (fst a)) (axes site)) as [|a l] eqn:E;
      [discriminate|].
    exists a. assert (Ha : In a (a :: l)) by (now left).
    rewrite <- E in Ha. apply filter_In in Ha. exact Ha. }
  destruct (Nat.ltb_spec (find_axis is_dangling (axes site)) (rank site)); [|lia].
  simpl.
  set (p := find_axis is_dangling (axes site)) in *.
  set (c := fresh_id (_nodes s ++ [gate])).
  destruct (gate_two_axes gate Hg) as (e0 & d0 & e1 & d1 & Hax & He0 & He1).
  unfold connect. rewrite Hax. simpl.
  destruct (nth_error (axes site) p) as [[e dd]|] eqn:Hnp;
    [|apply nth_error_None in Hnp; unfold rank in Hp; lia].
  assert (He : is_dangling e = true).
  { unfold p in Hnp. rewrite find_axis_nth in Hnp. apply find_some in Hnp.
    apply Hnp. }
  rewrite He, He0. simpl.
  assert (Hdd : dd = d).
  { rewrite <- (Hd site Hin). unfold physical_dimension, dim_at, node_shape.
    fold p. apply (map_nth_error snd) in Hnp. simpl in Hnp.
    symmetry. now apply nth_error_nth. }
  assert (Hd0' : d0 = d).
  { rewrite <- Hd0. unfold dim_at, node_shape. now rewrite Hax. }
  assert (Hd1' : d1 = d).
  { rewrite <- Hd1. unfold dim_at, node_shape. now rewrite Hax. }
  subst dd d0 d1. rewrite Nat.eqb_refl. simpl.
  intros (Hb & Hnm & Hn). simpl in Hb. eexists. split; [reflexivity|].
  split; [|reflexivity].
  unfold uniform. simpl. rewrite set_nth_length. repeat split.
  - transitivity (is_valid s); [|exact Hv]. symmetry. apply same_bonds_valid. exact Hb.
  - assumption.
  - intros n Hn'. apply set_nth_In in Hn'. destruct Hn' as [->|Hn']; [|now apply Hd].
    assert (Hc : forall a, In a (axes site) -> is_shared [c] (fst a) = false).
    { intros a Ha. apply (not_shared_fresh (_nodes s ++ [gate]) site a); [|assumption].
      apply in_or_app. now left. }
    destruct (contracted_site_bonds c true (axes site) p e d Hnp He Hc) as [_ Hcount].
    unfold get_all_dangling, edges in H1. rewrite filter_map_fst_length in H1.
    rewrite H1 in Hcount. injection Hcount as Hcount.
    unfold physical_dimension, contract, contract_ids, remaining. simpl.
    rewrite Nat.eqb_refl. simpl.
    assert (Hs1 : is_shared [c] e1 = false) by (destruct e1; [reflexivity|discriminate]).
    rewrite Hs1. simpl.
    rewrite find_axis_app.
    + unfold dim_at, node_shape. simpl. rewrite map_app. simpl.
      rewrite app_nth2 by (rewrite length_map; lia).
      rewrite length_map, Nat.sub_diag. reflexivity.
    + intros b Hb'. now apply (filter_nil_forall _ _ Hcount).
    + exact He1.
Qed.





End AllSitesFacts.

Module OneSiteTheorems.

Import Cx Np Tn Bonds Mps Invariants TnFacts ChecksFacts OneSiteFacts AllSitesFacts.
Local Open Scope Z_scope.

Lemma same_bonds_bond_dimension (s s' : MPS) (k : Z) :
  Forall2 same_bonds (_nodes s) (_nodes s') -> _nqudits s' = _nqudits s ->
  get_bond_dimension_of k s' = get_bond_dimension_of k s.
Proof.
  intros H Hn. unfold get_bond_dimension_of.
  rewrite <- (same_bonds_valid _ _ H), Hn, <- (same_bonds_length _ _ H).
  destruct (is_valid s); simpl; [|reflexivity].
  destruct (k >=? _nqudits s); [reflexivity|].
  destruct (Py.position (length (_nodes s)) k); simpl; [|reflexivity].
  destruct (Py.position (length (_nodes s)) (k + 1)); simpl; [|reflexivity].
  symmetry. now apply same_bonds_shared_dimension.
Qed.

Lemma same_bonds_bond_dimensions (s s' : MPS) :
  Forall2 same_bonds (_nodes s) (_nodes s') -> _nqudits s' = _nqudits s ->
  get_bond_dimensions s' = get_bond_dimensions s.
Proof.
  intros H Hn. unfold get_bond_dimensions. rewrite Hn.
  induction (Py.range (_nqudits s - 1)) as [|k l IH]; simpl; [reflexivity|].
  now rewrite (same_bonds_bond_dimension s s' k H Hn), IH.
Qed.

(** C8: on a valid chain, a gate with two dangling edges and no connected
    edge applied to a site in bounds leaves the dimension of every bond and
    the name of the site as they were (and the chain valid); the call succeeds
    when the axes of the gate have the dimension of the physical axes. *)
Theorem one_site_gate_frame (s : MPS) (gate : Node) (index : Z) :
  is_valid s = true ->
  gate_edges_ok gate 2 = true ->
  Py.in_range index (_nqudits s) = true ->
  let s' := snd (apply_one_qubit_gate gate index s) in
  (forall k, get_bond_dimension_of k s' = get_bond_dimension_of k s)
  /\ get_bond_dimensions s' = get_bond_dimensions s
  /\ option_map name (Py.getitem (_nodes s') index)
     = option_map name (Py.getitem (_nodes s) index)
  /\ is_valid s' = true
  /\ (forall d, uniform d s -> dim_at gate 0 = d -> dim_at gate 1 = d ->
       fst (apply_one_qubit_gate gate index s) = Ok tt).
Proof.
  intros Hv Hg Hi s'.
  destruct (apply_one_qubit_gate_nodes gate index s) as (Hb & Hnm & Hn).
  fold s' in Hb, Hnm, Hn.
  split; [|split; [|split; [|split]]].
  - intros k. now apply same_bonds_bond_dimension.
  - now apply same_bonds_bond_dimensions.
  - unfold Py.getitem. rewrite <- (same_bonds_length _ _ Hb).
    destruct (Py.position (length (_nodes s)) index) as [p|]; [|reflexivity].
    rewrite <- !nth_error_map. now rewrite Hnm.
  - now rewrite <- (same_bonds_valid _ _ Hb).
  - intros d Hu H0 H1.
    destruct (apply_one_qubit_gate_ok d gate index s Hu Hi Hg H0 H1) as (s1 & E & _).
    now rewrite E.
Qed.

End OneSiteTheorems.

(** ** Index checks of the two-site gate, of the dispatcher and of the bond query *)

Module ChecksTheorems.

Import Tn Mps ChecksFacts.
Local Open Scope Z_scope.

(** C7: adjacent indices in reversed order are rejected with the error of
    the index order, and the chain is left as it was. *)
Theorem reversed_order_rejected (svd : SvdKernel) (s : MPS) (gate : Node)
    (indexA indexB : Z) (kw : Kwargs) :
  is_valid s = true ->
  Py.in_range indexA (_nqudits s) = true ->
  Py.in_range indexB (_nqudits s) = true ->
  indexA = indexB + 1 ->
  gate_edges_ok gate 4 = true ->
  apply_two_qubit_gate svd gate indexA indexB kw s = (Err InvalidIndexOrder, s).
Proof.
  intros Hv HA HB HAB Hg.
  unfold apply_two_qubit_gate, bind, get, raise.
  rewrite Hv, HA, HB, Hg. simpl.
  destruct (Z.eqb_spec indexA indexB); [lia|].
  replace (Z.abs (indexA - indexB)) with 1 by lia. simpl.
  destruct (Z.ltb_spec indexA indexB); [lia|]. reflexivity.
Qed.

(** C2 (amended): the dispatcher hands a two-site operation on sites that
    are not adjacent to [apply_two_qubit_gate] as it is; the call ends in
    the error for non-adjacent sites and the chain is left as it was. *)
Theorem dispatcher_rejects_non_adjacent (svd : SvdKernel) (s : MPS)
    (op : MPSOperation) (kw : Kwargs) (i j : Z) :
  is_valid s = true ->
  op_is_valid (_nqudits s) op = true ->
  op_arity op = 2%nat ->
  qudit_indices op = [i; j] ->
  1 < Z.abs (i - j) ->
  apply_mps_operation svd op kw s = (Err NonAdjacentSites, s).
Proof.
  intros Hv Hop Har Hidx Hna.
  unfold apply_mps_operation, bind, get, raise.
  rewrite Hop. simpl.
  unfold is_single_qudit_operation, is_two_qudit_operation. rewrite Har. simpl.
  rewrite Hidx.
  unfold op_is_valid in Hop. rewrite Har, Hidx in Hop. simpl in Hop.
  apply andb_prop in Hop. destruct Hop as [Hop Hd].
  apply andb_prop in Hop. destruct Hop as [_ Hb].
  apply andb_prop in Hb. destruct Hb as [Hi Hj].
  apply andb_prop in Hj. destruct Hj as [Hj _].
  unfold apply_two_qubit_gate, bind, get, raise.
  rewrite Hv, Hi, Hj. simpl.
  destruct (Z.eqb_spec i j); [discriminate|].
  destruct (Z.eqb_spec (Z.abs (i - j)) 1); [lia|]. reflexivity.
Qed.

(** C10: [get_bond_dimension_of] turns down exactly the indices from the
    number of sites on; the last site's index runs into the IndexError of
    the missing right neighbour, and a negative index is resolved against
    the list of nodes from the right. *)
Theorem bond_dimension_index_check (s : MPS) :
  is_valid s = true ->
  _nqudits s = Z.of_nat (length (_nodes s)) ->
  let n := _nqudits s in
  (forall i, get_bond_dimension_of i s = Err IndexOutOfRange <-> n <= i) /\
  get_bond_dimension_of (n - 1) s = Err PyIndexError /\
  (forall i, - n <= i <= -2 ->
     get_bond_dimension_of i s = get_bond_dimension_of (n + i) s) /\
  get_bond_dimension_of (-1) s
  = shared_dimension (_nodes s) (length (_nodes s) - 1) 0.
Proof.
  intros Hv Hn n. subst n.
  assert (Hlen : (2 <= length (_nodes s))%nat).
  { unfold is_valid in Hv. destruct (Nat.ltb_spec (length (_nodes s)) 2); [discriminate|lia]. }
  repeat split.
  - unfold get_bond_dimension_of. rewrite Hv. simpl.
    destruct (Z.geb_spec i (_nqudits s)); [lia|].
    intros HH. exfalso. revert HH. unfold shared_dimension, rbind, of_option.
    repeat case_scrutinee; discriminate.
  - intros HH. unfold get_bond_dimension_of. rewrite Hv. simpl.
    destruct (Z.geb_spec i (_nqudits s)); [reflexivity|lia].
  - unfold get_bond_dimension_of. rewrite Hv. simpl.
    destruct (Z.geb_spec (_nqudits s - 1) (_nqudits s)); [lia|].
    rewrite position_nonneg by lia. simpl.
    rewrite position_outside by lia. reflexivity.
  - intros i Hi. unfold get_bond_dimension_of. rewrite Hv. simpl.
    destruct (Z.geb_spec i (_nqudits s)); [lia|].
    destruct (Z.geb_spec (_nqudits s + i) (_nqudits s)); [lia|].
    rewrite (position_negative (length (_nodes s)) i) by lia.
    rewrite (position_negative (length (_nodes s)) (i + 1)) by lia.
    rewrite (position_nonneg (length (_nodes s)) (_nqudits s + i)) by lia.
    rewrite (position_nonneg (length (_nodes s)) (_nqudits s + i + 1)) by lia.
    rewrite Hn. simpl. do 2 f_equal. lia.
  - unfold get_bond_dimension_of. rewrite Hv. simpl.
    destruct (Z.geb_spec (-1) (_nqudits s)); [lia|].
    rewrite (position_negative (length (_nodes s)) (-1)) by lia.
    rewrite (position_nonneg (length (_nodes s)) 0) by lia.
    simpl. do 2 f_equal. lia.
Qed.

End ChecksTheorems.

(** ** Chains that satisfy the invariants of the data model *)

Module ChainFacts.

Import Cx Np Tn Bonds Mps Invariants TnFacts ChecksFacts OneSiteFacts.
Local Open Scope nat_scope.

Lemma bond_ids_dims (n : Node) : bond_ids n = map fst (bond_dims n).
Proof.
  unfold bond_ids, bond_dims, axes_bonds, edges.
  induction (axes n) as [|[[t|i r] d] l IH]; simpl; [reflexivity|exact IH|].
  now rewrite IH.
Qed.

Lemma bond_end_dims (n : Node) (i d : nat) :
  NoDup (bond_ids n) -> In (i, d) (bond_dims n) ->
  exists r, bond_end n i = Some (Bond i r, d).
Proof.
  rewrite bond_ids_dims. unfold bond_end, bond_dims, axes_bonds.
  induction (axes n) as [|[[t|j r] dj] l IH]; simpl; intros Hnd Hin.
  - contradiction.
  - now apply IH.
  - destruct (Nat.eqb_spec i j) as [->|Hne].
    + exists r. destruct Hin as [Hin|Hin]; [congruence|].
      exfalso. inversion Hnd as [|? ? Hnot _]; subst. apply Hnot.
      apply in_map_iff. exists (j, d). auto.
    + inversion Hnd; subst. destruct Hin as [Hin|Hin]; [congruence|].
      now apply IH.
Qed.

Lemma in_le_list_max (x : nat) (l : list nat) : In x l -> x <= list_max l.
Proof.
  intros H. pose proof (list_max_le l (list_max l)) as [H1 _].
  specialize (H1 (Nat.le_refl _)). rewrite Forall_forall in H1. now apply H1.
Qed.

Lemma mem_In (i : nat) (l : list nat) : mem i l = true <-> In i l.
Proof.
  unfold mem. rewrite existsb_exists. split.
  - intros [x [Hx E]]. apply Nat.eqb_eq in E. now subst.
  - intros H. exists i. split; [assumption | apply Nat.eqb_refl].
Qed.

Lemma filter_none {A} (f : A -> bool) (l : list A) :
  (forall x, In x l -> f x = false) -> filter f l = [].
Proof.
  induction l as [|a l IH]; intros H; simpl; [reflexivity|].
  rewrite (H a) by (now left). apply IH. intros x Hx. apply H. now right.
Qed.

Lemma linked_common (a b : Node) (i : nat) :
  In i (bond_ids a) -> In i (bond_ids b) -> linked a b = true.
Proof.
  intros Ha Hb. unfold linked. apply existsb_exists. exists i.
  split; [assumption | now apply mem_In].
Qed.

Lemma step_mono (univ : list Node) (seen : list nat) (j : nat) :
  j < length univ -> mem j seen = true -> mem j (step univ seen) = true.
Proof.
  intros Hj Hm. apply mem_In. unfold step. apply filter_In. split.
  - apply in_seq. lia.
  - now rewrite Hm.
Qed.

Lemma reach_mono (fuel : nat) (univ : list Node) (seen : list nat) (j : nat) :
  j < length univ -> mem j seen = true -> mem j (reach fuel univ seen) = true.
Proof.
  revert seen. induction fuel as [|f IH]; intros seen Hj Hm; simpl; [assumption|].
  apply IH; [assumption|]. now apply step_mono.
Qed.

Lemma check_connected_linked (univ : list Node) (i j : nat) (a b : Node) :
  nth_error univ i = Some a -> nth_error univ j = Some b ->
  linked a b = true -> check_connected univ i j = true.
Proof.
  intros Ha Hb Hl. unfold check_connected.
  assert (Hj : j < length univ) by (apply nth_error_Some; congruence).
  destruct (length univ) as [|f] eqn:E; [lia|]. simpl.
  apply reach_mono; [lia|].
  apply mem_In. unfold step. apply filter_In. split.
  - apply in_seq. lia.
  - apply orb_true_intro. right. simpl. now rewrite Ha, Hb, Hl.
Qed.

Lemma expected_ids_in (bids bdims : list nat) (n k i : nat) :
  In i (map fst (expected_bonds bids bdims n k)) <->
  (k <> 0 /\ i = nth (k - 1) bids 0) \/ (k <> n - 1 /\ i = nth k bids 0).
Proof.
  unfold expected_bonds.
  destruct (Nat.eqb_spec k 0), (Nat.eqb_spec k (n - 1)); simpl; intuition congruence.
Qed.

Lemma skipn_nth_cons {A} (k : nat) (l : list A) (d : A) :
  k < length l -> skipn k l = nth k l d :: skipn (S k) l.
Proof.
  revert l. induction k as [|k IH]; intros [|a l] H; simpl in *; try lia.
  - reflexivity.
  - apply IH. lia.
Qed.

Section Chain.

Variable s : MPS.
Variables bids bdims : list nat.
Hypothesis Hinv : chain_inv s bids bdims.

Let n := length (_nodes s).

Lemma expected_ids_nodup (k : nat) :
  k < n -> NoDup (map fst (expected_bonds bids bdims n k)).
Proof.
  intros Hk. unfold expected_bonds.
  pose proof (ci_nodup _ _ _ Hinv) as Hnd.
  pose proof (ci_bids _ _ _ Hinv) as Hlen. fold n in Hlen.
  destruct (Nat.eqb_spec k 0), (Nat.eqb_spec k (n - 1)); simpl;
    repeat constructor; simpl; try tauto.
  intros [E|[]].
  apply (proj1 (NoDup_nth bids 0) Hnd) in E; lia.
Qed.

Lemma site_bond_ids (k : nat) (nd : Node) :
  nth_error (_nodes s) k = Some nd ->
  Permutation (bond_ids nd) (map fst (expected_bonds bids bdims n k))
  /\ NoDup (bond_ids nd).
Proof.
  intros Hk. destruct (ci_sites _ _ _ Hinv k nd Hk) as [_ Hp].
  assert (Hlt : k < n) by (apply nth_error_Some; congruence).
  rewrite bond_ids_dims. split.
  - now apply Permutation_map.
  - eapply Permutation_NoDup; [apply Permutation_sym, Permutation_map; eassumption|].
    now apply expected_ids_nodup.
Qed.

Lemma right_bond_in (k : nat) (nd : Node) :
  nth_error (_nodes s) k = Some nd -> k < n - 1 ->
  In (nth k bids 0, nth k bdims 0) (bond_dims nd).
Proof.
  intros Hk Hlt. destruct (ci_sites _ _ _ Hinv k nd Hk) as [_ Hp].
  eapply Permutation_in; [apply Permutation_sym; eassumption|].
  unfold expected_bonds. fold n. apply in_or_app. right.
  destruct (Nat.eqb_spec k (n - 1)); [lia|]. now left.
Qed.

Lemma left_bond_in (k : nat) (nd : Node) :
  nth_error (_nodes s) (S k) = Some nd ->
  In (nth k bids 0, nth k bdims 0) (bond_dims nd).
Proof.
  intros Hk. destruct (ci_sites _ _ _ Hinv (S k) nd Hk) as [_ Hp].
  eapply Permutation_in; [apply Permutation_sym; eassumption|].
  unfold expected_bonds. apply in_or_app. left. simpl.
  rewrite Nat.sub_0_r. now left.
Qed.

Lemma chain_valid : is_valid s = true.
Proof.
  unfold is_valid. fold n.
  pose proof (ci_two _ _ _ Hinv) as H2. fold n in H2.
  destruct (Nat.ltb_spec n 2); [lia|].
  apply forallb_forall. intros k Hk. apply in_seq in Hk.
  destruct (nth_error (_nodes s) k) as [nd|] eqn:Hnd;
    [|apply nth_error_None in Hnd; fold n in Hnd; lia].
  destruct (ci_sites _ _ _ Hinv k nd Hnd) as [Hd Hp].
  destruct (site_bond_ids k nd Hnd) as [Hids Hnodup].
  unfold get_all_nondangling. rewrite (nodup_fixed_point Nat.eq_dec Hnodup).
  rewrite (Permutation_length Hids), length_map, Hd.
  apply andb_true_intro. split.
  - unfold expected_bonds. fold n.
    destruct (Nat.eqb_spec k 0), (Nat.eqb_spec k (n - 1)); simpl; try reflexivity; lia.
  - destruct (Nat.ltb_spec k (n - 1)); [|reflexivity].
    destruct (nth_error (_nodes s) (S k)) as [nd'|] eqn:Hnd';
      [|apply nth_error_None in Hnd'; fold n in Hnd'; lia].
    apply (check_connected_linked _ _ _ nd nd' Hnd Hnd').
    apply (linked_common nd nd' (nth k bids 0)).
    + rewrite bond_ids_dims. apply in_map_iff.
      exists (nth k bids 0, nth k bdims 0). split; [reflexivity|].
      now apply right_bond_in.
    + rewrite bond_ids_dims. apply in_map_iff.
      exists (nth k bids 0, nth k bdims 0). split; [reflexivity|].
      now apply left_bond_in.
Qed.

Lemma shared_with_right (k : nat) (a b : Node) :
  nth_error (_nodes s) k = Some a -> nth_error (_nodes s) (S k) = Some b ->
  get_shared_edges a b = [nth k bids 0].
Proof.
  intros Ha Hb.
  assert (Hk : S k < n) by (apply nth_error_Some; congruence).
  destruct (site_bond_ids k a Ha) as [Pa Na].
  destruct (site_bond_ids (S k) b Hb) as [Pb Nb].
  unfold get_shared_edges, get_all_nondangling.
  rewrite (nodup_fixed_point Nat.eq_dec Na).
  pose proof (ci_nodup _ _ _ Hinv) as Hnd.
  pose proof (ci_bids _ _ _ Hinv) as Hlen. fold n in Hlen.
  assert (Hf : forall i, In i (bond_ids a) ->
                mem i (bond_ids b) = (i =? nth k bids 0)).
  { intros i Hi. apply (Permutation_in _ Pa) in Hi.
    destruct (Nat.eqb_spec i (nth k bids 0)) as [->|Hne].
    - apply mem_In. rewrite bond_ids_dims. apply in_map_iff.
      exists (nth k bids 0, nth k bdims 0). split; [reflexivity|].
      now apply left_bond_in.
    - destruct (mem i (bond_ids b)) eqn:Hm; [|reflexivity]. exfalso.
      apply mem_In in Hm. apply (Permutation_in _ Pb) in Hm.
      apply expected_ids_in in Hi. apply expected_ids_in in Hm.
      simpl in Hm. rewrite Nat.sub_0_r in Hm.
      destruct Hi as [[Hk0 Hi]|[Hk1 Hi]]; [|congruence].
      destruct Hm as [[_ Hm]|[Hk2 Hm]]; [congruence|].
      rewrite Hi in Hm.
      apply (proj1 (NoDup_nth bids 0) Hnd) in Hm; lia. }
  rewrite (filter_ext_in _ (fun i => i =? nth k bids 0) _ Hf).
  assert (Hin : In (nth k bids 0) (bond_ids a)).
  { rewrite bond_ids_dims. apply in_map_iff.
    exists (nth k bids 0, nth k bdims 0). split; [reflexivity|].
    apply right_bond_in; [assumption|lia]. }
  clear -Na Hin. induction (bond_ids a) as [|x l IH]; [contradiction|].
  simpl. inversion Na as [|? ? Hx Hl]; subst.
  destruct (Nat.eqb_spec x (nth k bids 0)) as [->|Hne].
  - f_equal. apply filter_none. intros y Hy.
    destruct (Nat.eqb_spec y (nth k bids 0)); [subst; contradiction|reflexivity].
  - destruct Hin as [Hin|Hin]; [contradiction|]. now apply IH.
Qed.

Lemma bond_dimension_right (k : nat) (a b : Node) :
  nth_error (_nodes s) k = Some a -> nth_error (_nodes s) (S k) = Some b ->
  edge_dimension a b (nth k bids 0) = nth k bdims 0.
Proof.
  intros Ha Hb.
  assert (Hk : S k < n) by (apply nth_error_Some; congruence).
  destruct (site_bond_ids k a Ha) as [_ Na].
  destruct (site_bond_ids (S k) b Hb) as [_ Nb].
  destruct (bond_end_dims a _ _ Na (right_bond_in k a Ha ltac:(lia))) as [ra Ea].
  destruct (bond_end_dims b _ _ Nb (left_bond_in k b Hb)) as [rb Eb].
  unfold edge_dimension. rewrite !dim_at_bond_end, Ea, Eb.
  now destruct (is_node1 a (nth k bids 0)).
Qed.

Lemma chain_shared_dimension (k : nat) :
  k < n - 1 -> shared_dimension (_nodes s) k (S k) = Ok (nth k bdims 0).
Proof.
  intros Hk. unfold shared_dimension.
  destruct (nth_error (_nodes s) k) as [a|] eqn:Ha;
    [|apply nth_error_None in Ha; fold n in Ha; lia].
  destruct (nth_error (_nodes s) (S k)) as [b|] eqn:Hb;
    [|apply nth_error_None in Hb; fold n in Hb; lia].
  simpl.
  rewrite (check_connected_linked _ _ _ a b Ha Hb).
  - simpl. rewrite (shared_with_right k a b Ha Hb).
    now rewrite (bond_dimension_right k a b Ha Hb).
  - apply (linked_common a b (nth k bids 0)); rewrite bond_ids_dims;
      apply in_map_iff; exists (nth k bids 0, nth k bdims 0);
      (split; [reflexivity|]).
    + now apply right_bond_in.
    + now apply left_bond_in.
Qed.

Lemma chain_bond_dimension (k : nat) :
  k < n - 1 -> get_bond_dimension_of (Z.of_nat k) s = Ok (nth k bdims 0).
Proof.
  intros Hk. unfold get_bond_dimension_of.
  rewrite chain_valid. simpl.
  pose proof (ci_nqudits _ _ _ Hinv) as Hn. fold n in Hn.
  destruct (Z.geb_spec (Z.of_nat k) (_nqudits s)); [lia|].
  fold n. rewrite !position_nonneg by lia. simpl.
  replace (Z.to_nat (Z.of_nat k + 1)) with (S k) by lia.
  rewrite Nat2Z.id. now apply chain_shared_dimension.
Qed.

Lemma chain_bond_dimensions : get_bond_dimensions s = Ok bdims.
Proof.
  unfold get_bond_dimensions, Py.range.
  pose proof (ci_nqudits _ _ _ Hinv) as Hn. fold n in Hn.
  pose proof (ci_bdims _ _ _ Hinv) as Hl. fold n in Hl.
  replace (Z.to_nat (_nqudits s - 1)) with (n - 1) by lia.
  assert (H : forall m, m <= n - 1 ->
            rmap (fun i => get_bond_dimension_of i s) (map Z.of_nat (seq (n - 1 - m) m))
            = Ok (skipn (n - 1 - m) bdims)).
  { induction m as [|m IH]; intros Hm; simpl.
    - rewrite Nat.sub_0_r, <- Hl, skipn_all. reflexivity.
    - rewrite chain_bond_dimension by lia. simpl.
      replace (S (n - 1 - S m)) with (n - 1 - m) by lia.
      rewrite IH by lia. simpl. f_equal.
      rewrite (skipn_nth_cons (n - 1 - S m) bdims 0) by lia.
      do 2 f_equal. lia. }
  specialize (H (n - 1) (Nat.le_refl _)).
  now rewrite Nat.sub_diag in H.
Qed.

End Chain.

End ChainFacts.

(** ** Axes under the operations of the two-site gate *)

Module AxesFacts.

Import Cx Np Tn Bonds Mps Invariants TnFacts ChecksFacts OneSiteFacts ChainFacts.
Local Open Scope nat_scope.

Lemma Permutation_filter {A} (f : A -> bool) (l l' : list A) :
  Permutation l l' -> Permutation (filter f l) (filter f l').
Proof.
  induction 1 as [|x l l' _ IH|x y l|l l' l'' _ IH1 _ IH2]; simpl.
  - constructor.
  - destruct (f x); [now constructor | assumption].
  - destruct (f x), (f y); try reflexivity. apply perm_swap.
  - now transitivity (filter f l').
Qed.

Lemma axes_bonds_app (l1 l2 : list (Edge * nat)) :
  axes_bonds (l1 ++ l2) = axes_bonds l1 ++ axes_bonds l2.
Proof. apply flat_map_app. Qed.

(** The connected edges a contraction over [ids] leaves. *)
Lemma axes_bonds_remaining (ids : list nat) (l : list (Edge * nat)) :
  axes_bonds (filter (fun a => negb (is_shared ids (fst a))) l)
  = filter (fun p => negb (mem (fst p) ids)) (axes_bonds l).
Proof.
  induction l as [|[[t|i r] d] l IH]; simpl; [reflexivity|exact IH|].
  destruct (mem i ids); simpl; now rewrite IH.
Qed.

Lemma dangling_remaining (ids : list nat) (l : list (Edge * nat)) :
  filter (fun a => is_dangling (fst a))
    (filter (fun a => negb (is_shared ids (fst a))) l)
  = filter (fun a => is_dangling (fst a)) l.
Proof.
  induction l as [|[[t|i r] d] l IH]; simpl; [reflexivity|now rewrite IH|].
  destruct (mem i ids); simpl; exact IH.
Qed.

(** Connecting the dangling axis [p]. *)
Lemma axes_bonds_set_edge (l : list (Edge * nat)) (p t d c : nat) (r : bool) :
  nth_error l p = Some (Dangling t, d) ->
  Permutation (axes_bonds (set_edge l p (Bond c r))) ((c, d) :: axes_bonds l).
Proof.
  revert p. induction l as [|[e d'] l IH]; intros [|p] H; simpl in *; try discriminate.
  - injection H as -> ->. reflexivity.
  - specialize (IH p H). destruct e as [t'|i r']; simpl; [exact IH|].
    rewrite IH. apply perm_swap.
Qed.

Lemma dangling_set_edge (l : list (Edge * nat)) (p t d c : nat) (r : bool) :
  nth_error l p = Some (Dangling t, d) ->
  S (length (filter (fun a => is_dangling (fst a)) (set_edge l p (Bond c r))))
  = length (filter (fun a => is_dangling (fst a)) l).
Proof.
  revert p. induction l as [|[e d'] l IH]; intros [|p] H; simpl in *; try discriminate.
  - injection H as -> ->. reflexivity.
  - specialize (IH p H). destruct e as [t'|i r']; simpl; [now rewrite IH | exact IH].
Qed.

Lemma set_edge_length (l : list (Edge * nat)) (p : nat) (e : Edge) :
  length (set_edge l p e) = length l.
Proof.
  revert p. induction l as [|[e' d] l IH]; intros [|p]; simpl; auto.
Qed.

(** A list of connected axes is known from its edges and dimensions when
    there is at most one. *)
Lemma no_bonds_nil (l : list (Edge * nat)) :
  length (filter (fun a => is_dangling (fst a)) l) = 0 ->
  Permutation (axes_bonds l) [] -> l = [].
Proof.
  intros Hd Hp. apply Permutation_sym, Permutation_nil in Hp.
  destruct l as [|[[t|i r] d] l]; [reflexivity|discriminate|discriminate].
Qed.

Lemma one_bond_singleton (l : list (Edge * nat)) (i d : nat) :
  length (filter (fun a => is_dangling (fst a)) l) = 0 ->
  Permutation (axes_bonds l) [(i, d)] -> exists r, l = [(Bond i r, d)].
Proof.
  intros Hd Hp. apply Permutation_sym, Permutation_length_1_inv in Hp.
  destruct l as [|[[t|j r] d'] l]; try discriminate.
  simpl in Hp. injection Hp as -> -> Hl.
  exists r. f_equal.
  destruct l as [|[[t|j r'] d''] l]; [reflexivity|discriminate|discriminate].
Qed.

(** [filter] that picks one element of a list without repetition. *)
Lemma filter_one (f : nat -> bool) (l : list nat) (x : nat) :
  NoDup l -> In x l -> (forall y, In y l -> f y = true <-> y = x) ->
  filter f l = [x].
Proof.
  induction l as [|a l IH]; intros Hnd Hin Hf; [contradiction|].
  inversion Hnd as [|? ? Hna Hnd']; subst. simpl.
  destruct (Nat.eq_dec a x) as [->|Hne].
  - rewrite (proj2 (Hf x (or_introl eq_refl)) eq_refl). f_equal.
    apply filter_none. intros y Hy.
    destruct (f y) eqn:E; [|reflexivity].
    apply (Hf y (or_intror Hy)) in E. subst. contradiction.
  - destruct (f a) eqn:E.
    + apply (Hf a (or_introl eq_refl)) in E. contradiction.
    + destruct Hin as [Hin|Hin]; [contradiction|].
      apply IH; [assumption..|]. intros y Hy. apply Hf. now right.
Qed.

(** A gate that passes the check of [apply_two_qubit_gate] has four axes,
    all dangling. *)
Lemma gate_four_axes (gate : Node) :
  gate_edges_ok gate 4 = true ->
  exists t0 d0 t1 d1 t2 d2 t3 d3,
    axes gate = [(Dangling t0, d0); (Dangling t1, d1);
                 (Dangling t2, d2); (Dangling t3, d3)].
Proof.
  unfold gate_edges_ok, get_all_dangling, get_all_nondangling, bond_ids, edges.
  intros H. apply andb_prop in H. destruct H as [H1 H2].
  apply Nat.eqb_eq in H1. apply Nat.eqb_eq in H2.
  assert (Hb : forall a, In a (axes gate) -> is_dangling (fst a) = true).
  { intros [[t|i r] d] Ha; [reflexivity|]. exfalso.
    assert (Hin : In i (flat_map bond_id (map fst (axes gate)))).
    { apply in_flat_map. exists (Bond i r). split; [|simpl; auto].
      apply in_map_iff. exists (Bond i r, d). auto. }
    apply (nodup_In Nat.eq_dec) in Hin.
    destruct (nodup Nat.eq_dec _); [contradiction | discriminate]. }
  rewrite filter_map_fst_length in H1.
  rewrite (filter_all _ _ Hb) in H1.
  destruct (axes gate) as [|[e0 d0] [|[e1 d1] [|[e2 d2] [|[e3 d3] [|]]]]];
    try discriminate.
  pose proof (Hb (e0, d0) ltac:(simpl; auto)) as H0.
  pose proof (Hb (e1, d1) ltac:(simpl; auto)) as H1'.
  pose proof (Hb (e2, d2) ltac:(simpl; auto)) as H2'.
  pose proof (Hb (e3, d3) ltac:(simpl; auto)) as H3.
  destruct e0, e1, e2, e3; try discriminate.
  repeat eexists.
Qed.

End AxesFacts.

(** ** Reading the index back from the name of a site *)

Module NamesFacts.

Import Names Mps.
Local Open Scope nat_scope.

Lemma append_nil_r (s : string) : String.append s EmptyString = s.
Proof. induction s as [|c s IH]; simpl; [reflexivity | now rewrite IH]. Qed.

Lemma append_assoc (s t u : string) :
  String.append (String.append s t) u = String.append s (String.append t u).
Proof. induction s as [|c s IH]; simpl; [reflexivity | now rewrite IH]. Qed.

Lemma prefix_append (p w : string) : String.prefix p (String.append p w) = true.
Proof.
  induction p as [|c p IH]; simpl; [now destruct w|].
  destruct (Ascii.ascii_dec c c); [exact IH | contradiction].
Qed.

Lemma contains_prefix (sub s : string) :
  String.prefix sub s = true -> contains sub s = true.
Proof. destruct s; simpl; intros ->; reflexivity. Qed.

Lemma contains_site_name (prefix : string) (k : Z) :
  contains prefix (site_name prefix k) = true.
Proof. apply contains_prefix, prefix_append. Qed.

(** The last piece of a split is the end of the string, or the whole of what
    has been read when no separator was met. *)
Lemma split_last_aux_end (sep s : string) (skip : nat) (cur : string) :
  skip = 0 \/ cur = EmptyString ->
  (exists u, s = String.append u (split_last_aux sep s skip cur))
  \/ (skip = 0 /\ split_last_aux sep s skip cur = String.append cur s).
Proof.
  revert skip cur. induction s as [|c t IH]; intros skip cur H; cbn [split_last_aux].
  - destruct H as [->| ->].
    + right. split; [reflexivity|]. now rewrite append_nil_r.
    + left. exists EmptyString. destruct skip; reflexivity.
  - destruct skip as [|k].
    + destruct (String.prefix sep (String c t)).
      * left. destruct (IH (String.length sep - 1) EmptyString (or_intror eq_refl))
          as [[u Hu]|[_ Hr]].
        -- exists (String c u). cbn [String.append]. f_equal. exact Hu.
        -- exists (String c EmptyString). cbn [String.append]. f_equal. now rewrite Hr.
      * destruct (IH 0 (String.append cur (String c EmptyString)) (or_introl eq_refl))
          as [[u Hu]|[_ Hr]].
        -- left. exists (String c u). cbn [String.append]. f_equal. exact Hu.
        -- right. split; [reflexivity|]. now rewrite Hr, append_assoc.
    + destruct H as [H| ->]; [discriminate|].
      left. destruct (IH k EmptyString (or_intror eq_refl)) as [[u Hu]|[_ Hr]].
      * exists (String c u). cbn [String.append]. f_equal. exact Hu.
      * exists (String c EmptyString). cbn [String.append]. f_equal. now rewrite Hr.
Qed.

Lemma split_last_aux_skip (sep p w : string) :
  split_last_aux sep (String.append p w) (String.length p) EmptyString
  = split_last_aux sep w 0 EmptyString.
Proof.
  induction p as [|c p IH]; simpl; [|exact IH].
  destruct w; reflexivity.
Qed.

(** The last piece of the name [prefix ++ w] is an end of [w]. *)
Lemma split_last_name (prefix w piece : string) :
  split_last prefix (String.append prefix w) = Some piece ->
  exists u, w = String.append u piece.
Proof.
  unfold split_last. destruct prefix as [|c p]; [discriminate|].
  intros [= <-]. simpl.
  destruct (Ascii.ascii_dec c c) as [_|]; [|contradiction].
  rewrite prefix_append. simpl. rewrite Nat.sub_0_r, split_last_aux_skip.
  destruct (split_last_aux_end (String c p) w 0 EmptyString (or_introl eq_refl))
    as [[u Hu]|[_ Hr]].
  - now exists u.
  - exists EmptyString. now rewrite Hr.
Qed.

Lemma of_uint_acc_mono (d : Decimal.uint) (a b : nat) :
  a <= b -> Nat.of_uint_acc d a <= Nat.of_uint_acc d b.
Proof.
  revert a b. induction d; intros a b H; simpl; try assumption;
    apply IHd; rewrite !Nat.tail_mul_spec; lia.
Qed.

(** The number an end of a decimal numeral stands for is not greater than
    the number of the numeral. *)
Lemma end_of_numeral (d d2 : Decimal.uint) (u piece : string) (acc : nat) :
  NilEmpty.string_of_uint d = String.append u piece ->
  NilEmpty.uint_of_string piece = Some d2 ->
  Nat.of_uint_acc d2 0 <= Nat.of_uint_acc d acc.
Proof.
  revert u acc. induction d; intros u acc Hs Hp;
    (destruct u as [|c u];
     [ cbn [String.append] in Hs; subst piece; rewrite NilEmpty.usu in Hp;
       injection Hp as <-; apply of_uint_acc_mono; lia
     | cbn [String.append NilEmpty.string_of_uint] in Hs; try discriminate Hs;
       injection Hs as _ Hs; cbn [Nat.of_uint_acc]; eapply IHd; eassumption ]).
Qed.

Lemma index_of_site_name_le (prefix : string) (k m : nat) :
  index_of_name prefix (site_name prefix (Z.of_nat k)) = Ok m -> m <= k.
Proof.
  unfold index_of_name, site_name. rewrite Nat2Z.id.
  destruct (split_last prefix _) as [piece|] eqn:E; [|discriminate].
  destruct (split_last_name _ _ _ E) as [u Hu].
  unfold int. destruct piece as [|c piece]; [discriminate|].
  destruct (NilEmpty.uint_of_string (String c piece)) as [d2|] eqn:E2; [|discriminate].
  simpl. intros [= <-].
  rewrite <- (Unsigned.of_to k) at 1. unfold Nat.of_uint.
  eapply end_of_numeral; eassumption.
Qed.

(** A name with a numeral of one digit is read back as it is. *)
Lemma index_of_site_name_two (prefix : string) (m : nat) :
  index_of_name prefix (site_name prefix 2) = Ok m -> m = 2.
Proof.
  unfold index_of_name, site_name.
  destruct (split_last prefix _) as [piece|] eqn:E; [|discriminate].
  destruct (split_last_name _ _ _ E) as [u Hu].
  change (str (Z.to_nat 2)) with "2"%string in Hu.
  destruct u as [|c u]; simpl in Hu.
  - subst piece. now intros [= <-].
  - injection Hu as _ Hu. destruct u; [|discriminate].
    simpl in Hu. subst piece. discriminate.
Qed.

(** The name of the merged node is never read as an index. *)
Lemma index_of_merged_name (prefix : string) :
  index_of_name prefix "new_mps_tensor" = Err PyValueError.
Proof.
  unfold index_of_name, split_last.
  destruct prefix as [|c p]; [reflexivity|].
  destruct (split_last_aux_end (String c p) "new_mps_tensor" 0 EmptyString
              (or_introl eq_refl)) as [[u Hu]|[_ Hr]].
  - remember (split_last_aux (String c p) "new_mps_tensor" 0 "") as piece.
    clear Heqpiece.
    repeat (destruct u as [|? u];
            [ simpl in Hu; subst piece; reflexivity
            | simpl in Hu; try discriminate Hu; injection Hu as _ Hu ]).
  - rewrite Hr. reflexivity.
Qed.

End NamesFacts.

(** ** The constructor *)

(** Replaces the comparisons of natural numbers [lia] can settle. *)
Ltac lia_tests :=
  repeat match goal with
         | |- context [?a =? ?b] =>
             first [ replace (a =? b) with true by (symmetry; apply Nat.eqb_eq; lia)
                   | replace (a =? b) with false by (symmetry; apply Nat.eqb_neq; lia) ]
         | |- context [?a <=? ?b] =>
             first [ replace (a <=? b) with true by (symmetry; apply Nat.leb_le; lia)
                   | replace (a <=? b) with false by (symmetry; apply Nat.leb_gt; lia) ]
         | |- context [?a <? ?b] =>
             first [ replace (a <? b) with true by (symmetry; apply Nat.ltb_lt; lia)
                   | replace (a <? b) with false by (symmetry; apply Nat.ltb_ge; lia) ]
         end;
  cbn [orb andb negb].

Module InitFacts.

Import Cx Np Tn Bonds Mps Invariants Fresh TnFacts ChecksFacts OneSiteFacts ChainFacts.
Local Open Scope nat_scope.

Lemma nth_error_set_nth {A} (l : list A) (p k : nat) (x : A) :
  nth_error (Py.set_nth l p x) k
  = if (k =? p) && (p <? length l) then Some x else nth_error l k.
Proof.
  revert p k. induction l as [|a l IH]; intros [|p] [|k]; simpl; try reflexivity.
  - now rewrite andb_false_r.
  - rewrite IH. reflexivity.
Qed.

Lemma nth_error_map_seq {A} (f : nat -> A) (n k : nat) :
  nth_error (map f (seq 0 n)) k = if k <? n then Some (f k) else None.
Proof.
  rewrite nth_error_map, nth_error_seq.
  destruct (k <? n); reflexivity.
Qed.

Lemma map_seq_ext {A} (l : list A) (f : nat -> A) (n : nat) :
  length l = n ->
  (forall k, k < n -> nth_error l k = Some (f k)) ->
  l = map f (seq 0 n).
Proof.
  intros Hl H. apply CeilingsFacts.nth_error_ext. intros k.
  rewrite nth_error_map_seq. destruct (Nat.ltb_spec k n).
  - now apply H.
  - apply nth_error_None. lia.
Qed.

(** [connect_in] on a list given by a function of the position. *)
Lemma connect_in_map (c : nat) (f : nat -> Node) (n : nat) (i j : Z)
    (pi pj p q t1 t2 d : nat) :
  pi < n -> pj < n ->
  Py.position n i = Some pi -> Py.position n j = Some pj ->
  nth_error (axes (f pi)) p = Some (Dangling t1, d) ->
  nth_error (axes (f pj)) q = Some (Dangling t2, d) ->
  connect_in c (map f (seq 0 n)) i p j q
  = Ok (map (fun k =>
               if k =? pj
               then mkNode (name (f pj)) (set_edge (axes (f pj)) q (Bond c false))
                      (value (f pj))
               else if k =? pi
               then mkNode (name (f pi)) (set_edge (axes (f pi)) p (Bond c true))
                      (value (f pi))
               else f k)
            (seq 0 n)).
Proof.
  intros Hpi Hpj Pi Pj Hp Hq. unfold connect_in.
  rewrite length_map, length_seq, Pi, Pj. cbv [of_option rbind].
  rewrite !nth_error_map_seq.
  destruct (Nat.ltb_spec pi n); [|lia]. destruct (Nat.ltb_spec pj n); [|lia].
  unfold connect. rewrite Hp, Hq. cbn [is_dangling andb].
  rewrite Nat.eqb_refl. f_equal.
  apply map_seq_ext.
  - now rewrite !set_nth_length, length_map, length_seq.
  - intros k Hk.
    rewrite !nth_error_set_nth, !set_nth_length, !length_map, !length_seq.
    rewrite nth_error_map_seq.
    destruct (Nat.ltb_spec pi n); [|lia]. destruct (Nat.ltb_spec pj n); [|lia].
    destruct (Nat.ltb_spec k n); [|lia].
    rewrite !andb_true_r.
    destruct (k =? pj); [reflexivity|]. destruct (k =? pi); reflexivity.
Qed.

Section Init.

Variable prefix : string.
Variables n pd : nat.
Hypothesis Hn : 3 <= n.

(** One round of the loop. *)
Lemma connect_interior_step (j : nat) :
  j + 3 < n ->
  connect_interior (partial_nodes prefix n pd j, S j) (Z.of_nat (S j))
  = Ok (partial_nodes prefix n pd (S j), S (S j)).
Proof. 
  intros Hj. unfold connect_interior, connect_in. simpl fst. simpl snd.
  unfold partial_nodes at 1 2. rewrite length_map, length_seq.
  rewrite !position_nonneg by lia.
  cbv [of_option rbind].
  replace (Z.to_nat (Z.of_nat (S j))) with (S j) by lia.
  replace (Z.to_nat (Z.of_nat (S j) + 1)) with (S (S j)) by lia.
  unfold partial_nodes at 1 2. rewrite !nth_error_map_seq.
  destruct (Nat.ltb_spec (S j) n); [|lia].
  destruct (Nat.ltb_spec (S (S j)) n); [|lia].
  unfold connect, partial_node at 1 2. cbn [axes name value].
  unfold partial_axes at 1 2.
  replace ((S j =? 0) || (S j =? n - 1)) with false
    by (symmetry; apply orb_false_intro; apply Nat.eqb_neq; lia).
  replace ((S (S j) =? 0) || (S (S j) =? n - 1)) with false
    by (symmetry; apply orb_false_intro; apply Nat.eqb_neq; lia).
  cbn [nth_error].
  replace (S j <=? j) with false by (symmetry; apply Nat.leb_gt; lia).
  replace ((2 <=? S (S j)) && (S (S j) <=? j + 1)) with false
    by (symmetry; apply andb_false_intro2; apply Nat.leb_gt; lia).
  cbn [is_dangling andb Nat.eqb set_edge].
  f_equal. f_equal. unfold partial_nodes.
  apply map_seq_ext.
  - now rewrite !set_nth_length, length_map, length_seq.
  - intros k Hk. rewrite !nth_error_set_nth, !set_nth_length, !length_map, !length_seq.
    rewrite nth_error_map_seq.
    destruct (Nat.ltb_spec (S j) n); [|lia].
    destruct (Nat.ltb_spec (S (S j)) n); [|lia].
    destruct (Nat.ltb_spec k n); [|lia].
    rewrite !andb_true_r.
    unfold partial_node, partial_axes.
    destruct (Nat.eqb_spec k (S (S j))) as [->|Hk2].
    + replace ((S (S j) =? 0) || (S (S j) =? n - 1)) with false
        by (symmetry; apply orb_false_intro; apply Nat.eqb_neq; lia).
      replace ((2 <=? S (S j)) && (S (S j) <=? S j + 1)) with true
        by (symmetry; apply andb_true_intro; split; apply Nat.leb_le; lia).
      replace (S (S j) <=? j) with false by (symmetry; apply Nat.leb_gt; lia).
      replace (S (S j) <=? S j) with false by (symmetry; apply Nat.leb_gt; lia).
      simpl. replace (j - 0) with j by lia. reflexivity.
    + destruct (Nat.eqb_spec k (S j)) as [->|Hk1].
      * replace ((S j =? 0) || (S j =? n - 1)) with false
          by (symmetry; apply orb_false_intro; apply Nat.eqb_neq; lia).
        replace (S j <=? S j) with true by (symmetry; apply Nat.leb_le; lia).
        replace ((2 <=? S j) && (S j <=? S j + 1)) with ((2 <=? S j) && (S j <=? j + 1)).
        { reflexivity. }
        f_equal. destruct (Nat.leb_spec (S j) (j + 1)), (Nat.leb_spec (S j) (S j + 1));
                   try reflexivity; lia.
      * destruct ((k =? 0) || (k =? n - 1)); [reflexivity|].
        replace ((2 <=? k) && (k <=? S j + 1)) with ((2 <=? k) && (k <=? j + 1))
          by (f_equal; destruct (Nat.leb_spec k (j + 1)), (Nat.leb_spec k (S j + 1));
              try reflexivity; lia).
        replace (k <=? S j) with (k <=? j)
          by (destruct (Nat.leb_spec k j), (Nat.leb_spec k (S j)); try reflexivity; lia).
        reflexivity.
Qed.

Lemma connect_interior_loop (m j : nat) :
  j + m + 3 <= n ->
  rfold connect_interior (map (fun k => (1 + Z.of_nat k)%Z) (seq j m))
    (partial_nodes prefix n pd j, S j)
  = Ok (partial_nodes prefix n pd (j + m), S (j + m)).
Proof.
  revert j. induction m as [|m IH]; intros j Hj; cbn [seq map rfold].
  - now rewrite Nat.add_0_r.
  - replace (1 + Z.of_nat j)%Z with (Z.of_nat (S j)) by lia.
    rewrite connect_interior_step by lia. cbn [rbind].
    rewrite IH by lia. do 3 f_equal; lia.
Qed.

(** The nodes before the first [tn.connect]. *)
Lemma initial_nodes (d : Z) :
  new_node (zero_state d false) (site_name prefix 0)
  :: map (fun x => new_node (zero_state d true) (site_name prefix (x + 1)))
       (Py.range (Z.of_nat n - 2))
  ++ [new_node (zero_state d false) (site_name prefix (Z.of_nat n - 1))]
  = partial_nodes prefix n (physical d) 0.
Proof.
  unfold partial_nodes. apply map_seq_ext.
  - simpl. rewrite length_app, length_map. unfold Py.range.
    rewrite length_map, length_seq. simpl. lia.
  - intros k Hk. unfold partial_node, partial_axes.
    destruct k as [|k]; [reflexivity|]. cbn [nth_error].
    destruct (Nat.ltb_spec k (n - 2)) as [Hlt|Hge].
    + rewrite nth_error_app1
        by (unfold Py.range; rewrite !length_map, length_seq; lia).
      unfold Py.range. rewrite map_map, nth_error_map, nth_error_seq.
      destruct (Nat.ltb_spec k (Z.to_nat (Z.of_nat n - 2))); [|lia].
      cbn [option_map].
      replace ((S k =? 0) || (S k =? n - 1)) with false
        by (symmetry; apply orb_false_intro; apply Nat.eqb_neq; lia).
      replace ((2 <=? S k) && (S k <=? 0 + 1)) with false
        by (symmetry; destruct (Nat.leb_spec 2 (S k)), (Nat.leb_spec (S k) (0 + 1));
            try reflexivity; lia).
      replace (Z.of_nat (0 + k) + 1)%Z with (Z.of_nat (S k)) by lia.
      reflexivity.
    + rewrite nth_error_app2
        by (unfold Py.range; rewrite !length_map, length_seq; lia).
      unfold Py.range. rewrite !length_map, length_seq.
      replace (k - Z.to_nat (Z.of_nat n - 2)) with 0 by lia.
      replace ((S k =? 0) || (S k =? n - 1)) with true
        by (symmetry; apply orb_true_intro; right; apply Nat.eqb_eq; lia).
      replace (Z.of_nat n - 1)%Z with (Z.of_nat (S k)) by lia.
      reflexivity.
Qed.


(** The two connections at the ends of the chain. *)
Lemma connect_ends :
  (nodes <- connect_in (n - 2) (partial_nodes prefix n pd (n - 3)) 0 1 1 1 ;;
   connect_in (S (n - 2)) nodes (-1) 1 (-2) 2)%result
  = Ok (fresh_nodes prefix n pd).
Proof.
  unfold partial_nodes.
  rewrite (connect_in_map (n - 2) (partial_node prefix n pd (n - 3)) n 0 1 0 1 1 1 1 1 1);
    try lia; try (apply position_nonneg; lia).
  2: { unfold partial_node, partial_axes. reflexivity. }
  2: { unfold partial_node, partial_axes. cbn [axes].
       replace ((1 =? 0) || (1 =? n - 1)) with false
         by (symmetry; apply orb_false_intro; apply Nat.eqb_neq; lia).
       reflexivity. }
  cbn [rbind].
  rewrite (connect_in_map (S (n - 2)) _ n (-1) (-2) (n - 1) (n - 2) 1 2 1 2 1);
    try lia.
  2: { rewrite position_negative by lia. f_equal. lia. }
  2: { rewrite position_negative by lia. f_equal. lia. }
  2: { replace (n - 1 =? 1) with false by (symmetry; apply Nat.eqb_neq; lia).
       replace (n - 1 =? 0) with false by (symmetry; apply Nat.eqb_neq; lia).
       unfold partial_node, partial_axes. cbn [axes].
       replace ((n - 1 =? 0) || (n - 1 =? n - 1)) with true
         by (symmetry; apply orb_true_intro; right; apply Nat.eqb_refl).
       reflexivity. }
  2: { unfold partial_node, partial_axes. cbn [axes name value].
       replace ((1 =? 0) || (1 =? n - 1)) with false
         by (symmetry; apply orb_false_intro; apply Nat.eqb_neq; lia).
       replace ((n - 2 =? 0) || (n - 2 =? n - 1)) with false
         by (symmetry; apply orb_false_intro; apply Nat.eqb_neq; lia).
       replace (n - 2 <=? n - 3) with false by (symmetry; apply Nat.leb_gt; lia).
       destruct (Nat.eqb_spec (n - 2) 1) as [E|E]; cbn [axes set_edge nth_error].
       - replace (1 <=? n - 3) with false by (symmetry; apply Nat.leb_gt; lia).
         reflexivity.
       - replace (n - 2 =? 0) with false by (symmetry; apply Nat.eqb_neq; lia).
         reflexivity. }
  f_equal. unfold fresh_nodes. apply map_ext_in. intros k Hk. apply in_seq in Hk.
  unfold fresh_node, fresh_axes, bond_number, partial_node, partial_axes.
  cbn [axes name value].
  destruct (Nat.eq_dec k (n - 2)) as [->|Hk2];
    [|destruct (Nat.eq_dec k (n - 1)) as [->|Hk1];
      [|destruct (Nat.eq_dec k 1) as [->|Hk3];
        [|destruct (Nat.eq_dec k 0) as [->|Hk4]]]].
  - destruct (Nat.eq_dec (n - 2) 1) as [E|E].
    + rewrite E. lia_tests. cbn [axes name value set_edge]. lia_tests.
      repeat f_equal; lia.
    + lia_tests. cbn [axes name value set_edge]. lia_tests. repeat f_equal; lia.
  - lia_tests. cbn [axes name value set_edge]. lia_tests. repeat f_equal; lia.
  - lia_tests. cbn [axes name value set_edge]. lia_tests. repeat f_equal; lia.
  - lia_tests. cbn [axes name value set_edge]. lia_tests. repeat f_equal; lia.
  - lia_tests. cbn [axes name value set_edge]. lia_tests. repeat f_equal; lia.
Qed.

End Init.

(** [MPS.__init__] in closed form. *)
Lemma init_closed (nqudits d : Z) (prefix : string) :
  (2 <= nqudits)%Z ->
  exists ceilings,
    Ceilings.max_bond_dimensions nqudits d = Some ceilings
    /\ init nqudits d prefix
       = Ok (mkMPS nqudits d prefix
               (fresh_nodes prefix (Z.to_nat nqudits) (physical d)) ceilings [] []).
Proof.
  intros HN.
  destruct (CeilingsFacts.max_bond_dimensions_total nqudits d HN) as [c Hc].
  exists c. split; [assumption|].
  unfold init. destruct (Z.ltb_spec nqudits 2); [lia|].
  rewrite Hc.
  destruct (Z.eq_dec nqudits 2) as [->|Hne].
  - reflexivity.
  - assert (Hn : 3 <= Z.to_nat nqudits) by lia.
    remember (Z.to_nat nqudits) as n eqn:En.
    assert (EN : nqudits = Z.of_nat n) by lia.
    clear En. subst nqudits.
    rewrite <- app_comm_cons, (initial_nodes prefix n Hn d).
    unfold Py.range2.
    replace (Z.to_nat (Z.of_nat n - 2 - 1)) with (n - 3) by lia.
    rewrite (connect_interior_loop prefix n (physical d) Hn (n - 3) 0) by lia.
    cbn [rbind fst snd].
    destruct (Z.ltb_spec (Z.of_nat n) 3); [lia|].
    replace (S (0 + (n - 3))) with (n - 2) by lia.
    cbn [Nat.add].
    rewrite (connect_ends prefix n (physical d) Hn).
    reflexivity.
Qed.

End InitFacts.

(** ** The new chain satisfies the invariants *)

Module FreshFacts.

Import Cx Np Tn Bonds Mps Invariants Fresh.
Import TnFacts ChecksFacts OneSiteFacts ChainFacts InitFacts.
Local Open Scope nat_scope.

Lemma bond_number_inj (n i j : nat) :
  2 <= n -> i < n - 1 -> j < n - 1 -> bond_number n i = bond_number n j -> i = j.
Proof.
  unfold bond_number. intros Hn Hi Hj.
  destruct (Nat.eqb_spec n 2); [lia|].
  destruct (Nat.eqb_spec i 0), (Nat.eqb_spec j 0),
    (Nat.eqb_spec i (n - 2)), (Nat.eqb_spec j (n - 2)); lia.
Qed.

Lemma fresh_bids_nth (n k : nat) :
  k < n - 1 -> nth k (fresh_bids n) 0 = bond_number n k.
Proof.
  intros H. unfold fresh_bids.
  rewrite (nth_indep _ 0 (bond_number n 0)) by (rewrite length_map, length_seq; lia).
  rewrite map_nth, seq_nth by lia. reflexivity.
Qed.

Lemma fresh_bdims_nth (n k : nat) : k < n - 1 -> nth k (fresh_bdims n) 0 = 1.
Proof.
  intros H. unfold fresh_bdims. apply nth_repeat_lt. exact H.
Qed.

Lemma fresh_bids_nodup (n : nat) : 2 <= n -> NoDup (fresh_bids n).
Proof.
  intros Hn. apply (NoDup_nth _ 0). unfold fresh_bids at 1 2.
  rewrite length_map, length_seq. intros i j Hi Hj E.
  rewrite !fresh_bids_nth in E by assumption.
  now apply (bond_number_inj n).
Qed.

Lemma fresh_chain_inv (nqudits d : Z) (prefix : string) (c : list Z) :
  (2 <= nqudits)%Z ->
  chain_inv
    (mkMPS nqudits d prefix (fresh_nodes prefix (Z.to_nat nqudits) (physical d)) c [] [])
    (fresh_bids (Z.to_nat nqudits)) (fresh_bdims (Z.to_nat nqudits)).
Proof.
  intros HN. set (n := Z.to_nat nqudits). assert (Hn : 2 <= n) by lia.
  constructor; cbn [_nodes _nqudits]; unfold fresh_nodes;
    rewrite ?length_map, ?length_seq.
  - lia.
  - exact Hn.
  - unfold fresh_bids. now rewrite length_map, length_seq.
  - unfold fresh_bdims. now rewrite repeat_length.
  - now apply fresh_bids_nodup.
  - intros k nd Hk. rewrite nth_error_map_seq in Hk.
    destruct (Nat.ltb_spec k n); [|discriminate]. injection Hk as <-.
    unfold fresh_node, get_all_dangling, bond_dims, axes_bonds, edges, expected_bonds, fresh_axes.
    cbn [axes].
    destruct (Nat.eqb_spec k 0) as [->|Hk0].
    + cbn [map fst snd filter is_dangling length flat_map app].
      split; [reflexivity|].
      destruct (Nat.eqb_spec 0 (n - 1)); [lia|].
      rewrite fresh_bids_nth, fresh_bdims_nth by lia. reflexivity.
    + destruct (Nat.eqb_spec k (n - 1)) as [->|Hk1].
      * cbn [map fst snd filter is_dangling length flat_map app].
        split; [reflexivity|].
        rewrite fresh_bids_nth, fresh_bdims_nth by lia.
        replace (n - 1 - 1) with (n - 2) by lia. reflexivity.
      * cbn [map fst snd filter is_dangling length flat_map app].
        split; [reflexivity|].
        rewrite !fresh_bids_nth, !fresh_bdims_nth by lia. reflexivity.
Qed.

End FreshFacts.

(** ** Contraction of tensors with a single non-zero entry *)

Module DeltaFacts.

Import Cx Np Tn Bonds Mps Invariants Fresh CxFacts.
Import TnFacts ChecksFacts OneSiteFacts ChainFacts InitFacts.
Local Open Scope nat_scope.

Lemma allzero_app (l1 l2 : list nat) :
  allzero (l1 ++ l2) = allzero l1 && allzero l2.
Proof. apply forallb_app. Qed.

Lemma allzero_firstn_nil (c : nat) : allzero (firstn c []) = true.
Proof. now destruct c. Qed.

Lemma allzero_assemble (ps ax ks fr : list nat) :
  allzero (assemble ps ax ks fr)
  = used_zero ps ax ks && allzero (firstn (nfree ps ax) fr).
Proof.
  revert fr. induction ps as [|p ps IH]; intros fr.
  - reflexivity.
  - unfold nfree, used_zero. cbn [assemble forallb filter].
    destruct (index_of p ax) as [m|].
    + change (allzero (nth m ks 0 :: assemble ps ax ks fr))
        with ((0 =? nth m ks 0) && allzero (assemble ps ax ks fr)).
      rewrite IH. unfold nfree, used_zero. rewrite (Nat.eqb_sym 0).
      now rewrite andb_assoc.
    + change (allzero (hd 0 fr :: assemble ps ax ks (tl fr)))
        with ((0 =? hd 0 fr) && allzero (assemble ps ax ks (tl fr))).
      rewrite IH. unfold nfree, used_zero. cbn [length andb].
      destruct fr as [|x fr]; cbn [hd tl firstn].
      * now rewrite allzero_firstn_nil, !andb_true_r.
      * change (allzero (x :: firstn
                  (length (filter (fun p0 => match index_of p0 ax with
                                             | Some _ => false
                                             | None => true
                                             end) ps)) fr))
          with ((0 =? x) && allzero (firstn
                  (length (filter (fun p0 => match index_of p0 ax with
                                             | Some _ => false
                                             | None => true
                                             end) ps)) fr)).
        destruct (0 =? x); cbn [andb]; [reflexivity|]. now rewrite andb_false_r.
Qed.

Lemma allzero_nth (ks : list nat) (m : nat) : allzero ks = true -> nth m ks 0 = 0.
Proof.
  unfold allzero. rewrite forallb_forall. intros H.
  destruct (Nat.ltb_spec m (length ks)) as [Hm|Hm].
  - symmetry. apply Nat.eqb_eq. apply H. now apply nth_In.
  - now apply nth_overflow.
Qed.

Lemma used_zero_of_allzero (ps ax ks : list nat) :
  allzero ks = true -> used_zero ps ax ks = true.
Proof.
  intros H. unfold used_zero. apply forallb_forall. intros p _.
  destruct (index_of p ax); [|reflexivity].
  rewrite (allzero_nth ks n H). reflexivity.
Qed.

Lemma index_of_nth (ax : list nat) (m : nat) :
  NoDup ax -> m < length ax -> index_of (nth m ax 0) ax = Some m.
Proof.
  revert m. induction ax as [|q ax IH]; intros m Hnd Hm; simpl in *; [lia|].
  inversion Hnd as [|? ? Hq Hnd']; subst.
  destruct m as [|m].
  - now rewrite Nat.eqb_refl.
  - destruct (Nat.eqb_spec (nth m ax 0) q) as [E|E].
    + exfalso. apply Hq. rewrite <- E. apply nth_In. lia.
    + rewrite IH by (assumption || lia). reflexivity.
Qed.

Lemma allzero_of_used_zero (r : nat) (ax ks : list nat) :
  NoDup ax -> Forall (fun p => p < r) ax -> length ks = length ax ->
  used_zero (seq 0 r) ax ks = true -> allzero ks = true.
Proof.
  intros Hnd Hlt Hlen Hu. unfold used_zero in Hu. rewrite forallb_forall in Hu.
  unfold allzero. apply forallb_forall. intros x Hx.
  destruct (In_nth ks x 0 Hx) as (m & Hm & <-).
  rewrite Forall_forall in Hlt.
  assert (Hp : nth m ax 0 < r) by (apply Hlt, nth_In; lia).
  specialize (Hu (nth m ax 0)). rewrite index_of_nth in Hu by (assumption || lia).
  rewrite Nat.eqb_sym. apply Hu. apply in_seq. lia.
Qed.

Lemma all_indices_length (sh idx : list nat) :
  In idx (all_indices sh) -> length idx = length sh.
Proof.
  revert idx. induction sh as [|d sh IH]; intros idx H; simpl in *.
  - destruct H as [<-|[]]. reflexivity.
  - apply in_flat_map in H. destruct H as (i & _ & H).
    apply in_map_iff in H. destruct H as (t & <- & Ht). simpl. f_equal. now apply IH.
Qed.

Lemma Csum_app (l1 l2 : list C) : Csum (l1 ++ l2) = Cadd (Csum l1) (Csum l2).
Proof.
  induction l1 as [|a l1 IH]; simpl.
  - now rewrite Cadd_0_l.
  - rewrite IH. unfold Cadd. simpl. f_equal; lra.
Qed.

(** The sum over all multi-indices of a function that is one at the
    all-zero index and zero elsewhere. *)
Lemma Csum_delta (sh : list nat) (f : list nat -> C) :
  Forall (fun d => 0 < d) sh ->
  (forall ks, In ks (all_indices sh) -> f ks = delta ks) ->
  Csum (map f (all_indices sh)) = C1.
Proof.
  revert f. induction sh as [|d sh IH]; intros f Hpos Hf.
  - simpl. rewrite (Hf []) by (now left). unfold delta. simpl. apply Cadd_0_r.
  - inversion Hpos as [|? ? Hd Hsh]; subst. simpl.
    destruct d as [|d]; [lia|]. simpl. rewrite map_app, Csum_app, map_map.
    rewrite (IH (fun t => f (0 :: t))); [|assumption|].
    + rewrite Csum_zero; [apply Cadd_0_r|].
      intros x Hx. apply in_map_iff in Hx. destruct Hx as (ks & <- & Hks).
      rewrite Hf.
      * apply in_flat_map in Hks. destruct Hks as (i & Hi & Hks).
        apply in_map_iff in Hks. destruct Hks as (t & <- & _).
        apply in_seq in Hi. unfold delta. simpl.
        destruct i; [lia|]. reflexivity.
      * simpl. apply in_or_app. right. exact Hks.
    + intros ks Hks. rewrite Hf.
      * unfold delta. reflexivity.
      * simpl. apply in_or_app. left. apply in_map. exact Hks.
Qed.

(** [np.tensordot] of two such tensors is such a tensor. *)
Lemma tensordot_delta (a b : list nat -> C) (ra rb : nat)
    (axa axb cdims : list nat) (nfa : nat) (idx : list nat) :
  (forall i, length i = ra -> a i = delta i) ->
  (forall i, length i = rb -> b i = delta i) ->
  NoDup axa -> Forall (fun p => p < ra) axa ->
  length cdims = length axa -> Forall (fun d => 0 < d) cdims ->
  nfree (seq 0 ra) axa = nfa ->
  nfa + nfree (seq 0 rb) axb = length idx ->
  tensordot_entry a b ra rb axa axb cdims nfa idx = delta idx.
Proof.
  intros Ha Hb Hnd Hlt Hlen Hpos Hfa Hfb. unfold tensordot_entry.
  assert (La : forall ps ax ks fr, length (assemble ps ax ks fr) = length ps).
  { clear. induction ps as [|p ps IH]; intros; simpl; [reflexivity|].
    destruct (index_of p ax); simpl; now rewrite IH. }
  assert (Hsplit : allzero idx
                   = allzero (firstn nfa idx) && allzero (skipn nfa idx)).
  { rewrite <- allzero_app. now rewrite firstn_skipn. }
  assert (Hterm : forall ks, In ks (all_indices cdims) ->
            Cmul (a (assemble (seq 0 ra) axa ks (firstn nfa idx)))
                 (b (assemble (seq 0 rb) axb ks (skipn nfa idx)))
            = if allzero idx then delta ks else C0).
  { intros ks Hks. apply all_indices_length in Hks.
    rewrite Ha by (now rewrite La, length_seq).
    rewrite Hb by (now rewrite La, length_seq).
    unfold delta. rewrite !allzero_assemble, Hfa.
    rewrite firstn_all2 by (rewrite length_firstn; lia).
    rewrite (firstn_all2 (skipn nfa idx)) by (rewrite length_skipn; lia).
    rewrite Hsplit.
    destruct (allzero ks) eqn:Hz.
    - rewrite !used_zero_of_allzero by assumption. simpl.
      destruct (allzero (firstn nfa idx)), (allzero (skipn nfa idx)); simpl;
        auto using Cmul_1_l, Cmul_0_l, Cmul_0_r.
    - destruct (used_zero (seq 0 ra) axa ks) eqn:Hu.
      + apply allzero_of_used_zero in Hu; [congruence| assumption | assumption | lia].
      + simpl. rewrite Cmul_0_l.
        now destruct (allzero (firstn nfa idx) && allzero (skipn nfa idx)). }
  rewrite (map_ext_in _ _ _ Hterm).
  unfold delta at 2. destruct (allzero idx).
  - apply Csum_delta; [assumption|]. intros; reflexivity.
  - apply Csum_zero. intros x Hx. apply in_map_iff in Hx. now destruct Hx as (? & <- & _).
Qed.

Lemma index_of_none (p : nat) (l : list nat) : index_of p l = None <-> ~ In p l.
Proof.
  induction l as [|q l IH]; simpl; [tauto|].
  destruct (Nat.eqb_spec p q) as [->|Hne].
  - split; [discriminate | intros H; exfalso; apply H; now left].
  - destruct (index_of p l); simpl.
    + split; [discriminate|]. intros H. exfalso.
      assert (Hn : ~ In p l) by tauto.
      apply IH in Hn. discriminate.
    + split; [|reflexivity]. intros _ [E|E]; [congruence|].
      now apply (proj1 IH).
Qed.

Lemma axis_unique (l : list (Edge * nat)) (p i : nat) (r : bool) (d : nat) :
  NoDup (flat_map bond_id (map fst l)) ->
  nth_error l p = Some (Bond i r, d) ->
  find_axis (has_id i) l = p.
Proof.
  revert p. induction l as [|[e0 d0] l IH]; intros p Hnd Hp; [now destruct p|].
  simpl in *. destruct p as [|p]; simpl in Hp.
  - injection Hp as -> ->. simpl. now rewrite Nat.eqb_refl.
  - destruct e0 as [t|j q]; simpl in *.
    + f_equal. now apply IH.
    + inversion Hnd as [|? ? Hj Hnd']; subst.
      destruct (Nat.eqb_spec i j) as [->|Hne].
      * exfalso. apply Hj. apply in_flat_map. exists (Bond j r). split; [|simpl; auto].
        apply in_map_iff. exists (Bond j r, d). split; [reflexivity|].
        eapply nth_error_In; eassumption.
      * f_equal. now apply IH.
Qed.

Lemma axis_found (l : list (Edge * nat)) (i : nat) :
  In i (flat_map bond_id (map fst l)) ->
  exists r d, nth_error l (find_axis (has_id i) l) = Some (Bond i r, d).
Proof.
  intros H. apply in_flat_map in H. destruct H as (e & He & Hi).
  apply in_map_iff in He. destruct He as ([e' d] & <- & Hin).
  destruct e' as [t|j r]; simpl in Hi; [contradiction|]. destruct Hi as [->|[]].
  rewrite find_axis_nth.
  destruct (find (fun a => has_id i (fst a)) l) as [[e1 d1]|] eqn:E.
  - apply find_some in E. destruct E as [_ E]. simpl in E.
    destruct e1 as [t|j q]; [discriminate|]. apply Nat.eqb_eq in E. subst.
    now exists q, d1.
  - exfalso. apply (find_none _ _ E) in Hin. simpl in Hin.
    now rewrite Nat.eqb_refl in Hin.
Qed.

Section Axes.

Variable n : Node.
Variable ids : list nat.
Hypothesis Hnd : NoDup (bond_ids n).
Hypothesis Hids : NoDup ids.
Hypothesis Hincl : incl ids (bond_ids n).

Lemma axis_of_bond_lt (i : nat) : In i ids -> axis_of_bond n i < rank n.
Proof.
  intros Hi. apply Hincl in Hi. destruct (axis_found (axes n) i Hi) as (r & d & E).
  unfold axis_of_bond, rank. apply nth_error_Some. congruence.
Qed.

Lemma axis_of_bond_inj (i j : nat) :
  In i ids -> In j ids -> axis_of_bond n i = axis_of_bond n j -> i = j.
Proof.
  intros Hi Hj E. apply Hincl in Hi. apply Hincl in Hj.
  destruct (axis_found (axes n) i Hi) as (r & d & Ei).
  destruct (axis_found (axes n) j Hj) as (r' & d' & Ej).
  unfold axis_of_bond in E. rewrite E in Ei. congruence.
Qed.

Lemma contracted_axes_nodup_incl (l : list nat) :
  NoDup l -> incl l ids -> NoDup (map (axis_of_bond n) l).
Proof.
  induction l as [|i l IH]; intros Hl Hsub; simpl; constructor.
  - intros H. apply in_map_iff in H. destruct H as (j & E & Hj).
    inversion Hl; subst.
    assert (j = i).
    { apply axis_of_bond_inj; [apply Hsub; now right | apply Hsub; now left | assumption]. }
    subst. contradiction.
  - inversion Hl; subst. apply IH; [assumption|].
    intros x Hx. apply Hsub. now right.
Qed.

Lemma contracted_axes_nodup : NoDup (map (axis_of_bond n) ids).
Proof. apply contracted_axes_nodup_incl; [assumption | apply incl_refl]. Qed.

Lemma contracted_axes_lt : Forall (fun p => p < rank n) (map (axis_of_bond n) ids).
Proof.
  apply Forall_forall. intros p Hp. apply in_map_iff in Hp.
  destruct Hp as (i & <- & Hi). now apply axis_of_bond_lt.
Qed.

Lemma free_axis_iff (p : nat) (e : Edge) (d : nat) :
  nth_error (axes n) p = Some (e, d) ->
  match index_of p (map (axis_of_bond n) ids) with
  | Some _ => false
  | None => true
  end = negb (is_shared ids e).
Proof.
  intros Hp. destruct (is_shared ids e) eqn:Hs; simpl.
  - destruct e as [t|i r]; [discriminate|]. simpl in Hs. apply mem_In in Hs.
    assert (E : axis_of_bond n i = p) by (now apply (axis_unique _ p i r d)).
    destruct (index_of p (map (axis_of_bond n) ids)) eqn:Ei; [reflexivity|].
    exfalso. apply index_of_none in Ei. apply Ei. rewrite <- E. now apply in_map.
  - destruct (index_of p (map (axis_of_bond n) ids)) eqn:Ei; [|reflexivity].
    exfalso.
    assert (Hin : In p (map (axis_of_bond n) ids)).
    { destruct (in_dec Nat.eq_dec p (map (axis_of_bond n) ids)) as [H|H]; [assumption|].
      apply index_of_none in H. congruence. }
    apply in_map_iff in Hin. destruct Hin as (i & E & Hi).
    destruct (axis_found (axes n) i (Hincl i Hi)) as (r & d' & Ex).
    unfold axis_of_bond in E. rewrite E, Hp in Ex. injection Ex as -> ->.
    simpl in Hs. apply mem_In in Hi. congruence.
Qed.

Lemma nfree_remaining :
  nfree (seq 0 (rank n)) (map (axis_of_bond n) ids) = length (remaining ids n).
Proof.
  unfold nfree, remaining, rank.
  assert (H : forall l k,
            (forall p a, nth_error l p = Some a ->
                         nth_error (axes n) (k + p) = Some a) ->
            length (filter (fun p => match index_of p (map (axis_of_bond n) ids) with
                                     | Some _ => false
                                     | None => true
                                     end) (seq k (length l)))
            = length (filter (fun a => negb (is_shared ids (fst a))) l)).
  { induction l as [|[e d] l IH]; intros k Hl; simpl; [reflexivity|].
    assert (Hk : nth_error (axes n) k = Some (e, d)).
    { replace k with (k + 0) by lia. now apply Hl. }
    assert (HS : forall p a, nth_error l p = Some a ->
                             nth_error (axes n) (S k + p) = Some a).
    { intros p a Hp. replace (S k + p) with (k + S p) by lia. now apply Hl. }
    rewrite (free_axis_iff k e d Hk).
    destruct (negb (is_shared ids e)); simpl; now rewrite (IH (S k) HS). }
  apply (H (axes n) 0). intros p a Hp. exact Hp.
Qed.

End Axes.

(** The contraction of two nodes with a single non-zero entry, at the
    all-zero position, is such a node. *)
Lemma contract_ids_delta (ids : list nat) (n1 n2 : Node) (nm : string) :
  is_delta n1 -> is_delta n2 -> NoDup ids ->
  NoDup (bond_ids n1) -> NoDup (bond_ids n2) ->
  incl ids (bond_ids n1) -> incl ids (bond_ids n2) ->
  (forall i, In i ids -> 0 < dim_at n1 (axis_of_bond n1 i)) ->
  is_delta (contract_ids ids n1 n2 nm).
Proof.
  intros D1 D2 Hids N1 N2 I1 I2 Hpos idx Hidx.
  unfold contract_ids in *. cbn [value]. unfold rank in Hidx. cbn [axes] in Hidx.
  rewrite length_app in Hidx.
  apply tensordot_delta.
  - exact D1.
  - exact D2.
  - now apply contracted_axes_nodup.
  - now apply contracted_axes_lt.
  - now rewrite !length_map.
  - apply Forall_forall. intros d Hd. apply in_map_iff in Hd.
    destruct Hd as (p & <- & Hp). apply in_map_iff in Hp.
    destruct Hp as (i & <- & Hi). now apply Hpos.
  - now apply nfree_remaining.
  - rewrite nfree_remaining by assumption. now symmetry.
Qed.

End DeltaFacts.

(** ** The wave function of the new chain *)

Module WavefunctionFacts.

Import Cx Np Tn Bonds Mps Invariants Fresh CxFacts.
Import TnFacts ChecksFacts OneSiteFacts AllSitesFacts ChainFacts InitFacts FreshFacts DeltaFacts.
Local Open Scope nat_scope.

Lemma contract_between_delta (x y : Node) (nm : string) (ids : list nat) :
  get_shared_edges x y = ids -> ids <> [] ->
  is_delta x -> is_delta y ->
  NoDup (bond_ids x) -> NoDup (bond_ids y) ->
  (forall i, In i ids -> 0 < dim_at x (axis_of_bond x i)) ->
  exists z, contract_between x y nm = Ok z
            /\ axes z = remaining ids x ++ remaining ids y
            /\ is_delta z.
Proof.
  intros E Hne Dx Dy Nx Ny Hpos.
  exists (contract_ids ids x y nm). split; [|split].
  - unfold contract_between. rewrite E. destruct ids; [contradiction|reflexivity].
  - reflexivity.
  - apply contract_ids_delta; try assumption.
    + subst ids. unfold get_shared_edges, get_all_nondangling.
      apply NoDup_filter, NoDup_nodup.
    + subst ids. intros i Hi. unfold get_shared_edges, get_all_nondangling in Hi.
      apply filter_In in Hi. destruct Hi as [Hi _]. now apply nodup_In in Hi.
    + subst ids. intros i Hi. unfold get_shared_edges in Hi.
      apply filter_In in Hi. destruct Hi as [_ Hi]. now apply mem_In.
Qed.

Lemma allzero_unravel (sh : list nat) (k : nat) :
  k < size sh -> allzero (unravel sh k) = (k =? 0).
Proof.
  revert k. induction sh as [|d sh IH]; intros k Hk; simpl in *.
  - destruct k; [reflexivity|lia].
  - assert (Hs : 0 < size sh) by (destruct (size sh); lia).
    change (allzero (k / size sh :: unravel sh (k mod size sh)))
      with ((0 =? k / size sh) && allzero (unravel sh (k mod size sh))).
    rewrite IH by (apply Nat.mod_upper_bound; lia).
    pose proof (Nat.div_mod_eq k (size sh)) as Hdm.
    destruct (k / size sh) as [|q] eqn:Eq; cbn [Nat.eqb andb].
    + destruct (Nat.eqb_spec (k mod size sh) 0), (Nat.eqb_spec k 0);
        try reflexivity; try lia.
    + destruct (Nat.eqb_spec k 0) as [->|]; [|reflexivity].
      rewrite Nat.Div0.div_0_l in Eq. discriminate.
Qed.

Lemma unravel_length (sh : list nat) (k : nat) : length (unravel sh k) = length sh.
Proof.
  revert k. induction sh as [|d sh IH]; intros k; simpl; [reflexivity|].
  now rewrite IH.
Qed.

Lemma reshape_delta (nd : Node) (len : Z) :
  is_delta nd -> len = Z.of_nat (size (node_shape nd)) ->
  reshape_vector (tensor nd) len = Ok (basis_vector (size (node_shape nd)) 0).
Proof.
  intros Hd ->. unfold reshape_vector. cbn [shape tensor entry].
  rewrite Z.eqb_refl, orb_true_r. f_equal. unfold basis_vector.
  apply map_ext_in. intros k Hk. apply in_seq in Hk.
  rewrite Hd by (rewrite unravel_length; unfold node_shape, rank; now rewrite length_map).
  unfold delta. rewrite allzero_unravel by lia. reflexivity.
Qed.

Lemma filter_repeat_dangling (f : Edge * nat -> bool) (t d k : nat) :
  f (Dangling t, d) = true ->
  filter f (repeat (Dangling t, d) k) = repeat (Dangling t, d) k.
Proof.
  intros H. induction k as [|k IH]; simpl; [reflexivity|]. now rewrite H, IH.
Qed.

Lemma bond_ids_repeat (nm : string) (t d k : nat) (l : list (Edge * nat))
    (v : list nat -> C) :
  bond_ids (mkNode nm (repeat (Dangling t, d) k ++ l) v)
  = flat_map bond_id (map fst l).
Proof.
  unfold bond_ids, edges. cbn [axes]. rewrite map_app, flat_map_app.
  induction k as [|k IH]; simpl; [reflexivity|exact IH].
Qed.

Lemma repeat_snoc {A} (x : A) (k : nat) : repeat x k ++ [x] = repeat x (S k).
Proof. induction k as [|k IH]; simpl; [reflexivity|]. now rewrite IH. Qed.

Section Wave.

Variable prefix : string.
Variables n pd off : nat.
Hypothesis Hn : 2 <= n.

Let cnode (k : nat) : Node := copy_node off (fresh_node prefix n pd k).

Local Abbreviation absorbed := (Fresh.absorbed n pd off).

Lemma absorb_step (k : nat) (fin : Node) :
  S k < n -> absorbed k fin ->
  exists fin', contract_between fin (cnode (S k)) default_name = Ok fin'
               /\ absorbed (S k) fin'.
Proof.
  intros Hk (Hd & r & Hax).
  destruct (Nat.eqb_spec k (n - 1)) as [E|_]; [lia|].
  assert (Hb : bond_ids fin = [off + bond_number n k]).
  { destruct fin as [nm ax v]. cbn [axes] in Hax. subst ax.
    now rewrite bond_ids_repeat. }
  assert (Hneq : bond_number n (S k) <> bond_number n k \/ S k = n - 1).
  { destruct (Nat.eq_dec (S k) (n - 1)); [now right|]. left.
    intros E. apply bond_number_inj in E; lia. }
  assert (Hc : exists r1 r2,
             axes (cnode (S k))
             = (Dangling 0, pd) :: (Bond (off + bond_number n k) r1, 1)
               :: (if S k =? n - 1 then []
                   else [(Bond (off + bond_number n (S k)) r2, 1)])).
  { unfold cnode, copy_node, fresh_node, fresh_axes. cbn [axes].
    destruct (Nat.eqb_spec (S k) (n - 1)) as [E|E].
    - cbn [Nat.eqb map shift_edge]. replace (n - 2) with k by lia.
      now exists (negb (n =? 2)), true.
    - cbn [Nat.eqb map shift_edge]. replace (S k - 1) with k by lia.
      now exists false, (negb (S k =? n - 2)). }
  destruct Hc as (r1 & r2 & Hc).
  assert (Hbc : bond_ids (cnode (S k))
                = (off + bond_number n k)
                  :: (if S k =? n - 1 then [] else [off + bond_number n (S k)])).
  { unfold bond_ids, edges. rewrite Hc. destruct (S k =? n - 1); reflexivity. }
  assert (Hsh : get_shared_edges fin (cnode (S k)) = [off + bond_number n k]).
  { unfold get_shared_edges, get_all_nondangling. rewrite Hb, Hbc.
    rewrite (nodup_fixed_point Nat.eq_dec) by (repeat constructor; simpl; tauto).
    cbn [filter mem existsb]. now rewrite Nat.eqb_refl. }
  destruct (contract_between_delta fin (cnode (S k)) default_name _ Hsh)
    as (z & Ez & Hz & Dz).
  - discriminate.
  - exact Hd.
  - intros idx _. reflexivity.
  - rewrite Hb. repeat constructor; simpl; tauto.
  - rewrite Hbc. destruct (Nat.eqb_spec (S k) (n - 1));
      repeat constructor; simpl; try tauto.
    intros [H|[]]. destruct Hneq as [Hneq|Hneq]; lia.
  - intros i [<-|[]]. unfold dim_at, axis_of_bond, node_shape. rewrite Hax.
    rewrite find_axis_app.
    + rewrite map_app, app_nth2 by (rewrite length_map; lia).
      rewrite length_map, Nat.sub_diag. simpl. lia.
    + intros b Hb'. apply repeat_spec in Hb'. now subst.
    + simpl. apply Nat.eqb_refl.
  - exists z. split; [assumption|]. split; [assumption|].
    exists r2. rewrite Hz. unfold remaining. rewrite Hax, Hc.
    rewrite filter_app, filter_repeat_dangling by reflexivity.
    cbn [filter fst is_shared mem existsb negb]. rewrite Nat.eqb_refl.
    cbn [orb negb app].
    destruct (Nat.eqb_spec (S k) (n - 1)) as [E|E]; cbn [filter app].
    + rewrite !app_nil_r. now rewrite repeat_snoc.
    + cbn [fst is_shared mem existsb].
      replace (off + bond_number n (S k) =? off + bond_number n k) with false
        by (symmetry; apply Nat.eqb_neq; destruct Hneq; lia).
      cbn [orb negb]. rewrite !app_nil_r.
      change ((Dangling 0, pd) :: [(Bond (off + bond_number n (S k)) r2, 1)])
        with ([(Dangling 0, pd)] ++ [(Bond (off + bond_number n (S k)) r2, 1)]).
      now rewrite app_assoc, repeat_snoc.
Qed.

Lemma absorb_loop (m k : nat) (fin : Node) :
  k + m = n - 1 -> absorbed k fin ->
  exists fin',
    rfold (fun fin node => contract_between fin node default_name)
      (map cnode (seq (S k) m)) fin = Ok fin'
    /\ absorbed (n - 1) fin'.
Proof.
  revert k fin. induction m as [|m IH]; intros k fin Hk Ha; cbn [seq map rfold].
  - exists fin. split; [reflexivity|]. now replace (n - 1) with k by lia.
  - destruct (absorb_step k fin ltac:(lia) Ha) as (fin1 & E1 & A1).
    rewrite E1. cbn [rbind]. apply IH; [lia | assumption].
Qed.

End Wave.

Lemma size_repeat (pd n : nat) :
  size (map snd (repeat (Dangling 0, pd) n)) = pd ^ n.
Proof. induction n as [|n IH]; simpl; [reflexivity|]. now rewrite IH. Qed.

(** The wave function of the chain the constructor builds. *)
Lemma fresh_wavefunction (nqudits d : Z) (prefix : string) (c : list Z) :
  (2 <= nqudits)%Z -> (1 <= d)%Z ->
  wavefunction
    (mkMPS nqudits d prefix (fresh_nodes prefix (Z.to_nat nqudits) (physical d)) c [] [])
  = Ok (basis_vector (Z.to_nat (d ^ nqudits)) 0).
Proof.
  intros HN Hd. unfold wavefunction.
  rewrite (chain_valid _ _ _ (fresh_chain_inv nqudits d prefix c HN)).
  cbn [negb _nodes _qudit_dimension _nqudits]. unfold get_nodes_copy. cbn [_nodes].
  remember (Z.to_nat nqudits) as n eqn:En. set (pd := physical d).
  set (off := fresh_id (fresh_nodes prefix n pd)).
  destruct n as [|[|n']]; [lia|lia|].
  assert (Hn : 2 <= S (S n')) by lia.
  unfold copy, fresh_nodes. rewrite map_map.
  cbn [seq map].
  assert (Ha : Fresh.absorbed (S (S n')) pd off 0
                 (copy_node off (fresh_node prefix (S (S n')) pd 0))).
  { split; [intros idx _; reflexivity|]. exists true. reflexivity. }
  destruct (absorb_loop prefix (S (S n')) pd off Hn (S n') 0 _ ltac:(lia) Ha)
    as (fin & E & Dfin & r & Hax).
  cbv beta in E. cbn [seq map] in E |- *. rewrite E. cbn [rbind].
  rewrite Nat.eqb_refl, app_nil_r in Hax.
  assert (Hdang : forallb is_dangling (edges fin) = true).
  { unfold edges. rewrite Hax. apply forallb_forall. intros e He.
    apply in_map_iff in He. destruct He as (a & <- & Ha').
    apply repeat_spec in Ha'. now subst. }
  rewrite Hdang.
  assert (Hsize : size (node_shape fin) = Z.to_nat (d ^ nqudits)).
  { unfold node_shape. rewrite Hax.
    replace (S (S (S n') - 1)) with (S (S n')) by lia.
    rewrite size_repeat. unfold pd, physical.
    replace (S (Z.to_nat (d - 1))) with (Z.to_nat d) by lia.
    replace nqudits with (Z.of_nat (S (S n'))) by lia.
    rewrite <- (Z2Nat.id d) at 2 by lia.
    rewrite <- Nat2Z.inj_pow. now rewrite Nat2Z.id. }
  rewrite <- Hsize. apply reshape_delta; [assumption|].
  rewrite Hsize. rewrite Z2Nat.id; [reflexivity|]. apply Z.pow_nonneg. lia.
Qed.

End WavefunctionFacts.

(** ** The norm of the new chain *)

Module NormFacts.

Import Cx Np Tn Bonds Mps Invariants Fresh CxFacts.
Import TnFacts ChecksFacts OneSiteFacts AllSitesFacts ChainFacts InitFacts FreshFacts.
Import DeltaFacts WavefunctionFacts.
Local Open Scope nat_scope.

Lemma conj_delta (idx : list nat) : Cconj (delta idx) = delta idx.
Proof. unfold delta. destruct (allzero idx); [apply Cconj_1 | apply Cconj_0]. Qed.

(** [get_shared_edges] when the connected edges of the first node are
    known and distinct. *)
Lemma shared_edges_of (x y : Node) (l : list nat) :
  bond_ids x = l -> NoDup l ->
  get_shared_edges x y = filter (fun i => mem i (bond_ids y)) l.
Proof.
  intros <- Hnd. unfold get_shared_edges, get_all_nondangling.
  now rewrite (nodup_fixed_point Nat.eq_dec Hnd).
Qed.

Ltac nodup_lia := repeat constructor; cbn [In]; lia.

Section Ladder.

Variables n pd c0 : nat.
Variables ea eb : nat -> nat.
Variables rl rr : nat -> bool.
Variables na nb : nat -> string.
Hypothesis Hn : 2 <= n.
Hypothesis Hpd : 0 < pd.
Hypothesis Ha_inj : forall i j, i < n - 1 -> j < n - 1 -> ea i = ea j -> i = j.
Hypothesis Hb_inj : forall i j, i < n - 1 -> j < n - 1 -> eb i = eb j -> i = j.
Hypothesis Hab : forall i j, i < n - 1 -> j < n - 1 -> ea i <> eb j.
Hypothesis Ha_lt : forall i, i < n - 1 -> ea i < c0.
Hypothesis Hb_lt : forall i, i < n - 1 -> eb i < c0.

Local Abbreviation A := (ladder_a n pd c0 ea rl rr na).
Local Abbreviation B := (ladder_b n pd c0 eb rl rr nb).
Local Abbreviation zip := (zipped n pd c0 ea eb rr).

Lemma ladder_b_delta (k : nat) : is_delta (B k).
Proof. intros idx _. apply conj_delta. Qed.

Lemma ladder_a_delta (k : nat) : is_delta (A k).
Proof. intros idx _. reflexivity. Qed.

(** The facts about the edges around the sites [k] and [k + 1]. *)
Lemma edges_apart (k : nat) :
  S k < n ->
  ea k < c0 /\ eb k < c0 /\ ea k <> eb k
  /\ (S k <> n - 1 ->
      ea (S k) < c0 /\ eb (S k) < c0 /\ ea (S k) <> ea k /\ eb (S k) <> eb k
      /\ ea (S k) <> eb k /\ ea k <> eb (S k)).
Proof.
  intros Hk. repeat split; try (apply Ha_lt; lia); try (apply Hb_lt; lia);
    try (apply Hab; lia).
  - intros E. apply Ha_inj in E; lia.
  - intros E. apply Hb_inj in E; lia.
Qed.

Lemma edges_apart_left (k : nat) :
  S k < n -> eb k <> ea (S k) \/ S k = n - 1.
Proof.
  intros Hk. destruct (Nat.eq_dec (S k) (n - 1)); [now right|left].
  intros E. symmetry in E. apply Hab in E; lia.
Qed.

(** Computes with lists of axes whose edges are told apart by [lia]. *)
Ltac axes_tests :=
  cbn [axes edges bond_ids map fst snd flat_map bond_id app filter mem existsb
       is_shared has_id find_axis remaining negb orb andb is_dangling];
  lia_tests;
  cbn [axes edges bond_ids map fst snd flat_map bond_id app filter mem existsb
       is_shared has_id find_axis remaining negb orb andb is_dangling].

Ltac dims_positive :=
  let i := fresh "i" in
  let Hi := fresh "Hi" in
  intros i Hi; cbn [In] in Hi;
  repeat (destruct Hi as [Hi|Hi]; [subst i|]); try contradiction;
  unfold dim_at, axis_of_bond, node_shape; repeat axes_tests; cbn [nth]; lia.

(** One round of the second loop of [norm]. *)
Lemma zip_step (k : nat) (cur : Node) :
  S k < n -> zip k cur ->
  exists mid new,
    contract_between cur (B k) default_name = Ok mid
    /\ contract_between mid (A (S k)) default_name = Ok new
    /\ zip (S k) new.
Proof.
  intros Hk (Dcur & Hax).
  destruct (edges_apart k Hk) as (F1 & F2 & F3 & F4).
  assert (Hkn : (k =? n - 1) = false) by (apply Nat.eqb_neq; lia).
  rewrite Hkn in Hax.
  assert (Hcarry : match k with
                   | O => True
                   | S j => eb j < c0 /\ eb j <> eb k /\ eb j <> ea k
                   end).
  { destruct k as [|j]; [exact I|].
    destruct (edges_apart j ltac:(lia)) as (G1 & G2 & G3 & G4).
    destruct (G4 ltac:(lia)) as (G5 & G6 & G7 & G8 & G9 & G10).
    repeat split; try assumption; congruence. }
  (* first contraction *)
  assert (Hmid : exists mid,
            contract_between cur (B k) default_name = Ok mid
            /\ is_delta mid
            /\ axes mid = [(Bond (ea k) (rr k), 1); (Bond (eb k) (rr k), 1)]).
  { destruct cur as [nm ax v]. cbn [axes] in Hax. subst ax.
    destruct k as [|j].
    - destruct (contract_between_delta
                  (mkNode nm ([] ++ [(Bond (c0 + 0) true, pd)]
                              ++ [(Bond (ea 0) (rr 0), 1)]) v)
                  (B 0) default_name [c0 + 0]) as (z & Ez & Hz & Dz).
      + rewrite (shared_edges_of _ _ [c0 + 0; ea 0]); [|reflexivity|nodup_lia].
        unfold ladder_b, rail_axes. rewrite Hkn. now repeat axes_tests.
      + discriminate.
      + exact Dcur.
      + apply ladder_b_delta.
      + unfold bond_ids, edges. cbn [axes map fst flat_map bond_id app]. nodup_lia.
      + unfold ladder_b, rail_axes, bond_ids, edges. rewrite Hkn.
        cbn [axes map fst flat_map bond_id app]. nodup_lia.
      + dims_positive.
      + exists z. split; [assumption|]. split; [assumption|].
        rewrite Hz. unfold ladder_b, rail_axes. rewrite Hkn. now repeat axes_tests.
    - destruct Hcarry as (C1 & C2 & C3).
      destruct (contract_between_delta
                  (mkNode nm ([(Bond (eb j) (rr j), 1)] ++ [(Bond (c0 + S j) true, pd)]
                              ++ [(Bond (ea (S j)) (rr (S j)), 1)]) v)
                  (B (S j)) default_name [eb j; c0 + S j]) as (z & Ez & Hz & Dz).
      + rewrite (shared_edges_of _ _ [eb j; c0 + S j; ea (S j)]);
          [|reflexivity|nodup_lia].
        unfold ladder_b, rail_axes. rewrite Hkn. now repeat axes_tests.
      + discriminate.
      + exact Dcur.
      + apply ladder_b_delta.
      + unfold bond_ids, edges. cbn [axes map fst flat_map bond_id app]. nodup_lia.
      + unfold ladder_b, rail_axes, bond_ids, edges. rewrite Hkn.
        cbn [axes map fst flat_map bond_id app]. nodup_lia.
      + dims_positive.
      + exists z. split; [assumption|]. split; [assumption|].
        rewrite Hz. unfold ladder_b, rail_axes. rewrite Hkn. now repeat axes_tests. }
  destruct Hmid as (mid & Emid & Dmid & Hmid).
  exists mid.
  (* second contraction *)
  destruct mid as [nm ax v]. cbn [axes] in Hmid. subst ax.
  destruct (contract_between_delta
              (mkNode nm [(Bond (ea k) (rr k), 1); (Bond (eb k) (rr k), 1)] v)
              (A (S k)) default_name [ea k]) as (z & Ez & Hz & Dz).
  - rewrite (shared_edges_of _ _ [ea k; eb k]); [|reflexivity|nodup_lia].
    unfold ladder_a, rail_axes.
    destruct (Nat.eqb_spec (S k) (n - 1)) as [E|E].
    + now repeat axes_tests.
    + destruct (F4 E) as (G5 & G6 & G7 & G8 & G9 & G10). now repeat axes_tests.
  - discriminate.
  - exact Dmid.
  - apply ladder_a_delta.
  - unfold bond_ids, edges. cbn [axes map fst flat_map bond_id app]. nodup_lia.
  - unfold ladder_a, rail_axes, bond_ids, edges.
    destruct (Nat.eqb_spec (S k) (n - 1)) as [E|E];
      cbn [axes map fst flat_map bond_id app]; [nodup_lia|].
    destruct (F4 E) as (G5 & G6 & G7 & G8 & G9 & G10). nodup_lia.
  - dims_positive.
  - exists z. split; [assumption|]. split; [assumption|].
    split; [assumption|]. rewrite Hz. unfold ladder_a, rail_axes.
    destruct (Nat.eqb_spec (S k) (n - 1)) as [E|E].
    + now repeat axes_tests.
    + destruct (F4 E) as (G5 & G6 & G7 & G8 & G9 & G10). now repeat axes_tests.
Qed.

(** The last contraction of [norm]. *)
Lemma zip_last (cur : Node) :
  zip (n - 1) cur ->
  exists fin, contract_between cur (B (n - 1)) default_name = Ok fin
              /\ is_delta fin /\ axes fin = [].
Proof.
  intros (Dcur & Hax). rewrite Nat.eqb_refl in Hax.
  assert (Ej : exists j, n - 1 = S j) by (exists (n - 2); lia).
  destruct Ej as (j & Ej). rewrite Ej in Hax |- *.
  destruct (edges_apart j ltac:(lia)) as (F1 & F2 & F3 & F4).
  assert (Hlast : (S j =? n - 1) = true) by (apply Nat.eqb_eq; lia).
  destruct cur as [nm ax v]. cbn [axes] in Hax. subst ax.
  destruct (contract_between_delta
              (mkNode nm ([(Bond (eb j) (rr j), 1)] ++ [(Bond (c0 + S j) true, pd)] ++ []) v)
              (B (S j)) default_name
              [eb j; c0 + S j]) as (z & Ez & Hz & Dz).
  - rewrite (shared_edges_of _ _ [eb j; c0 + S j]); [|reflexivity|nodup_lia].
    unfold ladder_b, rail_axes. rewrite Hlast. now repeat axes_tests.
  - discriminate.
  - exact Dcur.
  - apply ladder_b_delta.
  - unfold bond_ids, edges. cbn [axes map fst flat_map bond_id app]. nodup_lia.
  - unfold ladder_b, rail_axes, bond_ids, edges. rewrite Hlast.
    cbn [axes map fst flat_map bond_id app]. nodup_lia.
  - dims_positive.
  - exists z. split; [assumption|]. split; [assumption|].
    rewrite Hz. unfold ladder_b, rail_axes. rewrite Hlast. now repeat axes_tests.
Qed.

Local Abbreviation OA := (open_a n pd ea rl rr na).
Local Abbreviation OB := (open_b n pd eb rl rr nb).

Lemma pop_dangling_open_a (k : nat) : pop_dangling (OA k) = Ok 0.
Proof. reflexivity. Qed.

Lemma pop_dangling_open_b (k : nat) : pop_dangling (OB k) = Ok 0.
Proof. reflexivity. Qed.

Lemma connect_rung (k : nat) : connect (c0 + k) (OA k) 0 (OB k) 0 = Ok (A k, B k).
Proof.
  unfold connect, open_a, open_b.
  cbn [axes nth_error is_dangling andb name value set_edge]. now rewrite Nat.eqb_refl.
Qed.

(** The first loop of [norm] joins the physical axes of the two copies, site
    by site. *)
Lemma connect_loop (m j : nat) :
  j + m = n ->
  rfold norm_connect (map Z.of_nat (seq j m))
    (map (fun k => if k <? j then A k else OA k) (seq 0 n),
     map (fun k => if k <? j then B k else OB k) (seq 0 n), c0 + j)
  = Ok (map A (seq 0 n), map B (seq 0 n), c0 + n).
Proof.
  revert j. induction m as [|m IH]; intros j Hj; cbn [seq map rfold].
  - replace j with n by lia.
    rewrite (map_ext_in (fun k => if k <? n then A k else OA k) A),
            (map_ext_in (fun k => if k <? n then B k else OB k) B);
      [reflexivity| |]; intros k Hk; apply in_seq in Hk;
      destruct (Nat.ltb_spec k n); (reflexivity || lia).
  - unfold norm_connect at 1. rewrite !length_map, !length_seq.
    rewrite position_nonneg by lia. rewrite Nat2Z.id. cbn [of_option rbind].
    rewrite !nth_error_map_seq.
    destruct (Nat.ltb_spec j n) as [_|]; [|lia].
    rewrite Nat.ltb_irrefl. cbn [of_option rbind].
    rewrite pop_dangling_open_a, pop_dangling_open_b. cbn [rbind].
    rewrite connect_rung. cbn [rbind].
    replace (S (c0 + j)) with (c0 + S j) by lia.
    rewrite <- (IH (S j)) by lia. do 3 f_equal; [f_equal|].
    + apply map_seq_ext; [now rewrite set_nth_length, length_map, length_seq|].
      intros k Hk. rewrite nth_error_set_nth, length_map, length_seq, nth_error_map_seq.
      destruct (Nat.ltb_spec k n) as [_|]; [|lia].
      destruct (Nat.ltb_spec j n) as [_|]; [|lia].
      destruct (Nat.eqb_spec k j) as [->|Hne]; cbn [andb].
      * destruct (Nat.ltb_spec j (S j)); [reflexivity|lia].
      * destruct (Nat.ltb_spec k j), (Nat.ltb_spec k (S j)); (reflexivity || lia).
    + apply map_seq_ext; [now rewrite set_nth_length, length_map, length_seq|].
      intros k Hk. rewrite nth_error_set_nth, length_map, length_seq, nth_error_map_seq.
      destruct (Nat.ltb_spec k n) as [_|]; [|lia].
      destruct (Nat.ltb_spec j n) as [_|]; [|lia].
      destruct (Nat.eqb_spec k j) as [->|Hne]; cbn [andb].
      * destruct (Nat.ltb_spec j (S j)); [reflexivity|lia].
      * destruct (Nat.ltb_spec k j), (Nat.ltb_spec k (S j)); (reflexivity || lia).
Qed.

(** The second loop of [norm] carries the contracted part of the ladder
    along the first copy. *)
Lemma contract_loop (m j : nat) (a : list Node) :
  j + m = n - 1 -> length a = n ->
  (exists cur, nth_error a j = Some cur /\ zip j cur) ->
  (forall k, j < k -> k < n -> nth_error a k = Some (A k)) ->
  exists a' cur,
    rfold (norm_contract (map B (seq 0 n))) (map Z.of_nat (seq j m)) a = Ok a'
    /\ length a' = n /\ nth_error a' (n - 1) = Some cur /\ zip (n - 1) cur.
Proof.
  revert j a. induction m as [|m IH]; intros j a Hj Hlen (cur & Ecur & Zcur) Hrest;
    cbn [seq map rfold].
  - exists a, cur. replace (n - 1) with j by lia.
    split; [reflexivity|]. split; [assumption|]. split; assumption.
  - destruct (zip_step j cur ltac:(lia) Zcur) as (mid & new & E1 & E2 & Znew).
    unfold norm_contract at 1. unfold Py.getitem, Py.setitem.
    rewrite !length_map, !length_seq, Hlen.
    rewrite !position_nonneg by lia.
    replace (Z.to_nat (Z.of_nat j + 1)) with (S j) by lia. rewrite Nat2Z.id.
    rewrite Ecur, nth_error_map_seq.
    destruct (Nat.ltb_spec j n) as [_|]; [|lia].
    cbn [of_option rbind]. rewrite E1. cbn [rbind].
    rewrite (Hrest (S j)) by lia. cbn [of_option rbind]. rewrite E2.
    cbn [rbind option_map of_option].
    apply IH.
    + lia.
    + now rewrite set_nth_length.
    + exists new. split; [|assumption].
      rewrite nth_error_set_nth, Nat.eqb_refl, Hlen.
      destruct (Nat.ltb_spec (S j) n); [reflexivity|lia].
    + intros k H1 H2. rewrite nth_error_set_nth.
      destruct (Nat.eqb_spec k (S j)); [lia|]. cbn [andb]. apply Hrest; lia.
Qed.

Lemma isclose_zero_0 : isclose_zero 0%R = true.
Proof.
  unfold isclose_zero. destruct Rle_dec as [|H]; [reflexivity|].
  exfalso. apply H. rewrite Rabs_R0. lra.
Qed.

(** The two loops and the last contraction, from the two copies. *)
Lemma ladder_norm :
  exists a b alast blast fin,
    rfold norm_connect (Py.range (Z.of_nat n))
      (map OA (seq 0 n), map OB (seq 0 n), c0) = Ok (map A (seq 0 n), b, c0 + n)
    /\ rfold (norm_contract b) (Py.range (Z.of_nat n - 1)) (map A (seq 0 n)) = Ok a
    /\ Py.getitem a (-1) = Some alast
    /\ Py.getitem b (-1) = Some blast
    /\ contract_between alast blast default_name = Ok fin
    /\ axes fin = [] /\ value fin [] = C1.
Proof.
  pose proof (connect_loop n 0 ltac:(lia)) as E0.
  replace (c0 + 0) with c0 in E0 by lia.
  rewrite (map_ext_in (fun k => if k <? 0 then A k else OA k) OA),
          (map_ext_in (fun k => if k <? 0 then B k else OB k) OB) in E0
    by (intros k _; reflexivity).
  destruct (contract_loop (n - 1) 0 (map A (seq 0 n)) ltac:(lia))
    as (a & cur & Ea & La & Ecur & Zcur).
  - now rewrite length_map, length_seq.
  - exists (A 0). rewrite nth_error_map_seq.
    destruct (Nat.ltb_spec 0 n); [|lia]. split; [reflexivity|].
    split; [apply ladder_a_delta|]. reflexivity.
  - intros k H1 H2. rewrite nth_error_map_seq.
    destruct (Nat.ltb_spec k n); [reflexivity|lia].
  - destruct (zip_last cur Zcur) as (fin & Efin & Dfin & Afin).
    exists a, (map B (seq 0 n)), cur, (B (n - 1)), fin.
    unfold Py.range. rewrite Nat2Z.id.
    replace (Z.to_nat (Z.of_nat n - 1)) with (n - 1) by lia.
    split; [exact E0|]. split; [exact Ea|].
    unfold Py.getitem. rewrite La, length_map, length_seq.
    rewrite !position_negative by lia.
    replace (Z.to_nat (Z.of_nat n + -1)) with (n - 1) by lia.
    rewrite nth_error_map_seq.
    destruct (Nat.ltb_spec (n - 1) n); [|lia].
    split; [exact Ecur|]. split; [reflexivity|].
    split; [exact Efin|]. split; [assumption|].
    rewrite Dfin by (unfold rank; now rewrite Afin). reflexivity.
Qed.

End Ladder.

(** The axes of a site of the new chain, as a physical axis and its rails. *)
Lemma fresh_axes_rail (n pd k : nat) :
  2 <= n -> k < n ->
  fresh_axes n pd k
  = (Dangling 0, pd) :: rail_axes n (bond_number n) (fresh_rl n) (fresh_rr n) k.
Proof.
  intros Hn Hk. unfold fresh_axes, rail_axes, fresh_rl, fresh_rr.
  destruct k as [|j].
  - destruct (Nat.eqb_spec 0 (n - 1)); [lia|reflexivity].
  - change (S j =? 0) with false. replace (S j - 1) with j by lia.
    destruct (Nat.eqb_spec (S j) (n - 1)) as [E|E]; cbn [andb app orb].
    + replace (n - 2) with j by lia. reflexivity.
    + reflexivity.
Qed.

Lemma copy_fresh_nodes (prefix : string) (n pd off : nat) :
  2 <= n ->
  copy off (fresh_nodes prefix n pd)
  = map (open_a n pd (fun k => off + bond_number n k) (fresh_rl n) (fresh_rr n)
           (fun k => site_name prefix (Z.of_nat k))) (seq 0 n).
Proof.
  intros Hn. unfold copy, fresh_nodes. rewrite map_map. apply map_ext_in.
  intros k Hk. apply in_seq in Hk.
  unfold copy_node, fresh_node, open_a. cbn [name axes value].
  rewrite fresh_axes_rail by lia. f_equal.
  unfold rail_axes. destruct k as [|j]; destruct (_ =? n - 1); reflexivity.
Qed.

Lemma conj_open_a (n pd : nat) (e : nat -> nat) (rl rr : nat -> bool)
    (nm : nat -> string) (l : list nat) :
  map conj_node (map (open_a n pd e rl rr nm) l) = map (open_b n pd e rl rr nm) l.
Proof. rewrite map_map. apply map_ext. intros k. reflexivity. Qed.

Lemma rail_in_open_a (n pd : nat) (e : nat -> nat) (rl rr : nat -> bool)
    (nm : nat -> string) (k : nat) :
  k < n - 1 -> In (e k) (bond_ids (open_a n pd e rl rr nm k)).
Proof.
  intros Hk. unfold bond_ids, edges, open_a, rail_axes. cbn [axes].
  destruct (Nat.eqb_spec k (n - 1)); [lia|].
  cbn [map fst flat_map bond_id app]. rewrite map_app, flat_map_app.
  apply in_or_app. right. now left.
Qed.

Lemma rail_in_open_b (n pd : nat) (e : nat -> nat) (rl rr : nat -> bool)
    (nm : nat -> string) (k : nat) :
  k < n - 1 -> In (e k) (bond_ids (open_b n pd e rl rr nm k)).
Proof. exact (rail_in_open_a n pd e rl rr nm k). Qed.

(** The norm of the new chain is one. *)
Lemma fresh_norm (nqudits d : Z) (prefix : string) (c : list Z) :
  (2 <= nqudits)%Z ->
  norm (mkMPS nqudits d prefix
          (fresh_nodes prefix (Z.to_nat nqudits) (physical d)) c [] [])
  = Ok 1%R.
Proof.
  intros HN. remember (Z.to_nat nqudits) as n eqn:En.
  assert (Hn : 2 <= n) by lia.
  assert (EN : nqudits = Z.of_nat n) by lia. subst nqudits. clear En HN.
  unfold norm, get_nodes_copy. cbn [_nodes _nqudits].
  rewrite !copy_fresh_nodes by assumption. rewrite conj_open_a.
  set (nodes := fresh_nodes prefix n (physical d)).
  set (nm := fun k => site_name prefix (Z.of_nat k)).
  set (ea := fun k => fresh_id nodes + bond_number n k).
  set (a := map (open_a n (physical d) ea (fresh_rl n) (fresh_rr n) nm) (seq 0 n)).
  set (eb := fun k => fresh_id (nodes ++ a) + bond_number n k).
  set (b := map (open_b n (physical d) eb (fresh_rl n) (fresh_rr n) nm) (seq 0 n)).
  assert (Hina : forall k, k < n - 1 -> In (ea k) (flat_map bond_ids a)).
  { intros k Hk. apply in_flat_map. eexists. split; [|apply rail_in_open_a; eassumption].
    apply in_map, in_seq. lia. }
  assert (Hinb : forall k, k < n - 1 -> In (eb k) (flat_map bond_ids b)).
  { intros k Hk. apply in_flat_map. eexists. split; [|apply rail_in_open_b; eassumption].
    apply in_map, in_seq. lia. }
  assert (Hlt : forall l1 l2 i, In i (flat_map bond_ids l1 ++ flat_map bond_ids l2) ->
                                i < fresh_id (l1 ++ l2)).
  { intros l1 l2 i Hi. rewrite <- flat_map_app in Hi. apply in_flat_map in Hi.
    destruct Hi as (x & Hx & Hi). now apply (fresh_id_spec _ x). }
  destruct (ladder_norm n (physical d) (fresh_id (a ++ b)) ea eb
              (fresh_rl n) (fresh_rr n) nm nm)
    as (a' & b' & alast & blast & fin & E1 & E2 & E3 & E4 & E5 & E6 & E7).
  - assumption.
  - unfold physical. lia.
  - intros i j Hi Hj E. unfold ea in E. apply (bond_number_inj n); lia.
  - intros i j Hi Hj E. unfold eb in E. apply (bond_number_inj n); lia.
  - intros i j Hi Hj E.
    assert (ea i < fresh_id (nodes ++ a))
      by (apply Hlt, in_or_app; right; now apply Hina).
    unfold eb in E. lia.
  - intros i Hi. apply Hlt, in_or_app. left. now apply Hina.
  - intros i Hi. apply Hlt, in_or_app. right. now apply Hinb.
  - fold a b in E1. rewrite E1. cbn [rbind fst snd]. rewrite E2. cbn [rbind].
    rewrite E3, E4. cbn [of_option rbind]. rewrite E5. cbn [rbind].
    unfold edges. rewrite E6, E7. cbn [map length Nat.eqb negb Im C1 snd].
    rewrite isclose_zero_0. cbn [negb]. now rewrite Cabs_1.
Qed.

End NormFacts.
(** ** The two-site gate on a chain that satisfies the invariants *)

Module TwoSiteFacts.

Import Cx Np Tn Bonds Mps Invariants TnFacts ChecksFacts OneSiteFacts AllSitesFacts.
Import ChainFacts InitFacts AxesFacts NamesFacts.
Local Open Scope nat_scope.

(** The dangling axis of a node that has one. *)
Lemma dangling_axis (site : Node) :
  length (get_all_dangling site) = 1 ->
  exists t d, nth_error (axes site) (find_axis is_dangling (axes site))
              = Some (Dangling t, d).
Proof.
  unfold get_all_dangling, edges. rewrite filter_map_fst_length. intros H.
  rewrite find_axis_nth.
  destruct (find (fun a => is_dangling (fst a)) (axes site)) as [[[t|j r] d]|] eqn:E.
  - now exists t, d.
  - apply find_some in E. destruct E as [_ E]. discriminate.
  - exfalso. pose proof (find_none _ _ E) as Hn.
    rewrite (filter_none _ _ Hn) in H. discriminate.
Qed.

(** [connect_site] on a site with a dangling axis and a dangling axis of the
    gate: the dimensions are compared and the two axes joined. *)
Lemma connect_site_run (s0 : MPS) (g site : Node) (index : Z) (p pos t d t' d' : nat) :
  Py.position (length (_nodes s0)) index = Some pos ->
  nth_error (_nodes s0) pos = Some site ->
  nth_error (axes site) (find_axis is_dangling (axes site)) = Some (Dangling t, d) ->
  nth_error (axes g) p = Some (Dangling t', d') ->
  connect_site index g p s0
  = if d =? d'
    then (Ok (mkNode (name g)
                (set_edge (axes g) p (Bond (fresh_id (_nodes s0 ++ [g])) false))
                (value g)),
          snd (set_nodes
                 (Py.set_nth (_nodes s0) pos
                    (mkNode (name site)
                       (set_edge (axes site) (find_axis is_dangling (axes site))
                          (Bond (fresh_id (_nodes s0 ++ [g])) true))
                       (value site))) s0))
    else (Err TnDimensionMismatch, s0).
Proof.
  intros Hpos Hsite Hd Hg.
  unfold connect_site, node_at, bind, get, lift, ret. cbn [fst snd of_option].
  rewrite Hpos. cbn [of_option]. rewrite Hsite. cbn [of_option].
  unfold first_dangling.
  assert (Hlt : find_axis is_dangling (axes site) < rank site).
  { unfold rank. apply nth_error_Some. congruence. }
  apply Nat.ltb_lt in Hlt. rewrite Hlt.
  unfold connect. rewrite Hd, Hg. cbn [is_dangling andb].
  destruct (d =? d'); reflexivity.
Qed.

Lemma shared_edges_In (x y : Node) (i : nat) :
  In i (get_shared_edges x y) <-> In i (bond_ids x) /\ In i (bond_ids y).
Proof.
  unfold get_shared_edges, get_all_nondangling.
  rewrite filter_In, nodup_In, mem_In. reflexivity.
Qed.

Lemma remaining_ext (ids ids' : list nat) (l : list (Edge * nat)) :
  (forall i, In i ids <-> In i ids') ->
  filter (fun a => negb (is_shared ids (fst a))) l
  = filter (fun a => negb (is_shared ids' (fst a))) l.
Proof.
  intros H. apply filter_ext. intros [[t|i r] d]; simpl; [reflexivity|].
  f_equal. destruct (mem i ids) eqn:E.
  - symmetry. apply mem_In, H, mem_In. exact E.
  - destruct (mem i ids') eqn:E'; [|reflexivity].
    apply mem_In, H, mem_In in E'. congruence.
Qed.

Lemma no_dangling_filter (f : Edge * nat -> bool) (l : list (Edge * nat)) :
  length (filter (fun a => is_dangling (fst a)) l) = 0 ->
  length (filter (fun a => is_dangling (fst a)) (filter f l)) = 0.
Proof.
  intros H. pose proof (filter_nil_forall _ _ H) as Hn.
  rewrite filter_none; [reflexivity|].
  intros x Hx. apply Hn. apply filter_In in Hx. apply Hx.
Qed.

Lemma filter_perm_drop {A} (f : A -> bool) (l L : list A) (x : A) :
  Permutation l (x :: L) -> f x = false -> (forall p, In p L -> f p = true) ->
  Permutation (filter f l) L.
Proof.
  intros Hp Hx HL. rewrite (Permutation_filter f _ _ Hp). simpl. rewrite Hx.
  now rewrite (filter_all _ _ HL).
Qed.

(** The connected edges of a node after three contractions, when the node
    has the edge [c], the edges [L] and the edge [m], and the contractions
    are over [m], over edges [sh] that include [c], and over an edge [f]
    that it does not have. *)
Lemma kept_bonds (l : list (nat * nat)) (L : list (nat * nat))
    (c m f dc dm : nat) (sh : list nat) :
  Permutation l ((c, dc) :: L ++ [(m, dm)]) ->
  c <> m -> In c sh ->
  (forall p, In p L -> ~ In (fst p) sh /\ fst p <> m /\ fst p <> f) ->
  Permutation
    (filter (fun p => negb (mem (fst p) [f]))
       (filter (fun p => negb (mem (fst p) sh))
          (filter (fun p => negb (mem (fst p) [m])) l)))
    L.
Proof.
  intros Hp Hcm Hc HL.
  assert (K1 : forall p, In p L -> negb (mem (fst p) [m]) = true).
  { intros p Hp'. destruct (HL p Hp') as (_ & H2 & _).
    cbn [mem existsb]. destruct (Nat.eqb_spec (fst p) m); [contradiction|reflexivity]. }
  assert (K2 : forall p, In p L -> negb (mem (fst p) sh) = true).
  { intros p Hp'. destruct (HL p Hp') as (H1 & _ & _).
    destruct (mem (fst p) sh) eqn:E; [|reflexivity].
    apply mem_In in E. contradiction. }
  assert (K3 : forall p, In p L -> negb (mem (fst p) [f]) = true).
  { intros p Hp'. destruct (HL p Hp') as (_ & _ & H3).
    cbn [mem existsb]. destruct (Nat.eqb_spec (fst p) f); [contradiction|reflexivity]. }
  assert (P1 : Permutation (filter (fun p => negb (mem (fst p) [m])) l) ((c, dc) :: L)).
  { apply (filter_perm_drop _ _ _ (m, dm)).
    - rewrite Hp. rewrite app_comm_cons. apply Permutation_sym, Permutation_cons_append.
    - cbn [mem existsb fst]. now rewrite Nat.eqb_refl.
    - intros p [<-|Hp']; [|now apply K1].
      cbn [mem existsb fst]. destruct (Nat.eqb_spec c m); [contradiction|reflexivity]. }
  assert (P2 : Permutation
                 (filter (fun p => negb (mem (fst p) sh))
                    (filter (fun p => negb (mem (fst p) [m])) l)) L).
  { apply (filter_perm_drop _ _ _ (c, dc)); [exact P1| |exact K2].
    cbn [fst]. apply mem_In in Hc. now rewrite Hc. }
  rewrite (Permutation_filter _ _ _ P2). now rewrite (filter_all _ _ K3).
Qed.

Section Merge.

Variables A1 B1 gate2 : Node.
Variables c1 c2 m : nat.
Variables dA dB Dm t2 g2 t3 g3 g0 g1 : nat.
Variables La Lb : list (nat * nat).
Hypothesis HdA : length (filter (fun a => is_dangling (fst a)) (axes A1)) = 0.
Hypothesis HdB : length (filter (fun a => is_dangling (fst a)) (axes B1)) = 0.
Hypothesis HpA : Permutation (bond_dims A1) ((c1, dA) :: La ++ [(m, Dm)]).
Hypothesis HpB : Permutation (bond_dims B1) ((c2, dB) :: Lb ++ [(m, Dm)]).
Hypothesis Hg :
  axes gate2 = [(Bond c1 false, g0); (Bond c2 false, g1);
                (Dangling t2, g2); (Dangling t3, g3)].
Hypothesis Hnd : NoDup (c1 :: c2 :: m :: map fst La ++ map fst Lb).

Lemma merge_ids_A (i : nat) :
  In i (bond_ids A1) <-> i = c1 \/ In i (map fst La) \/ i = m.
Proof.
  rewrite bond_ids_dims.
  split.
  - intros H. apply (Permutation_in _ (Permutation_map fst HpA)) in H.
    cbn [map fst In] in H. rewrite map_app, in_app_iff in H. cbn [map fst In] in H.
    intuition.
  - intros H.
    apply (Permutation_in _ (Permutation_sym (Permutation_map fst HpA))).
    cbn [map fst In]. rewrite map_app, in_app_iff. cbn [map fst In]. intuition.
Qed.

Lemma merge_ids_B (i : nat) :
  In i (bond_ids B1) <-> i = c2 \/ In i (map fst Lb) \/ i = m.
Proof.
  rewrite bond_ids_dims.
  split.
  - intros H. apply (Permutation_in _ (Permutation_map fst HpB)) in H.
    cbn [map fst In] in H. rewrite map_app, in_app_iff in H. cbn [map fst In] in H.
    intuition.
  - intros H.
    apply (Permutation_in _ (Permutation_sym (Permutation_map fst HpB))).
    cbn [map fst In]. rewrite map_app, in_app_iff. cbn [map fst In]. intuition.
Qed.

(** What the hypothesis on the identifiers says, edge by edge. *)
Lemma merge_apart :
  c1 <> c2 /\ c1 <> m /\ c2 <> m
  /\ (forall i, In i (map fst La) ->
        i <> c1 /\ i <> c2 /\ i <> m /\ ~ In i (map fst Lb))
  /\ (forall i, In i (map fst Lb) ->
        i <> c1 /\ i <> c2 /\ i <> m /\ ~ In i (map fst La)).
Proof.
  inversion Hnd as [|? ? N2 Hnd2]; subst.
  inversion Hnd2 as [|? ? N3 Hnd3]; subst.
  inversion Hnd3 as [|? ? N4 Hnd4]; subst.
  cbn [In] in N2, N3. rewrite in_app_iff in N2, N3, N4.
  assert (Hdis : forall i, In i (map fst La) -> ~ In i (map fst Lb)).
  { intros i Ha Hb. revert Hnd4 Ha Hb. clear.
    induction (map fst La) as [|x l IH]; intros Hnd Ha Hb; [contradiction|].
    inversion Hnd as [|? ? Hx Hl]; subst. destruct Ha as [->|Ha].
    - apply Hx. apply in_or_app. now right.
    - now apply IH. }
  repeat split; try (intros ->; intuition; fail); try (intros E; subst; intuition; fail).
  - now apply Hdis.
  - intros Ha. now apply (Hdis i).
Qed.

Lemma merge_shared_AB (i : nat) : In i (get_shared_edges A1 B1) <-> In i [m].
Proof.
  destruct merge_apart as (F3 & F4 & F5 & FA & FB).
  rewrite shared_edges_In, merge_ids_A, merge_ids_B. cbn [In].
  split.
  - intros [[->|[Ha| ->]] [Hb|[Hb|Hb]]]; auto; try congruence;
      try (apply FB in Hb; intuition; fail); try (apply FA in Ha; intuition; fail).
  - intros [<-|[]]. auto.
Qed.

Lemma merge_contract_between (nm : string) :
  exists new0,
    contract_between A1 B1 nm = Ok new0
    /\ axes new0
       = filter (fun a => negb (is_shared [m] (fst a))) (axes A1)
         ++ filter (fun a => negb (is_shared [m] (fst a))) (axes B1).
Proof.
  unfold contract_between.
  destruct (get_shared_edges A1 B1) as [|x sh] eqn:E.
  - exfalso. assert (H : In m (get_shared_edges A1 B1))
      by (apply merge_shared_AB; now left).
    rewrite E in H. contradiction.
  - eexists. split; [reflexivity|].
    unfold contract_ids, remaining. cbn [axes]. rewrite <- E.
    now rewrite !(remaining_ext _ _ _ merge_shared_AB).
Qed.

Variable f : nat.
Hypothesis Hf : ~ In f (c1 :: c2 :: map fst La ++ map fst Lb).

Lemma merge_shared_gate (new0 : Node) (i : nat) :
  axes new0
  = filter (fun a => negb (is_shared [m] (fst a))) (axes A1)
    ++ filter (fun a => negb (is_shared [m] (fst a))) (axes B1) ->
  In i (get_shared_edges new0 gate2) <-> In i [c1; c2].
Proof.
  intros Hax.
  destruct merge_apart as (F3 & F4 & F5 & FA & FB).
  assert (Hids : forall j, In j (bond_ids new0)
                           <-> (In j (bond_ids A1) \/ In j (bond_ids B1)) /\ j <> m).
  { intros j. rewrite !bond_ids_dims. unfold bond_dims. rewrite Hax.
    rewrite axes_bonds_app, !axes_bonds_remaining, map_app, in_app_iff.
    rewrite !in_map_iff. split.
    - intros [(p & <- & Hp)|(p & <- & Hp)]; apply filter_In in Hp;
        destruct Hp as [Hp Hm]; cbn [mem existsb] in Hm;
        (destruct (Nat.eqb_spec (fst p) m); [discriminate|]);
        (split; [|assumption]); [left|right]; now exists p.
    - intros [[(p & <- & Hp)|(p & <- & Hp)] Hm]; [left|right]; exists p;
        (split; [reflexivity|]); apply filter_In; (split; [assumption|]);
        cbn [mem existsb]; (destruct (Nat.eqb_spec (fst p) m); [contradiction|reflexivity]). }
  assert (Hgids : bond_ids gate2 = [c1; c2]).
  { unfold bond_ids, edges. now rewrite Hg. }
  rewrite shared_edges_In, Hids, Hgids, merge_ids_A, merge_ids_B. cbn [In].
  split; [tauto|].
  intros [<-|[<-|[]]]; intuition.
Qed.

(** The node the two sites and the gate are merged into: the edges towards
    the rest of the chain, then the two free edges of the gate. *)
Lemma merge_result (nm : string) (new0 : Node) :
  axes new0
  = filter (fun a => negb (is_shared [m] (fst a))) (axes A1)
    ++ filter (fun a => negb (is_shared [m] (fst a))) (axes B1) ->
  exists new1 gate3 RA RB,
    flatten_edges_between f new0 gate2 = Some (new1, gate3, f)
    /\ axes (contract f new1 gate3 nm)
       = RA ++ RB ++ [(Dangling t2, g2); (Dangling t3, g3)]
    /\ length (filter (fun a => is_dangling (fst a)) RA) = 0
    /\ length (filter (fun a => is_dangling (fst a)) RB) = 0
    /\ Permutation (axes_bonds RA) La
    /\ Permutation (axes_bonds RB) Lb
    /\ incl RB (axes B1).
Proof.
  intros Hax.
  destruct merge_apart as (F3 & F4 & F5 & FA & FB).
  assert (FfA : forall i, In i (map fst La) -> i <> f).
  { intros i Hi ->. apply Hf. right. right. apply in_or_app. now left. }
  assert (FfB : forall i, In i (map fst Lb) -> i <> f).
  { intros i Hi ->. apply Hf. right. right. apply in_or_app. now right. }
  pose proof (merge_shared_gate new0) as Hsh.
  unfold flatten_edges_between.
  set (sh := get_shared_edges new0 gate2) in *.
  assert (Hc1 : In c1 sh) by (apply (Hsh c1 Hax); now left).
  assert (Hc2 : In c2 sh) by (apply (Hsh c2 Hax); right; now left).
  assert (Hout : forall j, j <> c1 -> j <> c2 -> ~ In j sh).
  { intros j H1 H2 Hj. apply (Hsh j Hax) in Hj. cbn [In] in Hj. intuition. }
  clear Hsh. clearbody sh.
  destruct sh as [|x sh']; [contradiction|].
  remember (x :: sh') as sh eqn:Esh in *. clear Esh x sh'.
  eexists _, _,
    (filter (fun a => negb (is_shared [f] (fst a)))
       (filter (fun a => negb (is_shared sh (fst a)))
          (filter (fun a => negb (is_shared [m] (fst a))) (axes A1)))),
    (filter (fun a => negb (is_shared [f] (fst a)))
       (filter (fun a => negb (is_shared sh (fst a)))
          (filter (fun a => negb (is_shared [m] (fst a))) (axes B1)))).
  split; [reflexivity|]. split; [|split; [|split; [|split; [|split]]]].
  6: { intros x Hx. apply filter_In in Hx. destruct Hx as [Hx _].
       apply filter_In in Hx. destruct Hx as [Hx _].
       apply filter_In in Hx. apply Hx. }
  - unfold contract, contract_ids, flatten_side, remaining. cbn [axes].
    rewrite Hax, Hg. rewrite !filter_app. cbn [filter fst is_shared mem existsb].
    rewrite Nat.eqb_refl. cbn [orb negb app].
    apply mem_In in Hc1. apply mem_In in Hc2.
    rewrite Hc1, Hc2. cbn [negb filter fst is_shared app].
    rewrite !app_nil_r. rewrite <- app_assoc. reflexivity.
  - now do 3 apply no_dangling_filter.
  - now do 3 apply no_dangling_filter.
  - rewrite !axes_bonds_remaining.
    apply (kept_bonds _ La c1 m f dA Dm sh HpA F4 Hc1).
    intros p Hp. assert (Hi : In (fst p) (map fst La)) by now apply in_map.
    destruct (FA _ Hi) as (G2 & G3 & G4 & _).
    split; [|split]; auto.
  - rewrite !axes_bonds_remaining.
    apply (kept_bonds _ Lb c2 m f dB Dm sh HpB F5 Hc2).
    intros p Hp. assert (Hi : In (fst p) (map fst Lb)) by now apply in_map.
    destruct (FB _ Hi) as (G2 & G3 & G4 & _).
    split; [|split]; auto.
Qed.

End Merge.

(** One round of the loop over the connected edges of the merged node: the
    index is read from the name of the site at the other end. *)
Lemma classify_neighbour (prefix : string) (nodes : list Node) (new_node : Node)
    (left_index : Z) (acc acc' : option Edge * option Edge) (e k : nat) :
  name new_node = "new_mps_tensor"%string ->
  neighbour_name nodes e = Ok (site_name prefix (Z.of_nat k)) ->
  classify prefix nodes new_node left_index acc e = Ok acc' ->
  exists j, j <= k
    /\ (k = 2 -> j = 2)
    /\ acc' = if (Z.of_nat j <=? left_index)%Z
              then (Some (edge_of_bond new_node e), snd acc)
              else (fst acc, Some (edge_of_bond new_node e)).
Proof.
  intros Hnm Hother. unfold classify. rewrite Hother. cbn [rbind].
  rewrite Hnm.
  assert (Hidx : forall r, (j <- r ;;
                  (if (Z.of_nat j <=? left_index)%Z
                   then Ok (Some (edge_of_bond new_node e), snd acc)
                   else Ok (fst acc, Some (edge_of_bond new_node e))))%result = Ok acc' ->
                 r = Names.index_of_name prefix (site_name prefix (Z.of_nat k)) ->
                 exists j, j <= k /\ (k = 2 -> j = 2)
                   /\ acc' = if (Z.of_nat j <=? left_index)%Z
                             then (Some (edge_of_bond new_node e), snd acc)
                             else (fst acc, Some (edge_of_bond new_node e))).
  { intros r Hr ->.
    destruct (Names.index_of_name prefix (site_name prefix (Z.of_nat k))) as [j|err] eqn:E;
      [|discriminate].
    cbn [rbind] in Hr. exists j. split; [|split].
    - now apply (index_of_site_name_le prefix).
    - intros ->. now apply (index_of_site_name_two prefix).
    - destruct (Z.of_nat j <=? left_index)%Z; now injection Hr as <-. }
  destruct (is_node1 new_node e); cbn [fst snd].
  - destruct (Names.contains prefix "new_mps_tensor").
    + rewrite index_of_merged_name. discriminate.
    + intros H. now apply (Hidx _ H).
  - rewrite contains_site_name. intros H. now apply (Hidx _ H).
Qed.

Lemma cap_of_kwargs_state (kw : Kwargs) (a b : Z) (s0 : MPS) :
  snd (cap_of_kwargs kw a b s0) = s0.
Proof.
  unfold cap_of_kwargs, bind, get, raise, lift, ret.
  destruct (fraction kw) as [fr|], (maxsvals kw) as [mx|]; cbn [fst snd];
    try reflexivity;
    destruct (negb (Qle_bool 0 fr && Qle_bool fr 1)); cbn [fst snd]; try reflexivity;
    destruct (get_max_bond_dimension_of (Z.min a b) s0) as [c|]; cbn [fst snd];
    try reflexivity;
    destruct (of_option PyOverflowError (Py.float_of_int c)) as [fc|]; cbn [fst snd];
    try reflexivity;
    destruct (int_round (Py.float_mul (Py.float_of_Q fr) fc)); reflexivity.
Qed.

(** The cap depends on the number of sites and on the ceilings only. *)
Lemma cap_of_kwargs_fields (kw : Kwargs) (a b : Z) (s0 s1 : MPS) :
  _nqudits s0 = _nqudits s1 ->
  _max_bond_dimensions s0 = _max_bond_dimensions s1 ->
  fst (cap_of_kwargs kw a b s0) = fst (cap_of_kwargs kw a b s1).
Proof.
  intros E1 E2.
  unfold cap_of_kwargs, bind, get, raise, lift, ret, get_max_bond_dimension_of.
  rewrite E1, E2.
  destruct (fraction kw) as [fr|], (maxsvals kw) as [mx|]; cbn [fst snd];
    try reflexivity;
    destruct (negb (Qle_bool 0 fr && Qle_bool fr 1)); cbn [fst snd]; try reflexivity;
    destruct (Z.min a b >=? _nqudits s1)%Z; cbn [fst snd]; try reflexivity;
    destruct (of_option PyIndexError
                (Py.getitem (_max_bond_dimensions s1) (Z.min a b))) as [c|];
    cbn [fst snd]; try reflexivity;
    destruct (of_option PyOverflowError (Py.float_of_int c)) as [fc|]; cbn [fst snd];
    try reflexivity;
    destruct (int_round (Py.float_mul (Py.float_of_Q fr) fc)); reflexivity.
Qed.

(** Putting the singular values back on one side. *)
Lemma rejoin_right (sn vh : Node) (c k : nat) (R : list (Edge * nat)) (nm : string) :
  axes sn = [(Bond c false, k); (Bond (S c) true, k)] ->
  axes vh = (Bond (S c) false, k) :: R ->
  (forall e, In e R -> is_shared [c; S c] (fst e) = false) ->
  exists z, contract_between sn vh nm = Ok z /\ axes z = (Bond c false, k) :: R
            /\ name z = nm.
Proof.
  intros Hs Hv HR.
  assert (Hsh : forall y, In y (get_shared_edges sn vh) <-> In y [S c]).
  { intros y. rewrite shared_edges_In. unfold bond_ids, edges. rewrite Hs, Hv.
    cbn [map fst flat_map bond_id app In]. rewrite in_flat_map. split.
    - intros [[<-|[<-|[]]] [E|(e & He & Hy)]]; auto; try lia.
      + apply in_map_iff in He. destruct He as (x & <- & Hx).
        specialize (HR x Hx). destruct (fst x); [contradiction|].
        cbn [bond_id In] in Hy. destruct Hy as [<-|[]].
        cbn [is_shared mem existsb] in HR. rewrite Nat.eqb_refl in HR. discriminate.
    - intros [<-|[]]. auto. }
  unfold contract_between.
  destruct (get_shared_edges sn vh) as [|x sh] eqn:E.
  - exfalso. apply (proj2 (Hsh (S c))); now left.
  - eexists. split; [reflexivity|]. split; [|reflexivity].
    unfold contract_ids, remaining. cbn [axes].
    rewrite !(remaining_ext _ _ _ Hsh), Hs, Hv.
    cbn [filter fst is_shared mem existsb]. rewrite Nat.eqb_refl.
    replace (c =? S c) with false by (symmetry; apply Nat.eqb_neq; lia).
    cbn [orb negb app]. f_equal. apply filter_all.
    intros e He. specialize (HR e He). destruct (fst e) as [t|j r]; [reflexivity|].
    cbn [is_shared mem existsb] in *.
    destruct (j =? c), (j =? S c); cbn [orb] in *; try discriminate; reflexivity.
Qed.

Lemma rejoin_left (u sn : Node) (c k : nat) (L : list (Edge * nat)) (nm : string) :
  axes u = L ++ [(Bond c true, k)] ->
  axes sn = [(Bond c false, k); (Bond (S c) true, k)] ->
  (forall e, In e L -> is_shared [c; S c] (fst e) = false) ->
  exists z, contract_between u sn nm = Ok z /\ axes z = L ++ [(Bond (S c) true, k)]
            /\ name z = nm.
Proof.
  intros Hu Hs HL.
  assert (Hsh : forall y, In y (get_shared_edges u sn) <-> In y [c]).
  { intros y. rewrite shared_edges_In. unfold bond_ids, edges. rewrite Hs, Hu.
    rewrite map_app, flat_map_app, in_app_iff.
    cbn [map fst flat_map bond_id app In]. rewrite in_flat_map. split.
    - intros [HA HB]. destruct HB as [HB|[HB|[]]]; [now left|].
      destruct HA as [(e & He & Hy)|[E|[]]]; [|lia].
      apply in_map_iff in He. destruct He as (x & <- & Hx).
      specialize (HL x Hx). destruct (fst x) as [t|j r]; [contradiction|].
      cbn [bond_id In] in Hy. destruct Hy as [Hy|[]].
      assert (Ej : j = S c) by congruence.
      cbn [is_shared mem existsb] in HL. rewrite Ej, Nat.eqb_refl in HL.
      destruct (S c =? c); discriminate.
    - intros [<-|[]]. auto. }
  unfold contract_between.
  destruct (get_shared_edges u sn) as [|x sh] eqn:E.
  - exfalso. apply (proj2 (Hsh c)); now left.
  - eexists. split; [reflexivity|]. split; [|reflexivity].
    unfold contract_ids, remaining. cbn [axes].
    rewrite !(remaining_ext _ _ _ Hsh), Hs, Hu. rewrite filter_app.
    cbn [filter fst is_shared mem existsb]. rewrite Nat.eqb_refl.
    replace (S c =? c) with false by (symmetry; apply Nat.eqb_neq; lia).
    cbn [orb negb app]. rewrite app_nil_r. f_equal. apply filter_all.
    intros e He. specialize (HL e He). destruct (fst e) as [t|j r]; [reflexivity|].
    cbn [is_shared mem existsb] in *.
    destruct (j =? c), (j =? S c); cbn [orb] in *; try discriminate; reflexivity.
Qed.

Lemma slice_to_length {A} (l : list A) (k : Z) :
  length (Py.slice_to l k) <= length l.
Proof. unfold Py.slice_to. destruct (0 <=? k)%Z; rewrite length_firstn; lia. Qed.

Lemma kept_values_le (cap : option Z) (x y : nat) :
  match cap with
  | Some m => length (Py.slice_to (seq 0 (Nat.min x y)) m)
  | None => Nat.min x y
  end <= Nat.min x y.
Proof.
  destruct cap as [m|]; [|lia].
  pose proof (slice_to_length (seq 0 (Nat.min x y)) m) as H.
  now rewrite length_seq in H.
Qed.

(** The three nodes [split_node_full_svd] returns for the merged node, when
    the free edges of the gate and the edges towards the rest of the chain
    are handed over side by side. *)
Lemma split_axes (svd : SvdKernel) (n : Node) (c t2 g2 t3 g3 : nat)
    (RA RB : list (Edge * nat)) (cap : option Z) (sp : Split) :
  axes n = RA ++ RB ++ [(Dangling t2, g2); (Dangling t3, g3)] ->
  (RA = [] \/ exists a ra Da, RA = [(Bond a ra, Da)]) ->
  (RB = [] \/ exists b rb Db, RB = [(Bond b rb, Db)]) ->
  NoDup (map fst (axes_bonds (RA ++ RB))) ->
  split_node_full_svd svd c (S c) n
    (Dangling t2 :: map fst RA) (Dangling t3 :: map fst RB) cap = Ok sp ->
  exists k,
    axes (split_u sp) = ((Dangling t2, g2) :: RA) ++ [(Bond c true, k)]
    /\ axes (split_s sp) = [(Bond c false, k); (Bond (S c) true, k)]
    /\ axes (split_vh sp) = (Bond (S c) false, k) :: (Dangling t3, g3) :: RB
    /\ k <= g2 * size (map snd RA) /\ k <= g3 * size (map snd RB)
    /\ k = match cap with
           | Some m => length (Py.slice_to
                                 (seq 0 (Nat.min (g2 * size (map snd RA))
                                                 (g3 * size (map snd RB)))) m)
           | None => Nat.min (g2 * size (map snd RA)) (g3 * size (map snd RB))
           end.
Proof.
  intros Hax HRA HRB Hnd.
  unfold split_node_full_svd, axis_of_edge, dim_at, node_shape, rank. rewrite Hax.
  destruct HRA as [->|(a & ra & Da & ->)]; destruct HRB as [->|(b & rb & Db & ->)];
    cbn [map fst snd app find_axis Edge_eqb length];
    rewrite ?Nat.eqb_refl, ?Bool.eqb_reflx; cbn [andb];
    try (assert (Hba : (b =? a) = false)
           by (apply Nat.eqb_neq; intros ->; cbn in Hnd;
               inversion Hnd as [|? ? Hn _]; apply Hn; now left);
         rewrite Hba; cbn [andb]);
    (destruct (Nat.eqb_spec t3 t2) as [E|E]; [discriminate|]);
    cbn [nth is_permutation length Nat.eqb forallb seq mem existsb orb andb];
    match goal with
    | |- context [svd ?x ?y ?m] => destruct (svd x y m) as [[u sv] vh]
    end;
    intros [= <-]; cbn [split_u split_s split_vh axes];
    eexists; (split; [reflexivity|]); (split; [reflexivity|]); (split; [reflexivity|]);
    (split; [|split; [|unfold size; cbn [fold_right map snd]; reflexivity]]);
    match goal with
    | |- match cap with _ => _ end <= _ =>
        match goal with
        | |- context [Nat.min ?x ?y] =>
            pose proof (kept_values_le cap x y) as Hk;
            unfold size in *; cbn [fold_right] in *; lia
        end
    end.
Qed.

Lemma node_at_run (s0 : MPS) (k : nat) (nd : Node) :
  nth_error (_nodes s0) k = Some nd ->
  node_at (Z.of_nat k) s0 = (Ok (k, nd), s0).
Proof.
  intros H. unfold node_at, bind, get, lift, ret. cbn [fst snd].
  assert (Hk : k < length (_nodes s0)) by (apply nth_error_Some; congruence).
  rewrite position_nonneg by lia. rewrite Nat2Z.id. cbn [of_option].
  rewrite H. reflexivity.
Qed.

Section Tail.

Variable svd : SvdKernel.
Variables (s3 : MPS) (new2 oldA oldB : Node) (i : nat) (kw : Kwargs).
Variables (t2 g2 t3 g3 : nat) (RA RB : list (Edge * nat)).
Hypothesis Hnm : name new2 = "new_mps_tensor"%string.
Hypothesis Hax : axes new2 = RA ++ RB ++ [(Dangling t2, g2); (Dangling t3, g3)].
Hypothesis HoA : nth_error (_nodes s3) i = Some oldA.
Hypothesis HoB : nth_error (_nodes s3) (S i) = Some oldB.
Hypothesis HRA :
  (RA = [] /\ i = 0)
  \/ exists a ra Da,
       RA = [(Bond a ra, Da)] /\ 1 <= i
       /\ neighbour_name (_nodes s3) a
          = Ok (site_name (_prefix s3) (Z.of_nat (i - 1))).
Hypothesis HRB :
  RB = []
  \/ exists b rb Db,
       RB = [(Bond b rb, Db)]
       /\ neighbour_name (_nodes s3) b
          = Ok (site_name (_prefix s3) (Z.of_nat (i + 2))).
Hypothesis Hab : NoDup (map fst (axes_bonds (RA ++ RB))).

Lemma tail_shapes :
  (RA = [] \/ exists a ra Da, RA = [(Bond a ra, Da)])
  /\ (RB = [] \/ exists b rb Db, RB = [(Bond b rb, Db)]).
Proof.
  split.
  - destruct HRA as [[-> _]|(a & ra & Da & -> & _)]; [now left|right; eauto].
  - destruct HRB as [->|(b & rb & Db & -> & _)]; [now left|right; eauto].
Qed.

(** The loop over the connected edges sorts the edge to the left neighbour
    to the left and the edge to the right neighbour to the right, or the
    split that follows fails. *)
Lemma classified (connected : option Edge * option Edge) (c : nat)
    (cap : option Z) (sp : Split) :
  rfold (classify (_prefix s3) (_nodes s3) new2 (Z.of_nat i))
    (get_all_nondangling new2) (None, None) = Ok connected ->
  split_node_full_svd svd c (S c) new2
    (Dangling t2 :: option_list (fst connected))
    (Dangling t3 :: option_list (snd connected)) cap = Ok sp ->
  option_list (fst connected) = map fst RA
  /\ option_list (snd connected) = map fst RB.
Proof.
  unfold get_all_nondangling, bond_ids, edges. rewrite Hax.
  destruct HRA as [[-> Hi0]|(a & ra & Da & -> & Hi1 & Hna)];
    destruct HRB as [->|(b & rb & Db & -> & Hnb)];
    cbn [map fst app flat_map bond_id].
  - cbn [nodup rfold]. intros [= <-] _. split; reflexivity.
  - rewrite (nodup_fixed_point Nat.eq_dec) by (repeat constructor; cbn [In]; intuition).
    cbn [rfold rbind]. intros Hc _.
    destruct (classify (_prefix s3) (_nodes s3) new2 (Z.of_nat i) (None, None) b)
      as [acc|] eqn:E; [|cbn [rbind] in Hc; discriminate Hc].
    cbn [rbind] in Hc. injection Hc as <-.
    destruct (classify_neighbour _ _ _ _ _ _ _ _ Hnm Hnb E) as (j & Hj & Hj2 & ->).
    subst i. rewrite (Hj2 eq_refl). cbn [Z.of_nat Z.leb Z.compare Pos.of_succ_nat].
    unfold edge_of_bond, axis_of_bond, edges. rewrite Hax.
    cbn [app find_axis has_id map fst nth option_list snd]. rewrite Nat.eqb_refl.
    split; reflexivity.
  - rewrite (nodup_fixed_point Nat.eq_dec) by (repeat constructor; cbn [In]; intuition).
    cbn [rfold rbind]. intros Hc _.
    destruct (classify (_prefix s3) (_nodes s3) new2 (Z.of_nat i) (None, None) a)
      as [acc|] eqn:E; [|cbn [rbind] in Hc; discriminate Hc].
    cbn [rbind] in Hc. injection Hc as <-.
    destruct (classify_neighbour _ _ _ _ _ _ _ _ Hnm Hna E) as (j & Hj & _ & ->).
    destruct (Z.leb_spec (Z.of_nat j) (Z.of_nat i)); [|lia].
    unfold edge_of_bond, axis_of_bond, edges. rewrite Hax.
    cbn [app find_axis has_id map fst nth option_list snd]. rewrite Nat.eqb_refl.
    split; reflexivity.
  - assert (Hne : a <> b).
    { intros ->. cbn in Hab. inversion Hab as [|? ? Hn _]. apply Hn. now left. }
    rewrite (nodup_fixed_point Nat.eq_dec) by (repeat constructor; cbn [In]; intuition).
    cbn [rfold rbind]. intros Hc Hs.
    destruct (classify (_prefix s3) (_nodes s3) new2 (Z.of_nat i) (None, None) a)
      as [acc|] eqn:E; [|cbn [rbind] in Hc; discriminate Hc].
    cbn [rbind] in Hc.
    destruct (classify_neighbour _ _ _ _ _ _ _ _ Hnm Hna E) as (j & Hj & _ & ->).
    destruct (Z.leb_spec (Z.of_nat j) (Z.of_nat i)); [|lia].
    cbn [fst snd] in Hc.
    destruct (classify (_prefix s3) (_nodes s3) new2 (Z.of_nat i) _ b)
      as [acc|] eqn:E2; [|cbn [rbind] in Hc; discriminate Hc].
    cbn [rbind] in Hc. injection Hc as <-.
    destruct (classify_neighbour _ _ _ _ _ _ _ _ Hnm Hnb E2) as (j2 & Hj2 & _ & ->).
    cbn [fst snd] in *.
    unfold edge_of_bond, axis_of_bond, edges in *. rewrite Hax in *.
    cbn [app find_axis has_id map fst nth option_list snd] in *.
    rewrite !Nat.eqb_refl in *.
    replace (b =? a) with false in * by (symmetry; apply Nat.eqb_neq; congruence).
    cbn [nth] in *.
    destruct (Z.of_nat j2 <=? Z.of_nat i)%Z; cbn [fst snd option_list] in *.
    + exfalso. revert Hs. unfold split_node_full_svd, rank. rewrite Hax.
      cbn [map app length is_permutation Nat.eqb andb]. discriminate.
    + split; reflexivity.
Qed.

(** When the merged node is the first node of the edge towards the site on
    its right, the index of that site is read from the name of the merged
    node if the prefix occurs in it, and is not a number. *)
Lemma merged_name_clash (connected : option Edge * option Edge) (b Db : nat) :
  RB = [(Bond b true, Db)] ->
  rfold (classify (_prefix s3) (_nodes s3) new2 (Z.of_nat i))
    (get_all_nondangling new2) (None, None) = Ok connected ->
  Names.contains (_prefix s3) "new_mps_tensor" = false.
Proof.
  intros ERB. unfold get_all_nondangling, bond_ids, edges. rewrite Hax.
  assert (Hcl : forall acc acc',
            (forall a ra Da, RA = [(Bond a ra, Da)] -> a <> b) ->
            classify (_prefix s3) (_nodes s3) new2 (Z.of_nat i) acc b = Ok acc' ->
            Names.contains (_prefix s3) "new_mps_tensor" = false).
  { intros acc acc' Hne. unfold classify.
    destruct (neighbour_name (_nodes s3) b) as [other|]; [|discriminate].
    cbn [rbind].
    assert (E1 : is_node1 new2 b = true).
    { unfold is_node1, axis_of_bond, edges. rewrite Hax, ERB.
      destruct HRA as [[-> _]|(a & ra & Da & -> & _)];
        cbn [app find_axis has_id map fst nth_error].
      - now rewrite Nat.eqb_refl.
      - replace (b =? a) with false
          by (symmetry; apply Nat.eqb_neq; intros ->; now apply (Hne a ra Da)).
        cbn [nth_error]. now rewrite Nat.eqb_refl. }
    rewrite E1, Hnm. cbn [fst snd].
    destruct (Names.contains (_prefix s3) "new_mps_tensor"); [|reflexivity].
    rewrite index_of_merged_name. discriminate. }
  rewrite ERB in *.
  destruct HRA as [[-> Hi0]|(a & ra & Da & -> & Hi1 & Hna)];
    cbn [map fst app flat_map bond_id].
  - rewrite (nodup_fixed_point Nat.eq_dec) by (repeat constructor; cbn [In]; intuition).
    cbn [rfold rbind]. intros Hc.
    destruct (classify (_prefix s3) (_nodes s3) new2 (Z.of_nat i) (None, None) b)
      as [acc|] eqn:E; [|cbn [rbind] in Hc; discriminate Hc].
    apply (Hcl _ _ ltac:(discriminate) E).
  - assert (Hne : a <> b).
    { intros ->. cbn in Hab. inversion Hab as [|? ? Hn _]. apply Hn. now left. }
    rewrite (nodup_fixed_point Nat.eq_dec) by (repeat constructor; cbn [In]; intuition).
    cbn [rfold rbind]. intros Hc.
    destruct (classify (_prefix s3) (_nodes s3) new2 (Z.of_nat i) (None, None) a)
      as [acc|] eqn:E; [|cbn [rbind] in Hc; discriminate Hc].
    cbn [rbind] in Hc.
    destruct (classify (_prefix s3) (_nodes s3) new2 (Z.of_nat i) acc b)
      as [acc2|] eqn:E2; [|cbn [rbind] in Hc; discriminate Hc].
    apply (Hcl _ _ ltac:(intros ? ? ? [= -> _ _]; exact Hne) E2).
Qed.

Lemma tail_below (c : nat) :
  c = fresh_id (_nodes s3 ++ [new2]) ->
  forall e, In e (RA ++ RB) -> is_shared [c; S c] (fst e) = false.
Proof.
  intros Hc [[t|j r] d] He; [reflexivity|].
  assert (Hj : j < c).
  { subst c. apply (fresh_id_spec _ new2).
    - apply in_or_app. right. now left.
    - unfold bond_ids, edges. rewrite Hax. rewrite app_assoc, map_app, flat_map_app.
      apply in_or_app. left. apply in_flat_map. exists (Bond j r).
      split; [|now left]. apply in_map_iff. now exists (Bond j r, d). }
  cbn [fst is_shared mem existsb].
  replace (j =? c) with false by (symmetry; apply Nat.eqb_neq; lia).
  replace (j =? S c) with false by (symmetry; apply Nat.eqb_neq; lia).
  reflexivity.
Qed.

Lemma split_and_store_run (s4 : MPS) :
  split_and_store svd new2 (Dangling t2) (Dangling t3)
    (Z.of_nat i) (Z.of_nat i + 1) kw s3 = (Ok tt, s4) ->
  exists newL newR cm k x,
    s4 = mkMPS (_nqudits s3) (_qudit_dimension s3) (_prefix s3)
           (Py.set_nth (Py.set_nth (_nodes s3) i newL) (S i) newR)
           (_max_bond_dimensions s3) (_infidelities s3 ++ [x]) (_fidelities s3)
    /\ name newL = name oldA /\ name newR = name oldB
    /\ axes newL = (Dangling t2, g2) :: RA ++ [(Bond cm true, k)]
    /\ axes newR = (Bond cm false, k) :: (Dangling t3, g3) :: RB
    /\ fresh_id (_nodes s3 ++ [new2]) <= cm
    /\ k <= g2 * size (map snd RA) /\ k <= g3 * size (map snd RB)
    /\ (exists cap,
         fst (cap_of_kwargs kw (Z.of_nat i) (Z.of_nat i + 1) s3) = Ok cap
         /\ k = match cap with
              | Some m =>
                  length (Py.slice_to
                            (seq 0 (Nat.min (g2 * size (map snd RA))
                                            (g3 * size (map snd RB)))) m)
              | None => Nat.min (g2 * size (map snd RA)) (g3 * size (map snd RB))
              end)
    /\ (forall b Db, RB = [(Bond b true, Db)] ->
        Names.contains (_prefix s3) "new_mps_tensor" = false).
Proof.
  intros H. unfold split_and_store, bind, get, lift in H. cbn [fst snd] in H.
  destruct (rfold (classify (_prefix s3) (_nodes s3) new2 (Z.of_nat i))
              (get_all_nondangling new2) (None, None)) as [connected|err] eqn:Ecl;
    [|discriminate H].
  pose proof (cap_of_kwargs_state kw (Z.of_nat i) (Z.of_nat i + 1) s3) as Hcs.
  destruct (cap_of_kwargs kw (Z.of_nat i) (Z.of_nat i + 1) s3) as [[cap|err] scap]
    eqn:Ecap; [|discriminate H].
  cbn [snd] in Hcs. subst scap.
  remember (fresh_id (_nodes s3 ++ [new2])) as c eqn:Ec.
  destruct (split_node_full_svd svd c (S c) new2
              (Dangling t2 :: option_list (fst connected))
              (Dangling t3 :: option_list (snd connected)) cap) as [sp|err] eqn:Esp;
    [|discriminate H].
  destruct (classified _ _ _ _ Ecl Esp) as [El Er]. rewrite El, Er in Esp.
  destruct (split_axes _ _ _ _ _ _ _ _ _ _ _ Hax (proj1 tail_shapes)
              (proj2 tail_shapes) Hab Esp) as (k & Hu & Hs & Hv & Hk1 & Hk2 & Hk3).
  assert (Hcap : exists cap0,
            fst (Ok cap, s3) = Ok cap0
            /\ k = match cap0 with
                   | Some m =>
                       length (Py.slice_to
                                 (seq 0 (Nat.min (g2 * size (map snd RA))
                                                 (g3 * size (map snd RB)))) m)
                   | None => Nat.min (g2 * size (map snd RA)) (g3 * size (map snd RB))
                   end)
    by (exists cap; split; [reflexivity|exact Hk3]).
  assert (Hclash : forall b Db, RB = [(Bond b true, Db)] ->
            Names.contains (_prefix s3) "new_mps_tensor" = false)
    by (intros b Db ERB; exact (merged_name_clash connected b Db ERB Ecl)).
  pose proof (tail_below c Ec) as Hbelow.
  unfold append_infidelity in H.
  set (x := Re (Csum (map (fun x => Cmul (Cconj x) x) (split_truncated sp)))) in H.
  set (s3' := mkMPS (_nqudits s3) (_qudit_dimension s3) (_prefix s3) (_nodes s3)
                (_max_bond_dimensions s3) (_infidelities s3 ++ [x]) (_fidelities s3))
    in H.
  assert (HA' : node_at (Z.of_nat i) s3' = (Ok (i, oldA), s3'))
    by (apply node_at_run; exact HoA).
  assert (HB' : node_at (Z.of_nat i + 1) s3' = (Ok (S i, oldB), s3')).
  { replace (Z.of_nat i + 1)%Z with (Z.of_nat (S i)) by lia.
    apply node_at_run. exact HoB. }
  assert (Hlen : S i < length (_nodes s3)) by (apply nth_error_Some; congruence).
  assert (Hset : forall (l : list Node) (y : Node) (p : nat),
            p < length l ->
            Py.setitem l (Z.of_nat p) y = Some (Py.set_nth l p y)).
  { intros l y p Hp. unfold Py.setitem. rewrite position_nonneg by lia.
    now rewrite Nat2Z.id. }
  destruct (match keep_left_canonical kw with Some b => b | None => true end).
  - destruct (rejoin_right (split_s sp) (split_vh sp) c k ((Dangling t3, g3) :: RB)
                default_name Hs Hv) as (z & Ez & Hz & _).
    { intros e [<-|He]; [reflexivity|]. apply Hbelow, in_or_app. now right. }
    rewrite Ez in H. unfold ret in H. rewrite HA', HB' in H.
    cbn [_nodes s3'] in H. rewrite Hset in H by lia. cbn [of_option] in H.
    replace (Z.of_nat i + 1)%Z with (Z.of_nat (S i)) in H by lia.
    rewrite Hset in H by (rewrite set_nth_length; lia). cbn [of_option] in H.
    unfold set_nodes in H. injection H as <-.
    exists (set_name (split_u sp) (name oldA)), (set_name z (name oldB)), c, k, x.
    cbn [set_name name axes _nqudits _qudit_dimension _prefix _max_bond_dimensions
         _infidelities _fidelities s3'].
    repeat split; try assumption; try reflexivity.
  - destruct (rejoin_left (split_u sp) (split_s sp) c k ((Dangling t2, g2) :: RA)
                default_name Hu Hs) as (z & Ez & Hz & _).
    { intros e [<-|He]; [reflexivity|]. apply Hbelow, in_or_app. now left. }
    rewrite Ez in H. unfold ret in H. rewrite HA', HB' in H.
    cbn [_nodes s3'] in H. rewrite Hset in H by lia. cbn [of_option] in H.
    replace (Z.of_nat i + 1)%Z with (Z.of_nat (S i)) in H by lia.
    rewrite Hset in H by (rewrite set_nth_length; lia). cbn [of_option] in H.
    unfold set_nodes in H. injection H as <-.
    exists (set_name z (name oldA)), (set_name (split_vh sp) (name oldB)), (S c), k, x.
    cbn [set_name name axes _nqudits _qudit_dimension _prefix _max_bond_dimensions
         _infidelities _fidelities s3'].
    repeat split; try assumption; try reflexivity; try lia.
Qed.

End Tail.

Lemma position_of_nat (len k : nat) :
  k < len -> Py.position len (Z.of_nat k) = Some k.
Proof. intros H. rewrite position_nonneg by lia. now rewrite Nat2Z.id. Qed.

Lemma position_of_succ (len k : nat) :
  S k < len -> Py.position len (Z.of_nat k + 1) = Some (S k).
Proof.
  intros H. replace (Z.of_nat k + 1)%Z with (Z.of_nat (S k)) by lia.
  now apply position_of_nat.
Qed.

Lemma bind_ok {X Y} (m : M X) (f : X -> M Y) (s0 s2 : MPS) (y : Y) :
  bind m f s0 = (Ok y, s2) ->
  exists x s1, m s0 = (Ok x, s1) /\ f x s1 = (Ok y, s2).
Proof.
  unfold bind. destruct (m s0) as [[x|e] s1]; [|discriminate].
  intros H. now exists x, s1.
Qed.

Lemma find_at {A} (f : A -> bool) (l : list A) (k : nat) (x : A) :
  nth_error l k = Some x -> f x = true ->
  (forall j y, j < k -> nth_error l j = Some y -> f y = false) ->
  find f l = Some x.
Proof.
  revert k. induction l as [|a l IH]; intros [|k] Hk Hx Hbefore;
    try discriminate; simpl in *.
  - injection Hk as ->. now rewrite Hx.
  - rewrite (Hbefore 0 a) by (lia || reflexivity).
    apply (IH k); [assumption..|].
    intros j y Hj Hy. apply (Hbefore (S j)); [lia | exact Hy].
Qed.

Lemma fresh_edges_ids (nd : Node) : bond_ids (fresh_edges nd) = [].
Proof.
  unfold bond_ids, edges, fresh_edges, node_shape. cbn [axes].
  generalize (seq 0 (rank nd)) as l. generalize (map snd (axes nd)) as sh.
  intros sh l. revert sh. induction l as [|t l IH]; intros [|d sh]; simpl; auto.
Qed.

Lemma bonds_dims_only (l : list (Edge * nat)) :
  length (filter (fun a => is_dangling (fst a)) l) = 0 ->
  map snd (axes_bonds l) = map snd l.
Proof.
  induction l as [|[[t|j r] d] l IH]; simpl; intros H;
    [reflexivity|discriminate|].
  now rewrite IH.
Qed.

Lemma bonds_at_most_one (l L : list (nat * nat)) :
  length L <= 1 -> Permutation l L -> l = L.
Proof.
  intros HL Hp. destruct L as [|x [|y L]]; simpl in HL; try lia.
  - now apply Permutation_sym, Permutation_nil in Hp.
  - now apply Permutation_sym, Permutation_length_1_inv in Hp.
Qed.

Lemma dangling_count (nd : Node) :
  length (get_all_dangling nd)
  = length (filter (fun a => is_dangling (fst a)) (axes nd)).
Proof. unfold get_all_dangling, edges. apply filter_map_fst_length. Qed.

Lemma set_edge_In (l : list (Edge * nat)) (p : nat) (e : Edge) (x : Edge * nat) :
  In x (set_edge l p e) -> fst x = e \/ In x l.
Proof.
  revert p. induction l as [|[e0 d0] l IH]; intros [|p]; cbn [set_edge In];
    try tauto.
  - intros [<-|H]; auto.
  - intros [<-|H]; auto. destruct (IH p H); auto.
Qed.

(** A node has one end of an edge at most. *)
Lemma bond_end_unique (l : list (Edge * nat)) (b d : nat) (r : bool) :
  NoDup (map fst (axes_bonds l)) -> In (Bond b r, d) l ->
  find (fun a => has_id b (fst a)) l = Some (Bond b r, d).
Proof.
  induction l as [|[e d0] l IH]; intros Hnd Hin; [contradiction|].
  destruct e as [t|j q]; cbn [find fst has_id].
  - destruct Hin as [E|Hin]; [discriminate E|]. now apply IH.
  - cbn [axes_bonds flat_map fst snd app map] in Hnd.
    inversion Hnd as [|? ? Hj Hnd']; subst.
    destruct Hin as [E|Hin].
    + injection E as -> -> ->. now rewrite Nat.eqb_refl.
    + destruct (Nat.eqb_spec b j) as [->|Hne]; [|now apply IH].
      exfalso. apply Hj. apply in_map_iff. exists (j, d). split; [reflexivity|].
      unfold axes_bonds. apply in_flat_map. exists (Bond j r, d). split; [exact Hin|].
      now left.
Qed.

Section Update.

Variables (s : MPS) (bids bdims : list nat) (i : nat).
Hypothesis Hinv : chain_inv s bids bdims.
Hypothesis Hnames : forall k nd, nth_error (_nodes s) k = Some nd ->
  name nd = site_name (_prefix s) (Z.of_nat k).
Hypothesis Hi : S i < length (_nodes s).

(** The connected edges of a site are its bond to the left and its bond to
    the right. *)
Lemma site_ids (k : nat) (nd : Node) (x : nat) :
  nth_error (_nodes s) k = Some nd -> In x (bond_ids nd) ->
  (k <> 0 /\ x = nth (k - 1) bids 0)
  \/ (k <> length (_nodes s) - 1 /\ x = nth k bids 0).
Proof.
  intros Hk Hx. destruct (site_bond_ids s bids bdims Hinv k nd Hk) as [Hp _].
  apply (Permutation_in _ Hp) in Hx. now apply expected_ids_in in Hx.
Qed.

Lemma bids_apart (j k : nat) :
  j < length (_nodes s) - 1 -> k < length (_nodes s) - 1 ->
  nth j bids 0 = nth k bids 0 -> j = k.
Proof.
  intros Hj Hk. pose proof (ci_bids _ _ _ Hinv) as Hl.
  apply (proj1 (NoDup_nth bids 0) (ci_nodup _ _ _ Hinv)); lia.
Qed.

Lemma site_has_right (k : nat) (nd : Node) :
  nth_error (_nodes s) k = Some nd -> k < length (_nodes s) - 1 ->
  In (nth k bids 0) (bond_ids nd).
Proof.
  intros Hk Hlt. rewrite bond_ids_dims.
  apply (in_map fst _ _ (right_bond_in s bids bdims Hinv k nd Hk Hlt)).
Qed.

Lemma site_has_left (k : nat) (nd : Node) :
  nth_error (_nodes s) (S k) = Some nd -> In (nth k bids 0) (bond_ids nd).
Proof.
  intros Hk. rewrite bond_ids_dims.
  apply (in_map fst _ _ (left_bond_in s bids bdims Hinv k nd Hk)).
Qed.

(** The site at the other end of the bond to the left of site [i]. *)
Lemma neighbour_left (nodes3 : list Node) :
  1 <= i ->
  (forall k, k < i -> nth_error nodes3 k = nth_error (_nodes s) k) ->
  neighbour_name nodes3 (nth (i - 1) bids 0)
  = Ok (site_name (_prefix s) (Z.of_nat (i - 1))).
Proof.
  intros H1 Hsame. unfold neighbour_name.
  destruct (nth_error (_nodes s) (i - 1)) as [L|] eqn:HL;
    [|apply nth_error_None in HL; lia].
  rewrite (find_at _ nodes3 (i - 1) L).
  - now rewrite (Hnames _ _ HL).
  - rewrite Hsame by lia. exact HL.
  - apply mem_In. apply site_has_right; [assumption|lia].
  - intros j y Hj Hy. rewrite Hsame in Hy by lia.
    destruct (mem (nth (i - 1) bids 0) (bond_ids y)) eqn:E; [|reflexivity].
    apply mem_In in E. destruct (site_ids j y _ Hy E) as [[Hj0 Ex]|[Hjn Ex]];
      apply bids_apart in Ex; lia.
Qed.

(** The site at the other end of the bond to the right of site [i + 1],
    once the two sites have lost their edges. *)
Lemma neighbour_right (nodes3 : list Node) (A' B' : Node) :
  i + 2 < length (_nodes s) ->
  (forall k, k <> i -> k <> S i -> nth_error nodes3 k = nth_error (_nodes s) k) ->
  nth_error nodes3 i = Some A' -> nth_error nodes3 (S i) = Some B' ->
  bond_ids A' = [] -> bond_ids B' = [] ->
  neighbour_name nodes3 (nth (S i) bids 0)
  = Ok (site_name (_prefix s) (Z.of_nat (i + 2))).
Proof.
  intros H2 Hsame HA' HB' EA EB. unfold neighbour_name.
  destruct (nth_error (_nodes s) (i + 2)) as [Rn|] eqn:HR;
    [|apply nth_error_None in HR; lia].
  rewrite (find_at _ nodes3 (i + 2) Rn).
  - now rewrite (Hnames _ _ HR).
  - rewrite Hsame by lia. exact HR.
  - apply mem_In. apply site_has_left. now replace (S (S i)) with (i + 2) by lia.
  - intros j y Hj Hy.
    destruct (Nat.eq_dec j i) as [->|Hji].
    { rewrite HA' in Hy. injection Hy as <-. now rewrite EA. }
    destruct (Nat.eq_dec j (S i)) as [->|Hjs].
    { rewrite HB' in Hy. injection Hy as <-. now rewrite EB. }
    rewrite Hsame in Hy by lia.
    destruct (mem (nth (S i) bids 0) (bond_ids y)) eqn:E; [|reflexivity].
    apply mem_In in E. destruct (site_ids j y _ Hy E) as [[Hj0 Ex]|[Hjn Ex]];
      apply bids_apart in Ex; lia.
Qed.

Variable svd : SvdKernel.
Variables (gate : Node) (kw : Kwargs).
Hypothesis Hgate : gate_edges_ok gate 4 = true.

(** Storing the two new sites over what the earlier steps left there. *)
Lemma stored_nodes (l : list Node) (p : nat) (x1 y1 x2 y2 x3 y3 : Node) :
  S p < length l ->
  Py.set_nth
    (Py.set_nth
       (Py.set_nth
          (Py.set_nth (Py.set_nth (Py.set_nth l p x1) (S p) y1) p x2) (S p) y2)
       p x3) (S p) y3
  = Py.set_nth (Py.set_nth l p x3) (S p) y3.
Proof.
  intros Hp. apply CeilingsFacts.nth_error_ext. intros k.
  rewrite !nth_error_set_nth, !set_nth_length.
  destruct (Nat.ltb_spec (S p) (length l)); [|lia].
  destruct (Nat.ltb_spec p (length l)); [|lia].
  destruct (Nat.eqb_spec k (S p)), (Nat.eqb_spec k p); reflexivity.
Qed.

Lemma update_run (s1 : MPS) :
  let n := length (_nodes s) in
  let La := if i =? 0 then [] else [(nth (i - 1) bids 0, nth (i - 1) bdims 0)] in
  let Lb := if S i =? n - 1 then [] else [(nth (S i) bids 0, nth (S i) bdims 0)] in
  two_qubit_gate_update svd gate (Z.of_nat i) (Z.of_nat i + 1) kw s = (Ok tt, s1) ->
  exists newL newR cm k x A B,
    nth_error (_nodes s) i = Some A /\ nth_error (_nodes s) (S i) = Some B
    /\ s1 = mkMPS (_nqudits s) (_qudit_dimension s) (_prefix s)
              (Py.set_nth (Py.set_nth (_nodes s) i newL) (S i) newR)
              (_max_bond_dimensions s) (_infidelities s ++ [x]) (_fidelities s)
    /\ name newL = name A /\ name newR = name B
    /\ length (get_all_dangling newL) = 1 /\ length (get_all_dangling newR) = 1
    /\ bond_dims newL = La ++ [(cm, k)] /\ bond_dims newR = (cm, k) :: Lb
    /\ (forall j, j < n - 1 -> j <> i -> nth j bids 0 < cm)
    /\ k <= dim_at gate 2 * size (map snd La)
    /\ k <= dim_at gate 3 * size (map snd Lb)
    /\ (exists cap,
         fst (cap_of_kwargs kw (Z.of_nat i) (Z.of_nat i + 1) s) = Ok cap
         /\ k = match cap with
                | Some m =>
                    length (Py.slice_to
                              (seq 0 (Nat.min (dim_at gate 2 * size (map snd La))
                                              (dim_at gate 3 * size (map snd Lb)))) m)
                | None => Nat.min (dim_at gate 2 * size (map snd La))
                                  (dim_at gate 3 * size (map snd Lb))
                end)
    /\ physical_dimension newL = dim_at gate 2
    /\ physical_dimension newR = dim_at gate 3
    /\ (S i < n - 1 -> is_node1 B (nth (S i) bids 0) = true ->
        Names.contains (_prefix s) "new_mps_tensor" = false).
Proof.
  intros n La Lb H.
  pose proof (ci_bids _ _ _ Hinv) as Hlb. fold n in Hlb.
  assert (Hin : S i < n) by exact Hi.
  destruct (nth_error (_nodes s) i) as [A|] eqn:HA;
    [|apply nth_error_None in HA; fold n in HA; lia].
  destruct (nth_error (_nodes s) (S i)) as [B|] eqn:HB;
    [|apply nth_error_None in HB; fold n in HB; lia].
  destruct (ci_sites _ _ _ Hinv i A HA) as [HdA HpA].
  destruct (ci_sites _ _ _ Hinv (S i) B HB) as [HdB HpB].
  fold n in HpA, HpB.
  destruct (dangling_axis A HdA) as (tA & dA & HaxA).
  destruct (dangling_axis B HdB) as (tB & dB & HaxB).
  destruct (gate_four_axes gate Hgate) as (t0 & d0 & t1 & d1 & t2 & d2 & t3 & d3 & Hg).
  unfold two_qubit_gate_update in H.
  (* the first connection *)
  apply bind_ok in H. destruct H as (gate1' & s_1 & H1 & H).
  rewrite (connect_site_run s gate A (Z.of_nat i) 0 i tA dA t0 d0) in H1;
    [|apply position_of_nat; fold n; lia|exact HA|exact HaxA|now rewrite Hg].
  destruct (dA =? d0) eqn:Ed0; [|discriminate H1].
  injection H1 as <- <-.
  remember (fresh_id (_nodes s ++ [gate])) as c1 eqn:Ec1.
  remember (mkNode (name A)
              (set_edge (axes A) (find_axis is_dangling (axes A)) (Bond c1 true))
              (value A)) as A1 eqn:EA1.
  remember (mkNode (name gate) (set_edge (axes gate) 0 (Bond c1 false)) (value gate))
    as gate1 eqn:Eg1.
  (* the second connection *)
  apply bind_ok in H. destruct H as (gate2' & s_2 & H2 & H).
  cbn [set_nodes snd] in H2.
  rewrite (connect_site_run _ gate1 B (Z.of_nat i + 1) 1 (S i) tB dB t1 d1) in H2.
  2: { cbn [_nodes]. rewrite set_nth_length. apply position_of_succ. fold n. lia. }
  2: { cbn [_nodes]. rewrite nth_error_set_nth.
       replace (S i =? i) with false by (symmetry; apply Nat.eqb_neq; lia).
       exact HB. }
  2: exact HaxB.
  2: { subst gate1. cbn [axes]. rewrite Hg. reflexivity. }
  destruct (dB =? d1) eqn:Ed1; [|discriminate H2].
  injection H2 as <- <-.
  cbn [_nodes set_nodes snd _nqudits _qudit_dimension _prefix
       _max_bond_dimensions _infidelities _fidelities] in H.
  remember (fresh_id (Py.set_nth (_nodes s) i A1 ++ [gate1])) as c2 eqn:Ec2.
  remember (mkNode (name B)
              (set_edge (axes B) (find_axis is_dangling (axes B)) (Bond c2 true))
              (value B)) as B1 eqn:EB1.
  remember (mkNode (name gate1) (set_edge (axes gate1) 1 (Bond c2 false)) (value gate1))
    as gate2 eqn:Eg2.
  assert (Hg2 : axes gate2 = [(Bond c1 false, d0); (Bond c2 false, d1);
                              (Dangling t2, d2); (Dangling t3, d3)]).
  { subst gate2 gate1. cbn [axes]. rewrite Hg. reflexivity. }
  (* the free edges of the gate *)
  apply bind_ok in H. destruct H as (lge & s' & Hl & H).
  unfold lift, edges in Hl. rewrite Hg2 in Hl. cbn [map fst nth_error of_option] in Hl.
  injection Hl as <- <-.
  apply bind_ok in H. destruct H as (rge & s' & Hr & H).
  unfold lift, edges in Hr. rewrite Hg2 in Hr. cbn [map fst nth_error of_option] in Hr.
  injection Hr as <- <-.
  (* what is known of the two sites and of the edges *)
  set (nodes2 := Py.set_nth (Py.set_nth (_nodes s) i A1) (S i) B1) in *.
  assert (Hlen2 : length nodes2 = n) by (unfold nodes2; now rewrite !set_nth_length).
  assert (HA2 : nth_error nodes2 i = Some A1).
  { unfold nodes2. rewrite !nth_error_set_nth, !set_nth_length. fold n.
    rewrite Nat.eqb_refl.
    replace (i =? S i) with false by (symmetry; apply Nat.eqb_neq; lia).
    destruct (Nat.ltb_spec i n); [reflexivity|lia]. }
  assert (HB2 : nth_error nodes2 (S i) = Some B1).
  { unfold nodes2. rewrite !nth_error_set_nth, !set_nth_length. fold n.
    rewrite Nat.eqb_refl. destruct (Nat.ltb_spec (S i) n); [reflexivity|lia]. }
  set (m := nth i bids 0) in *. set (Dm := nth i bdims 0) in *.
  assert (HpA1 : Permutation (bond_dims A1) ((c1, dA) :: La ++ [(m, Dm)])).
  { subst A1. unfold bond_dims. cbn [axes].
    rewrite (axes_bonds_set_edge _ _ _ _ _ _ HaxA). constructor.
    unfold bond_dims in HpA. rewrite HpA. unfold expected_bonds.
    destruct (Nat.eqb_spec i (n - 1)); [lia|]. reflexivity. }
  assert (HpB1 : Permutation (bond_dims B1) ((c2, dB) :: Lb ++ [(m, Dm)])).
  { subst B1. unfold bond_dims. cbn [axes].
    rewrite (axes_bonds_set_edge _ _ _ _ _ _ HaxB). constructor.
    unfold bond_dims in HpB. rewrite HpB. unfold expected_bonds.
    change (S i =? 0) with false. cbn [app]. replace (S i - 1) with i by lia.
    fold m Dm. apply (Permutation_cons_append Lb (m, Dm)). }
  assert (HdA1 : length (filter (fun a => is_dangling (fst a)) (axes A1)) = 0).
  { subst A1. cbn [axes]. rewrite dangling_count in HdA.
    pose proof (dangling_set_edge _ _ _ _ c1 true HaxA). lia. }
  assert (HdB1 : length (filter (fun a => is_dangling (fst a)) (axes B1)) = 0).
  { subst B1. cbn [axes]. rewrite dangling_count in HdB.
    pose proof (dangling_set_edge _ _ _ _ c2 true HaxB). lia. }
  assert (Hbelow1 : forall j, j < n - 1 -> nth j bids 0 < c1).
  { intros j Hj. subst c1.
    destruct (nth_error (_nodes s) j) as [nd|] eqn:Hnd';
      [|apply nth_error_None in Hnd'; fold n in Hnd'; lia].
    apply (fresh_id_spec _ nd).
    - apply in_or_app. left. eapply nth_error_In; eassumption.
    - apply site_has_right; [assumption | fold n; lia]. }
  assert (Hc12 : c1 < c2).
  { rewrite Ec2. apply (fresh_id_spec _ gate1).
    - apply in_or_app. right. now left.
    - subst gate1. unfold bond_ids, edges. cbn [axes]. rewrite Hg. now left. }
  assert (Hnd : NoDup (c1 :: c2 :: m :: map fst La ++ map fst Lb)).
  { pose proof (Hbelow1 i ltac:(lia)) as Hm. fold m in Hm.
    assert (Ha : 1 <= i -> nth (i - 1) bids 0 < c1 /\ nth (i - 1) bids 0 <> m).
    { intros H1. split; [apply Hbelow1; lia|].
      intros E. apply bids_apart in E; fold n; lia. }
    assert (Hb : i + 2 < n -> nth (S i) bids 0 < c1 /\ nth (S i) bids 0 <> m
                              /\ nth (S i) bids 0 <> nth (i - 1) bids 0).
    { intros H2. split; [apply Hbelow1; lia|]. split.
      - intros E. apply bids_apart in E; fold n; lia.
      - intros E. apply bids_apart in E; fold n; lia. }
    unfold La, Lb.
    destruct (Nat.eqb_spec i 0), (Nat.eqb_spec (S i) (n - 1));
      cbn [map fst app]; repeat constructor; cbn [In];
      try (destruct Ha as [Ha1 Ha2]; [lia|]);
      try (destruct Hb as (Hb1 & Hb2 & Hb3); [lia|]);
      intuition; lia. }
  (* the two sites *)
  apply bind_ok in H. destruct H as ([posA nodeA] & s' & Hn & H).
  rewrite (node_at_run _ i A1) in Hn by exact HA2.
  injection Hn as <- <- <-.
  apply bind_ok in H. destruct H as ([posB nodeB] & s' & Hn & H).
  replace (Z.of_nat i + 1)%Z with (Z.of_nat (S i)) in Hn by lia.
  rewrite (node_at_run _ (S i) B1) in Hn by exact HB2.
  injection Hn as <- <- <-.
  (* the contraction of the two sites *)
  apply bind_ok in H. destruct H as (new0' & s' & Hc & H). unfold lift in Hc.
  destruct (merge_contract_between A1 B1 gate2 c1 c2 m dA dB Dm t2 d2 t3 d3 d0 d1
              La Lb HpA1 HpB1 Hg2 Hnd "new_mps_tensor") as (new0 & E0 & Hax0).
  rewrite E0 in Hc. injection Hc as <- <-.
  apply bind_ok in H. destruct H as (sx & s' & Hget & H).
  unfold get in Hget. injection Hget as <- <-.
  apply bind_ok in H. destruct H as ([] & s3 & Hset & H).
  unfold set_nodes in Hset. injection Hset as <-.
  cbn [_nodes _nqudits _qudit_dimension _prefix _max_bond_dimensions
       _infidelities _fidelities] in H.
  apply bind_ok in H. destruct H as (sx & s' & Hget & H).
  unfold get in Hget. injection Hget as <- <-.
  cbn [_nodes] in H.
  set (nodes3 := Py.set_nth (Py.set_nth nodes2 i (fresh_edges A1)) (S i)
                   (fresh_edges B1)) in *.
  assert (Hsame3 : forall k, k <> i -> k <> S i ->
                             nth_error nodes3 k = nth_error (_nodes s) k).
  { intros k H1 H2. unfold nodes3, nodes2. rewrite !nth_error_set_nth.
    replace (k =? S i) with false by (symmetry; apply Nat.eqb_neq; lia).
    replace (k =? i) with false by (symmetry; apply Nat.eqb_neq; lia).
    reflexivity. }
  assert (HA3 : nth_error nodes3 i = Some (fresh_edges A1)).
  { unfold nodes3. rewrite !nth_error_set_nth, !set_nth_length, Hlen2.
    rewrite Nat.eqb_refl.
    replace (i =? S i) with false by (symmetry; apply Nat.eqb_neq; lia).
    destruct (Nat.ltb_spec i n); [reflexivity|lia]. }
  assert (HB3 : nth_error nodes3 (S i) = Some (fresh_edges B1)).
  { unfold nodes3. rewrite !nth_error_set_nth, !set_nth_length, Hlen2.
    rewrite Nat.eqb_refl. destruct (Nat.ltb_spec (S i) n); [reflexivity|lia]. }
  assert (Hbelow3 : forall l j, j < n - 1 -> j <> i ->
                                nth j bids 0 < fresh_id (nodes3 ++ l)).
  { intros l j Hj Hji.
    destruct (Nat.eq_dec j (S i)) as [->|Hjs].
    - destruct (nth_error (_nodes s) (S (S i))) as [nd|] eqn:Hnd';
        [|apply nth_error_None in Hnd'; fold n in Hnd'; lia].
      apply (fresh_id_spec _ nd).
      + apply in_or_app. left. apply (nth_error_In _ (S (S i))).
        rewrite Hsame3 by lia. exact Hnd'.
      + now apply site_has_left.
    - destruct (nth_error (_nodes s) j) as [nd|] eqn:Hnd';
        [|apply nth_error_None in Hnd'; fold n in Hnd'; lia].
      apply (fresh_id_spec _ nd).
      + apply in_or_app. left. apply (nth_error_In _ j).
        rewrite Hsame3 by lia. exact Hnd'.
      + apply site_has_right; [assumption | fold n; lia]. }
  remember (fresh_id (nodes3 ++ [new0; gate2])) as f eqn:Ef.
  assert (Hf : ~ In f (c1 :: c2 :: map fst La ++ map fst Lb)).
  { assert (Hg2in : forall y, In y (bond_ids gate2) -> y < f).
    { intros y Hy. rewrite Ef. apply (fresh_id_spec _ gate2); [|exact Hy].
      apply in_or_app. right. right. now left. }
    assert (H1 : c1 < f) by (apply Hg2in; unfold bond_ids, edges; rewrite Hg2; now left).
    assert (H2 : c2 < f)
      by (apply Hg2in; unfold bond_ids, edges; rewrite Hg2; right; now left).
    unfold La, Lb.
    destruct (Nat.eqb_spec i 0), (Nat.eqb_spec (S i) (n - 1));
      cbn [map fst app In];
      try (pose proof (Hbelow3 [new0; gate2] (i - 1) ltac:(lia) ltac:(lia)) as Hx1;
           rewrite <- Ef in Hx1);
      try (pose proof (Hbelow3 [new0; gate2] (S i) ltac:(lia) ltac:(lia)) as Hx2;
           rewrite <- Ef in Hx2);
      intuition; lia. }
  destruct (merge_result A1 B1 gate2 c1 c2 m dA dB Dm t2 d2 t3 d3 d0 d1 La Lb
              HdA1 HdB1 HpA1 HpB1 Hg2 Hnd f Hf "new_mps_tensor" new0 Hax0)
    as (new1 & gate3 & RA & RB & Efl & Hax2 & HdRA & HdRB & HpRA & HpRB & HinB).
  rewrite Efl in H.
  set (new2 := contract f new1 gate3 "new_mps_tensor") in *.
  assert (HLa : length La <= 1) by (unfold La; destruct (i =? 0); simpl; lia).
  assert (HLb : length Lb <= 1) by (unfold Lb; destruct (S i =? n - 1); simpl; lia).
  pose proof (bonds_at_most_one _ _ HLa HpRA) as EbA.
  pose proof (bonds_at_most_one _ _ HLb HpRB) as EbB.
  assert (HRA : (RA = [] /\ i = 0)
                \/ exists a ra Da,
                     RA = [(Bond a ra, Da)] /\ 1 <= i
                     /\ neighbour_name nodes3 a
                        = Ok (site_name (_prefix s) (Z.of_nat (i - 1)))).
  { unfold La in HpRA. destruct (Nat.eqb_spec i 0) as [E|E].
    - left. split; [|exact E]. now apply no_bonds_nil.
    - right. destruct (one_bond_singleton _ _ _ HdRA HpRA) as [ra ->].
      exists (nth (i - 1) bids 0), ra, (nth (i - 1) bdims 0).
      split; [reflexivity|]. split; [lia|].
      apply neighbour_left; [lia|]. intros k Hk. apply Hsame3; lia. }
  assert (HRB : RB = []
                \/ exists b rb Db,
                     RB = [(Bond b rb, Db)]
                     /\ neighbour_name nodes3 b
                        = Ok (site_name (_prefix s) (Z.of_nat (i + 2)))).
  { unfold Lb in HpRB. destruct (Nat.eqb_spec (S i) (n - 1)) as [E|E].
    - left. now apply no_bonds_nil.
    - right. destruct (one_bond_singleton _ _ _ HdRB HpRB) as [rb ->].
      exists (nth (S i) bids 0), rb, (nth (S i) bdims 0).
      split; [reflexivity|].
      apply (neighbour_right nodes3 (fresh_edges A1) (fresh_edges B1));
        try assumption; try apply fresh_edges_ids. fold n. lia. }
  assert (Hab : NoDup (map fst (axes_bonds (RA ++ RB)))).
  { rewrite axes_bonds_app, EbA, EbB.
    inversion Hnd as [|? ? _ Hnd1]; subst. inversion Hnd1 as [|? ? _ Hnd2]; subst.
    inversion Hnd2 as [|? ? _ Hnd3]; subst. now rewrite map_app. }
  destruct (split_and_store_run svd
              (mkMPS (_nqudits s) (_qudit_dimension s) (_prefix s) nodes3
                 (_max_bond_dimensions s) (_infidelities s) (_fidelities s))
              new2 (fresh_edges A1) (fresh_edges B1) i kw t2 d2 t3 d3 RA RB
              eq_refl Hax2 HA3 HB3 HRA HRB Hab s1 H)
    as (newL & newR & cm & k & x & Es1 & HnL & HnR & HaL & HaR & Hcm & Hk1 & Hk2
        & (cap & Ecap & Hk3) & Hclash).
  rewrite (cap_of_kwargs_fields kw _ _ _ s) in Ecap by reflexivity.
  cbn [_nodes _nqudits _qudit_dimension _prefix _max_bond_dimensions
       _infidelities _fidelities] in Es1, Hcm.
  exists newL, newR, cm, k, x, A, B.
  split; [reflexivity|]. split; [reflexivity|].
  split.
  { rewrite Es1. f_equal. unfold nodes3, nodes2. apply stored_nodes. fold n. lia. }
  split; [rewrite HnL; subst A1; reflexivity|].
  split; [rewrite HnR; subst B1; reflexivity|].
  split.
  { rewrite dangling_count, HaL. cbn [filter fst is_dangling length].
    rewrite filter_app, length_app, HdRA. reflexivity. }
  split.
  { rewrite dangling_count, HaR. cbn [filter fst is_dangling length].
    now rewrite HdRB. }
  split.
  { unfold bond_dims. rewrite HaL.
    change ((Dangling t2, d2) :: RA ++ [(Bond cm true, k)])
      with ([(Dangling t2, d2)] ++ RA ++ [(Bond cm true, k)]).
    rewrite !axes_bonds_app, EbA. reflexivity. }
  split.
  { unfold bond_dims. rewrite HaR.
    change ((Bond cm false, k) :: (Dangling t3, d3) :: RB)
      with ([(Bond cm false, k); (Dangling t3, d3)] ++ RB).
    rewrite axes_bonds_app, EbB. reflexivity. }
  split.
  { intros j Hj Hji. pose proof (Hbelow3 [new2] j Hj Hji). lia. }
  unfold physical_dimension. rewrite HaL, HaR.
  cbn [find_axis is_dangling]. unfold dim_at, node_shape. rewrite Hg, HaL, HaR.
  cbn [map snd nth].
  rewrite <- EbA, <- EbB, !bonds_dims_only by assumption.
  split; [assumption|]. split; [assumption|].
  split; [exists cap; split; assumption|]. split; [reflexivity|].
  split; [reflexivity|].
  intros Hlast Hrole. cbn [_prefix] in Hclash.
  unfold Lb in HpRB. destruct (Nat.eqb_spec (S i) (n - 1)) as [E|_]; [lia|].
  destruct (one_bond_singleton _ _ _ HdRB HpRB) as [rb ERB].
  apply (Hclash (nth (S i) bids 0) (nth (S i) bdims 0)). rewrite ERB.
  do 3 f_equal.
  assert (HinB1 : In (Bond (nth (S i) bids 0) rb, nth (S i) bdims 0) (axes B1))
    by (apply HinB; rewrite ERB; now left).
  subst B1. cbn [axes] in HinB1. apply set_edge_In in HinB1.
  destruct HinB1 as [Ec|HinB0].
  { exfalso. cbn [fst] in Ec. injection Ec as Ec _.
    pose proof (Hbelow1 (S i) ltac:(lia)). lia. }
  assert (HndB : NoDup (map fst (axes_bonds (axes B)))).
  { apply (Permutation_NoDup (Permutation_sym (Permutation_map fst HpB))).
    apply (expected_ids_nodup s bids bdims Hinv). fold n. lia. }
  pose proof (bond_end_unique _ _ _ _ HndB HinB0) as Hfind.
  rewrite is_node1_bond_end in Hrole. unfold bond_end in Hrole.
  rewrite Hfind in Hrole. exact Hrole.
Qed.

End Update.

End TwoSiteFacts.

(** ** What the constructor builds *)

Module ConstructorTheorems.

Import Cx Np Tn Bonds Mps Invariants Fresh CxFacts CeilingsFacts ChecksFacts.
Import ChainFacts InitFacts FreshFacts WavefunctionFacts NormFacts.
Local Open Scope Z_scope.

(** C3: for every [N >= 2] and [d >= 2] the constructor returns a chain that
    passes [is_valid], whose norm is 1, whose bonds all have the dimension 1,
    and whose wavefunction has [d ^ N] entries: a one at position 0 and
    zeros elsewhere. *)
Theorem fresh_chain_zero_state (nqudits d : Z) (prefix : string) :
  2 <= nqudits -> 2 <= d ->
  exists s,
    init nqudits d prefix = Ok s
    /\ is_valid s = true
    /\ norm s = Ok 1%R
    /\ get_bond_dimensions s = Ok (repeat 1%nat (Z.to_nat (nqudits - 1)))
    /\ (forall i, 0 <= i < nqudits - 1 -> get_bond_dimension_of i s = Ok 1%nat)
    /\ wavefunction s = Ok (basis_vector (Z.to_nat (d ^ nqudits)) 0).
Proof.
  intros HN Hd.
  destruct (init_closed nqudits d prefix HN) as (c & _ & E).
  pose proof (fresh_chain_inv nqudits d prefix c HN) as Hinv.
  eexists. split; [exact E|].
  split; [exact (chain_valid _ _ _ Hinv)|].
  split; [now apply fresh_norm|].
  split.
  - rewrite (chain_bond_dimensions _ _ _ Hinv). unfold fresh_bdims.
    do 2 f_equal. lia.
  - split; [|apply fresh_wavefunction; lia].
    intros i Hi. replace i with (Z.of_nat (Z.to_nat i)) by lia.
    rewrite (chain_bond_dimension _ _ _ Hinv).
    + unfold fresh_bdims. f_equal. apply nth_repeat_lt. lia.
    + cbn [_nodes]. unfold fresh_nodes. rewrite length_map, length_seq. lia.
Qed.

Lemma fresh_chain_zero_state_witness :
  2 <= 3 /\ 2 <= 2 /\
  exists s,
    init 3 2 "q" = Ok s
    /\ is_valid s = true
    /\ norm s = Ok 1%R
    /\ get_bond_dimensions s = Ok (repeat 1%nat (Z.to_nat (3 - 1)))
    /\ (forall i, 0 <= i < 3 - 1 -> get_bond_dimension_of i s = Ok 1%nat)
    /\ wavefunction s = Ok (basis_vector (Z.to_nat (2 ^ 3)) 0).
Proof.
  split; [lia|]. split; [lia|].
  apply (fresh_chain_zero_state 3 2 "q"); lia.
Defined.

(** C4: for every [N >= 2], [d >= 2] and bond [0 <= i < N - 1] the chain the
    constructor returns reports [min (d ^ (i + 1)) (d ^ (N - i - 1))] as the
    ceiling of the bond [i]. *)
Theorem max_bond_ceiling_formula (nqudits d i : Z) (prefix : string) :
  2 <= nqudits -> 2 <= d -> 0 <= i < nqudits - 1 ->
  exists s,
    init nqudits d prefix = Ok s
    /\ get_max_bond_dimension_of i s
       = Ok (Z.min (d ^ (i + 1)) (d ^ (nqudits - i - 1))).
Proof.
  intros HN Hd Hi.
  destruct (init_closed nqudits d prefix HN) as (c & Hc & E).
  rewrite max_bond_dimensions_closed in Hc by assumption.
  injection Hc as <-.
  eexists. split; [exact E|].
  unfold get_max_bond_dimension_of. cbn [_nqudits _max_bond_dimensions].
  destruct (Z.geb_spec i nqudits); [lia|].
  unfold Py.getitem. rewrite ceilings_length.
  rewrite position_nonneg by lia.
  rewrite ceilings_nth by lia. rewrite Z2Nat.id by lia. reflexivity.
Qed.

Lemma max_bond_ceiling_formula_witness :
  2 <= 4 /\ 2 <= 3 /\ 0 <= 1 < 4 - 1 /\
  exists s,
    init 4 3 "q" = Ok s
    /\ get_max_bond_dimension_of 1 s = Ok (Z.min (3 ^ (1 + 1)) (3 ^ (4 - 1 - 1))).
Proof.
  split; [lia|]. split; [lia|]. split; [lia|].
  apply (max_bond_ceiling_formula 4 3 1 "q"); lia.
Defined.

(** C6 (amended): with fewer than two sites the constructor ends in the
    error of the invalid shape and returns no chain; the dimension of the
    qudits is not looked at: with two sites or more the constructor returns
    a chain whatever [d] is. *)
Theorem constructor_shape_check (nqudits d : Z) (prefix : string) :
  (nqudits < 2 -> init nqudits d prefix = Err InvalidShape)
  /\ (2 <= nqudits ->
      exists s, init nqudits d prefix = Ok s
                /\ _nqudits s = nqudits /\ _qudit_dimension s = d).
Proof.
  split.
  - intros H. unfold init. destruct (Z.ltb_spec nqudits 2); [reflexivity|lia].
  - intros H. destruct (init_closed nqudits d prefix H) as (c & _ & E).
    eexists. split; [exact E|]. split; reflexivity.
Qed.

Lemma constructor_shape_check_witness :
  init 1 2 "q" = Err InvalidShape
  /\ exists s, init 2 1 "q" = Ok s /\ _nqudits s = 2 /\ _qudit_dimension s = 1.
Proof.
  split.
  - apply (constructor_shape_check 1 2 "q"). lia.
  - apply (constructor_shape_check 2 1 "q"). lia.
Defined.

(** C6 as stated fails: a qudit dimension below two is accepted. *)
Lemma constructor_accepts_dimension_one :
  ~ (forall nqudits d prefix,
       nqudits < 2 \/ d < 2 -> init nqudits d prefix = Err InvalidShape).
Proof.
  intros H. assert (E : init 2 1 "q" = Err InvalidShape) by (apply H; lia).
  vm_compute in E. discriminate E.
Qed.

End ConstructorTheorems.

(** ** The theorems above on the sample chains *)

Module Instances.

Import Cx Np Tn Bonds Mps Invariants Examples.
Local Open Scope Z_scope.

Lemma chain3_constructed : init 3 2 "q" = Ok chain3.
Proof. reflexivity. Qed.

Lemma chain2_constructed : init 2 2 "q" = Ok chain2.
Proof. reflexivity. Qed.

Lemma chain3_uniform : uniform 2 chain3.
Proof.
  split; [reflexivity|]. split; [reflexivity|].
  intros n [<-|[<-|[<-|[]]]]; reflexivity.
Qed.

Lemma reversed_order_rejected_witness :
  is_valid chain3 = true
  /\ gate_edges_ok Gates.cnot 4 = true
  /\ apply_two_qubit_gate diagonal_kernel Gates.cnot 1 0 no_kwargs chain3
     = (Err InvalidIndexOrder, chain3).
Proof.
  split; [reflexivity|]. split; [reflexivity|].
  apply ChecksTheorems.reversed_order_rejected; reflexivity.
Defined.

Lemma dispatcher_rejects_non_adjacent_witness :
  is_valid chain3 = true
  /\ op_is_valid (_nqudits chain3) far_cnot = true
  /\ apply_mps_operation diagonal_kernel far_cnot no_kwargs chain3
     = (Err NonAdjacentSites, chain3).
Proof.
  split; [reflexivity|]. split; [reflexivity|].
  apply (ChecksTheorems.dispatcher_rejects_non_adjacent
           diagonal_kernel chain3 far_cnot no_kwargs 0 2);
    try reflexivity.
Defined.

(** C2 as stated fails: the dispatcher does not route the CNOT between the
    sites [0] and [2] of [MPS(3)] to adjacent sites, the call ends in an
    error. *)
Lemma dispatcher_does_not_route :
  op_is_valid (_nqudits chain3) far_cnot = true
  /\ fst (apply_mps_operation diagonal_kernel far_cnot no_kwargs chain3)
     = Err NonAdjacentSites
  /\ ~ (exists s', apply_mps_operation diagonal_kernel far_cnot no_kwargs chain3
                   = (Ok tt, s')).
Proof.
  split; [reflexivity|]. split; [reflexivity|].
  intros (s' & E).
  assert (E' : fst (apply_mps_operation diagonal_kernel far_cnot no_kwargs chain3)
               = Ok tt) by now rewrite E.
  discriminate E'.
Qed.

Lemma one_site_gate_frame_witness :
  is_valid chain3 = true
  /\ gate_edges_ok Gates.xgate 2 = true
  /\ Py.in_range 1 (_nqudits chain3) = true
  /\ let s' := snd (apply_one_qubit_gate Gates.xgate 1 chain3) in
     (forall k, get_bond_dimension_of k s' = get_bond_dimension_of k chain3)
     /\ get_bond_dimensions s' = get_bond_dimensions chain3
     /\ option_map name (Py.getitem (_nodes s') 1)
        = option_map name (Py.getitem (_nodes chain3) 1)
     /\ is_valid s' = true
     /\ (forall d, uniform d chain3 ->
                   dim_at Gates.xgate 0 = d -> dim_at Gates.xgate 1 = d ->
                   fst (apply_one_qubit_gate Gates.xgate 1 chain3) = Ok tt).
Proof.
  split; [reflexivity|]. split; [reflexivity|]. split; [reflexivity|].
  apply (OneSiteTheorems.one_site_gate_frame chain3 Gates.xgate 1); reflexivity.
Defined.

Lemma bond_dimension_index_check_witness :
  is_valid chain3 = true
  /\ _nqudits chain3 = Z.of_nat (length (_nodes chain3))
  /\ (forall i, get_bond_dimension_of i chain3 = Err IndexOutOfRange <-> 3 <= i)
  /\ get_bond_dimension_of 2 chain3 = Err PyIndexError
  /\ (forall i, - 3 <= i <= -2 ->
        get_bond_dimension_of i chain3 = get_bond_dimension_of (3 + i) chain3)
  /\ get_bond_dimension_of (-1) chain3
     = shared_dimension (_nodes chain3) (length (_nodes chain3) - 1) 0.
Proof.
  split; [reflexivity|]. split; [reflexivity|].
  apply (ChecksTheorems.bond_dimension_index_check chain3); reflexivity.
Defined.

End Instances.
(** ** What [norm] returns *)

Module NormTheorems.

Import Cx Np Tn Bonds Mps Invariants Examples CxFacts.
Local Open Scope R_scope.

(** Evaluates a closed term down to its real arithmetic. *)
Ltac eval_reals :=
  cbv -[Rplus Rmult Ropp Rminus Rle_dec Rabs sqrt IZR Rdiv Rinv].

Lemma stretched2_applied :
  apply_one_qubit_gate twice_identity 0 chain2 = (Ok tt, stretched2).
Proof. reflexivity. Qed.

Lemma stretched2_valid : is_valid stretched2 = true.
Proof. reflexivity. Qed.

Lemma stretched2_wavefunction :
  wavefunction stretched2 = Ok [of_R 2; C0; C0; C0].
Proof.
  eval_reals. apply f_equal.
  repeat (apply f_equal2; [apply f_equal2; ring|]). reflexivity.
Qed.

Lemma stretched2_norm : norm stretched2 = Ok 4.
Proof.
  unfold norm. eval_reals.
  match goal with
  | |- context [Rabs ?e] => replace e with 0 by ring
  end.
  rewrite Rabs_R0.
  destruct (Rle_dec 0 (1 / 100000000)) as [_|H]; [|exfalso; apply H; lra].
  f_equal.
  match goal with
  | |- sqrt ?e = _ => replace e with (4 * 4) by ring
  end.
  apply sqrt_square. lra.
Qed.

(** Whatever [norm] returns is not negative. *)
Lemma norm_nonneg (s : MPS) (x : R) : norm s = Ok x -> 0 <= x.
Proof.
  unfold norm, rbind, of_option. intros H.
  repeat match type of H with
         | context [match ?e with _ => _ end] =>
             lazymatch e with
             | context [match _ with _ => _ end] => fail
             | _ => destruct e eqn:?
             end
         end; try discriminate H.
  injection H as <-. apply Cabs_nonneg.
Qed.

(** C1: on the chain [MPS(2)] whose first site was multiplied by two (a valid
    chain with the wavefunction [2, 0, 0, 0]), [norm] returns 4, the inner
    product of the wavefunction with itself, and not its square root 2. *)
Theorem norm_returns_inner_product :
  apply_one_qubit_gate twice_identity 0 chain2 = (Ok tt, stretched2)
  /\ is_valid stretched2 = true
  /\ wavefunction stretched2 = Ok [of_R 2; C0; C0; C0]
  /\ norm stretched2 = Ok 4
  /\ Re (vdot [of_R 2; C0; C0; C0] [of_R 2; C0; C0; C0]) = 4
  /\ sqrt (Re (vdot [of_R 2; C0; C0; C0] [of_R 2; C0; C0; C0])) = 2
  /\ norm stretched2
     <> Ok (sqrt (Re (vdot [of_R 2; C0; C0; C0] [of_R 2; C0; C0; C0]))).
Proof.
  assert (Ev : Re (vdot [of_R 2; C0; C0; C0] [of_R 2; C0; C0; C0]) = 4)
    by (eval_reals; ring).
  assert (Es : sqrt (Re (vdot [of_R 2; C0; C0; C0] [of_R 2; C0; C0; C0])) = 2).
  { rewrite Ev. replace 4 with (2 * 2) by ring. apply sqrt_square. lra. }
  split; [exact stretched2_applied|].
  split; [exact stretched2_valid|].
  split; [exact stretched2_wavefunction|].
  split; [exact stretched2_norm|].
  split; [exact Ev|]. split; [exact Es|].
  rewrite stretched2_norm, Es. intros [= H]. lra.
Qed.

End NormTheorems.
(** ** The ceilings after a two-site gate *)

Module TwoSiteTheorems.

Import Cx Np Tn Bonds Mps Invariants TnFacts ChecksFacts OneSiteFacts AllSitesFacts.
Import CeilingsFacts ChainFacts InitFacts AxesFacts NamesFacts TwoSiteFacts.
Local Open Scope nat_scope.

Lemma set_nth_nth (l : list nat) (p j x : nat) :
  nth j (Py.set_nth l p x) 0 = if (j =? p) && (p <? length l) then x else nth j l 0.
Proof.
  revert p j. induction l as [|a l IH]; intros p j.
  - cbn [Py.set_nth length]. replace (p <? 0) with false by (symmetry; apply Nat.ltb_ge; lia).
    now rewrite andb_false_r.
  - destruct p as [|p], j as [|j]; cbn [Py.set_nth nth length]; try reflexivity.
    rewrite IH. reflexivity.
Qed.

Lemma set_nth_nodup (l : list nat) (p x : nat) :
  NoDup l -> (forall j, j < length l -> j <> p -> nth j l 0 <> x) ->
  NoDup (Py.set_nth l p x).
Proof.
  intros Hnd Hx. apply (NoDup_nth _ 0). intros j k Hj Hk.
  rewrite set_nth_length in Hj, Hk. rewrite !set_nth_nth.
  destruct (Nat.ltb_spec p (length l)); cbn [andb];
    rewrite ?andb_false_r;
    [|intros E; now apply (proj1 (NoDup_nth l 0) Hnd)].
  rewrite !andb_true_r.
  destruct (Nat.eqb_spec j p) as [->|Hjp], (Nat.eqb_spec k p) as [->|Hkp]; intros E.
  - reflexivity.
  - exfalso. apply (Hx k Hk Hkp). now symmetry.
  - exfalso. now apply (Hx j Hj Hjp).
  - now apply (proj1 (NoDup_nth l 0) Hnd).
Qed.

(** The new bond is within its ceiling when its two neighbours are within
    theirs. *)
Lemma new_bond_bounded (N d : Z) (i k Da Db : nat) :
  (2 <= d)%Z -> (Z.of_nat i + 2 <= N)%Z ->
  k <= Z.to_nat d * Da -> k <= Z.to_nat d * Db ->
  (Z.of_nat Da <= d ^ Z.of_nat i)%Z ->
  (Z.of_nat Db <= d ^ (N - Z.of_nat i - 2))%Z ->
  (Z.of_nat k <= Ceilings.ceiling N d (Z.of_nat i))%Z.
Proof.
  intros Hd HN HkA HkB HDa HDb. unfold Ceilings.ceiling.
  apply Z.min_glb.
  - replace (Z.of_nat i + 1)%Z with (Z.succ (Z.of_nat i)) by lia.
    rewrite Z.pow_succ_r by lia.
    transitivity (d * Z.of_nat Da)%Z; [nia|]. apply Z.mul_le_mono_nonneg_l; lia.
  - replace (N - Z.of_nat i - 1)%Z with (Z.succ (N - Z.of_nat i - 2)) by lia.
    rewrite Z.pow_succ_r by lia.
    transitivity (d * Z.of_nat Db)%Z; [nia|]. apply Z.mul_le_mono_nonneg_l; lia.
Qed.

Lemma ceiling_left (N d : Z) (j : Z) :
  (Ceilings.ceiling N d j <= d ^ (j + 1))%Z.
Proof. unfold Ceilings.ceiling. apply Z.le_min_l. Qed.

Lemma ceiling_right (N d : Z) (j : Z) :
  (Ceilings.ceiling N d j <= d ^ (N - j - 1))%Z.
Proof. unfold Ceilings.ceiling. apply Z.le_min_r. Qed.

(** The invariants hold again after the update of the two sites. *)
Lemma update_bounded (svd : SvdKernel) (s s1 : MPS) (bids bdims : list nat)
    (i : nat) (gate : Node) (kw : Kwargs) :
  bounded_chain s bids bdims ->
  S i < length (_nodes s) ->
  gate_edges_ok gate 4 = true ->
  dim_at gate 2 = Z.to_nat (_qudit_dimension s) ->
  dim_at gate 3 = Z.to_nat (_qudit_dimension s) ->
  two_qubit_gate_update svd gate (Z.of_nat i) (Z.of_nat i + 1) kw s = (Ok tt, s1) ->
  exists cm k x,
    _nqudits s1 = _nqudits s /\ _qudit_dimension s1 = _qudit_dimension s
    /\ _max_bond_dimensions s1 = _max_bond_dimensions s
    /\ _prefix s1 = _prefix s
    /\ _infidelities s1 = _infidelities s ++ [x]
    /\ _fidelities s1 = _fidelities s
    /\ bounded_chain s1 (Py.set_nth bids i cm) (Py.set_nth bdims i k).
Proof.
  intros [Hinv Hd Hceil Hnames Hbound] Hi Hgate Hg2 Hg3 H.
  destruct (update_run s bids bdims i Hinv Hnames Hi svd gate kw Hgate s1 H)
    as (newL & newR & cm & k & x & A & B & HA & HB & -> & HnL & HnR & HdL & HdR
        & HbL & HbR & Hfresh & Hk1 & Hk2 & _).
  pose proof (ci_nqudits _ _ _ Hinv) as Hnq.
  pose proof (ci_bids _ _ _ Hinv) as Hlb.
  pose proof (ci_bdims _ _ _ Hinv) as Hld.
  set (n := length (_nodes s)) in *.
  exists cm, k, x. cbn [_nqudits _qudit_dimension _max_bond_dimensions _prefix
                        _infidelities _fidelities].
  repeat (split; [reflexivity|]).
  assert (Hnth : forall j nd,
            nth_error (Py.set_nth (Py.set_nth (_nodes s) i newL) (S i) newR) j = Some nd ->
            (j = i /\ nd = newL) \/ (j = S i /\ nd = newR)
            \/ (j <> i /\ j <> S i /\ nth_error (_nodes s) j = Some nd)).
  { intros j nd. rewrite !nth_error_set_nth, !set_nth_length. fold n.
    destruct (Nat.ltb_spec (S i) n); [|lia]. destruct (Nat.ltb_spec i n); [|lia].
    destruct (Nat.eqb_spec j (S i)) as [->|Hj1]; cbn [andb].
    - intros [= <-]. right. left. now split.
    - destruct (Nat.eqb_spec j i) as [->|Hj2]; cbn [andb].
      + intros [= <-]. left. now split.
      + intros E. right. right. now repeat split. }
  constructor; cbn [_nqudits _qudit_dimension _max_bond_dimensions _prefix _nodes].
  - constructor; cbn [_nqudits _nodes]; rewrite ?set_nth_length; fold n.
    + exact Hnq.
    + exact (ci_two _ _ _ Hinv).
    + exact Hlb.
    + exact Hld.
    + apply set_nth_nodup; [exact (ci_nodup _ _ _ Hinv)|].
      intros j Hj Hji. specialize (Hfresh j ltac:(lia) Hji). lia.
    + intros j nd Hj. unfold expected_bonds. rewrite !set_nth_nth, Hlb, Hld.
      destruct (Nat.ltb_spec i (n - 1)); [|lia]. rewrite !andb_true_r.
      destruct (Hnth j nd Hj) as [[-> ->]|[[-> ->]|(H1 & H2 & Hold)]].
      * split; [exact HdL|]. rewrite HbL, Nat.eqb_refl.
        destruct (Nat.eqb_spec i (n - 1)); [lia|].
        destruct (Nat.eqb_spec i 0) as [->|]; [reflexivity|].
        destruct (Nat.eqb_spec (i - 1) i); [lia|]. reflexivity.
      * split; [exact HdR|]. rewrite HbR.
        change (S i =? 0) with false. replace (S i - 1) with i by lia.
        rewrite Nat.eqb_refl.
        destruct (Nat.eqb_spec (S i) i); [lia|].
        destruct (Nat.eqb_spec (S i) (n - 1)); reflexivity.
      * destruct (ci_sites _ _ _ Hinv j nd Hold) as [Hdj Hpj]. split; [exact Hdj|].
        fold n in Hpj. unfold expected_bonds in Hpj.
        destruct (Nat.eqb_spec j i); [lia|].
        destruct (Nat.eqb_spec j 0) as [->|]; [exact Hpj|].
        destruct (Nat.eqb_spec (j - 1) i); [lia|]. exact Hpj.
  - exact Hd.
  - exact Hceil.
  - intros j nd Hj.
    destruct (Hnth j nd Hj) as [[-> ->]|[[-> ->]|(H1 & H2 & Hold)]].
    + rewrite HnL. now apply Hnames.
    + rewrite HnR. now apply Hnames.
    + now apply Hnames.
  - intros j Hj. rewrite set_nth_length in Hj. rewrite set_nth_nth, Hld.
    destruct (Nat.ltb_spec i (n - 1)); [|lia]. rewrite andb_true_r.
    destruct (Nat.eqb_spec j i) as [->|Hji]; [|now apply Hbound].
    rewrite Hg2 in Hk1. rewrite Hg3 in Hk2.
    unfold size in Hk1, Hk2.
    apply (new_bond_bounded _ _ _ _ (fold_right Nat.mul 1
             (map snd (if i =? 0 then [] else [(nth (i - 1) bids 0, nth (i - 1) bdims 0)])))
             (fold_right Nat.mul 1
                (map snd (if S i =? n - 1 then []
                          else [(nth (S i) bids 0, nth (S i) bdims 0)]))));
      try assumption; try lia.
    + destruct (Nat.eqb_spec i 0) as [->|Hi0]; cbn [map snd fold_right].
      * simpl. lia.
      * rewrite Nat.mul_1_r.
        pose proof (Hbound (i - 1) ltac:(lia)) as Hb.
        pose proof (ceiling_left (_nqudits s) (_qudit_dimension s) (Z.of_nat (i - 1))) as Hc.
        replace (Z.of_nat (i - 1) + 1)%Z with (Z.of_nat i) in Hc by lia. lia.
    + destruct (Nat.eqb_spec (S i) (n - 1)) as [E|E]; cbn [map snd fold_right].
      * replace (_nqudits s - Z.of_nat i - 2)%Z with 0%Z by lia. simpl. lia.
      * rewrite Nat.mul_1_r.
        pose proof (Hbound (S i) ltac:(lia)) as Hb.
        pose proof (ceiling_right (_nqudits s) (_qudit_dimension s) (Z.of_nat (S i))) as Hc.
        replace (_nqudits s - Z.of_nat (S i) - 1)%Z
          with (_nqudits s - Z.of_nat i - 2)%Z in Hc by lia. lia.
Qed.

(** On a chain that satisfies the invariants every bond is reported within
    its ceiling. *)
Lemma bounded_chain_bonds (s : MPS) (bids bdims : list nat) (k : Z) :
  bounded_chain s bids bdims ->
  (0 <= k < _nqudits s - 1)%Z ->
  exists D c, get_bond_dimension_of k s = Ok D
              /\ get_max_bond_dimension_of k s = Ok c
              /\ (Z.of_nat D <= c)%Z.
Proof.
  intros [Hinv Hd Hceil Hnames Hbound] Hk.
  pose proof (ci_nqudits _ _ _ Hinv) as Hnq.
  pose proof (ci_bdims _ _ _ Hinv) as Hld.
  exists (nth (Z.to_nat k) bdims 0),
         (Ceilings.ceiling (_nqudits s) (_qudit_dimension s) k).
  split; [|split].
  - rewrite <- (Z2Nat.id k) at 1 by lia.
    apply (chain_bond_dimension s bids bdims Hinv). lia.
  - unfold get_max_bond_dimension_of. destruct (Z.geb_spec k (_nqudits s)); [lia|].
    rewrite Hceil. unfold Py.getitem. rewrite ceilings_length.
    rewrite position_nonneg by lia. rewrite ceilings_nth by lia.
    rewrite Z2Nat.id by lia. reflexivity.
  - rewrite <- (Z2Nat.id k) at 2 by lia. apply Hbound. lia.
Qed.

Lemma bounded_chain_fields (s s' : MPS) (bids bdims : list nat) :
  _nqudits s' = _nqudits s -> _qudit_dimension s' = _qudit_dimension s ->
  _prefix s' = _prefix s -> _nodes s' = _nodes s ->
  _max_bond_dimensions s' = _max_bond_dimensions s ->
  bounded_chain s bids bdims -> bounded_chain s' bids bdims.
Proof.
  intros E1 E2 E3 E4 E5 [[H1 H2 H3 H4 H5 H6] Hd Hceil Hnames Hbound].
  constructor; [constructor|..]; rewrite ?E1, ?E2, ?E3, ?E4, ?E5; assumption.
Qed.

(** C5 (amended): on a chain that satisfies the invariants, a two-site gate
    whose two output edges have the dimension of the qudits and whose
    application succeeds (with any of the options) is on sites [i] and
    [i + 1], leaves a chain that satisfies the invariants again, and every
    bond of that chain is reported with a dimension within its ceiling. *)
Theorem two_site_gate_keeps_ceilings (svd : SvdKernel) (s s' : MPS)
    (bids bdims : list nat) (gate : Node) (indexA indexB : Z) (kw : Kwargs) :
  bounded_chain s bids bdims ->
  dim_at gate 2 = Z.to_nat (_qudit_dimension s) ->
  dim_at gate 3 = Z.to_nat (_qudit_dimension s) ->
  apply_two_qubit_gate svd gate indexA indexB kw s = (Ok tt, s') ->
  indexB = (indexA + 1)%Z
  /\ (exists bids' bdims', bounded_chain s' bids' bdims')
  /\ forall k, (0 <= k < _nqudits s' - 1)%Z ->
       exists D c, get_bond_dimension_of k s' = Ok D
                   /\ get_max_bond_dimension_of k s' = Ok c
                   /\ (Z.of_nat D <= c)%Z.
Proof.
  intros Hb Hg2 Hg3 H.
  pose proof (ci_nqudits _ _ _ (bc_inv _ _ _ Hb)) as Hnq.
  unfold apply_two_qubit_gate in H. unfold bind at 1, get at 1 in H.
  destruct (is_valid s); cbn [negb] in H; [|discriminate H].
  unfold Py.in_range in H.
  destruct (Z.leb_spec 0 indexA); cbn [andb negb orb] in H; [|discriminate H].
  destruct (Z.ltb_spec indexA (_nqudits s)); cbn [andb negb orb] in H; [|discriminate H].
  destruct (Z.leb_spec 0 indexB); cbn [andb negb orb] in H; [|discriminate H].
  destruct (Z.ltb_spec indexB (_nqudits s)); cbn [andb negb orb] in H; [|discriminate H].
  destruct (Z.eqb_spec indexA indexB); [discriminate H|].
  destruct (Z.eqb_spec (Z.abs (indexA - indexB)) 1); cbn [negb] in H; [|discriminate H].
  destruct (gate_edges_ok gate 4) eqn:Hgate; cbn [negb] in H; [|discriminate H].
  destruct (Z.ltb_spec indexA indexB); [|discriminate H].
  assert (EB : indexB = (indexA + 1)%Z) by lia.
  split; [exact EB|].
  subst indexB. unfold two_qubit_gate_body in H.
  apply bind_ok in H. destruct H as ([] & s1 & Hu & H).
  apply bind_ok in H. destruct H as (sx & sy & Hget & H).
  unfold get in Hget. injection Hget as <- <-.
  apply bind_ok in H. destruct H as (fid & sy & Hnorm & H).
  unfold lift in Hnorm. injection Hnorm as _ <-.
  unfold append_fidelity in H. injection H as <-.
  rewrite <- (Z2Nat.id indexA) in Hu by lia.
  destruct (update_bounded svd s s1 bids bdims (Z.to_nat indexA) gate kw Hb
              ltac:(lia) Hgate Hg2 Hg3 Hu)
    as (cm & k & x & E1 & E2 & E3 & E4 & E5 & E6 & Hb1).
  assert (Hb' : bounded_chain
                  (mkMPS (_nqudits s1) (_qudit_dimension s1) (_prefix s1) (_nodes s1)
                     (_max_bond_dimensions s1) (_infidelities s1) (_fidelities s1 ++ [fid]))
                  (Py.set_nth bids (Z.to_nat indexA) cm)
                  (Py.set_nth bdims (Z.to_nat indexA) k)).
  { now apply (bounded_chain_fields s1). }
  split; [eauto|].
  intros j Hj. now apply (bounded_chain_bonds _ _ _ j Hb').
Qed.

End TwoSiteTheorems.
(** ** The two-site gate on the sample chains *)

Module TwoSiteInstances.

Import Cx Np Tn Bonds Mps Invariants Fresh Examples CxFacts FreshFacts NormTheorems.
Import TwoSiteFacts TwoSiteTheorems.
Local Open Scope Z_scope.

(** [apply_two_qubit_gate] from the outcome of its two halves. *)
Lemma apply_two_qubit_gate_run (svd : SvdKernel) (gate : Node) (i : Z) (kw : Kwargs)
    (s : MPS) (v : R) :
  is_valid s = true ->
  Py.in_range i (_nqudits s) = true ->
  Py.in_range (i + 1) (_nqudits s) = true ->
  gate_edges_ok gate 4 = true ->
  fst (two_qubit_gate_update svd gate i (i + 1) kw s) = Ok tt ->
  norm (snd (two_qubit_gate_update svd gate i (i + 1) kw s)) = Ok v ->
  apply_two_qubit_gate svd gate i (i + 1) kw s
  = (Ok tt,
     snd (append_fidelity v (snd (two_qubit_gate_update svd gate i (i + 1) kw s)))).
Proof.
  intros Hv Hi Hj Hg Hu Hn.
  unfold apply_two_qubit_gate. unfold bind at 1, get at 1.
  rewrite Hv, Hi, Hj, Hg. cbn [negb orb].
  destruct (Z.eqb_spec i (i + 1)); [lia|].
  replace (Z.abs (i - (i + 1))) with 1 by lia. cbn [Z.eqb Pos.eqb negb].
  destruct (Z.ltb_spec i (i + 1)); [|lia].
  unfold two_qubit_gate_body, bind, get, lift.
  destruct (two_qubit_gate_update svd gate i (i + 1) kw s) as [r s1].
  cbn [fst snd] in *. subst r. rewrite Hn. reflexivity.
Qed.

Lemma chain2_bounded : bounded_chain chain2 [1%nat] [1%nat].
Proof.
  constructor.
  - exact (fresh_chain_inv 2 2 "q" [2] ltac:(lia)).
  - cbn. lia.
  - reflexivity.
  - intros [|[|[|k]]] nd; cbn; intros E; try discriminate E;
      injection E as <-; reflexivity.
  - intros [|k] Hk; cbn in Hk; [|lia]. cbn. lia.
Qed.

Ltac norm_is_one :=
  unfold norm; eval_reals;
  match goal with
  | |- context [Rabs ?e] => replace e with 0%R by ring
  end;
  rewrite Rabs_R0;
  destruct (Rle_dec 0 (1 / 100000000)) as [_|H]; [|exfalso; apply H; lra];
  f_equal;
  match goal with
  | |- sqrt ?e = _ => replace e with (1 * 1)%R by ring
  end;
  apply sqrt_square; lra.

Lemma cnot_norm :
  norm (snd (two_qubit_gate_update diagonal_kernel Gates.cnot 0 (0 + 1) no_kwargs chain2))
  = Ok 1%R.
Proof. norm_is_one. Qed.

Lemma wide_gate_norm :
  norm (snd (two_qubit_gate_update diagonal_kernel wide_gate 0 (0 + 1) no_kwargs chain2))
  = Ok 1%R.
Proof. norm_is_one. Qed.

Lemma cnot_run :
  apply_two_qubit_gate diagonal_kernel Gates.cnot 0 1 no_kwargs chain2
  = (Ok tt,
     snd (append_fidelity 1%R
            (snd (two_qubit_gate_update diagonal_kernel Gates.cnot 0 1
                    no_kwargs chain2)))).
Proof.
  exact (apply_two_qubit_gate_run diagonal_kernel Gates.cnot 0 no_kwargs chain2 1%R
           eq_refl eq_refl eq_refl eq_refl eq_refl cnot_norm).
Qed.

Lemma wide_gate_run :
  apply_two_qubit_gate diagonal_kernel wide_gate 0 1 no_kwargs chain2
  = (Ok tt,
     snd (append_fidelity 1%R
            (snd (two_qubit_gate_update diagonal_kernel wide_gate 0 1
                    no_kwargs chain2)))).
Proof.
  exact (apply_two_qubit_gate_run diagonal_kernel wide_gate 0 no_kwargs chain2 1%R
           eq_refl eq_refl eq_refl eq_refl eq_refl wide_gate_norm).
Qed.

Lemma cnot_applied :
  apply_two_qubit_gate diagonal_kernel Gates.cnot 0 1 no_kwargs chain2
  = (Ok tt, after_cnot).
Proof. unfold after_cnot. now rewrite cnot_run. Qed.

Lemma wide_gate_applied :
  apply_two_qubit_gate diagonal_kernel wide_gate 0 1 no_kwargs chain2
  = (Ok tt, after_wide_gate).
Proof. unfold after_wide_gate. now rewrite wide_gate_run. Qed.

Lemma wide_gate_bond : get_bond_dimension_of 0 after_wide_gate = Ok 3%nat.
Proof. unfold after_wide_gate. rewrite wide_gate_run. vm_compute. reflexivity. Qed.

Lemma wide_gate_ceiling : get_max_bond_dimension_of 0 after_wide_gate = Ok 2.
Proof. unfold after_wide_gate. rewrite wide_gate_run. vm_compute. reflexivity. Qed.

(** C5 as stated fails: [MPS(2)] satisfies the invariants, the gate with
    output edges of dimension three is applied to it with success, and the
    bond is then reported with the dimension 3, above its ceiling 2. *)
Lemma wide_gate_exceeds_ceiling :
  bounded_chain chain2 [1%nat] [1%nat]
  /\ is_valid chain2 = true
  /\ gate_edges_ok wide_gate 4 = true
  /\ apply_two_qubit_gate diagonal_kernel wide_gate 0 1 no_kwargs chain2
     = (Ok tt, after_wide_gate)
  /\ get_bond_dimension_of 0 after_wide_gate = Ok 3%nat
  /\ get_max_bond_dimension_of 0 after_wide_gate = Ok 2
  /\ ~ (forall D c, get_bond_dimension_of 0 after_wide_gate = Ok D ->
                    get_max_bond_dimension_of 0 after_wide_gate = Ok c ->
                    Z.of_nat D <= c).
Proof.
  split; [exact chain2_bounded|]. split; [reflexivity|]. split; [reflexivity|].
  split; [exact wide_gate_applied|]. split; [exact wide_gate_bond|].
  split; [exact wide_gate_ceiling|].
  intros H. specialize (H 3%nat 2 wide_gate_bond wide_gate_ceiling). lia.
Qed.

Lemma two_site_gate_keeps_ceilings_witness :
  bounded_chain chain2 [1%nat] [1%nat]
  /\ dim_at Gates.cnot 2 = Z.to_nat (_qudit_dimension chain2)
  /\ dim_at Gates.cnot 3 = Z.to_nat (_qudit_dimension chain2)
  /\ apply_two_qubit_gate diagonal_kernel Gates.cnot 0 1 no_kwargs chain2
     = (Ok tt, after_cnot)
  /\ 1 = 0 + 1
  /\ (exists bids' bdims', bounded_chain after_cnot bids' bdims')
  /\ forall k, 0 <= k < _nqudits after_cnot - 1 ->
       exists D c, get_bond_dimension_of k after_cnot = Ok D
                   /\ get_max_bond_dimension_of k after_cnot = Ok c
                   /\ Z.of_nat D <= c.
Proof.
  split; [exact chain2_bounded|]. split; [reflexivity|]. split; [reflexivity|].
  split; [exact cnot_applied|].
  exact (two_site_gate_keeps_ceilings diagonal_kernel chain2 after_cnot
           [1%nat] [1%nat] Gates.cnot 0 1 no_kwargs chain2_bounded
           eq_refl eq_refl cnot_applied).
Defined.

End TwoSiteInstances.

(** * Further properties of the code *)

Module NamesRound.
Import Names Mps NamesFacts.

Lemma split_last_aux_none (sep w cur : string) :
  contains sep w = false ->
  split_last_aux sep w 0 cur = String.append cur w.
Proof.
  revert cur. induction w as [|c t IH]; intros cur H; cbn [split_last_aux].
  - now rewrite append_nil_r.
  - cbn [contains] in H. apply orb_false_iff in H. destruct H as [Hp Ht].
    rewrite Hp. rewrite IH by exact Ht. now rewrite append_assoc.
Qed.

Lemma str_not_empty (k : nat) : str k <> EmptyString.
Proof.
  unfold str. intros E.
  assert (H : NilEmpty.uint_of_string (NilEmpty.string_of_uint (Nat.to_uint k))
              = Some (Nat.to_uint k)) by apply NilEmpty.usu.
  rewrite E in H. cbn in H. injection H as H.
  apply (DecimalFacts.unorm_nonnil (Nat.to_uint k)).
  rewrite <- Unsigned.to_of, Unsigned.of_to. now symmetry.
Qed.

Lemma int_str (k : nat) : int (str k) = Some k.
Proof.
  unfold int. pose proof (str_not_empty k) as H.
  destruct (str k) as [|c t] eqn:E; [contradiction|].
  rewrite <- E. unfold str. rewrite NilEmpty.usu. cbn [option_map].
  now rewrite Unsigned.of_to.
Qed.

(** X1: the name the constructor gives the site [k] is the prefix followed by
    the decimal numeral of [k]; when the prefix does not occur in that
    numeral, the index that [apply_two_qubit_gate] reads back from the name
    with [int(name.split(prefix)[-1])] is [k] again. *)
Theorem site_index_read_back (prefix : string) (k : nat) :
  contains prefix (str k) = false ->
  index_of_name prefix (site_name prefix (Z.of_nat k)) = Ok k.
Proof.
  intros H. unfold index_of_name, site_name, split_last. rewrite Nat2Z.id.
  destruct prefix as [|c p].
  - destruct (str k); discriminate H.
  - cbn [String.append split_last_aux String.prefix].
    destruct (Ascii.ascii_dec c c) as [_|]; [|contradiction].
    rewrite prefix_append. cbn [String.length].
    replace (S (String.length p) - 1) with (String.length p) by lia.
    rewrite split_last_aux_skip, split_last_aux_none by exact H.
    cbn [String.append]. rewrite int_str. reflexivity.
Qed.

End NamesRound.

Module QueryTheorems.
Import Cx Np Tn Bonds Mps Invariants Fresh.
Import CeilingsFacts ChecksFacts TnFacts OneSiteFacts AllSitesFacts InitFacts FreshFacts.
Local Open Scope Z_scope.

Lemma ceiling_mirror (n d i : Z) :
  Ceilings.ceiling n d (n - 2 - i) = Ceilings.ceiling n d i.
Proof.
  unfold Ceilings.ceiling. rewrite Z.min_comm. f_equal; f_equal; lia.
Qed.

Lemma init_ceilings (nqudits d : Z) (prefix : string) (s : MPS) :
  2 <= nqudits -> 2 <= d -> init nqudits d prefix = Ok s ->
  _nqudits s = nqudits /\ _qudit_dimension s = d /\ _prefix s = prefix
  /\ _nodes s = fresh_nodes prefix (Z.to_nat nqudits) (physical d)
  /\ _max_bond_dimensions s = Ceilings.ceilings nqudits d
  /\ _infidelities s = [] /\ _fidelities s = [].
Proof.
  intros HN Hd H.
  destruct (init_closed nqudits d prefix HN) as (c & Hc & E).
  rewrite max_bond_dimensions_closed in Hc by assumption. injection Hc as <-.
  rewrite E in H. injection H as <-. repeat split.
Qed.

(** X2: on a chain built by the constructor with at least two sites of
    dimension at least two, [get_max_bond_dimension_of] raises its own error
    only for an index that is [nqudits] or more; the index [nqudits - 1]
    passes that check and fails in the list lookup, a negative index
    [-(i + 1)] is answered like the index [i] counted from the right end of
    the list of ceilings (which is symmetric, so both give the same value),
    and an index below [-(nqudits - 1)] fails in the list lookup. *)
Theorem max_bond_index_wraps (nqudits d : Z) (prefix : string) (s : MPS) :
  2 <= nqudits -> 2 <= d -> init nqudits d prefix = Ok s ->
  (forall i, nqudits <= i -> get_max_bond_dimension_of i s = Err IndexOutOfRange)
  /\ get_max_bond_dimension_of (nqudits - 1) s = Err PyIndexError
  /\ (forall i, 0 <= i < nqudits - 1 ->
        get_max_bond_dimension_of (- (i + 1)) s = get_max_bond_dimension_of i s
        /\ get_max_bond_dimension_of (- (i + 1)) s
           = Ok (Ceilings.ceiling nqudits d (nqudits - 2 - i)))
  /\ (forall i, i < - (nqudits - 1) -> get_max_bond_dimension_of i s = Err PyIndexError).
Proof.
  intros HN Hd H.
  destruct (init_ceilings _ _ _ _ HN Hd H) as (En & _ & _ & _ & Ec & _).
  unfold get_max_bond_dimension_of, Py.getitem. rewrite En, Ec, ceilings_length.
  assert (Hget : forall i, 0 <= i < nqudits - 1 ->
            Py.position (Z.to_nat (nqudits - 1)) i = Some (Z.to_nat i)
            /\ nth_error (Ceilings.ceilings nqudits d) (Z.to_nat i)
               = Some (Ceilings.ceiling nqudits d i)).
  { intros i Hi. split; [apply position_nonneg; lia|].
    rewrite ceilings_nth by lia. now rewrite Z2Nat.id by lia. }
  repeat split.
  - intros i Hi. destruct (Z.geb_spec i nqudits); [reflexivity|lia].
  - destruct (Z.geb_spec (nqudits - 1) nqudits); [lia|].
    rewrite position_outside by lia. reflexivity.
  - destruct (Z.geb_spec (- (i + 1)) nqudits); [lia|].
    destruct (Z.geb_spec i nqudits); [lia|].
    rewrite position_negative by lia.
    destruct (Hget i ltac:(lia)) as [-> ->].
    replace (Z.of_nat (Z.to_nat (nqudits - 1)) + - (i + 1)) with (nqudits - 2 - i) by lia.
    destruct (Hget (nqudits - 2 - i) ltac:(lia)) as [_ ->].
    now rewrite ceiling_mirror.
  - destruct (Z.geb_spec (- (i + 1)) nqudits); [lia|].
    rewrite position_negative by lia.
    replace (Z.of_nat (Z.to_nat (nqudits - 1)) + - (i + 1)) with (nqudits - 2 - i) by lia.
    destruct (Hget (nqudits - 2 - i) ltac:(lia)) as [_ ->]. reflexivity.
  - intros i Hi. destruct (Z.geb_spec i nqudits); [lia|].
    rewrite position_outside by lia. reflexivity.
Qed.

Lemma find_axis_shift (off : nat) (l : list (Edge * nat)) :
  find_axis is_dangling (map (shift_edge off) l) = find_axis is_dangling l.
Proof.
  induction l as [|[[t|i r] d] l IH]; cbn [map shift_edge find_axis is_dangling];
    [reflexivity|reflexivity|now rewrite IH].
Qed.

Lemma one_dangling_axis (nd : Node) :
  length (get_all_dangling nd) = 1%nat ->
  exists e d, nth_error (axes nd) (find_axis is_dangling (axes nd)) = Some (e, d)
              /\ is_dangling e = true
              /\ (find_axis is_dangling (axes nd) < rank nd)%nat.
Proof.
  intros H1. unfold get_all_dangling, edges in H1.
  rewrite filter_map_fst_length in H1.
  assert (Hp : (find_axis is_dangling (axes nd) < rank nd)%nat).
  { apply find_axis_lt.
    destruct (filter (fun a => is_dangling (fst a)) (axes nd)) as [|a l] eqn:E;
      [discriminate|].
    exists a. assert (Ha : In a (a :: l)) by (now left).
    rewrite <- E in Ha. apply filter_In in Ha. exact Ha. }
  destruct (nth_error (axes nd) (find_axis is_dangling (axes nd))) as [[e d]|] eqn:Hnp;
    [|apply nth_error_None in Hnp; unfold rank in Hp; lia].
  exists e, d. repeat split; [|exact Hp].
  rewrite find_axis_nth in Hnp. apply find_some in Hnp. apply Hnp.
Qed.

(** X3: on a valid chain [get_free_edge_of], for an index that addresses a
    node (negative indices count from the end), returns the only dangling
    edge of that node, whose dimension is the physical dimension of the site,
    whether the node is copied or not; for any other index it fails with the
    IndexError of the list lookup. *)
Theorem free_edge_of_valid_chain (s : MPS) (index : Z) (copy : bool) :
  is_valid s = true ->
  match Py.position (length (_nodes s)) index with
  | Some p =>
      exists nd e,
        nth_error (_nodes s) p = Some nd
        /\ get_free_edge_of index copy s = Ok (e, physical_dimension nd)
        /\ is_dangling e = true
        /\ get_all_dangling nd = [e]
  | None => get_free_edge_of index copy s = Err PyIndexError
  end.
Proof.
  intros Hv. unfold get_free_edge_of, get_node, Py.getitem, get_nodes_copy, Tn.copy.
  assert (Hlen : length (if copy then map (copy_node (fresh_id (_nodes s))) (_nodes s)
                         else _nodes s) = length (_nodes s)).
  { destruct copy; [apply length_map|reflexivity]. }
  rewrite Hlen.
  destruct (Py.position (length (_nodes s)) index) as [p|] eqn:Hp; [|reflexivity].
  pose proof (position_lt _ _ _ Hp) as Hlt.
  destruct (nth_error (_nodes s) p) as [nd|] eqn:Hnd;
    [|apply nth_error_None in Hnd; lia].
  pose proof (valid_one_dangling s p nd Hv Hnd) as H1.
  destruct (one_dangling_axis nd H1) as (e & d & Hax & He & Hr).
  exists nd, e. split; [reflexivity|].
  assert (Hd : physical_dimension nd = d).
  { unfold physical_dimension, dim_at, node_shape.
    apply (map_nth_error snd) in Hax. cbn [snd] in Hax. now apply nth_error_nth. }
  rewrite Hd. split; [|split; [exact He|]].
  - destruct copy.
    + rewrite nth_error_map, Hnd. cbn [option_map of_option rbind].
      unfold pop_dangling, rank, copy_node. cbn [axes].
      rewrite find_axis_shift, length_map.
      destruct (Nat.ltb_spec (find_axis is_dangling (axes nd)) (length (axes nd)));
        [|unfold rank in Hr; lia].
      cbn [rbind]. rewrite nth_error_map, Hax. cbn [option_map of_option].
      destruct e; [reflexivity|discriminate He].
    + rewrite Hnd. cbn [of_option rbind]. unfold pop_dangling.
      destruct (Nat.ltb_spec (find_axis is_dangling (axes nd)) (rank nd)); [|lia].
      cbn [rbind]. now rewrite Hax.
  - unfold get_all_dangling, edges in *.
    rewrite find_axis_nth in Hax.
    clear - H1 Hax.
    induction (axes nd) as [|[e0 d0] l IH]; [discriminate|].
    cbn [map filter fst find] in *.
    destruct (is_dangling e0) eqn:E0.
    + injection Hax as -> ->. cbn [length] in H1.
      destruct (filter is_dangling (map fst l)); [reflexivity|discriminate].
    + now apply IH.
Qed.

End QueryTheorems.

Module OneSiteErrors.
Import Cx Np Tn Bonds Mps Invariants.
Import ChecksFacts TnFacts OneSiteFacts AllSitesFacts.
Local Open Scope Z_scope.

(** X4: whenever [apply_one_qubit_gate] raises, whatever the error, the
    chain is exactly as it was before the call. *)
Theorem one_site_gate_failure_keeps_chain (gate : Node) (index : Z) (s : MPS) (e : Error) :
  fst (apply_one_qubit_gate gate index s) = Err e ->
  snd (apply_one_qubit_gate gate index s) = s.
Proof.
  unfold apply_one_qubit_gate, bind, get, raise. cbn [fst snd].
  unfold node_at, first_dangling, connect, bind, get, lift, ret, set_nodes,
    of_option. cbn [fst snd].
  repeat case_scrutinee; cbn [fst snd]; intros H; try reflexivity; discriminate H.
Qed.

(** X5: on a valid chain whose sites all have the physical dimension [d],
    a gate with two free edges applied to a site in range is refused by the
    tensor library, with the chain unchanged, when its first edge has not the
    dimension [d]; otherwise it is applied, the site then has the dimension
    of the second edge of the gate as its physical dimension, the recorded
    qudit dimension is not updated and the other nodes are untouched. *)
Theorem one_site_gate_dimension_check (d : nat) (gate : Node) (index : Z) (s : MPS) :
  uniform d s ->
  Py.in_range index (_nqudits s) = true ->
  gate_edges_ok gate 2 = true ->
  (dim_at gate 0 <> d ->
   apply_one_qubit_gate gate index s = (Err TnDimensionMismatch, s))
  /\ (dim_at gate 0 = d ->
      exists s' site',
        apply_one_qubit_gate gate index s = (Ok tt, s')
        /\ nth_error (_nodes s') (Z.to_nat index) = Some site'
        /\ physical_dimension site' = dim_at gate 1
        /\ _qudit_dimension s' = _qudit_dimension s
        /\ forall k, k <> Z.to_nat index ->
             nth_error (_nodes s') k = nth_error (_nodes s) k).
Proof.
  intros (Hv & Hlen & Hd) Hi Hg.
  unfold apply_one_qubit_gate, bind, get, raise. cbn [fst snd].
  rewrite Hv, Hi, Hg. cbn [negb].
  unfold node_at, bind, get, lift, ret. cbn [fst snd].
  assert (Hr : 0 <= index < Z.of_nat (length (_nodes s))).
  { unfold Py.in_range in Hi. lia. }
  rewrite position_nonneg by assumption. cbn [of_option].
  destruct (nth_error (_nodes s) (Z.to_nat index)) as [site|] eqn:Hsite;
    [|apply nth_error_None in Hsite; lia].
  cbn [of_option]. unfold first_dangling.
  pose proof (valid_one_dangling s _ site Hv Hsite) as H1.
  assert (Hin : In site (_nodes s)) by (eapply nth_error_In; eassumption).
  destruct (QueryTheorems.one_dangling_axis site H1) as (e & dd & Hnp & He & Hp).
  destruct (Nat.ltb_spec (find_axis is_dangling (axes site)) (rank site)); [|lia].
  set (p := find_axis is_dangling (axes site)) in *.
  set (c := fresh_id (_nodes s ++ [gate])).
  destruct (gate_two_axes gate Hg) as (e0 & d0 & e1 & d1 & Hax & He0 & He1).
  unfold connect. rewrite Hax, Hnp. cbn [nth_error].
  rewrite He, He0. cbn [andb].
  assert (Hdd : dd = d).
  { rewrite <- (Hd site Hin). unfold physical_dimension, dim_at, node_shape.
    fold p. apply (map_nth_error snd) in Hnp. cbn [snd] in Hnp.
    symmetry. now apply nth_error_nth. }
  assert (Hd0 : dim_at gate 0 = d0).
  { unfold dim_at, node_shape. now rewrite Hax. }
  assert (Hd1 : dim_at gate 1 = d1).
  { unfold dim_at, node_shape. now rewrite Hax. }
  rewrite Hd0, Hd1. subst dd. split.
  - intros Hne. destruct (Nat.eqb_spec d d0); [congruence|]. reflexivity.
  - intros <-. rewrite Nat.eqb_refl. cbn [fst snd]. unfold set_nodes.
    eexists. eexists. split; [reflexivity|]. cbn [_nodes _qudit_dimension].
    split; [|split; [|split; [reflexivity|]]].
    + rewrite InitFacts.nth_error_set_nth, Nat.eqb_refl.
      destruct (Nat.ltb_spec (Z.to_nat index) (length (_nodes s))); [|lia].
      reflexivity.
    + assert (Hc : forall a, In a (axes site) -> is_shared [c] (fst a) = false).
      { intros a Ha. apply (not_shared_fresh (_nodes s ++ [gate]) site a); [|assumption].
        apply in_or_app. now left. }
      destruct (contracted_site_bonds c true (axes site) p e d0 Hnp He Hc) as [_ Hcount].
      unfold get_all_dangling, edges in H1. rewrite filter_map_fst_length in H1.
      rewrite H1 in Hcount. injection Hcount as Hcount.
      unfold physical_dimension, contract, contract_ids, remaining. cbn [axes name].
      cbn [set_edge filter fst is_shared mem existsb negb]. rewrite Nat.eqb_refl.
      cbn [orb negb].
      assert (Hs1 : is_shared [c] e1 = false) by (destruct e1; [reflexivity|discriminate]).
      rewrite Hs1. cbn [negb].
      rewrite find_axis_app.
      * unfold dim_at, node_shape. cbn [axes]. rewrite map_app. cbn [map snd].
        rewrite app_nth2 by (rewrite length_map; lia).
        rewrite length_map, Nat.sub_diag. reflexivity.
      * intros b Hb'. now apply (filter_nil_forall _ _ Hcount).
      * exact He1.
    + intros k Hk. rewrite InitFacts.nth_error_set_nth.
      destruct (Nat.eqb_spec k (Z.to_nat index)); [contradiction|]. reflexivity.
Qed.

End OneSiteErrors.

Module OneSiteValues.
Import Cx Np Tn Bonds Mps Invariants CxFacts.
Import ChecksFacts TnFacts OneSiteFacts AllSitesFacts DeltaFacts.
Local Open Scope nat_scope.

Lemma all_indices_one (d : nat) : all_indices [d] = map (fun i => [i]) (seq 0 d).
Proof.
  unfold all_indices. induction (seq 0 d) as [|a l IH]; simpl in *;
    [reflexivity|now f_equal].
Qed.

Lemma assemble_free (ps : list nat) (p k : nat) (fr : list nat) :
  ~ In p ps -> length fr = length ps -> assemble ps [p] [k] fr = fr.
Proof.
  revert fr. induction ps as [|q ps IH]; intros fr Hp Hl.
  - destruct fr; [reflexivity|discriminate].
  - destruct fr as [|x fr]; [discriminate|]. cbn [assemble index_of].
    destruct (Nat.eqb_spec q p) as [->|Hq]; [exfalso; apply Hp; now left|].
    cbn [option_map index_of hd tl]. f_equal.
    apply IH; [intros H; apply Hp; now right|]. cbn [length] in Hl. lia.
Qed.

(** The multi-index with [k] at the axis [p] and the values [fr] at the
    other axes. *)
Lemma assemble_insert (n a p k : nat) (fr : list nat) :
  a <= p < a + S n -> length fr = n ->
  assemble (seq a (S n)) [p] [k] fr = firstn (p - a) fr ++ k :: skipn (p - a) fr.
Proof.
  revert a fr. induction n as [|n IH]; intros a fr Hp Hl.
  - destruct fr; [|discriminate]. cbn [seq assemble index_of].
    replace p with a by lia. rewrite Nat.eqb_refl. cbn [nth].
    rewrite Nat.sub_diag. reflexivity.
  - change (seq a (S (S n))) with (a :: seq (S a) (S n)). cbn [assemble index_of].
    destruct (Nat.eqb_spec a p) as [->|Ha].
    + cbn [nth]. rewrite Nat.sub_diag. cbn [firstn skipn app]. f_equal.
      apply assemble_free; [|now rewrite length_seq].
      intros H. apply in_seq in H. lia.
    + cbn [option_map index_of]. destruct fr as [|x fr]; [discriminate|].
      cbn [hd tl]. replace (p - a) with (S (p - S a)) by lia.
      cbn [firstn skipn app]. f_equal. apply IH; [lia|].
      cbn [length] in Hl. lia.
Qed.

Lemma find_axis_set_edge (c : nat) (r : bool) (l : list (Edge * nat)) (p : nat) :
  p < length l -> (forall a, In a l -> is_shared [c] (fst a) = false) ->
  find_axis (has_id c) (set_edge l p (Bond c r)) = p.
Proof.
  revert p. induction l as [|[e d] l IH]; intros p Hp Hc; cbn [length] in Hp; [lia|].
  destruct p as [|p]; cbn [set_edge find_axis has_id].
  - now rewrite Nat.eqb_refl.
  - assert (He : has_id c e = false).
    { pose proof (Hc (e, d) (or_introl eq_refl)) as H. destruct e as [t|j q]; [reflexivity|].
      cbn [fst is_shared mem existsb] in H. cbn [has_id].
      rewrite Nat.eqb_sym. now destruct (j =? c). }
    rewrite He. f_equal. apply IH; [lia|]. intros a Ha. apply Hc. now right.
Qed.

Lemma remaining_set_edge (c : nat) (r : bool) (l : list (Edge * nat)) (p : nat) :
  p < length l -> (forall a, In a l -> is_shared [c] (fst a) = false) ->
  filter (fun a => negb (is_shared [c] (fst a))) (set_edge l p (Bond c r))
  = firstn p l ++ skipn (S p) l.
Proof.
  revert p. induction l as [|[e d] l IH]; intros p Hp Hc; cbn [length] in Hp; [lia|].
  destruct p as [|p]; cbn [set_edge filter fst is_shared mem existsb firstn skipn app].
  - rewrite Nat.eqb_refl. cbn [orb negb]. apply filter_all.
    intros a Ha. rewrite (Hc a) by (now right). reflexivity.
  - pose proof (Hc (e, d) (or_introl eq_refl)) as H. cbn [fst] in H.
    change (match e with Dangling _ => false | Bond i _ => mem i [c] end)
      with (is_shared [c] e).
    rewrite H. cbn [negb]. f_equal. apply IH; [lia|]. intros a Ha. apply Hc. now right.
Qed.

Lemma shape_set_edge (l : list (Edge * nat)) (p : nat) (e : Edge) :
  map snd (set_edge l p e) = map snd l.
Proof.
  revert p. induction l as [|[e0 d] l IH]; intros [|p]; cbn [set_edge map snd];
    try reflexivity. now rewrite IH.
Qed.

Lemma last_of_skipn (idx : list nat) (n : nat) :
  length idx = S n -> hd 0 (skipn n idx) = last idx 0.
Proof.
  intros H. assert (Hne : idx <> []) by (intros ->; discriminate).
  rewrite (app_removelast_last 0 Hne) at 1.
  rewrite skipn_app.
  assert (Hl : length (removelast idx) = n).
  { rewrite removelast_firstn_len, length_firstn. lia. }
  rewrite skipn_all2 by lia. rewrite Hl, Nat.sub_diag. reflexivity.
Qed.

Lemma two_dangling_gate (gate : Node) (e0 e1 : Edge) (d0 d1 : nat) :
  axes gate = [(e0, d0); (e1, d1)] ->
  is_dangling e0 = true -> is_dangling e1 = true ->
  gate_edges_ok gate 2 = true.
Proof.
  intros Hax H0 H1.
  unfold gate_edges_ok, get_all_dangling, get_all_nondangling, bond_ids, edges.
  rewrite Hax. destruct e0, e1; try discriminate. reflexivity.
Qed.

(** What [apply_one_qubit_gate] stores at the site. *)
Lemma one_site_gate_run (gate : Node) (index : Z) (s : MPS) (site : Node)
    (e0 e1 : Edge) (d0 d1 : nat) :
  is_valid s = true ->
  Py.in_range index (_nqudits s) = true ->
  nth_error (_nodes s) (Z.to_nat index) = Some site ->
  axes gate = [(e0, d0); (e1, d1)] ->
  is_dangling e0 = true -> is_dangling e1 = true ->
  physical_dimension site = d0 ->
  let p := find_axis is_dangling (axes site) in
  exists new,
    apply_one_qubit_gate gate index s
    = (Ok tt, mkMPS (_nqudits s) (_qudit_dimension s) (_prefix s)
                (Py.set_nth (_nodes s) (Z.to_nat index) new)
                (_max_bond_dimensions s) (_infidelities s) (_fidelities s))
    /\ name new = name site
    /\ axes new = firstn p (axes site) ++ skipn (S p) (axes site) ++ [(e1, d1)]
    /\ forall idx, length idx = rank site ->
         value new idx
         = Csum (map (fun k =>
                        Cmul (value site (firstn p (removelast idx)
                                          ++ k :: skipn p (removelast idx)))
                             (value gate [k; last idx 0]))
                     (seq 0 d0)).
Proof.
  intros Hv Hi Hsite Hax He0 He1 Hd p.
  pose proof (two_dangling_gate gate e0 e1 d0 d1 Hax He0 He1) as Hg.
  unfold apply_one_qubit_gate, bind, get, raise. cbn [fst snd].
  rewrite Hv, Hi, Hg. cbn [negb].
  unfold node_at, bind, get, lift, ret. cbn [fst snd].
  assert (Hlt : Z.to_nat index < length (_nodes s))
    by (apply nth_error_Some; congruence).
  assert (Hr : (0 <= index < Z.of_nat (length (_nodes s)))%Z).
  { unfold Py.in_range in Hi. lia. }
  rewrite position_nonneg by assumption. cbn [of_option]. rewrite Hsite.
  cbn [of_option]. unfold first_dangling.
  pose proof (valid_one_dangling s _ site Hv Hsite) as H1.
  assert (Hin : In site (_nodes s)) by (eapply nth_error_In; eassumption).
  destruct (QueryTheorems.one_dangling_axis site H1) as (e & dd & Hnp & He & Hp).
  fold p in Hnp, Hp. fold p.
  destruct (Nat.ltb_spec p (rank site)); [|lia].
  set (c := fresh_id (_nodes s ++ [gate])).
  unfold connect. rewrite Hax, Hnp. cbn [nth_error].
  rewrite He, He0. cbn [andb].
  assert (Hdd : dd = d0).
  { rewrite <- Hd. unfold physical_dimension, dim_at, node_shape.
    fold p. apply (map_nth_error snd) in Hnp. cbn [snd] in Hnp.
    symmetry. now apply nth_error_nth. }
  subst dd. rewrite Nat.eqb_refl. cbn [fst snd]. unfold set_nodes.
  assert (Hc : forall a, In a (axes site) -> is_shared [c] (fst a) = false).
  { intros a Ha. apply (not_shared_fresh (_nodes s ++ [gate]) site a); [|assumption].
    apply in_or_app. now left. }
  assert (Hs1 : is_shared [c] e1 = false) by (destruct e1; [reflexivity|discriminate]).
  unfold rank in Hp.
  eexists. split; [reflexivity|].
  unfold contract, contract_ids, remaining, axis_of_bond, dim_at, node_shape, rank.
  cbn [name axes value map].
  rewrite (remaining_set_edge c true (axes site) p Hp Hc).
  rewrite (find_axis_set_edge c true (axes site) p Hp Hc).
  cbn [set_edge filter fst is_shared mem existsb find_axis has_id].
  rewrite Nat.eqb_refl. cbn [orb negb]. rewrite Hs1. cbn [negb].
  split; [reflexivity|]. split; [now rewrite <- app_assoc|].
  intros idx Hidx. unfold tensordot_entry.
  rewrite shape_set_edge, AxesFacts.set_edge_length.
  assert (Hdim : nth p (map snd (axes site)) 0 = d0).
  { apply (map_nth_error snd) in Hnp. cbn [snd] in Hnp. now apply nth_error_nth. }
  rewrite Hdim, all_indices_one, map_map.
  unfold rank in Hidx.
  assert (Hn : exists n, length (axes site) = S n) by (exists (length (axes site) - 1); lia).
  destruct Hn as [n Hn].
  assert (Hrem : length (firstn p (axes site) ++ skipn (S p) (axes site)) = n).
  { rewrite length_app, length_firstn, length_skipn. lia. }
  rewrite Hrem.
  assert (HF : firstn n idx = removelast idx).
  { rewrite removelast_firstn_len. f_equal. lia. }
  rewrite HF.
  f_equal. apply map_ext. intros k. f_equal.
  - f_equal. cbn [length]. rewrite Hn.
    rewrite (assemble_insert n 0 p k) by (rewrite <- ?HF, ?length_firstn; lia).
    now rewrite Nat.sub_0_r.
  - f_equal. cbn [length seq assemble index_of Nat.eqb option_map nth hd tl].
    do 2 f_equal. apply last_of_skipn. lia.
Qed.


Lemma others_not_dangling (l : list (Edge * nat)) (p : nat) (e : Edge) (d : nat) :
  length (filter (fun a => is_dangling (fst a)) l) = 1 ->
  nth_error l p = Some (e, d) -> is_dangling e = true ->
  forall b, In b (firstn p l ++ skipn (S p) l) -> is_dangling (fst b) = false.
Proof.
  revert p. induction l as [|[e0 d0] l IH]; intros p H1 Hp He b Hb.
  - destruct p; discriminate.
  - destruct p as [|p]; cbn [nth_error firstn skipn app filter fst length] in *.
    + injection Hp as -> ->. rewrite He in H1. cbn [length] in H1.
      apply (filter_nil_forall (fun a => is_dangling (fst a)) l); [lia|assumption].
    + destruct (is_dangling e0) eqn:E0.
      * exfalso. cbn [length] in H1.
        assert (Hin : In (e, d) (filter (fun a => is_dangling (fst a)) l)).
        { apply filter_In. split; [eapply nth_error_In; eassumption|exact He]. }
        destruct (filter (fun a => is_dangling (fst a)) l); [contradiction|discriminate].
      * destruct Hb as [<-|Hb]; [exact E0|]. now apply (IH p).
Qed.

(** The site after a gate: its connected axes in their order, then the
    physical axis. *)
Lemma site_after_gate (A : list (Edge * nat)) (x : Edge * nat) :
  (forall b, In b A -> is_dangling (fst b) = false) -> is_dangling (fst x) = true ->
  find_axis is_dangling (A ++ [x]) = length A
  /\ firstn (length A) (A ++ [x]) ++ skipn (S (length A)) (A ++ [x]) = A.
Proof.
  intros HA Hx. split.
  - now apply find_axis_app.
  - rewrite firstn_app, Nat.sub_diag, firstn_all. cbn [firstn].
    rewrite skipn_all2 by (rewrite length_app; cbn [length]; lia).
    now rewrite !app_nil_r.
Qed.

Lemma one_site_gate_valid (gate : Node) (index : Z) (s s' : MPS) :
  is_valid s = true -> apply_one_qubit_gate gate index s = (Ok tt, s') ->
  is_valid s' = true /\ _nqudits s' = _nqudits s.
Proof.
  intros Hv E. destruct (apply_one_qubit_gate_nodes gate index s) as (Hb & _ & Hn).
  rewrite E in Hb, Hn. cbn [snd] in Hb, Hn. split; [|exact Hn].
  now rewrite <- (same_bonds_valid _ _ Hb).
Qed.

Lemma new_node_matrix (t : Tensor) (nm : string) (d0 d1 : nat) :
  shape t = [d0; d1] ->
  axes (new_node t nm) = [(Dangling 0, d0); (Dangling 1, d1)]
  /\ value (new_node t nm) = entry t.
Proof. intros H. unfold new_node. rewrite H. split; reflexivity. Qed.

(** Two gates on one site, and the one gate of their product. *)
Lemma two_gates_run (t1 t2 : Tensor) (nm1 nm2 : string) (d0 d1 d2 : nat)
    (index : Z) (s : MPS) (site : Node) :
  is_valid s = true ->
  Py.in_range index (_nqudits s) = true ->
  nth_error (_nodes s) (Z.to_nat index) = Some site ->
  physical_dimension site = d0 ->
  shape t1 = [d0; d1] -> shape t2 = [d1; d2] ->
  let p := find_axis is_dangling (axes site) in
  exists s1 n2,
    apply_one_qubit_gate (new_node t1 nm1) index s = (Ok tt, s1)
    /\ apply_one_qubit_gate (new_node t2 nm2) index s1
       = (Ok tt, mkMPS (_nqudits s) (_qudit_dimension s) (_prefix s)
                   (Py.set_nth (_nodes s) (Z.to_nat index) n2)
                   (_max_bond_dimensions s) (_infidelities s) (_fidelities s))
    /\ name n2 = name site
    /\ axes n2 = (firstn p (axes site) ++ skipn (S p) (axes site)) ++ [(Dangling 1, d2)]
    /\ forall idx, length idx = rank site ->
         value n2 idx
         = Csum (map (fun j =>
              Cmul (Csum (map (fun k =>
                      Cmul (value site (firstn p (removelast idx)
                                        ++ k :: skipn p (removelast idx)))
                           (entry t1 [k; j]))
                      (seq 0 d0)))
                   (entry t2 [j; last idx 0]))
              (seq 0 d1)).
Proof.
  intros Hv Hi Hsite Hd Ht1 Ht2 p.
  destruct (new_node_matrix t1 nm1 d0 d1 Ht1) as [Hax1 Hv1].
  destruct (new_node_matrix t2 nm2 d1 d2 Ht2) as [Hax2 Hv2].
  destruct (one_site_gate_run _ index s site _ _ _ _ Hv Hi Hsite Hax1 eq_refl eq_refl Hd)
    as (n1 & E1 & Hn1 & Ha1 & Hval1).
  fold p in Ha1, Hval1.
  set (s1 := mkMPS (_nqudits s) (_qudit_dimension s) (_prefix s)
               (Py.set_nth (_nodes s) (Z.to_nat index) n1)
               (_max_bond_dimensions s) (_infidelities s) (_fidelities s)) in *.
  destruct (one_site_gate_valid _ _ _ _ Hv E1) as [Hv' Hn'].
  assert (Hlt : Z.to_nat index < length (_nodes s))
    by (apply nth_error_Some; congruence).
  assert (Hsite1 : nth_error (_nodes s1) (Z.to_nat index) = Some n1).
  { cbn [s1 _nodes]. rewrite InitFacts.nth_error_set_nth, Nat.eqb_refl.
    destruct (Nat.ltb_spec (Z.to_nat index) (length (_nodes s))); [reflexivity|lia]. }
  pose proof (valid_one_dangling s _ site Hv Hsite) as H1.
  destruct (QueryTheorems.one_dangling_axis site H1) as (e & dd & Hnp & He & Hp).
  fold p in Hnp, Hp.
  unfold get_all_dangling, edges in H1. rewrite filter_map_fst_length in H1.
  pose proof (others_not_dangling _ _ _ _ H1 Hnp He) as HA.
  set (A := firstn p (axes site) ++ skipn (S p) (axes site)) in *.
  rewrite app_assoc in Ha1. fold A in Ha1.
  assert (HlA : S (length A) = rank site).
  { unfold A, rank in *. rewrite length_app, length_firstn, length_skipn. lia. }
  destruct (site_after_gate A (Dangling 1, d1) HA eq_refl) as [Hp1 HA1].
  assert (Hd1 : physical_dimension n1 = d1).
  { unfold physical_dimension, dim_at, node_shape. rewrite Ha1, Hp1, map_app.
    rewrite app_nth2 by (rewrite length_map; lia).
    now rewrite length_map, Nat.sub_diag. }
  assert (Hi' : Py.in_range index (_nqudits s1) = true) by exact Hi.
  destruct (one_site_gate_run _ index s1 n1 _ _ _ _ Hv' Hi' Hsite1 Hax2 eq_refl eq_refl Hd1)
    as (n2 & E2 & Hn2 & Ha2 & Hval2).
  rewrite Ha1, Hp1 in Ha2, Hval2. rewrite app_assoc, HA1 in Ha2.
  exists s1, n2. split; [exact E1|]. split.
  - rewrite E2. cbn [s1 _nqudits _qudit_dimension _prefix _nodes _max_bond_dimensions
                      _infidelities _fidelities].
    do 2 f_equal. apply nth_error_ext. intros k.
    rewrite !InitFacts.nth_error_set_nth, !set_nth_length.
    destruct (k =? Z.to_nat index), (Z.to_nat index <? length (_nodes s));
      reflexivity.
  - split; [congruence|]. split; [exact Ha2|].
    intros idx Hidx.
    assert (Hr1 : rank n1 = rank site).
    { unfold rank at 1. rewrite Ha1, length_app. cbn [length]. lia. }
    rewrite Hval2 by congruence. rewrite Hv2.
    apply f_equal, map_ext. intros j. f_equal.
    assert (HF : length (removelast idx) = length A).
    { rewrite removelast_firstn_len, length_firstn. lia. }
    rewrite <- HF, firstn_all, skipn_all.
    rewrite Hval1 by (rewrite length_app, HF; cbn [length]; lia).
    rewrite Hv1, removelast_last, last_last. reflexivity.
Qed.

End OneSiteValues.

(** ** The gate methods with the index [-1] *)

Module AllSitesEffects.

Import Cx Np Tn Bonds Mps Invariants TnFacts ChecksFacts OneSiteFacts AllSitesFacts.
Import OneSiteValues.
Local Open Scope Z_scope.




End AllSitesEffects.

Module AllSitesTheorems.

Import Cx Np Tn Bonds Mps Invariants TnFacts ChecksFacts OneSiteFacts AllSitesFacts.
Import OneSiteValues AllSitesEffects.
Local Open Scope Z_scope.


End AllSitesTheorems.

Module OneSiteAlgebra.
Import Cx Np Tn Bonds Mps Invariants CxFacts.
Import ChecksFacts TnFacts OneSiteFacts AllSitesFacts OneSiteValues.
Local Open Scope nat_scope.

(** X6: a one-site gate that fits the site is applied with success; the
    new node keeps the name of the site, its physical axis is moved to the
    last place and carries the second edge of the gate, and its entries are
    the entries of the old node contracted with the gate over the first index
    of the gate: [new[..., j] = sum_k old[.. k ..] * gate[k, j]]. *)
Theorem one_site_gate_entries (gate : Node) (index : Z) (s : MPS) (site : Node) :
  is_valid s = true ->
  Py.in_range index (_nqudits s) = true ->
  nth_error (_nodes s) (Z.to_nat index) = Some site ->
  gate_edges_ok gate 2 = true ->
  dim_at gate 0 = physical_dimension site ->
  let p := find_axis is_dangling (axes site) in
  exists s' new e1,
    apply_one_qubit_gate gate index s = (Ok tt, s')
    /\ nth_error (_nodes s') (Z.to_nat index) = Some new
    /\ name new = name site
    /\ is_dangling e1 = true
    /\ axes new = firstn p (axes site) ++ skipn (S p) (axes site) ++ [(e1, dim_at gate 1)]
    /\ forall idx, length idx = rank site ->
         value new idx
         = Csum (map (fun k =>
                        Cmul (value site (firstn p (removelast idx)
                                          ++ k :: skipn p (removelast idx)))
                             (value gate [k; last idx 0]))
                     (seq 0 (dim_at gate 0))).
Proof.
  intros Hv Hi Hsite Hg Hd p.
  destruct (gate_two_axes gate Hg) as (e0 & d0 & e1 & d1 & Hax & He0 & He1).
  assert (Hd0 : dim_at gate 0 = d0) by (unfold dim_at, node_shape; now rewrite Hax).
  assert (Hd1 : dim_at gate 1 = d1) by (unfold dim_at, node_shape; now rewrite Hax).
  rewrite Hd0 in Hd. symmetry in Hd.
  destruct (one_site_gate_run gate index s site e0 e1 d0 d1 Hv Hi Hsite Hax He0 He1 Hd)
    as (new & E & Hn & Ha & Hval).
  rewrite Hd0, Hd1. eexists. exists new, e1. split; [exact E|]. cbn [_nodes].
  split; [|auto].
  rewrite InitFacts.nth_error_set_nth, Nat.eqb_refl.
  assert (Hlt : Z.to_nat index < length (_nodes s))
    by (apply nth_error_Some; congruence).
  destruct (Nat.ltb_spec (Z.to_nat index) (length (_nodes s))); [reflexivity|lia].
Qed.

(** A gate of two by two entries whose square is the identity, applied
    twice. *)
Lemma self_inverse_run (t : Tensor) (nm : string) (index : Z) (s : MPS) (site : Node) :
  is_valid s = true ->
  Py.in_range index (_nqudits s) = true ->
  nth_error (_nodes s) (Z.to_nat index) = Some site ->
  physical_dimension site = 2 ->
  shape t = [2; 2] ->
  (forall (a0 a1 : C) (l : nat), l < 2 ->
     Csum (map (fun j => Cmul (Csum (map (fun k => Cmul (nth k [a0; a1] C0)
                                                        (entry t [k; j]))
                                         (seq 0 2)))
                              (entry t [j; l]))
               (seq 0 2))
     = nth l [a0; a1] C0) ->
  let p := find_axis is_dangling (axes site) in
  exists s1 s2 n2,
    apply_one_qubit_gate (new_node t nm) index s = (Ok tt, s1)
    /\ apply_one_qubit_gate (new_node t nm) index s1 = (Ok tt, s2)
    /\ nth_error (_nodes s2) (Z.to_nat index) = Some n2
    /\ (forall k, k <> Z.to_nat index ->
          nth_error (_nodes s2) k = nth_error (_nodes s) k)
    /\ name n2 = name site
    /\ axes n2 = firstn p (axes site) ++ skipn (S p) (axes site) ++ [(Dangling 1, 2)]
    /\ forall idx, length idx = rank site -> last idx 0 < 2 ->
         value n2 idx
         = value site (firstn p (removelast idx)
                       ++ last idx 0 :: skipn p (removelast idx)).
Proof.
  intros Hv Hi Hsite Hd Ht Hsq p.
  destruct (two_gates_run t t nm nm 2 2 2 index s site Hv Hi Hsite Hd Ht Ht)
    as (s1 & n2 & E1 & E2 & Hn2 & Ha2 & Hval2).
  fold p in Ha2, Hval2.
  assert (Hlt : Z.to_nat index < length (_nodes s))
    by (apply nth_error_Some; congruence).
  exists s1. eexists. exists n2.
  split; [exact E1|]. split; [exact E2|]. cbn [_nodes].
  split.
  { rewrite InitFacts.nth_error_set_nth, Nat.eqb_refl.
    destruct (Nat.ltb_spec (Z.to_nat index) (length (_nodes s))); [reflexivity|lia]. }
  split.
  { intros k Hk. rewrite InitFacts.nth_error_set_nth.
    destruct (Nat.eqb_spec k (Z.to_nat index)); [contradiction|]. reflexivity. }
  split; [exact Hn2|]. split; [now rewrite Ha2, app_assoc|].
  intros idx Hidx Hl. rewrite Hval2 by exact Hidx.
  set (a := fun k => value site (firstn p (removelast idx)
                                 ++ k :: skipn p (removelast idx))).
  transitivity (nth (last idx 0) [a 0; a 1] C0).
  - rewrite <- (Hsq (a 0) (a 1) (last idx 0) Hl). reflexivity.
  - unfold a. destruct (last idx 0) as [|[|l]]; [reflexivity|reflexivity|lia].
Qed.

Lemma x_squared (a0 a1 : C) (l : nat) :
  l < 2 ->
  Csum (map (fun j => Cmul (Csum (map (fun k => Cmul (nth k [a0; a1] C0)
                                                     (entry Gates._xmatrix [k; j]))
                                      (seq 0 2)))
                           (entry Gates._xmatrix [j; l]))
            (seq 0 2))
  = nth l [a0; a1] C0.
Proof.
  intros Hl. destruct a0 as [x0 y0], a1 as [x1 y1].
  destruct l as [|[|l]]; [| |lia];
    cbv [seq map Csum fold_right nth entry Gates._xmatrix Gates.of_list ravel size
         Nat.mul Nat.add Cmul Cadd C0 C1 fst snd];
    f_equal; ring.
Qed.


Lemma pauli_squared (t : Tensor) (a0 a1 : C) (l : nat) :
  In t [Gates._imatrix; Gates._ymatrix; Gates._zmatrix] ->
  l < 2 ->
  Csum (map (fun j => Cmul (Csum (map (fun k => Cmul (nth k [a0; a1] C0)
                                                     (entry t [k; j]))
                                      (seq 0 2)))
                           (entry t [j; l]))
            (seq 0 2))
  = nth l [a0; a1] C0.
Proof.
  intros Ht Hl. destruct a0 as [x0 y0], a1 as [x1 y1].
  destruct Ht as [<-|[<-|[<-|[]]]];
    (destruct l as [|[|l]]; [| |lia]);
    cbv [seq map Csum fold_right nth entry Gates._imatrix Gates._ymatrix
         Gates._zmatrix Gates.of_list ravel size
         Nat.mul Nat.add Cmul Cadd C0 C1 of_R fst snd];
    f_equal; ring.
Qed.

(** X8: each of [x] and the gates [igate], [ygate] and [zgate] of
    [mps/gates.py] (the gates whose entries are 0, 1, -1, i and -i), applied
    twice to a site of dimension two of a valid chain, gives back the entries
    of the node the site had, with its physical axis moved to the last place;
    the other nodes are untouched. *)
Theorem self_inverse_gates_restore_site (index : Z) (s : MPS) (site : Node) :
  is_valid s = true ->
  Py.in_range index (_nqudits s) = true ->
  nth_error (_nodes s) (Z.to_nat index) = Some site ->
  physical_dimension site = 2 ->
  let p := find_axis is_dangling (axes site) in
  forall apply_gate : Z -> M unit,
    In apply_gate [x; apply_one_qubit_gate Gates.igate;
                   apply_one_qubit_gate Gates.ygate;
                   apply_one_qubit_gate Gates.zgate] ->
    exists s1 s2 n2,
      apply_gate index s = (Ok tt, s1)
      /\ apply_gate index s1 = (Ok tt, s2)
      /\ nth_error (_nodes s2) (Z.to_nat index) = Some n2
      /\ (forall k, k <> Z.to_nat index ->
            nth_error (_nodes s2) k = nth_error (_nodes s) k)
      /\ name n2 = name site
      /\ axes n2 = firstn p (axes site) ++ skipn (S p) (axes site) ++ [(Dangling 1, 2)]
      /\ forall idx, length idx = rank site -> last idx 0 < 2 ->
           value n2 idx
           = value site (firstn p (removelast idx)
                         ++ last idx 0 :: skipn p (removelast idx)).
Proof.
  intros Hv Hi Hsite Hd p g Hg.
  assert (Hne : (index =? -1)%Z = false).
  { unfold Py.in_range in Hi. apply Z.eqb_neq. lia. }
  assert (Hrun : forall t nm,
            shape t = [2; 2] ->
            (forall a0 a1 l, l < 2 ->
               Csum (map (fun j => Cmul (Csum (map (fun k => Cmul (nth k [a0; a1] C0)
                                                              (entry t [k; j]))
                                               (seq 0 2)))
                                        (entry t [j; l]))
                         (seq 0 2))
               = nth l [a0; a1] C0) ->
            g = apply_one_qubit_gate (new_node t nm)
            \/ (forall z, (z =? -1)%Z = false -> g z = apply_one_qubit_gate (new_node t nm) z) ->
            exists s1 s2 n2,
              g index s = (Ok tt, s1)
              /\ g index s1 = (Ok tt, s2)
              /\ nth_error (_nodes s2) (Z.to_nat index) = Some n2
              /\ (forall k, k <> Z.to_nat index ->
                    nth_error (_nodes s2) k = nth_error (_nodes s) k)
              /\ name n2 = name site
              /\ axes n2 = firstn p (axes site) ++ skipn (S p) (axes site)
                           ++ [(Dangling 1, 2)]
              /\ forall idx, length idx = rank site -> last idx 0 < 2 ->
                   value n2 idx
                   = value site (firstn p (removelast idx)
                                 ++ last idx 0 :: skipn p (removelast idx))).
  { intros t nm Ht Hsq Eg.
    assert (E : g index = apply_one_qubit_gate (new_node t nm) index).
    { destruct Eg as [->|Eg]; [reflexivity|now apply Eg]. }
    rewrite E. exact (self_inverse_run t nm index s site Hv Hi Hsite Hd Ht Hsq). }
  destruct Hg as [<-|[<-|[<-|[<-|[]]]]].
  - apply (Hrun Gates._xmatrix "xgate"%string eq_refl x_squared).
    right. intros z Hz. unfold x. now rewrite Hz.
  - apply (Hrun Gates._imatrix "igate"%string eq_refl); [|now left].
    intros a0 a1 l. apply pauli_squared. now left.
  - apply (Hrun Gates._ymatrix "ygate"%string eq_refl); [|now left].
    intros a0 a1 l. apply pauli_squared. right. now left.
  - apply (Hrun Gates._zmatrix "zmat"%string eq_refl); [|now left].
    intros a0 a1 l. apply pauli_squared. right. right. now left.
Qed.

End OneSiteAlgebra.

Module TwoSiteEffects.
Import Cx Np Tn Bonds Mps Invariants TnFacts ChecksFacts OneSiteFacts AllSitesFacts.
Import CeilingsFacts ChainFacts InitFacts AxesFacts NamesFacts TwoSiteFacts.
Import TwoSiteTheorems.
Local Open Scope nat_scope.

(** The dimension of the bond to the left of site [i] and of the bond to the
    right of site [i + 1]; an end of the chain counts as a bond of
    dimension one. *)
Lemma size_neighbour (b : bool) (e D : nat) :
  size (map snd (if b then [] else [(e, D)])) = if b then 1 else D.
Proof. destruct b; unfold size; cbn [map snd fold_right]; lia. Qed.

(** The sites named by the prefix and their position. *)
Lemma update_chain (svd : SvdKernel) (s s1 : MPS) (bids bdims : list nat)
    (i : nat) (gate : Node) (kw : Kwargs) :
  chain_inv s bids bdims ->
  (forall k nd, nth_error (_nodes s) k = Some nd ->
                name nd = site_name (_prefix s) (Z.of_nat k)) ->
  S i < length (_nodes s) ->
  gate_edges_ok gate 4 = true ->
  two_qubit_gate_update svd gate (Z.of_nat i) (Z.of_nat i + 1) kw s = (Ok tt, s1) ->
  let Dl := if i =? 0 then 1 else nth (i - 1) bdims 0 in
  let Dr := if S i =? length (_nodes s) - 1 then 1 else nth (S i) bdims 0 in
  exists newL newR cm k x cap,
    s1 = mkMPS (_nqudits s) (_qudit_dimension s) (_prefix s)
           (Py.set_nth (Py.set_nth (_nodes s) i newL) (S i) newR)
           (_max_bond_dimensions s) (_infidelities s ++ [x]) (_fidelities s)
    /\ chain_inv s1 (Py.set_nth bids i cm) (Py.set_nth bdims i k)
    /\ (forall j nd, nth_error (_nodes s1) j = Some nd ->
                     name nd = site_name (_prefix s1) (Z.of_nat j))
    /\ fst (cap_of_kwargs kw (Z.of_nat i) (Z.of_nat i + 1) s) = Ok cap
    /\ k = match cap with
           | Some m => length (Py.slice_to
                                 (seq 0 (Nat.min (dim_at gate 2 * Dl)
                                                 (dim_at gate 3 * Dr))) m)
           | None => Nat.min (dim_at gate 2 * Dl) (dim_at gate 3 * Dr)
           end
    /\ physical_dimension newL = dim_at gate 2
    /\ physical_dimension newR = dim_at gate 3.
Proof.
  intros Hinv Hnames Hi Hgate H Dl Dr.
  destruct (update_run s bids bdims i Hinv Hnames Hi svd gate kw Hgate s1 H)
    as (newL & newR & cm & k & x & A & B & HA & HB & -> & HnL & HnR & HdL & HdR
        & HbL & HbR & Hfresh & _ & _ & (cap & Ecap & Hk) & HpL & HpR & _).
  pose proof (ci_nqudits _ _ _ Hinv) as Hnq.
  pose proof (ci_bids _ _ _ Hinv) as Hlb.
  pose proof (ci_bdims _ _ _ Hinv) as Hld.
  set (n := length (_nodes s)) in *.
  exists newL, newR, cm, k, x, cap.
  split; [reflexivity|].
  assert (Hnth : forall j nd,
            nth_error (Py.set_nth (Py.set_nth (_nodes s) i newL) (S i) newR) j = Some nd ->
            (j = i /\ nd = newL) \/ (j = S i /\ nd = newR)
            \/ (j <> i /\ j <> S i /\ nth_error (_nodes s) j = Some nd)).
  { intros j nd. rewrite !nth_error_set_nth, !set_nth_length. fold n.
    destruct (Nat.ltb_spec (S i) n); [|lia]. destruct (Nat.ltb_spec i n); [|lia].
    destruct (Nat.eqb_spec j (S i)) as [->|Hj1]; cbn [andb].
    - intros [= <-]. right. left. now split.
    - destruct (Nat.eqb_spec j i) as [->|Hj2]; cbn [andb].
      + intros [= <-]. left. now split.
      + intros E. right. right. now repeat split. }
  split; [|split; [|split; [exact Ecap|split; [|split; assumption]]]].
  - constructor; cbn [_nqudits _nodes]; rewrite ?set_nth_length; fold n.
    + exact Hnq.
    + exact (ci_two _ _ _ Hinv).
    + exact Hlb.
    + exact Hld.
    + apply set_nth_nodup; [exact (ci_nodup _ _ _ Hinv)|].
      intros j Hj Hji. specialize (Hfresh j ltac:(lia) Hji). lia.
    + intros j nd Hj. unfold expected_bonds. rewrite !set_nth_nth, Hlb, Hld.
      destruct (Nat.ltb_spec i (n - 1)); [|lia]. rewrite !andb_true_r.
      destruct (Hnth j nd Hj) as [[-> ->]|[[-> ->]|(H1 & H2 & Hold)]].
      * split; [exact HdL|]. rewrite HbL, Nat.eqb_refl.
        destruct (Nat.eqb_spec i (n - 1)); [lia|].
        destruct (Nat.eqb_spec i 0) as [->|]; [reflexivity|].
        destruct (Nat.eqb_spec (i - 1) i); [lia|]. reflexivity.
      * split; [exact HdR|]. rewrite HbR.
        change (S i =? 0) with false. replace (S i - 1) with i by lia.
        rewrite Nat.eqb_refl.
        destruct (Nat.eqb_spec (S i) i); [lia|].
        destruct (Nat.eqb_spec (S i) (n - 1)); reflexivity.
      * destruct (ci_sites _ _ _ Hinv j nd Hold) as [Hdj Hpj]. split; [exact Hdj|].
        fold n in Hpj. unfold expected_bonds in Hpj.
        destruct (Nat.eqb_spec j i); [lia|].
        destruct (Nat.eqb_spec j 0) as [->|]; [exact Hpj|].
        destruct (Nat.eqb_spec (j - 1) i); [lia|]. exact Hpj.
  - cbn [_nodes _prefix]. intros j nd Hj.
    destruct (Hnth j nd Hj) as [[-> ->]|[[-> ->]|(H1 & H2 & Hold)]].
    + rewrite HnL. now apply Hnames.
    + rewrite HnR. now apply Hnames.
    + now apply Hnames.
  - rewrite !size_neighbour in Hk. exact Hk.
Qed.


Lemma chain_inv_fields (s s' : MPS) (bids bdims : list nat) :
  _nqudits s' = _nqudits s -> _nodes s' = _nodes s ->
  chain_inv s bids bdims -> chain_inv s' bids bdims.
Proof.
  intros E1 E2 [H1 H2 H3 H4 H5 H6].
  constructor; rewrite ?E1, ?E2; assumption.
Qed.

Lemma norm_fields (s s' : MPS) :
  _nqudits s' = _nqudits s -> _nodes s' = _nodes s -> norm s' = norm s.
Proof. intros E1 E2. unfold norm, get_nodes_copy. now rewrite E1, E2. Qed.

(** A successful call of [apply_two_qubit_gate], in its two halves. *)
Lemma two_site_gate_halves (svd : SvdKernel) (s s' : MPS) (gate : Node)
    (indexA indexB : Z) (kw : Kwargs) :
  apply_two_qubit_gate svd gate indexA indexB kw s = (Ok tt, s') ->
  is_valid s = true
  /\ (0 <= indexA)%Z /\ indexB = (indexA + 1)%Z /\ (indexB < _nqudits s)%Z
  /\ gate_edges_ok gate 4 = true
  /\ exists s1 f,
       two_qubit_gate_update svd gate indexA indexB kw s = (Ok tt, s1)
       /\ norm s1 = Ok f
       /\ s' = mkMPS (_nqudits s1) (_qudit_dimension s1) (_prefix s1) (_nodes s1)
                 (_max_bond_dimensions s1) (_infidelities s1) (_fidelities s1 ++ [f]).
Proof.
  intros H.
  unfold apply_two_qubit_gate in H. unfold bind at 1, get at 1 in H.
  destruct (is_valid s); cbn [negb] in H; [|discriminate H].
  unfold Py.in_range in H.
  destruct (Z.leb_spec 0 indexA); cbn [andb negb orb] in H; [|discriminate H].
  destruct (Z.ltb_spec indexA (_nqudits s)); cbn [andb negb orb] in H; [|discriminate H].
  destruct (Z.leb_spec 0 indexB); cbn [andb negb orb] in H; [|discriminate H].
  destruct (Z.ltb_spec indexB (_nqudits s)); cbn [andb negb orb] in H; [|discriminate H].
  destruct (Z.eqb_spec indexA indexB); [discriminate H|].
  destruct (Z.eqb_spec (Z.abs (indexA - indexB)) 1); cbn [negb] in H; [|discriminate H].
  destruct (gate_edges_ok gate 4) eqn:Hgate; cbn [negb] in H; [|discriminate H].
  destruct (Z.ltb_spec indexA indexB); [|discriminate H].
  repeat (split; [reflexivity || lia|]).
  unfold two_qubit_gate_body in H.
  apply bind_ok in H. destruct H as ([] & s1 & Hu & H).
  apply bind_ok in H. destruct H as (sx & sy & Hget & H).
  unfold get in Hget. injection Hget as <- <-.
  apply bind_ok in H. destruct H as (fid & sy & Hnorm & H).
  unfold lift in Hnorm. injection Hnorm as Hnorm <-.
  unfold append_fidelity in H. injection H as <-.
  exists s1, fid. repeat split; assumption.
Qed.

(** The outcome of a successful call on a chain that satisfies the
    invariants. *)
Lemma two_site_gate_run (svd : SvdKernel) (s s' : MPS) (bids bdims : list nat)
    (gate : Node) (indexA indexB : Z) (kw : Kwargs) :
  chain_inv s bids bdims ->
  (forall k nd, nth_error (_nodes s) k = Some nd ->
                name nd = site_name (_prefix s) (Z.of_nat k)) ->
  apply_two_qubit_gate svd gate indexA indexB kw s = (Ok tt, s') ->
  exists i newL newR cm k x f cap,
    indexA = Z.of_nat i /\ indexB = (Z.of_nat i + 1)%Z /\ S i < length (_nodes s)
    /\ s' = mkMPS (_nqudits s) (_qudit_dimension s) (_prefix s)
              (Py.set_nth (Py.set_nth (_nodes s) i newL) (S i) newR)
              (_max_bond_dimensions s) (_infidelities s ++ [x]) (_fidelities s ++ [f])
    /\ norm s' = Ok f
    /\ chain_inv s' (Py.set_nth bids i cm) (Py.set_nth bdims i k)
    /\ (forall j nd, nth_error (_nodes s') j = Some nd ->
                     name nd = site_name (_prefix s') (Z.of_nat j))
    /\ fst (cap_of_kwargs kw indexA indexB s) = Ok cap
    /\ k = (let Dl := if i =? 0 then 1 else nth (i - 1) bdims 0 in
            let Dr := if S i =? length (_nodes s) - 1 then 1 else nth (S i) bdims 0 in
            match cap with
            | Some m => length (Py.slice_to
                                  (seq 0 (Nat.min (dim_at gate 2 * Dl)
                                                  (dim_at gate 3 * Dr))) m)
            | None => Nat.min (dim_at gate 2 * Dl) (dim_at gate 3 * Dr)
            end)
    /\ physical_dimension newL = dim_at gate 2
    /\ physical_dimension newR = dim_at gate 3.
Proof.
  intros Hinv Hnames H.
  destruct (two_site_gate_halves _ _ _ _ _ _ _ H)
    as (Hv & HA & -> & HB & Hgate & s1 & f & Hu & Hnorm & ->).
  pose proof (ci_nqudits _ _ _ Hinv) as Hnq.
  rewrite <- (Z2Nat.id indexA) in Hu by lia.
  destruct (update_chain svd s s1 bids bdims (Z.to_nat indexA) gate kw Hinv Hnames
              ltac:(lia) Hgate Hu)
    as (newL & newR & cm & k & x & cap & -> & Hinv1 & Hnames1 & Ecap & Hk & HpL & HpR).
  rewrite (Z2Nat.id indexA) in Ecap by lia.
  exists (Z.to_nat indexA), newL, newR, cm, k, x, f, cap.
  cbn [_nqudits _qudit_dimension _prefix _nodes _max_bond_dimensions
       _infidelities _fidelities] in *.
  split; [lia|]. split; [lia|]. split; [lia|]. split; [reflexivity|].
  split; [rewrite <- Hnorm; now apply norm_fields|].
  split; [revert Hinv1; now apply chain_inv_fields|].
  split; [exact Hnames1|]. repeat split; assumption.
Qed.

End TwoSiteEffects.

Module TwoSiteEffectsTheorems.
Import Cx Np Tn Bonds Mps Invariants TnFacts ChecksFacts OneSiteFacts AllSitesFacts.
Import CeilingsFacts ChainFacts InitFacts AxesFacts NamesFacts TwoSiteFacts.
Import TwoSiteTheorems TwoSiteEffects.
Local Open Scope Z_scope.

(** X9: a two-site gate applied with success to a chain in the shape the
    constructor builds acts on the sites [indexA] and [indexA + 1]; the chain
    is valid again, its size, qudit dimension, prefix and ceilings are
    unchanged, every node keeps its name, the nodes of the other sites and
    the dimensions of the other bonds are unchanged, exactly one infidelity
    and one fidelity are appended, the fidelity being the norm of the new
    chain, and the two sites get the dimensions of the third and fourth edge
    of the gate as their physical dimensions. *)
Theorem two_site_gate_frame (svd : SvdKernel) (s s' : MPS) (bids bdims : list nat)
    (gate : Node) (indexA indexB : Z) (kw : Kwargs) :
  chain_inv s bids bdims ->
  (forall k nd, nth_error (_nodes s) k = Some nd ->
                name nd = site_name (_prefix s) (Z.of_nat k)) ->
  apply_two_qubit_gate svd gate indexA indexB kw s = (Ok tt, s') ->
  indexB = indexA + 1
  /\ is_valid s' = true
  /\ _nqudits s' = _nqudits s
  /\ _qudit_dimension s' = _qudit_dimension s
  /\ _prefix s' = _prefix s
  /\ get_max_bond_dimensions s' = get_max_bond_dimensions s
  /\ map name (_nodes s') = map name (_nodes s)
  /\ (forall k, Z.of_nat k <> indexA -> Z.of_nat k <> indexB ->
        nth_error (_nodes s') k = nth_error (_nodes s) k)
  /\ (exists x f, _infidelities s' = _infidelities s ++ [x]
                  /\ _fidelities s' = _fidelities s ++ [f]
                  /\ norm s' = Ok f)
  /\ (forall j, 0 <= j < _nqudits s - 1 -> j <> indexA ->
        get_bond_dimension_of j s' = get_bond_dimension_of j s)
  /\ (exists nA nB, Py.getitem (_nodes s') indexA = Some nA
                    /\ Py.getitem (_nodes s') indexB = Some nB
                    /\ physical_dimension nA = dim_at gate 2
                    /\ physical_dimension nB = dim_at gate 3).
Proof.
  intros Hinv Hnames H.
  destruct (two_site_gate_run svd s s' bids bdims gate indexA indexB kw Hinv Hnames H)
    as (i & newL & newR & cm & k & x & f & cap & -> & -> & Hi & Es & Hnorm & Hinv'
        & Hnames' & _ & _ & HpL & HpR).
  pose proof (ci_nqudits _ _ _ Hinv) as Hnq.
  pose proof (ci_bdims _ _ _ Hinv) as Hld.
  assert (Hlen : length (_nodes s') = length (_nodes s)).
  { rewrite Es. cbn [_nodes]. now rewrite !set_nth_length. }
  assert (Hn' : _nqudits s' = _nqudits s) by (rewrite Es; reflexivity).
  assert (Hp' : _prefix s' = _prefix s) by (rewrite Es; reflexivity).
  split; [reflexivity|]. split; [exact (chain_valid s' _ _ Hinv')|].
  split; [exact Hn'|]. split; [rewrite Es; reflexivity|]. split; [exact Hp'|].
  split; [rewrite Es; reflexivity|].
  split.
  { apply nth_error_ext. intros j. rewrite !nth_error_map.
    destruct (nth_error (_nodes s') j) as [nd'|] eqn:E';
      destruct (nth_error (_nodes s) j) as [nd|] eqn:E; cbn [option_map].
    - rewrite (Hnames' j nd' E'), (Hnames j nd E), Hp'. reflexivity.
    - apply nth_error_None in E. assert (nth_error (_nodes s') j <> None) by congruence.
      apply nth_error_Some in H0. lia.
    - apply nth_error_None in E'. assert (nth_error (_nodes s) j <> None) by congruence.
      apply nth_error_Some in H0. lia.
    - reflexivity. }
  split.
  { intros j Hj1 Hj2. rewrite Es. cbn [_nodes]. rewrite !nth_error_set_nth.
    destruct (Nat.eqb_spec j (S i)); [lia|]. destruct (Nat.eqb_spec j i); [lia|].
    reflexivity. }
  split.
  { exists x, f. rewrite Es at 1 2. cbn [_infidelities _fidelities]. auto. }
  split.
  { intros j Hj Hne.
    rewrite <- (Z2Nat.id j) by lia.
    rewrite (chain_bond_dimension s' _ _ Hinv') by lia.
    rewrite (chain_bond_dimension s _ _ Hinv) by lia.
    rewrite set_nth_nth.
    destruct (Nat.eqb_spec (Z.to_nat j) i); [lia|]. reflexivity. }
  exists newL, newR. unfold Py.getitem. rewrite Hlen.
  rewrite position_of_nat by lia. rewrite position_of_succ by lia.
  rewrite Es. cbn [_nodes]. rewrite !nth_error_set_nth, !set_nth_length.
  rewrite !Nat.eqb_refl.
  destruct (Nat.eqb_spec i (S i)); [lia|].
  destruct (Nat.ltb_spec (S i) (length (_nodes s))); [|lia].
  destruct (Nat.ltb_spec i (length (_nodes s))); [|lia].
  cbn [andb]. auto.
Qed.



End TwoSiteEffectsTheorems.

Module TwoSiteErrors.
Import Cx Np Tn Bonds Mps Invariants TnFacts ChecksFacts OneSiteFacts AllSitesFacts.
Import TwoSiteFacts.
Local Open Scope Z_scope.

Lemma bind_err {X Y} (m : M X) (f : X -> M Y) (s0 s2 : MPS) (e : Error) :
  bind m f s0 = (Err e, s2) ->
  m s0 = (Err e, s2) \/ exists x s1, m s0 = (Ok x, s1) /\ f x s1 = (Err e, s2).
Proof.
  unfold bind. destruct (m s0) as [[x|e0] s1]; intros H.
  - right. now exists x, s1.
  - left. now injection H as <- <-.
Qed.

Lemma node_at_outcome (index : Z) (s s1 : MPS) (r : Result (nat * Node)) :
  node_at index s = (r, s1) ->
  s1 = s
  /\ match r with
     | Ok (p, nd) => nth_error (_nodes s) p = Some nd
     | Err e => e = PyIndexError
     end.
Proof.
  unfold node_at, bind, get, lift, ret, of_option. cbn [fst snd].
  destruct (Py.position (length (_nodes s)) index) as [p|]; cbn [fst snd].
  - destruct (nth_error (_nodes s) p) as [nd|] eqn:E; cbn [fst snd];
      intros [= <- <-]; auto.
  - intros [= <- <-]. auto.
Qed.

Ltac in_errors := first [exact I | cbv [library_errors In]; auto 12].

Lemma connect_site_outcome (index : Z) (g : Node) (p : nat) (s s1 : MPS)
    (r : Result Node) :
  connect_site index g p s = (r, s1) ->
  _nqudits s1 = _nqudits s
  /\ _max_bond_dimensions s1 = _max_bond_dimensions s
  /\ match r with
     | Ok _ => True
     | Err e => In e library_errors
     end.
Proof.
  unfold connect_site, node_at, first_dangling, connect, bind, get, lift, ret,
    set_nodes, of_option. cbn [fst snd].
  repeat case_scrutinee; cbn [fst snd]; intros [= <- <-];
    cbn [_nqudits _max_bond_dimensions].
  all: try (split; [reflexivity|split; [reflexivity|]]).
  all: in_errors.
Qed.

Lemma rfold_err {S X} (f : S -> X -> Result S) (L : list Error) :
  (forall s x e, f s x = Err e -> In e L) ->
  forall l s e, rfold f l s = Err e -> In e L.
Proof.
  intros Hf l. induction l as [|x l IH]; intros s e; cbn [rfold]; [discriminate|].
  destruct (f s x) as [s1|e1] eqn:E; cbn [rbind].
  - apply IH.
  - intros [= <-]. now apply (Hf s x).
Qed.

Lemma classify_err (prefix : string) (nodes : list Node) (new_node : Node)
    (left_index : Z) (acc : option Edge * option Edge) (i : nat) (e : Error) :
  classify prefix nodes new_node left_index acc i = Err e -> In e library_errors.
Proof.
  unfold classify, neighbour_name, Names.index_of_name, rbind, of_option.
  repeat case_scrutinee; intros H; try discriminate H; injection H as <-;
    in_errors.
Qed.

Lemma contract_between_err (a b : Node) (nm : string) (e : Error) :
  contract_between a b nm = Err e -> e = TnNoSharedEdges.
Proof.
  unfold contract_between. destruct (get_shared_edges a b); [|discriminate].
  now intros [= <-].
Qed.

Lemma split_err (svd : SvdKernel) (c1 c2 : nat) (n : Node) (l r : list Edge)
    (cap : option Z) (e : Error) :
  split_node_full_svd svd c1 c2 n l r cap = Err e -> e = TnEdgeOrder.
Proof.
  unfold split_node_full_svd.
  destruct (is_permutation _ _); [|now intros [= <-]].
  destruct (svd _ _ _) as [[u sv] vh]. discriminate.
Qed.

Lemma norm_connect_err (st : list Node * list Node * nat) (i : Z) (e : Error) :
  norm_connect st i = Err e -> In e library_errors.
Proof.
  destruct st as [[a b] c].
  unfold norm_connect, pop_dangling, connect, rbind, of_option.
  repeat case_scrutinee; intros H; try discriminate H; injection H as <-;
    in_errors.
Qed.

Lemma norm_contract_err (b a : list Node) (i : Z) (e : Error) :
  norm_contract b a i = Err e -> In e library_errors.
Proof.
  unfold norm_contract, rbind, of_option.
  destruct (Py.getitem a i) as [ai|]; [|intros [= <-]; in_errors].
  destruct (Py.getitem b i) as [bi|]; [|intros [= <-]; in_errors].
  destruct (contract_between ai bi default_name) as [mid|e1] eqn:E1.
  2: { intros [= <-]. apply contract_between_err in E1. subst. in_errors. }
  destruct (Py.getitem a (i + 1)) as [an|]; [|intros [= <-]; in_errors].
  destruct (contract_between mid an default_name) as [new|e2] eqn:E2.
  2: { intros [= <-]. apply contract_between_err in E2. subst. in_errors. }
  destruct (Py.setitem a (i + 1) new); [discriminate|].
  intros [= <-]. in_errors.
Qed.

Lemma norm_err (s : MPS) (e : Error) : norm s = Err e -> In e library_errors.
Proof.
  unfold norm.
  destruct (rfold norm_connect _ _) as [st|e1] eqn:E1; cbn [rbind].
  2: { intros [= <-]. revert E1. apply rfold_err. apply norm_connect_err. }
  destruct (rfold (norm_contract _) _ _) as [a|e2] eqn:E2; cbn [rbind].
  2: { intros [= <-]. revert E2. apply rfold_err. apply norm_contract_err. }
  unfold of_option.
  destruct (Py.getitem a (-1)) as [al|]; cbn [rbind];
    [|intros [= <-]; in_errors].
  destruct (Py.getitem (snd (fst st)) (-1)) as [bl|]; cbn [rbind];
    [|intros [= <-]; in_errors].
  destruct (contract_between al bl default_name) as [fin|e3] eqn:E3; cbn [rbind].
  2: { intros [= <-]. apply contract_between_err in E3. subst. in_errors. }
  repeat case_scrutinee; intros H; try discriminate H; injection H as <-;
    in_errors.
Qed.

(** A node without connected edges makes the chain invalid. *)
Lemma loose_node_invalid (s : MPS) (p : nat) (nd : Node) :
  nth_error (_nodes s) p = Some nd -> bond_ids nd = [] -> is_valid s = false.
Proof.
  intros Hp Hb. unfold is_valid.
  destruct (length (_nodes s) <? 2)%nat; [reflexivity|].
  apply Bool.not_true_is_false. intros Hall.
  rewrite forallb_forall in Hall.
  assert (Hin : In p (seq 0 (length (_nodes s)))).
  { apply in_seq. split; [lia|]. cbn. apply nth_error_Some. congruence. }
  specialize (Hall p Hin). rewrite Hp in Hall.
  unfold get_all_nondangling in Hall. rewrite Hb in Hall. cbn [nodup length] in Hall.
  destruct ((p =? 0)%nat || (p =? length (_nodes s) - 1)%nat);
    cbn [Nat.eqb] in Hall; rewrite andb_false_r in Hall; discriminate Hall.
Qed.

Section Update.

Variable svd : SvdKernel.

(** The second half of the update fails in a library call or in the check of
    the options, which leaves the chain as it found it. *)
Lemma split_and_store_err (new_node : Node) (l r : Edge) (a b : Z) (kw : Kwargs)
    (s s1 : MPS) (e : Error) :
  split_and_store svd new_node l r a b kw s = (Err e, s1) ->
  In e library_errors
  \/ (fst (cap_of_kwargs kw a b s) = Err e /\ s1 = s).
Proof.
  unfold split_and_store. intros H.
  apply bind_err in H. destruct H as [H|(s0 & sx & Hget & H)]; [discriminate H|].
  unfold get in Hget. injection Hget as <- <-.
  apply bind_err in H. destruct H as [H|(conn & sx & Hc & H)].
  { left. unfold lift in H. injection H as H _.
    revert H. apply rfold_err. intros st x e0. apply classify_err. }
  unfold lift in Hc. injection Hc as _ <-.
  apply bind_err in H. destruct H as [H|(cap & sx & Hcap & H)].
  { right. pose proof (cap_of_kwargs_state kw a b s) as Hs.
    rewrite H in Hs |- *. cbn [fst snd] in *. auto. }
  pose proof (cap_of_kwargs_state kw a b s) as Hs. rewrite Hcap in Hs.
  cbn [snd] in Hs. subst sx.
  left.
  apply bind_err in H. destruct H as [H|(sp & sx & Hsp & H)].
  { unfold lift in H. injection H as H _. apply split_err in H. subst.
    in_errors. }
  unfold lift in Hsp. injection Hsp as _ <-.
  apply bind_err in H. destruct H as [H|([] & sx & Hap & H)]; [discriminate H|].
  unfold append_infidelity in Hap. injection Hap as <-.
  apply bind_err in H. destruct H as [H|([nl nr] & sx & Hj & H)].
  { destruct (match keep_left_canonical kw with Some b0 => b0 | None => true end).
    - apply bind_err in H. destruct H as [H|(z & sy & _ & H)]; [|discriminate H].
      unfold lift in H. injection H as H _. apply contract_between_err in H. subst.
      in_errors.
    - apply bind_err in H. destruct H as [H|(z & sy & _ & H)]; [|discriminate H].
      unfold lift in H. injection H as H _. apply contract_between_err in H. subst.
      in_errors. }
  apply bind_err in H. destruct H as [H|([pa oa] & sy & Ha & H)].
  { apply node_at_outcome in H. destruct H as [_ ->]. in_errors. }
  apply bind_err in H. destruct H as [H|([pb ob] & sz & Hb & H)].
  { apply node_at_outcome in H. destruct H as [_ ->]. in_errors. }
  apply bind_err in H. destruct H as [H|(s4 & sw & Hget & H)]; [discriminate H|].
  apply bind_err in H. destruct H as [H|(n1 & sv & _ & H)].
  { unfold lift, of_option in H. destruct (Py.setitem _ _ _); [discriminate H|].
    injection H as <- _. in_errors. }
  apply bind_err in H. destruct H as [H|(n2 & su & _ & H)].
  { unfold lift, of_option in H. destruct (Py.setitem _ _ _); [discriminate H|].
    injection H as <- _. in_errors. }
  discriminate H.
Qed.

(** The update fails in a library call, or in the check of the options:
    then the two sites have been merged and the chain is not valid. *)
Lemma update_err (gate : Node) (a b : Z) (kw : Kwargs) (s s1 : MPS) (e : Error) :
  two_qubit_gate_update svd gate a b kw s = (Err e, s1) ->
  In e library_errors
  \/ (fst (cap_of_kwargs kw a b s) = Err e /\ is_valid s1 = false).
Proof.
  unfold two_qubit_gate_update. intros H.
  apply bind_err in H. destruct H as [H|(g1 & sa & H1 & H)].
  { left. now destruct (connect_site_outcome _ _ _ _ _ _ H) as (_ & _ & Hin). }
  destruct (connect_site_outcome _ _ _ _ _ _ H1) as (Hn1 & Hc1 & _).
  apply bind_err in H. destruct H as [H|(g2 & sb & H2 & H)].
  { left. now destruct (connect_site_outcome _ _ _ _ _ _ H) as (_ & _ & Hin). }
  destruct (connect_site_outcome _ _ _ _ _ _ H2) as (Hn2 & Hc2 & _).
  apply bind_err in H. destruct H as [H|(lge & sx & Hl & H)].
  { left. unfold lift, of_option in H. destruct (nth_error _ _); [discriminate H|].
    injection H as <- _. in_errors. }
  unfold lift in Hl. injection Hl as _ <-.
  apply bind_err in H. destruct H as [H|(rge & sx & Hr & H)].
  { left. unfold lift, of_option in H. destruct (nth_error _ _); [discriminate H|].
    injection H as <- _. in_errors. }
  unfold lift in Hr. injection Hr as _ <-.
  apply bind_err in H. destruct H as [H|([pa na] & sx & Ha & H)].
  { left. apply node_at_outcome in H. destruct H as [_ ->]. in_errors. }
  apply node_at_outcome in Ha. destruct Ha as [-> Ha].
  apply bind_err in H. destruct H as [H|([pb nb] & sx & Hb & H)].
  { left. apply node_at_outcome in H. destruct H as [_ ->]. in_errors. }
  apply node_at_outcome in Hb. destruct Hb as [-> Hb].
  apply bind_err in H. destruct H as [H|(new & sx & Hnew & H)].
  { left. unfold lift in H. injection H as H _. apply contract_between_err in H.
    subst. in_errors. }
  unfold lift in Hnew. injection Hnew as _ <-.
  apply bind_err in H. destruct H as [H|(s0 & sx & Hget & H)]; [discriminate H|].
  unfold get in Hget. injection Hget as <- <-.
  apply bind_err in H. destruct H as [H|([] & s3 & Hset & H)]; [discriminate H|].
  unfold set_nodes in Hset. injection Hset as <-.
  apply bind_err in H. destruct H as [H|(s0 & sx & Hget & H)]; [discriminate H|].
  unfold get in Hget. injection Hget as <- <-.
  match type of H with
  | context [flatten_edges_between ?c ?x ?y] =>
      destruct (flatten_edges_between c x y) as [[[n1 g3] ce]|]
  end.
  2: { left. unfold raise in H. injection H as <- _. in_errors. }
  apply split_and_store_err in H. destruct H as [H|[Hcap ->]]; [now left|].
  right. split.
  - rewrite <- Hcap. symmetry. apply cap_of_kwargs_fields; cbn [_nqudits
      _max_bond_dimensions]; congruence.
  - apply (loose_node_invalid _ pb (fresh_edges nb)); [|apply fresh_edges_ids].
    cbn [_nodes]. rewrite InitFacts.nth_error_set_nth, Nat.eqb_refl.
    rewrite set_nth_length.
    assert (Hlt : (pb < length (_nodes sb))%nat) by (apply nth_error_Some; congruence).
    apply Nat.ltb_lt in Hlt. now rewrite Hlt.
Qed.

End Update.

End TwoSiteErrors.

Module TwoSiteErrorTheorems.
Import Cx Np Tn Bonds Mps Invariants TnFacts ChecksFacts OneSiteFacts AllSitesFacts.
Import TwoSiteFacts TwoSiteErrors.
Local Open Scope Z_scope.

Lemma cap_of_kwargs_err (kw : Kwargs) (a b : Z) (s : MPS) (e : Error) :
  fst (cap_of_kwargs kw a b s) = Err e ->
  (e = ConflictingOptions /\ fraction kw <> None /\ maxsvals kw <> None)
  \/ (e = InvalidOption
      /\ exists f, fraction kw = Some f /\ maxsvals kw = None
                   /\ Qle_bool 0 f && Qle_bool f 1 = false)
  \/ (e = IndexOutOfRange /\ _nqudits s <= Z.min a b)
  \/ e = PyIndexError \/ e = PyOverflowError \/ e = PyValueError.
Proof.
  unfold cap_of_kwargs, bind, get, raise, lift, ret, get_max_bond_dimension_of.
  cbn [fst snd].
  destruct (fraction kw) as [f|] eqn:Ef0, (maxsvals kw) as [m|] eqn:Em0;
    cbn [fst snd]; try discriminate.
  - intros [= <-]. left. repeat split; discriminate.
  - destruct (Qle_bool 0 f && Qle_bool f 1) eqn:Ef; cbn [negb fst snd].
    + destruct (Z.geb_spec (Z.min a b) (_nqudits s)); cbn [fst snd].
      * intros [= <-]. right. right. left. split; [reflexivity|lia].
      * destruct (Py.getitem (_max_bond_dimensions s) (Z.min a b)) as [c|];
          cbn [of_option fst snd]; [|intros [= <-]; now do 3 right; left].
        destruct (Py.float_of_int c) as [fc|]; cbn [of_option fst snd];
          [|intros [= <-]; now do 4 right; left].
        unfold int_round.
        destruct (Py.float_mul (Py.float_of_Q f) fc); cbn [fst snd];
          try discriminate; intros [= <-]; [now do 4 right; left|now do 5 right].
    + intros [= <-]. right. left. split; [reflexivity|]. now exists f.
Qed.

(** What is left of [apply_two_qubit_gate] when its checks have passed. *)
Lemma body_err (svd : SvdKernel) (gate : Node) (a b : Z) (kw : Kwargs)
    (s s' : MPS) (e : Error) :
  two_qubit_gate_body svd gate a b kw s = (Err e, s') ->
  In e library_errors
  \/ (fst (cap_of_kwargs kw a b s) = Err e /\ is_valid s' = false).
Proof.
  unfold two_qubit_gate_body. intros H.
  apply bind_err in H. destruct H as [H|([] & s1 & _ & H)].
  { now apply update_err in H. }
  apply bind_err in H. destruct H as [H|(s0 & sx & Hget & H)]; [discriminate H|].
  unfold get in Hget. injection Hget as <- <-.
  apply bind_err in H. destruct H as [H|(f & sx & _ & H)]; [|discriminate H].
  left. unfold lift in H. injection H as H _. now apply norm_err in H.
Qed.

(** X11: when [apply_two_qubit_gate] raises one of the errors of its own
    checks on the chain, the indices and the gate (invalid chain, index out
    of range, identical indices, sites that are not adjacent, a gate without
    four free edges, [indexA] above [indexB]), the chain is exactly as it was
    before the call. *)
Theorem two_site_gate_check_errors (svd : SvdKernel) (gate : Node) (indexA indexB : Z)
    (kw : Kwargs) (s s' : MPS) (e : Error) :
  apply_two_qubit_gate svd gate indexA indexB kw s = (Err e, s') ->
  In e [InvalidChain; IndexOutOfRange; IdenticalIndices; NonAdjacentSites;
        InvalidGateShape; InvalidIndexOrder] ->
  s' = s.
Proof.
  intros H He.
  unfold apply_two_qubit_gate in H. unfold bind at 1, get at 1 in H.
  destruct (is_valid s); cbn [negb] in H; [|now injection H as _ <-].
  unfold Py.in_range in H.
  destruct (Z.leb_spec 0 indexA); cbn [andb negb orb] in H; [|now injection H as _ <-].
  destruct (Z.ltb_spec indexA (_nqudits s)); cbn [andb negb orb] in H;
    [|now injection H as _ <-].
  destruct (Z.leb_spec 0 indexB); cbn [andb negb orb] in H; [|now injection H as _ <-].
  destruct (Z.ltb_spec indexB (_nqudits s)); cbn [andb negb orb] in H;
    [|now injection H as _ <-].
  destruct (Z.eqb_spec indexA indexB); [now injection H as _ <-|].
  destruct (Z.eqb_spec (Z.abs (indexA - indexB)) 1); cbn [negb] in H;
    [|now injection H as _ <-].
  destruct (gate_edges_ok gate 4); cbn [negb] in H; [|now injection H as _ <-].
  destruct (Z.ltb_spec indexA indexB); [|now injection H as _ <-].
  exfalso. apply body_err in H. destruct H as [H|[H _]].
  - unfold library_errors in H. cbn [In] in H, He.
    intuition (subst; discriminate).
  - apply cap_of_kwargs_err in H. cbn [In] in He.
    destruct H as [[-> _]|[[-> _]|[[-> Hr]|[->|[->| ->]]]]];
      try (intuition discriminate). lia.
Qed.

(** X12: when [apply_two_qubit_gate] raises because both [fraction] and
    [maxsvals] were given, or because [fraction] is outside [[0, 1]], the
    chain was valid before the call and is not valid after it: the options
    are checked only after the gate and the two sites have been contracted. *)
Theorem rejected_options_leave_chain_invalid (svd : SvdKernel) (gate : Node)
    (indexA indexB : Z) (kw : Kwargs) (s s' : MPS) (e : Error) :
  apply_two_qubit_gate svd gate indexA indexB kw s = (Err e, s') ->
  e = ConflictingOptions \/ e = InvalidOption ->
  is_valid s = true
  /\ is_valid s' = false
  /\ (e = ConflictingOptions -> fraction kw <> None /\ maxsvals kw <> None)
  /\ (e = InvalidOption ->
      exists f, fraction kw = Some f /\ maxsvals kw = None
                /\ Qle_bool 0 f && Qle_bool f 1 = false).
Proof.
  intros H He.
  unfold apply_two_qubit_gate in H. unfold bind at 1, get at 1 in H.
  destruct (is_valid s); cbn [negb] in H;
    [|injection H as <- _; destruct He; discriminate].
  destruct (negb (Py.in_range indexA (_nqudits s))
            || negb (Py.in_range indexB (_nqudits s)));
    [injection H as <- _; destruct He; discriminate|].
  destruct (indexA =? indexB); [injection H as <- _; destruct He; discriminate|].
  destruct (negb (Z.abs (indexA - indexB) =? 1));
    [injection H as <- _; destruct He; discriminate|].
  destruct (negb (gate_edges_ok gate 4));
    [injection H as <- _; destruct He; discriminate|].
  destruct (indexA <? indexB); [|injection H as <- _; destruct He; discriminate].
  apply body_err in H. destruct H as [H|[H Hv]].
  { exfalso. unfold library_errors in H. cbn [In] in H.
    destruct He; subst; intuition discriminate. }
  split; [reflexivity|]. split; [exact Hv|].
  apply cap_of_kwargs_err in H.
  destruct H as [[-> Hb]|[[-> Hf]|[[-> _]|[->|[->| ->]]]]].
  - split; [auto|discriminate].
  - split; [discriminate|]. intros _. exact Hf.
  - destruct He; discriminate.
  - destruct He; discriminate.
  - destruct He; discriminate.
  - destruct He; discriminate.
Qed.


(** A successful update has passed the check of the options. *)
Lemma update_checked_options (svd : SvdKernel) (gate : Node) (a b : Z) (kw : Kwargs)
    (s s1 : MPS) :
  two_qubit_gate_update svd gate a b kw s = (Ok tt, s1) ->
  exists sx cap, fst (cap_of_kwargs kw a b sx) = Ok cap.
Proof.
  unfold two_qubit_gate_update. intros H.
  do 4 (apply bind_ok in H; destruct H as (? & ? & _ & H)).
  apply bind_ok in H. destruct H as ([posA nodeA] & ? & _ & H).
  apply bind_ok in H. destruct H as ([posB nodeB] & ? & _ & H).
  do 4 (apply bind_ok in H; destruct H as (? & ? & _ & H)).
  match type of H with
  | context [flatten_edges_between ?c ?x ?y] =>
      destruct (flatten_edges_between c x y) as [[[n1 g3] ce]|]; [|discriminate H]
  end.
  unfold split_and_store in H.
  do 2 (apply bind_ok in H; destruct H as (? & ? & _ & H)).
  apply bind_ok in H. destruct H as (cap & sy & Hcap & _).
  eexists. exists cap. now rewrite Hcap.
Qed.

(** X13: a call of [apply_two_qubit_gate] with both [fraction] and
    [maxsvals], or with a [fraction] outside [[0, 1]], never succeeds,
    whatever the chain, the gate and the indices. *)
Theorem invalid_options_never_accepted (svd : SvdKernel) (gate : Node)
    (indexA indexB : Z) (kw : Kwargs) (s s' : MPS) :
  (fraction kw <> None /\ maxsvals kw <> None)
  \/ (exists f, fraction kw = Some f /\ Qle_bool 0 f && Qle_bool f 1 = false) ->
  apply_two_qubit_gate svd gate indexA indexB kw s <> (Ok tt, s').
Proof.
  intros Hkw H.
  destruct (TwoSiteEffects.two_site_gate_halves _ _ _ _ _ _ _ H)
    as (_ & _ & _ & _ & _ & s1 & f & Hu & _).
  destruct (update_checked_options _ _ _ _ _ _ _ Hu) as (sx & cap & Hcap).
  revert Hcap. unfold cap_of_kwargs, bind, get, raise, lift, ret. cbn [fst snd].
  destruct Hkw as [[Hf Hm]|(q & Hq & Hr)].
  - destruct (fraction kw); [|contradiction]. destruct (maxsvals kw); [|contradiction].
    discriminate.
  - rewrite Hq, Hr. destruct (maxsvals kw); discriminate.
Qed.

End TwoSiteErrorTheorems.

Module Loops.
Import Cx Np Tn Bonds Mps Invariants TnFacts ChecksFacts OneSiteFacts AllSitesFacts.
Import CeilingsFacts ChainFacts InitFacts AxesFacts NamesFacts TwoSiteFacts.
Import TwoSiteTheorems TwoSiteEffects.
Local Open Scope Z_scope.

(** One successful two-site gate with output edges of the qudit dimension,
    on a chain that satisfies the invariants. *)
Lemma gate_step (svd : SvdKernel) (s s' : MPS) (bids bdims : list nat)
    (gate : Node) (indexA indexB : Z) (kw : Kwargs) :
  bounded_chain s bids bdims ->
  dim_at gate 2 = Z.to_nat (_qudit_dimension s) ->
  dim_at gate 3 = Z.to_nat (_qudit_dimension s) ->
  apply_two_qubit_gate svd gate indexA indexB kw s = (Ok tt, s') ->
  (exists bids' bdims', bounded_chain s' bids' bdims')
  /\ _nqudits s' = _nqudits s
  /\ _qudit_dimension s' = _qudit_dimension s
  /\ length (_nodes s') = length (_nodes s)
  /\ length (_fidelities s') = S (length (_fidelities s))
  /\ length (_infidelities s') = S (length (_infidelities s))
  /\ 0 <= indexA /\ indexB = indexA + 1 /\ indexB < _nqudits s
  /\ forall k, Z.of_nat k <> indexA -> Z.of_nat k <> indexB ->
       nth_error (_nodes s') k = nth_error (_nodes s) k.
Proof.
  intros Hb Hg2 Hg3 H.
  destruct (two_site_gate_halves _ _ _ _ _ _ _ H)
    as (Hv & HA & -> & HB & Hgate & s1 & f & Hu & Hnorm & ->).
  pose proof (ci_nqudits _ _ _ (bc_inv _ _ _ Hb)) as Hnq.
  rewrite <- (Z2Nat.id indexA) in Hu by lia.
  destruct (update_bounded svd s s1 bids bdims (Z.to_nat indexA) gate kw Hb
              ltac:(lia) Hgate Hg2 Hg3 Hu)
    as (cm & k & x & E1 & E2 & E3 & E4 & E5 & E6 & Hb1).
  destruct (update_run s bids bdims (Z.to_nat indexA) (bc_inv _ _ _ Hb)
              (bc_names _ _ _ Hb) ltac:(lia) svd gate kw Hgate s1 Hu)
    as (newL & newR & cm' & k' & x' & A & B & _ & _ & Es1 & _).
  cbn [_nqudits _qudit_dimension _nodes _fidelities _infidelities].
  split.
  { exists (Py.set_nth bids (Z.to_nat indexA) cm),
           (Py.set_nth bdims (Z.to_nat indexA) k).
    now apply (bounded_chain_fields s1). }
  split; [exact E1|]. split; [exact E2|].
  split; [rewrite Es1; cbn [_nodes]; now rewrite !set_nth_length|].
  split; [rewrite E6, length_app; cbn [length]; lia|].
  split; [rewrite E5, length_app; cbn [length]; lia|].
  split; [exact HA|]. split; [reflexivity|]. split; [exact HB|].
  intros j Hj1 Hj2. rewrite Es1. cbn [_nodes]. rewrite !nth_error_set_nth.
  destruct (Nat.eqb_spec j (S (Z.to_nat indexA))); [lia|].
  destruct (Nat.eqb_spec j (Z.to_nat indexA)); [lia|]. reflexivity.
Qed.

(** A loop of successful two-site gates. *)
Lemma gate_loop (svd : SvdKernel) (g : Z -> Node) (a b : Z -> Z) (kw : Z -> Kwargs)
    (js : list Z) (s s' : MPS) (bids bdims : list nat) :
  bounded_chain s bids bdims ->
  (forall j, In j js -> dim_at (g j) 2 = Z.to_nat (_qudit_dimension s)
                        /\ dim_at (g j) 3 = Z.to_nat (_qudit_dimension s)) ->
  for_each js (fun j => apply_two_qubit_gate svd (g j) (a j) (b j) (kw j)) s
  = (Ok tt, s') ->
  (exists bids' bdims', bounded_chain s' bids' bdims')
  /\ _nqudits s' = _nqudits s
  /\ _qudit_dimension s' = _qudit_dimension s
  /\ length (_nodes s') = length (_nodes s)
  /\ length (_fidelities s') = (length (_fidelities s) + length js)%nat
  /\ length (_infidelities s') = (length (_infidelities s) + length js)%nat
  /\ (forall j, In j js -> 0 <= a j /\ b j = a j + 1 /\ b j < _nqudits s)
  /\ forall k, (forall j, In j js -> Z.of_nat k <> a j /\ Z.of_nat k <> a j + 1) ->
       nth_error (_nodes s') k = nth_error (_nodes s) k.
Proof.
  revert s bids bdims. induction js as [|j js IH]; intros s bids bdims Hb Hg H.
  - cbn [for_each] in H. unfold ret in H. injection H as <-.
    split; [eauto|]. repeat (split; [reflexivity || (cbn [length]; lia)|]).
    split; [intros j []|]. reflexivity.
  - cbn [for_each] in H. apply bind_ok in H. destruct H as ([] & s1 & H1 & H).
    destruct (Hg j (or_introl eq_refl)) as [G2 G3].
    destruct (gate_step svd s s1 bids bdims (g j) (a j) (b j) (kw j) Hb G2 G3 H1)
      as ((bids1 & bdims1 & Hb1) & En & Ed & El & Ef & Ei & Ha & Hab & Hbn & Hfr).
    destruct (IH s1 bids1 bdims1 Hb1) with (2 := H)
      as (Hb' & En' & Ed' & El' & Ef' & Ei' & Hr' & Hfr').
    { intros i Hi. rewrite Ed. apply Hg. now right. }
    split; [exact Hb'|]. split; [congruence|]. split; [congruence|].
    split; [congruence|].
    split; [rewrite Ef', Ef; cbn [length]; lia|].
    split; [rewrite Ei', Ei; cbn [length]; lia|].
    split.
    { intros i [<-|Hi]; [auto|]. rewrite <- En. now apply Hr'. }
    intros k Hk. rewrite Hfr'.
    + apply Hfr; [apply (Hk j); now left|].
      rewrite Hab. apply (Hk j). now left.
    + intros i Hi. apply Hk. now right.
Qed.

End Loops.

Module LoopTheorems.
Import Cx Np Tn Bonds Mps Invariants TnFacts ChecksFacts OneSiteFacts AllSitesFacts.
Import CeilingsFacts ChainFacts InitFacts AxesFacts NamesFacts TwoSiteFacts.
Import TwoSiteTheorems TwoSiteEffects Loops.
Local Open Scope Z_scope.

Lemma range2_spec (lo hi j : Z) : In j (Py.range2 lo hi) <-> lo <= j < hi.
Proof.
  unfold Py.range2. rewrite in_map_iff. split.
  - intros (k & <- & Hk). apply in_seq in Hk. lia.
  - intros H. exists (Z.to_nat (j - lo)). split; [lia|]. apply in_seq. lia.
Qed.

Lemma range2_length (lo hi : Z) : length (Py.range2 lo hi) = Z.to_nat (hi - lo).
Proof. unfold Py.range2. now rewrite length_map, length_seq. Qed.

(** [range(0, n - 1, 2)]: the even numbers below [n - 1]. *)
Lemma range3_up (n j : Z) :
  In j (Py.range3 0 (n - 1) 2) -> 0 <= j /\ j + 1 < n /\ Z.even j = true.
Proof.
  unfold Py.range3. cbn [Z.ltb Z.compare]. rewrite in_map_iff.
  intros (k & <- & Hk). apply in_seq in Hk.
  replace (n - 1 - 0 + 2 - 1) with (n - 1 + 1) in Hk by lia.
  assert (Hq : Z.of_nat k < (n - 1 + 1) / 2) by lia.
  assert (Hn : 2 * ((n - 1 + 1) / 2) <= n - 1 + 1) by (apply Z.mul_div_le; lia).
  split; [lia|]. split; [lia|].
  rewrite Z.add_0_l, Z.even_mul. apply orb_true_r.
Qed.

Lemma range3_up_length (n : Z) :
  length (Py.range3 0 (n - 1) 2) = Z.to_nat (n / 2).
Proof.
  unfold Py.range3. cbn [Z.ltb Z.compare]. rewrite length_map, length_seq.
  do 2 f_equal. lia.
Qed.

(** [range(n - 2, 0, -2)]: the numbers [n - 2], [n - 4], ... above zero. *)
Lemma range3_down (n j : Z) :
  In j (Py.range3 (n - 2) 0 (-2)) ->
  1 <= j /\ j + 2 <= n /\ Z.even (n - j) = true.
Proof.
  unfold Py.range3. cbn [Z.ltb Z.compare Z.opp]. rewrite in_map_iff.
  intros (k & <- & Hk). apply in_seq in Hk.
  replace (n - 2 - 0 - -2 - 1) with (n - 1) in Hk by lia.
  assert (Hq : Z.of_nat k < (n - 1) / 2) by lia.
  assert (Hn : 2 * ((n - 1) / 2) <= n - 1) by (apply Z.mul_div_le; lia).
  split; [lia|]. split; [lia|].
  replace (n - (n - 2 + Z.of_nat k * -2)) with (2 * (1 + Z.of_nat k)) by lia.
  rewrite Z.even_mul. reflexivity.
Qed.

Lemma range3_down_length (n : Z) :
  length (Py.range3 (n - 2) 0 (-2)) = Z.to_nat ((n - 1) / 2).
Proof.
  unfold Py.range3. cbn [Z.ltb Z.compare Z.opp]. rewrite length_map, length_seq.
  do 2 f_equal. lia.
Qed.

(** X14: when [swap_until_adjacent] succeeds on a chain of qubits that
    satisfies the invariants, [0 <= left_index < right_index < nqudits], the
    chain satisfies the invariants again and has as many nodes, exactly
    [right_index - left_index - 1] fidelities have been appended (one per
    swap), the nodes to the left of [left_index] and from [right_index] on
    are untouched, and for adjacent indices the chain is unchanged. *)
Theorem swap_until_adjacent_effect (svd : SvdKernel) (s s' : MPS)
    (bids bdims : list nat) (left_index right_index : Z) (kw : Kwargs) :
  bounded_chain s bids bdims ->
  _qudit_dimension s = 2 ->
  swap_until_adjacent svd left_index right_index kw s = (Ok tt, s') ->
  0 <= left_index < right_index /\ right_index < _nqudits s
  /\ (exists bids' bdims', bounded_chain s' bids' bdims')
  /\ length (_nodes s') = length (_nodes s)
  /\ length (_fidelities s')
     = (length (_fidelities s) + Z.to_nat (right_index - left_index - 1))%nat
  /\ (forall k, Z.of_nat k < left_index \/ right_index <= Z.of_nat k ->
        nth_error (_nodes s') k = nth_error (_nodes s) k)
  /\ (right_index = left_index + 1 -> s' = s).
Proof.
  intros Hb Hd H. unfold swap_until_adjacent in H.
  destruct (Z.geb_spec left_index right_index); [discriminate H|].
  unfold bind at 1, get at 1 in H.
  destruct (Z.ltb_spec left_index 0); cbn [orb] in H; [discriminate H|].
  destruct (Z.geb_spec right_index (_nqudits s)); [discriminate H|].
  split; [lia|]. split; [lia|].
  destruct (Z.eqb_spec left_index (right_index - 1)) as [E|E].
  - unfold ret in H. injection H as <-.
    split; [eauto|]. split; [reflexivity|].
    split; [replace (right_index - left_index - 1) with 0 by lia; cbn; lia|].
    split; reflexivity.
  - unfold swap in H.
    destruct (gate_loop svd (fun _ => Gates.swap) (fun j => j) (fun j => j + 1)
                (fun _ => kw) (Py.range2 left_index (right_index - 1)) s s' bids bdims Hb)
      with (2 := H) as (Hb' & _ & _ & El & Ef & _ & _ & Hfr).
    { intros j _. rewrite Hd. split; reflexivity. }
    split; [exact Hb'|]. split; [exact El|].
    split; [rewrite Ef, range2_length; f_equal; lia|].
    split; [|lia].
    intros k Hk. apply Hfr. intros j Hj. apply range2_spec in Hj. lia.
Qed.

Lemma cnot_keeping_loop (svd : SvdKernel) (v : bool) (a b : Z -> Z) (kw : Kwargs)
    (js : list Z) (s s' : MPS) :
  for_each js (fun j => cnot_keeping svd v (a j) (b j) kw) s = (Ok tt, s') ->
  js = [] /\ s' = s
  \/ keep_left_canonical kw = None
     /\ for_each js (fun j => apply_two_qubit_gate svd Gates.cnot (a j) (b j)
                                (mkKwargs (Some v) (fraction kw) (maxsvals kw))) s
        = (Ok tt, s').
Proof.
  destruct js as [|j js].
  - cbn [for_each]. unfold ret. intros [= <-]. now left.
  - intros H. right.
    destruct (keep_left_canonical kw) eqn:E.
    + cbn [for_each] in H. unfold cnot_keeping in H. rewrite E in H. discriminate H.
    + split; [reflexivity|]. rewrite <- H. unfold cnot_keeping, cnot.
      rewrite E. reflexivity.
Qed.

(** X15: when [sweep_cnots_left_to_right] succeeds on a chain of qubits
    that satisfies the invariants, [keep_left_canonical] was not among the
    keywords, the chain satisfies the invariants again, exactly
    [nqudits // 2] fidelities have been appended (one per CNOT), and for an
    odd number of sites the last node is untouched. *)
Theorem sweep_left_to_right_effect (svd : SvdKernel) (s s' : MPS)
    (bids bdims : list nat) (kw : Kwargs) :
  bounded_chain s bids bdims ->
  _qudit_dimension s = 2 ->
  sweep_cnots_left_to_right svd kw s = (Ok tt, s') ->
  keep_left_canonical kw = None
  /\ (exists bids' bdims', bounded_chain s' bids' bdims')
  /\ length (_fidelities s')
     = (length (_fidelities s) + Z.to_nat (_nqudits s / 2))%nat
  /\ (Z.odd (_nqudits s) = true ->
      nth_error (_nodes s') (length (_nodes s) - 1)
      = nth_error (_nodes s) (length (_nodes s) - 1)).
Proof.
  intros Hb Hd H. unfold sweep_cnots_left_to_right in H.
  unfold bind at 1, get at 1 in H.
  pose proof (ci_nqudits _ _ _ (bc_inv _ _ _ Hb)) as Hnq.
  pose proof (ci_two _ _ _ (bc_inv _ _ _ Hb)) as H2.
  apply (cnot_keeping_loop svd true (fun i => i) (fun i => i + 1)) in H.
  destruct H as [[E _]|[Hk H]].
  { exfalso. assert (Hl : length (Py.range3 0 (_nqudits s - 1) 2) = 0%nat)
      by now rewrite E.
    rewrite range3_up_length in Hl.
    assert (1 <= _nqudits s / 2) by (apply Z.div_le_lower_bound; lia). lia. }
  destruct (gate_loop svd (fun _ => Gates.cnot) (fun j => j) (fun j => j + 1)
              (fun _ => mkKwargs (Some true) (fraction kw) (maxsvals kw))
              (Py.range3 0 (_nqudits s - 1) 2) s s' bids bdims Hb)
    with (2 := H) as (Hb' & _ & _ & El & Ef & _ & _ & Hfr).
  { intros j _. rewrite Hd. split; reflexivity. }
  split; [exact Hk|]. split; [exact Hb'|].
  split; [now rewrite Ef, range3_up_length|].
  intros Hodd. apply Hfr. intros j Hj. apply range3_up in Hj.
  destruct Hj as (Hj0 & Hj1 & Hev).
  split; [lia|]. intros E.
  assert (Ej : j = _nqudits s - 2) by lia. subst j.
  replace (_nqudits s - 2) with (_nqudits s + 2 * (-1)) in Hev by lia.
  rewrite Z.even_add_mul_2 in Hev. rewrite <- Z.negb_odd, Hodd in Hev. discriminate.
Qed.

(** X16: when [sweep_cnots_right_to_left] succeeds on a chain of qubits
    that satisfies the invariants, the chain satisfies the invariants again,
    exactly [(nqudits - 1) // 2] fidelities have been appended, the last node
    is untouched (the sweep never reaches the last bond), for an even number
    of sites the first node is untouched too, and a chain of two sites is
    left exactly as it was. *)
Theorem sweep_right_to_left_effect (svd : SvdKernel) (s s' : MPS)
    (bids bdims : list nat) (kw : Kwargs) :
  bounded_chain s bids bdims ->
  _qudit_dimension s = 2 ->
  sweep_cnots_right_to_left svd kw s = (Ok tt, s') ->
  (exists bids' bdims', bounded_chain s' bids' bdims')
  /\ length (_fidelities s')
     = (length (_fidelities s) + Z.to_nat ((_nqudits s - 1) / 2))%nat
  /\ nth_error (_nodes s') (length (_nodes s) - 1)
     = nth_error (_nodes s) (length (_nodes s) - 1)
  /\ (Z.even (_nqudits s) = true -> nth_error (_nodes s') 0 = nth_error (_nodes s) 0)
  /\ (_nqudits s = 2 -> s' = s).
Proof.
  intros Hb Hd H. unfold sweep_cnots_right_to_left in H.
  unfold bind at 1, get at 1 in H.
  pose proof (ci_nqudits _ _ _ (bc_inv _ _ _ Hb)) as Hnq.
  pose proof (ci_two _ _ _ (bc_inv _ _ _ Hb)) as H2.
  apply (cnot_keeping_loop svd false (fun i => i - 1) (fun i => i)) in H.
  destruct H as [[E ->]|[Hk H]].
  { split; [eauto|].
    assert (Hl : length (Py.range3 (_nqudits s - 2) 0 (-2)) = 0%nat) by now rewrite E.
    rewrite range3_down_length in Hl. rewrite Hl. rewrite Nat.add_0_r.
    repeat split; reflexivity. }
  destruct (gate_loop svd (fun _ => Gates.cnot) (fun j => j - 1) (fun j => j)
              (fun _ => mkKwargs (Some false) (fraction kw) (maxsvals kw))
              (Py.range3 (_nqudits s - 2) 0 (-2)) s s' bids bdims Hb)
    with (2 := H) as (Hb' & _ & _ & El & Ef & _ & _ & Hfr).
  { intros j _. rewrite Hd. split; reflexivity. }
  split; [exact Hb'|].
  split; [now rewrite Ef, range3_down_length|].
  split; [|split].
  - apply Hfr. intros j Hj. apply range3_down in Hj. lia.
  - intros Hev. apply Hfr. intros j Hj. apply range3_down in Hj.
    destruct Hj as (Hj0 & Hj1 & Hej). split; [|lia]. cbn [Z.of_nat]. intros E.
    assert (Ej : j = 1) by lia. subst j.
    replace (_nqudits s - 1) with (_nqudits s + 1 + 2 * (-1)) in Hej by lia.
    rewrite Z.even_add_mul_2, Z.even_add, Hev in Hej. discriminate.
  - intros E2.
    assert (Hl : length (Py.range3 (_nqudits s - 2) 0 (-2)) = 0%nat)
      by (rewrite range3_down_length, E2; reflexivity).
    destruct (Py.range3 (_nqudits s - 2) 0 (-2)) as [|j js] eqn:Er; [|discriminate Hl].
    cbn [for_each] in H. unfold ret in H. now injection H as <-.
Qed.


Lemma range3_nonempty (lo hi step : Z) :
  (length (Py.range3 lo hi step) > 0)%nat ->
  exists js, Py.range3 lo hi step = lo :: js.
Proof.
  unfold Py.range3. rewrite length_map, length_seq.
  destruct (Z.to_nat _) as [|m]; [lia|]. intros _.
  cbn [seq map Z.of_nat]. rewrite Z.mul_0_l, Z.add_0_r. eauto.
Qed.

(** X17: the sweeps pass [keep_left_canonical] themselves, so a caller who
    gives that keyword gets the TypeError of a keyword given twice, with the
    chain unchanged: from [sweep_cnots_left_to_right] on two sites or more,
    from [sweep_cnots_right_to_left] on three sites or more; on at most two
    sites the right-to-left sweep has no CNOT to apply and returns with the
    chain unchanged. *)
Theorem sweeps_reject_keep_left_canonical (svd : SvdKernel) (kw : Kwargs) (v : bool)
    (s : MPS) :
  keep_left_canonical kw = Some v ->
  (2 <= _nqudits s -> sweep_cnots_left_to_right svd kw s = (Err PyTypeError, s))
  /\ (3 <= _nqudits s -> sweep_cnots_right_to_left svd kw s = (Err PyTypeError, s))
  /\ (_nqudits s <= 2 -> sweep_cnots_right_to_left svd kw s = (Ok tt, s)).
Proof.
  intros Hk. split; [|split]; intros HN.
  - unfold sweep_cnots_left_to_right, bind, get.
    destruct (range3_nonempty 0 (_nqudits s - 1) 2) as [js ->].
    { rewrite range3_up_length.
      assert (1 <= _nqudits s / 2) by (apply Z.div_le_lower_bound; lia). lia. }
    cbn [for_each]. unfold bind, cnot_keeping. now rewrite Hk.
  - unfold sweep_cnots_right_to_left, bind, get.
    destruct (range3_nonempty (_nqudits s - 2) 0 (-2)) as [js ->].
    { rewrite range3_down_length.
      assert (1 <= (_nqudits s - 1) / 2) by (apply Z.div_le_lower_bound; lia). lia. }
    cbn [for_each]. unfold bind, cnot_keeping. now rewrite Hk.
  - unfold sweep_cnots_right_to_left, bind, get.
    assert (Hl : length (Py.range3 (_nqudits s - 2) 0 (-2)) = 0%nat).
    { rewrite range3_down_length.
      assert ((_nqudits s - 1) / 2 <= 0)
        by (apply Z.lt_succ_r; apply Z.div_lt_upper_bound; lia).
      lia. }
    destruct (Py.range3 (_nqudits s - 2) 0 (-2)); [reflexivity|discriminate Hl].
Qed.

End LoopTheorems.

Module PrefixClash.
Import Cx Np Tn Bonds Mps Invariants Fresh TnFacts ChecksFacts OneSiteFacts AllSitesFacts.
Import CeilingsFacts ChainFacts InitFacts FreshFacts AxesFacts NamesFacts TwoSiteFacts.
Import TwoSiteEffects.
Local Open Scope Z_scope.

Lemma fresh_names (prefix : string) (n pd k : nat) (nd : Node) :
  nth_error (fresh_nodes prefix n pd) k = Some nd ->
  name nd = site_name prefix (Z.of_nat k).
Proof.
  unfold fresh_nodes. rewrite nth_error_map_seq.
  destruct (k <? n)%nat; [|discriminate]. now intros [= <-].
Qed.

(** X18: on a chain built by the constructor with a prefix that occurs in
    the string [new_mps_tensor] (the prefix [t], say), no two-site gate on
    the sites [indexA], [indexA + 1] with [0 <= indexA] and
    [indexA + 4 <= nqudits] ever succeeds: the merged node is then the first
    node of the bond to the right, and reading the site index from its name
    fails. *)
Theorem merged_name_prefix_clash (svd : SvdKernel) (nqudits d : Z) (prefix : string)
    (gate : Node) (kw : Kwargs) (indexA indexB : Z) (s s' : MPS) :
  init nqudits d prefix = Ok s ->
  Names.contains prefix "new_mps_tensor" = true ->
  0 <= indexA -> indexA + 4 <= nqudits ->
  apply_two_qubit_gate svd gate indexA indexB kw s <> (Ok tt, s').
Proof.
  intros Hinit Hpre Hi0 Hi4 H.
  assert (HN : 2 <= nqudits) by lia.
  destruct (init_closed nqudits d prefix HN) as (c & _ & E).
  rewrite E in Hinit. injection Hinit as <-.
  pose proof (fresh_chain_inv nqudits d prefix c HN) as Hinv.
  set (n := Z.to_nat nqudits) in *.
  set (s := mkMPS nqudits d prefix (fresh_nodes prefix n (physical d)) c [] []) in *.
  destruct (two_site_gate_halves _ _ _ _ _ _ _ H)
    as (_ & _ & -> & HB & Hgate & s1 & f & Hu & _ & _).
  rewrite <- (Z2Nat.id indexA) in Hu by lia.
  set (i := Z.to_nat indexA) in *.
  assert (Hlen : length (_nodes s) = n).
  { cbn [s _nodes]. unfold fresh_nodes. now rewrite length_map, length_seq. }
  assert (Hnames : forall k nd, nth_error (_nodes s) k = Some nd ->
                                name nd = site_name (_prefix s) (Z.of_nat k)).
  { intros k nd. apply fresh_names. }
  destruct (update_run s _ _ i Hinv Hnames ltac:(lia) svd gate kw Hgate s1 Hu)
    as (newL & newR & cm & k & x & A & B & _ & HBn & _ & _ & _ & _ & _ & _ & _ & _
        & _ & _ & _ & _ & _ & Hclash).
  rewrite Hlen in Hclash. cbn [s _prefix] in Hclash.
  rewrite Hclash in Hpre; [discriminate Hpre|lia|].
  cbn [s _nodes] in HBn. unfold fresh_nodes in HBn. rewrite nth_error_map_seq in HBn.
  destruct (Nat.ltb_spec (S i) n); [|lia]. injection HBn as <-.
  rewrite fresh_bids_nth by lia.
  unfold is_node1, axis_of_bond, edges, fresh_node, fresh_axes. cbn [axes].
  destruct (Nat.eqb_spec (S i) 0); [lia|].
  destruct (Nat.eqb_spec (S i) (n - 1)); [lia|].
  cbn [find_axis has_id map fst]. replace (S i - 1)%nat with i by lia.
  destruct (Nat.eqb_spec (bond_number n (S i)) (bond_number n i)) as [Eb|_].
  { apply bond_number_inj in Eb; lia. }
  rewrite Nat.eqb_refl. cbn [nth_error].
  destruct (Nat.eqb_spec (S i) (n - 2)); [lia|]. reflexivity.
Qed.

End PrefixClash.

Module InvariantFacts.
Import Cx Np Tn Bonds Mps Invariants Fresh TnFacts ChecksFacts OneSiteFacts AllSitesFacts.
Import CeilingsFacts ChainFacts InitFacts FreshFacts AxesFacts NamesFacts TwoSiteFacts.
Import TwoSiteTheorems TwoSiteEffects Loops.
Local Open Scope Z_scope.

Lemma axes_bonds_of_bonds (n : Node) : bond_dims n = axes_bonds (bonds n).
Proof.
  unfold bond_dims, bonds, axes_bonds.
  induction (axes n) as [|[e d] l IH]; [reflexivity|].
  destruct e; cbn [filter fst is_dangling negb flat_map app snd]; now rewrite IH.
Qed.

(** [apply_one_qubit_gate] changes the list of nodes only. *)
Lemma one_site_gate_fields (gate : Node) (index : Z) (s : MPS) :
  let s' := snd (apply_one_qubit_gate gate index s) in
  _qudit_dimension s' = _qudit_dimension s /\ _prefix s' = _prefix s
  /\ _max_bond_dimensions s' = _max_bond_dimensions s
  /\ _infidelities s' = _infidelities s /\ _fidelities s' = _fidelities s.
Proof.
  unfold apply_one_qubit_gate, bind, get, raise. cbn [fst snd].
  unfold node_at, first_dangling, connect, bind, get, lift, ret, set_nodes,
    of_option. cbn [fst snd].
  repeat case_scrutinee; cbn [fst snd]; repeat split.
Qed.

(** A one-site gate keeps the invariants, whatever its outcome. *)
Lemma one_site_gate_bounded (gate : Node) (index : Z) (s : MPS)
    (bids bdims : list nat) :
  bounded_chain s bids bdims ->
  bounded_chain (snd (apply_one_qubit_gate gate index s)) bids bdims.
Proof.
  intros [Hinv Hd Hceil Hnames Hbound].
  destruct (apply_one_qubit_gate_nodes gate index s) as (Hb & Hnm & Hn).
  destruct (one_site_gate_fields gate index s) as (E2 & E3 & E4 & _).
  set (s' := snd (apply_one_qubit_gate gate index s)) in *.
  pose proof (same_bonds_length _ _ Hb) as Hlen.
  constructor.
  - destruct Hinv as [H1 H2 H3 H4 H5 H6].
    constructor; rewrite <- ?Hlen, ?Hn; try assumption.
    intros k nd' Hk. pose proof (same_bonds_nth _ _ Hb k) as Hs.
    rewrite Hk in Hs. destruct (nth_error (_nodes s) k) as [nd|] eqn:E; [|contradiction].
    destruct (H6 k nd E) as [G1 G2]. destruct Hs as [Hs1 Hs2].
    split; [congruence|].
    rewrite axes_bonds_of_bonds, <- Hs1, <- axes_bonds_of_bonds. exact G2.
  - now rewrite E2.
  - now rewrite E4, Hn, E2.
  - intros k nd' Hk. rewrite E3.
    assert (Hm : nth_error (map name (_nodes s')) k = Some (name nd'))
      by (rewrite nth_error_map, Hk; reflexivity).
    rewrite Hnm, nth_error_map in Hm.
    destruct (nth_error (_nodes s) k) as [nd|] eqn:E; [|discriminate Hm].
    injection Hm as <-. now apply Hnames.
  - intros k Hk. rewrite Hn, E2. now apply Hbound.
Qed.

End InvariantFacts.

Module InvariantTheorems.
Import Cx Np Tn Bonds Mps Invariants Fresh TnFacts ChecksFacts OneSiteFacts AllSitesFacts.
Import CeilingsFacts ChainFacts InitFacts FreshFacts AxesFacts NamesFacts TwoSiteFacts.
Import TwoSiteTheorems TwoSiteEffects Loops InvariantFacts.
Local Open Scope Z_scope.

(** X19: for at least two sites of dimension at least two the constructor
    succeeds, and its chain satisfies the invariants (bonds of dimension one
    between neighbours only, within the ceilings), has [nqudits] nodes and
    empty lists of fidelities and infidelities; the node [k] is named by the
    prefix and the numeral of [k], has the physical dimension [d], and has
    two axes at the two ends and three in between. *)
Theorem constructor_establishes_invariants (nqudits d : Z) (prefix : string) :
  2 <= nqudits -> 2 <= d ->
  exists s,
    init nqudits d prefix = Ok s
    /\ bounded_chain s (fresh_bids (Z.to_nat nqudits)) (fresh_bdims (Z.to_nat nqudits))
    /\ Z.of_nat (length (_nodes s)) = nqudits
    /\ _infidelities s = [] /\ _fidelities s = []
    /\ forall k, (k < length (_nodes s))%nat ->
         exists nd, nth_error (_nodes s) k = Some nd
                    /\ name nd = String.append prefix (Names.str k)
                    /\ physical_dimension nd = Z.to_nat d
                    /\ rank nd = (if (k =? 0)%nat || (k =? length (_nodes s) - 1)%nat
                                  then 2 else 3)%nat.
Proof.
  intros HN Hd.
  destruct (init_closed nqudits d prefix HN) as (c & Hc & E).
  rewrite max_bond_dimensions_closed in Hc by assumption. injection Hc as <-.
  eexists. split; [exact E|].
  set (n := Z.to_nat nqudits).
  assert (Hlen : length (fresh_nodes prefix n (physical d)) = n).
  { unfold fresh_nodes. now rewrite length_map, length_seq. }
  cbn [_nodes _infidelities _fidelities]. rewrite Hlen.
  split; [|split; [lia|split; [reflexivity|split; [reflexivity|]]]].
  - constructor; cbn [_nodes _nqudits _qudit_dimension _max_bond_dimensions _prefix].
    + exact (fresh_chain_inv nqudits d prefix _ HN).
    + exact Hd.
    + reflexivity.
    + intros k nd. apply PrefixClash.fresh_names.
    + intros k Hk. unfold fresh_bdims in *. rewrite repeat_length in Hk.
      rewrite nth_repeat_lt by exact Hk.
      unfold Ceilings.ceiling.
      assert (1 <= d ^ (Z.of_nat k + 1)) by (apply Z.pow_le_mono_r with (a := d) (b := 0) (c := Z.of_nat k + 1); lia).
      assert (1 <= d ^ (nqudits - Z.of_nat k - 1))
        by (apply Z.pow_le_mono_r with (a := d) (b := 0); lia).
      cbn [Z.of_nat]. lia.
  - intros k Hk. exists (fresh_node prefix n (physical d) k).
    split.
    { unfold fresh_nodes. rewrite nth_error_map_seq.
      destruct (Nat.ltb_spec k n); [reflexivity|lia]. }
    split.
    { unfold fresh_node, site_name. cbn [name]. now rewrite Nat2Z.id. }
    unfold physical_dimension, rank, fresh_node, fresh_axes, physical. cbn [axes].
    destruct (k =? 0)%nat; [cbn; split; [lia|reflexivity]|].
    destruct (k =? n - 1)%nat; cbn; split; (lia || reflexivity).
Qed.

(** X20: when [apply_all_mps_operations] succeeds on a chain that
    satisfies the invariants, with operations whose two-site gates have
    output edges of the qudit dimension, the chain satisfies the invariants
    again, is valid, and every bond is reported with a dimension within its
    ceiling. *)
Theorem operations_keep_invariants (svd : SvdKernel) (ops : list MPSOperation)
    (kw : Kwargs) (s s' : MPS) (bids bdims : list nat) :
  bounded_chain s bids bdims ->
  (forall op, In op ops -> op_arity op = 2%nat ->
     dim_at (op_node op) 2 = Z.to_nat (_qudit_dimension s)
     /\ dim_at (op_node op) 3 = Z.to_nat (_qudit_dimension s)) ->
  apply_all_mps_operations svd ops kw s = (Ok tt, s') ->
  (exists bids' bdims', bounded_chain s' bids' bdims')
  /\ is_valid s' = true
  /\ forall k, 0 <= k < _nqudits s' - 1 ->
       exists D c, get_bond_dimension_of k s' = Ok D
                   /\ get_max_bond_dimension_of k s' = Ok c
                   /\ Z.of_nat D <= c.
Proof.
  intros Hb Hops H.
  assert (Hinv : exists bids' bdims', bounded_chain s' bids' bdims').
  { revert s bids bdims Hb Hops H. unfold apply_all_mps_operations.
    induction ops as [|op ops IH]; intros s bids bdims Hb Hops H.
    - cbn [for_each] in H. unfold ret in H. injection H as <-. eauto.
    - cbn [for_each] in H. apply bind_ok in H. destruct H as ([] & s1 & H1 & H).
      assert (Hstep : exists bids1 bdims1,
                bounded_chain s1 bids1 bdims1
                /\ _qudit_dimension s1 = _qudit_dimension s).
      { unfold apply_mps_operation in H1. unfold bind at 1, get at 1 in H1.
        destruct (negb (op_is_valid (_nqudits s) op)); [discriminate H1|].
        unfold is_single_qudit_operation, is_two_qudit_operation in H1.
        destruct (Nat.eqb_spec (op_arity op) 1) as [E1|E1].
        - destruct (qudit_indices op) as [|i l]; [discriminate H1|].
          exists bids, bdims.
          pose proof (one_site_gate_bounded (op_node op) i s bids bdims Hb) as Hb1.
          pose proof (one_site_gate_fields (op_node op) i s) as (E2 & _).
          rewrite H1 in Hb1, E2. cbn [snd] in Hb1, E2. auto.
        - destruct (Nat.eqb_spec (op_arity op) 2) as [E2|E2]; [|discriminate H1].
          destruct (qudit_indices op) as [|i [|j [|]]]; try discriminate H1.
          destruct (Hops op (or_introl eq_refl) E2) as [G2 G3].
          destruct (gate_step svd s s1 bids bdims (op_node op) i j kw Hb G2 G3 H1)
            as ((bids1 & bdims1 & Hb1) & _ & Ed & _).
          exists bids1, bdims1. auto. }
      destruct Hstep as (bids1 & bdims1 & Hb1 & Ed).
      apply (IH s1 bids1 bdims1 Hb1); [|exact H].
      intros o Ho. rewrite Ed. apply Hops. now right. }
  destruct Hinv as (bids' & bdims' & Hb').
  split; [eauto|]. split; [exact (chain_valid s' _ _ (bc_inv _ _ _ Hb'))|].
  intros k Hk. now apply (bounded_chain_bonds _ _ _ k Hb').
Qed.

End InvariantTheorems.

(** ** The further properties on the sample chains *)

Module CoverageInstances.

Import Cx Np Tn Bonds Mps Invariants Fresh Names Examples CxFacts FreshFacts.
Import Instances NormTheorems TwoSiteFacts TwoSiteTheorems TwoSiteInstances.
Import NamesRound QueryTheorems OneSiteErrors OneSiteAlgebra.
Import TwoSiteEffectsTheorems TwoSiteErrorTheorems LoopTheorems PrefixClash.
Import InvariantTheorems AllSitesTheorems.
Local Open Scope Z_scope.

Lemma chain3_bounded : bounded_chain chain3 [1%nat; 2%nat] [1%nat; 1%nat].
Proof.
  constructor.
  - exact (fresh_chain_inv 3 2 "q" [2; 2] ltac:(lia)).
  - cbn. lia.
  - reflexivity.
  - intros [|[|[|[|k]]]] nd; cbn; intros E; try discriminate E;
      injection E as <-; reflexivity.
  - intros [|[|k]] Hk; cbn in Hk; try lia; cbn; lia.
Qed.

Lemma chain4t_constructed : init 4 2 "t" = Ok chain4t.
Proof. reflexivity. Qed.


Lemma site_index_read_back_witness :
  contains "q" (str 12) = false
  /\ index_of_name "q" (site_name "q" (Z.of_nat 12)) = Ok 12%nat.
Proof.
  split; [reflexivity|]. exact (site_index_read_back "q" 12 eq_refl).
Defined.

Lemma max_bond_index_wraps_witness :
  2 <= 3 /\ 2 <= 2 /\ init 3 2 "q" = Ok chain3
  /\ (forall i, 3 <= i -> get_max_bond_dimension_of i chain3 = Err IndexOutOfRange)
  /\ get_max_bond_dimension_of (3 - 1) chain3 = Err PyIndexError
  /\ (forall i, 0 <= i < 3 - 1 ->
        get_max_bond_dimension_of (- (i + 1)) chain3 = get_max_bond_dimension_of i chain3
        /\ get_max_bond_dimension_of (- (i + 1)) chain3
           = Ok (Ceilings.ceiling 3 2 (3 - 2 - i)))
  /\ (forall i, i < - (3 - 1) -> get_max_bond_dimension_of i chain3 = Err PyIndexError).
Proof.
  split; [lia|]. split; [lia|]. split; [exact chain3_constructed|].
  apply (max_bond_index_wraps 3 2 "q" chain3); [lia|lia|exact chain3_constructed].
Defined.

Lemma free_edge_of_valid_chain_witness :
  is_valid chain3 = true
  /\ match Py.position (length (_nodes chain3)) (-1) with
     | Some p =>
         exists nd e,
           nth_error (_nodes chain3) p = Some nd
           /\ get_free_edge_of (-1) true chain3 = Ok (e, physical_dimension nd)
           /\ is_dangling e = true
           /\ get_all_dangling nd = [e]
     | None => get_free_edge_of (-1) true chain3 = Err PyIndexError
     end.
Proof.
  split; [reflexivity|]. exact (free_edge_of_valid_chain chain3 (-1) true eq_refl).
Defined.

Lemma one_site_gate_failure_keeps_chain_witness :
  fst (apply_one_qubit_gate qutrit_gate 1 chain3) = Err TnDimensionMismatch
  /\ snd (apply_one_qubit_gate qutrit_gate 1 chain3) = chain3.
Proof.
  split; [reflexivity|].
  exact (one_site_gate_failure_keeps_chain qutrit_gate 1 chain3 TnDimensionMismatch
           eq_refl).
Defined.

Lemma one_site_gate_dimension_check_witness :
  uniform 2 chain3
  /\ Py.in_range 1 (_nqudits chain3) = true
  /\ gate_edges_ok Gates.xgate 2 = true
  /\ (dim_at Gates.xgate 0 <> 2%nat ->
      apply_one_qubit_gate Gates.xgate 1 chain3 = (Err TnDimensionMismatch, chain3))
  /\ (dim_at Gates.xgate 0 = 2%nat ->
      exists s' site',
        apply_one_qubit_gate Gates.xgate 1 chain3 = (Ok tt, s')
        /\ nth_error (_nodes s') (Z.to_nat 1) = Some site'
        /\ physical_dimension site' = dim_at Gates.xgate 1
        /\ _qudit_dimension s' = _qudit_dimension chain3
        /\ forall k, k <> Z.to_nat 1 ->
             nth_error (_nodes s') k = nth_error (_nodes chain3) k).
Proof.
  split; [exact chain3_uniform|]. split; [reflexivity|]. split; [reflexivity|].
  exact (one_site_gate_dimension_check 2 Gates.xgate 1 chain3 chain3_uniform
           eq_refl eq_refl).
Defined.

Lemma one_site_gate_entries_witness :
  is_valid chain3 = true
  /\ Py.in_range 1 (_nqudits chain3) = true
  /\ nth_error (_nodes chain3) (Z.to_nat 1) = Some (fresh_node "q" 3 2 1)
  /\ gate_edges_ok Gates.hgate 2 = true
  /\ dim_at Gates.hgate 0 = physical_dimension (fresh_node "q" 3 2 1)
  /\ let p := find_axis is_dangling (axes (fresh_node "q" 3 2 1)) in
     exists s' new e1,
       apply_one_qubit_gate Gates.hgate 1 chain3 = (Ok tt, s')
       /\ nth_error (_nodes s') (Z.to_nat 1) = Some new
       /\ name new = name (fresh_node "q" 3 2 1)
       /\ is_dangling e1 = true
       /\ axes new = firstn p (axes (fresh_node "q" 3 2 1))
                     ++ skipn (S p) (axes (fresh_node "q" 3 2 1))
                     ++ [(e1, dim_at Gates.hgate 1)]
       /\ forall idx, length idx = rank (fresh_node "q" 3 2 1) ->
            value new idx
            = Csum (map (fun k =>
                           Cmul (value (fresh_node "q" 3 2 1)
                                   (firstn p (removelast idx)
                                    ++ k :: skipn p (removelast idx)))
                                (value Gates.hgate [k; last idx 0%nat]))
                        (seq 0 (dim_at Gates.hgate 0))).
Proof.
  split; [reflexivity|]. split; [reflexivity|]. split; [reflexivity|].
  split; [reflexivity|]. split; [reflexivity|].
  exact (one_site_gate_entries Gates.hgate 1 chain3 (fresh_node "q" 3 2 1)
           eq_refl eq_refl eq_refl eq_refl eq_refl).
Defined.

Lemma self_inverse_gates_restore_site_witness :
  is_valid chain3 = true
  /\ Py.in_range 1 (_nqudits chain3) = true
  /\ nth_error (_nodes chain3) (Z.to_nat 1) = Some (fresh_node "q" 3 2 1)
  /\ physical_dimension (fresh_node "q" 3 2 1) = 2%nat
  /\ In x [x; apply_one_qubit_gate Gates.igate;
           apply_one_qubit_gate Gates.ygate; apply_one_qubit_gate Gates.zgate]
  /\ let p := find_axis is_dangling (axes (fresh_node "q" 3 2 1)) in
     exists s1 s2 n2,
       x 1 chain3 = (Ok tt, s1)
       /\ x 1 s1 = (Ok tt, s2)
       /\ nth_error (_nodes s2) (Z.to_nat 1) = Some n2
       /\ (forall k, k <> Z.to_nat 1 ->
             nth_error (_nodes s2) k = nth_error (_nodes chain3) k)
       /\ name n2 = name (fresh_node "q" 3 2 1)
       /\ axes n2 = firstn p (axes (fresh_node "q" 3 2 1))
                    ++ skipn (S p) (axes (fresh_node "q" 3 2 1))
                    ++ [(Dangling 1, 2%nat)]
       /\ forall idx, length idx = rank (fresh_node "q" 3 2 1) ->
            (last idx 0 < 2)%nat ->
            value n2 idx
            = value (fresh_node "q" 3 2 1)
                (firstn p (removelast idx)
                 ++ last idx 0%nat :: skipn p (removelast idx)).
Proof.
  split; [reflexivity|]. split; [reflexivity|]. split; [reflexivity|].
  split; [reflexivity|]. split; [left; reflexivity|].
  exact (self_inverse_gates_restore_site 1 chain3 (fresh_node "q" 3 2 1)
           eq_refl eq_refl eq_refl eq_refl x (or_introl eq_refl)).
Defined.

Lemma two_site_gate_frame_witness :
  chain_inv chain2 [1%nat] [1%nat]
  /\ (forall k nd, nth_error (_nodes chain2) k = Some nd ->
                   name nd = site_name (_prefix chain2) (Z.of_nat k))
  /\ apply_two_qubit_gate diagonal_kernel Gates.cnot 0 1 no_kwargs chain2
     = (Ok tt, after_cnot)
  /\ 1 = 0 + 1
  /\ is_valid after_cnot = true
  /\ _nqudits after_cnot = _nqudits chain2
  /\ _qudit_dimension after_cnot = _qudit_dimension chain2
  /\ _prefix after_cnot = _prefix chain2
  /\ get_max_bond_dimensions after_cnot = get_max_bond_dimensions chain2
  /\ map name (_nodes after_cnot) = map name (_nodes chain2)
  /\ (forall k, Z.of_nat k <> 0 -> Z.of_nat k <> 1 ->
        nth_error (_nodes after_cnot) k = nth_error (_nodes chain2) k)
  /\ (exists x f, _infidelities after_cnot = _infidelities chain2 ++ [x]
                  /\ _fidelities after_cnot = _fidelities chain2 ++ [f]
                  /\ norm after_cnot = Ok f)
  /\ (forall j, 0 <= j < _nqudits chain2 - 1 -> j <> 0 ->
        get_bond_dimension_of j after_cnot = get_bond_dimension_of j chain2)
  /\ (exists nA nB, Py.getitem (_nodes after_cnot) 0 = Some nA
                    /\ Py.getitem (_nodes after_cnot) 1 = Some nB
                    /\ physical_dimension nA = dim_at Gates.cnot 2
                    /\ physical_dimension nB = dim_at Gates.cnot 3).
Proof.
  split; [exact (bc_inv _ _ _ chain2_bounded)|].
  split; [exact (bc_names _ _ _ chain2_bounded)|].
  split; [exact cnot_applied|].
  exact (two_site_gate_frame diagonal_kernel chain2 after_cnot [1%nat] [1%nat]
           Gates.cnot 0 1 no_kwargs (bc_inv _ _ _ chain2_bounded)
           (bc_names _ _ _ chain2_bounded) cnot_applied).
Defined.






Lemma two_site_gate_check_errors_witness :
  apply_two_qubit_gate diagonal_kernel Gates.cnot 1 0 no_kwargs chain3
  = (Err InvalidIndexOrder, chain3)
  /\ In InvalidIndexOrder
       [InvalidChain; IndexOutOfRange; IdenticalIndices; NonAdjacentSites;
        InvalidGateShape; InvalidIndexOrder]
  /\ chain3 = chain3.
Proof.
  split; [reflexivity|]. split; [do 5 right; left; reflexivity|].
  apply (two_site_gate_check_errors diagonal_kernel Gates.cnot 1 0 no_kwargs
           chain3 chain3 InvalidIndexOrder); [reflexivity|].
  do 5 right. left. reflexivity.
Defined.

Lemma cnot_rejected :
  apply_two_qubit_gate diagonal_kernel Gates.cnot 0 1 both_options chain2
  = (Err ConflictingOptions, after_rejected).
Proof.
  unfold after_rejected.
  rewrite (surjective_pairing
             (apply_two_qubit_gate diagonal_kernel Gates.cnot 0 1 both_options chain2))
    at 1.
  f_equal.
Qed.

Lemma rejected_options_leave_chain_invalid_witness :
  apply_two_qubit_gate diagonal_kernel Gates.cnot 0 1 both_options chain2
  = (Err ConflictingOptions, after_rejected)
  /\ (ConflictingOptions = ConflictingOptions \/ ConflictingOptions = InvalidOption)
  /\ is_valid chain2 = true
  /\ is_valid after_rejected = false
  /\ (ConflictingOptions = ConflictingOptions ->
      fraction both_options <> None /\ maxsvals both_options <> None)
  /\ (ConflictingOptions = InvalidOption ->
      exists f, fraction both_options = Some f /\ maxsvals both_options = None
                /\ Qle_bool 0 f && Qle_bool f 1 = false).
Proof.
  split; [exact cnot_rejected|]. split; [left; reflexivity|].
  exact (rejected_options_leave_chain_invalid diagonal_kernel Gates.cnot 0 1
           both_options chain2 after_rejected ConflictingOptions cnot_rejected
           (or_introl eq_refl)).
Defined.

Lemma invalid_options_never_accepted_witness :
  ((fraction both_options <> None /\ maxsvals both_options <> None)
   \/ (exists f, fraction both_options = Some f
                 /\ Qle_bool 0 f && Qle_bool f 1 = false))
  /\ apply_two_qubit_gate diagonal_kernel Gates.cnot 0 1 both_options chain2
     <> (Ok tt, chain2).
Proof.
  assert (H : (fraction both_options <> None /\ maxsvals both_options <> None)
              \/ (exists f, fraction both_options = Some f
                            /\ Qle_bool 0 f && Qle_bool f 1 = false)).
  { left. split; discriminate. }
  split; [exact H|].
  exact (invalid_options_never_accepted diagonal_kernel Gates.cnot 0 1 both_options
           chain2 chain2 H).
Defined.

Lemma sweeps_reject_keep_left_canonical_witness :
  keep_left_canonical keeping_left = Some true
  /\ (2 <= _nqudits chain3 ->
      sweep_cnots_left_to_right diagonal_kernel keeping_left chain3
      = (Err PyTypeError, chain3))
  /\ (3 <= _nqudits chain3 ->
      sweep_cnots_right_to_left diagonal_kernel keeping_left chain3
      = (Err PyTypeError, chain3))
  /\ (_nqudits chain3 <= 2 ->
      sweep_cnots_right_to_left diagonal_kernel keeping_left chain3 = (Ok tt, chain3)).
Proof.
  split; [reflexivity|].
  exact (sweeps_reject_keep_left_canonical diagonal_kernel keeping_left true chain3
           eq_refl).
Defined.

Lemma merged_name_prefix_clash_witness :
  init 4 2 "t" = Ok chain4t
  /\ Names.contains "t" "new_mps_tensor" = true
  /\ 0 <= 0 /\ 0 + 4 <= 4
  /\ apply_two_qubit_gate diagonal_kernel Gates.cnot 0 1 no_kwargs chain4t
     <> (Ok tt, chain4t).
Proof.
  split; [exact chain4t_constructed|]. split; [reflexivity|].
  split; [lia|]. split; [lia|].
  apply (merged_name_prefix_clash diagonal_kernel 4 2 "t" Gates.cnot no_kwargs 0 1
           chain4t chain4t chain4t_constructed); [reflexivity|lia|lia].
Defined.

Lemma constructor_establishes_invariants_witness :
  2 <= 3 /\ 2 <= 2
  /\ exists s,
       init 3 2 "q" = Ok s
       /\ bounded_chain s (fresh_bids (Z.to_nat 3)) (fresh_bdims (Z.to_nat 3))
       /\ Z.of_nat (length (_nodes s)) = 3
       /\ _infidelities s = [] /\ _fidelities s = []
       /\ forall k, (k < length (_nodes s))%nat ->
            exists nd, nth_error (_nodes s) k = Some nd
                       /\ name nd = String.append "q" (Names.str k)
                       /\ physical_dimension nd = Z.to_nat 2
                       /\ rank nd = (if (k =? 0)%nat || (k =? length (_nodes s) - 1)%nat
                                     then 2 else 3)%nat.
Proof.
  split; [lia|]. split; [lia|].
  apply (constructor_establishes_invariants 3 2 "q"); lia.
Defined.

Lemma near_cnot_applied :
  apply_all_mps_operations diagonal_kernel [near_cnot] no_kwargs chain2
  = (Ok tt, after_cnot).
Proof.
  unfold apply_all_mps_operations, for_each, apply_mps_operation.
  unfold bind at 1. unfold bind at 1, get at 1.
  change (op_is_valid (_nqudits chain2) near_cnot) with true.
  change (is_single_qudit_operation near_cnot) with false.
  change (is_two_qudit_operation near_cnot) with true.
  cbn [negb qudit_indices near_cnot op_node].
  rewrite cnot_applied. reflexivity.
Qed.

Lemma operations_keep_invariants_witness :
  bounded_chain chain2 [1%nat] [1%nat]
  /\ (forall op, In op [near_cnot] -> op_arity op = 2%nat ->
        dim_at (op_node op) 2 = Z.to_nat (_qudit_dimension chain2)
        /\ dim_at (op_node op) 3 = Z.to_nat (_qudit_dimension chain2))
  /\ apply_all_mps_operations diagonal_kernel [near_cnot] no_kwargs chain2
     = (Ok tt, after_cnot)
  /\ (exists bids' bdims', bounded_chain after_cnot bids' bdims')
  /\ is_valid after_cnot = true
  /\ forall k, 0 <= k < _nqudits after_cnot - 1 ->
       exists D c, get_bond_dimension_of k after_cnot = Ok D
                   /\ get_max_bond_dimension_of k after_cnot = Ok c
                   /\ Z.of_nat D <= c.
Proof.
  assert (H : forall op, In op [near_cnot] -> op_arity op = 2%nat ->
                dim_at (op_node op) 2 = Z.to_nat (_qudit_dimension chain2)
                /\ dim_at (op_node op) 3 = Z.to_nat (_qudit_dimension chain2)).
  { intros op [<-|[]] _. split; reflexivity. }
  split; [exact chain2_bounded|]. split; [exact H|].
  split; [exact near_cnot_applied|].
  exact (operations_keep_invariants diagonal_kernel [near_cnot] no_kwargs chain2
           after_cnot [1%nat] [1%nat] chain2_bounded H near_cnot_applied).
Defined.

Lemma swap3_norm :
  norm (snd (two_qubit_gate_update diagonal_kernel Gates.swap 0 (0 + 1) no_kwargs chain3))
  = Ok 1%R.
Proof. norm_is_one. Qed.

Lemma swaps_applied :
  swap_until_adjacent diagonal_kernel 0 2 no_kwargs chain3 = (Ok tt, after_swaps).
Proof.
  assert (H : swap_until_adjacent diagonal_kernel 0 2 no_kwargs chain3
              = (Ok tt,
                 snd (append_fidelity 1%R
                        (snd (two_qubit_gate_update diagonal_kernel Gates.swap 0 (0 + 1)
                                no_kwargs chain3))))).
  { unfold swap_until_adjacent.
    change (0 >=? 2) with false. cbv iota. unfold bind at 1, get at 1.
    change ((0 <? 0) || (2 >=? _nqudits chain3)) with false.
    change (0 =? 2 - 1) with false. cbv iota.
    change (Py.range2 0 (2 - 1)) with [0].
    cbn [for_each]. unfold bind at 1. unfold swap.
    rewrite (apply_two_qubit_gate_run diagonal_kernel Gates.swap 0 no_kwargs chain3 1%R
               eq_refl eq_refl eq_refl eq_refl eq_refl swap3_norm).
    reflexivity. }
  unfold after_swaps. now rewrite H.
Qed.

Lemma swap_until_adjacent_effect_witness :
  bounded_chain chain3 [1%nat; 2%nat] [1%nat; 1%nat]
  /\ _qudit_dimension chain3 = 2
  /\ swap_until_adjacent diagonal_kernel 0 2 no_kwargs chain3 = (Ok tt, after_swaps)
  /\ 0 <= 0 < 2 /\ 2 < _nqudits chain3
  /\ (exists bids' bdims', bounded_chain after_swaps bids' bdims')
  /\ length (_nodes after_swaps) = length (_nodes chain3)
  /\ length (_fidelities after_swaps)
     = (length (_fidelities chain3) + Z.to_nat (2 - 0 - 1))%nat
  /\ (forall k, Z.of_nat k < 0 \/ 2 <= Z.of_nat k ->
        nth_error (_nodes after_swaps) k = nth_error (_nodes chain3) k)
  /\ (2 = 0 + 1 -> after_swaps = chain3).
Proof.
  split; [exact chain3_bounded|]. split; [reflexivity|].
  split; [exact swaps_applied|].
  exact (swap_until_adjacent_effect diagonal_kernel chain3 after_swaps
           [1%nat; 2%nat] [1%nat; 1%nat] 0 2 no_kwargs chain3_bounded eq_refl
           swaps_applied).
Defined.

Lemma kept_cnot_norm :
  norm (snd (two_qubit_gate_update diagonal_kernel Gates.cnot 0 (0 + 1)
               keeping_left chain2))
  = Ok 1%R.
Proof. norm_is_one. Qed.

Lemma sweep_right_applied :
  sweep_cnots_left_to_right diagonal_kernel no_kwargs chain2
  = (Ok tt, after_sweep_right).
Proof.
  assert (H : sweep_cnots_left_to_right diagonal_kernel no_kwargs chain2
              = (Ok tt,
                 snd (append_fidelity 1%R
                        (snd (two_qubit_gate_update diagonal_kernel Gates.cnot 0 (0 + 1)
                                keeping_left chain2))))).
  { unfold sweep_cnots_left_to_right. unfold bind at 1, get at 1.
    change (Py.range3 0 (_nqudits chain2 - 1) 2) with [0].
    cbn [for_each]. unfold bind at 1.
    change (cnot_keeping diagonal_kernel true 0 (0 + 1) no_kwargs)
      with (apply_two_qubit_gate diagonal_kernel Gates.cnot 0 (0 + 1) keeping_left).
    rewrite (apply_two_qubit_gate_run diagonal_kernel Gates.cnot 0 keeping_left chain2
               1%R eq_refl eq_refl eq_refl eq_refl eq_refl kept_cnot_norm).
    reflexivity. }
  unfold after_sweep_right. now rewrite H.
Qed.

Lemma sweep_left_to_right_effect_witness :
  bounded_chain chain2 [1%nat] [1%nat]
  /\ _qudit_dimension chain2 = 2
  /\ sweep_cnots_left_to_right diagonal_kernel no_kwargs chain2
     = (Ok tt, after_sweep_right)
  /\ keep_left_canonical no_kwargs = None
  /\ (exists bids' bdims', bounded_chain after_sweep_right bids' bdims')
  /\ length (_fidelities after_sweep_right)
     = (length (_fidelities chain2) + Z.to_nat (_nqudits chain2 / 2))%nat
  /\ (Z.odd (_nqudits chain2) = true ->
      nth_error (_nodes after_sweep_right) (length (_nodes chain2) - 1)
      = nth_error (_nodes chain2) (length (_nodes chain2) - 1)).
Proof.
  split; [exact chain2_bounded|]. split; [reflexivity|].
  split; [exact sweep_right_applied|].
  exact (sweep_left_to_right_effect diagonal_kernel chain2 after_sweep_right
           [1%nat] [1%nat] no_kwargs chain2_bounded eq_refl sweep_right_applied).
Defined.

Lemma unkept_cnot_norm :
  norm (snd (two_qubit_gate_update unit_kernel Gates.cnot 0 (0 + 1)
               (mkKwargs (Some false) None None) chain3))
  = Ok 1%R.
Proof. norm_is_one. Qed.

Lemma sweep_left_applied :
  sweep_cnots_right_to_left unit_kernel no_kwargs chain3 = (Ok tt, after_sweep_left).
Proof.
  assert (H : sweep_cnots_right_to_left unit_kernel no_kwargs chain3
              = (Ok tt,
                 snd (append_fidelity 1%R
                        (snd (two_qubit_gate_update unit_kernel Gates.cnot 0 (0 + 1)
                                (mkKwargs (Some false) None None) chain3))))).
  { unfold sweep_cnots_right_to_left. unfold bind at 1, get at 1.
    change (Py.range3 (_nqudits chain3 - 2) 0 (-2)) with [1].
    cbn [for_each]. unfold bind at 1.
    change (cnot_keeping unit_kernel false (1 - 1) 1 no_kwargs)
      with (apply_two_qubit_gate unit_kernel Gates.cnot 0 (0 + 1)
              (mkKwargs (Some false) None None)).
    rewrite (apply_two_qubit_gate_run unit_kernel Gates.cnot 0
               (mkKwargs (Some false) None None) chain3
               1%R eq_refl eq_refl eq_refl eq_refl eq_refl unkept_cnot_norm).
    reflexivity. }
  unfold after_sweep_left. now rewrite H.
Qed.

Lemma sweep_right_to_left_effect_witness :
  bounded_chain chain3 [1%nat; 2%nat] [1%nat; 1%nat]
  /\ _qudit_dimension chain3 = 2
  /\ sweep_cnots_right_to_left unit_kernel no_kwargs chain3
     = (Ok tt, after_sweep_left)
  /\ (exists bids' bdims', bounded_chain after_sweep_left bids' bdims')
  /\ length (_fidelities after_sweep_left)
     = (length (_fidelities chain3) + Z.to_nat ((_nqudits chain3 - 1) / 2))%nat
  /\ nth_error (_nodes after_sweep_left) (length (_nodes chain3) - 1)
     = nth_error (_nodes chain3) (length (_nodes chain3) - 1)
  /\ (Z.even (_nqudits chain3) = true ->
      nth_error (_nodes after_sweep_left) 0 = nth_error (_nodes chain3) 0)
  /\ (_nqudits chain3 = 2 -> after_sweep_left = chain3).
Proof.
  split; [exact chain3_bounded|]. split; [reflexivity|].
  split; [exact sweep_left_applied|].
  exact (sweep_right_to_left_effect unit_kernel chain3 after_sweep_left
           [1%nat; 2%nat] [1%nat; 1%nat] no_kwargs chain3_bounded eq_refl
           sweep_left_applied).
Defined.

End CoverageInstances.
